(** * CR450 DataCheck: frame codec, frame-stream reader and channel aggregation

    A shallow embedding of [CR450DataCheck/DataCheck_V1.0.1.py].

    Conventions of the embedding.
    - A frame is a Python [bytes] object: a list of [Byte.byte]; [frame[i]] is
      the list lookup at [i], an [IndexError] when [i] is out of range.
    - Byte counts and byte offsets ([frame_offset], [time_offset],
      [frame_size], field positions) are natural numbers.  Python's
      wrap-around for negative indices is outside the model.
    - A Python number is an [int] (a [Z]) or a [float] (a binary64 value, the
      kernel's primitive float, whose [*], [<] and [==] are IEEE 754
      operations with round-to-nearest-even, as Python's are).
    - Exceptions are explicit: a computation returns [Ok v] or [Raise e].
    - The host's local time zone is a fixed offset [tz] (seconds east of UTC)
      with no daylight-saving rule; every definition that converts between
      wall-clock fields and epoch seconds takes it as its first argument. *)

From Stdlib Require Import ZArith List String Ascii Lia Bool Sorted.
From Stdlib Require Import Floats Uint63.
From stdpp Require Import base option list.

#[local] Set Warnings "-inexact-float".
#[local] Open Scope Z_scope.

(** ** Exceptions *)

Inductive exn : Type :=
| ValueError
| IndexError
| StructError
| TypeError.

Inductive result (A : Type) : Type :=
| Ok (a : A)
| Raise (e : exn).

Arguments Ok {A} a.
Arguments Raise {A} e.

Definition rbind {A B : Type} (m : result A) (k : A -> result B) : result B :=
  match m with
  | Ok a => k a
  | Raise e => Raise e
  end.

Notation "'do' x <- m ; k" := (rbind m (fun x => k))
  (at level 10, x name, m at level 100, k at level 200).

Definition is_ok {A : Type} (m : result A) : bool :=
  match m with Ok _ => true | Raise _ => false end.

(** ** Bytes and frames *)

Abbreviation frame := (list Byte.byte).

Definition byte_val (b : Byte.byte) : Z := Z.of_N (Byte.to_N b).

(** [frame[i]]: the byte at [i] as an int, [IndexError] out of range. *)
Definition getbyte (fr : frame) (i : nat) : result Z :=
  match fr !! i with
  | Some b => Ok (byte_val b)
  | None => Raise IndexError
  end.

(** [struct.unpack('>H', frame[i:i+2])[0]]: the slice is shorter than two
    bytes when the frame ends before [i+2], and [unpack] then raises
    [struct.error]. *)
Definition unpack_H (fr : frame) (i : nat) : result Z :=
  match fr !! i, fr !! S i with
  | Some hi, Some lo => Ok (256 * byte_val hi + byte_val lo)
  | _, _ => Raise StructError
  end.

(** ** Calendar arithmetic of Python's [datetime] *)

Definition is_leap (year : Z) : bool :=
  (year mod 4 =? 0) && (negb (year mod 100 =? 0) || (year mod 400 =? 0)).

Definition DAYS_IN_MONTH (month : Z) : Z :=
  match month with
  | 1 => 31 | 2 => 28 | 3 => 31 | 4 => 30 | 5 => 31 | 6 => 30
  | 7 => 31 | 8 => 31 | 9 => 30 | 10 => 31 | 11 => 30 | 12 => 31
  | _ => -1
  end.

Definition DAYS_BEFORE_MONTH (month : Z) : Z :=
  match month with
  | 1 => 0 | 2 => 31 | 3 => 59 | 4 => 90 | 5 => 120 | 6 => 151
  | 7 => 181 | 8 => 212 | 9 => 243 | 10 => 273 | 11 => 304 | 12 => 334
  | _ => -1
  end.

Definition days_before_year (year : Z) : Z :=
  let y := year - 1 in y * 365 + y / 4 - y / 100 + y / 400.

Definition days_in_month (year month : Z) : Z :=
  if (month =? 2) && is_leap year then 29 else DAYS_IN_MONTH month.

Definition days_before_month (year month : Z) : Z :=
  DAYS_BEFORE_MONTH month + (if (2 <? month) && is_leap year then 1 else 0).

Definition ymd2ord (year month day : Z) : Z :=
  days_before_year year + days_before_month year month + day.

(** The checks of the [datetime(year, month, day, hour, minute, second)]
    constructor; it raises [ValueError] when one fails. *)
Definition valid_datetime (year month day hour minute second : Z) : bool :=
  (1 <=? year) && (year <=? 9999) &&
  (1 <=? month) && (month <=? 12) &&
  (1 <=? day) && (day <=? days_in_month year month) &&
  (0 <=? hour) && (hour <=? 23) &&
  (0 <=? minute) && (minute <=? 59) &&
  (0 <=? second) && (second <=? 59).

(** Ordinal of 1970-01-01. *)
Definition EPOCH_ORDINAL : Z := 719163.

(** [int(datetime(y, m, d, hh, mm, ss).timestamp())] for a naive datetime in
    a zone [tz] seconds east of UTC. *)
Definition timestamp_of (tz year month day hour minute second : Z) : Z :=
  (ymd2ord year month day - EPOCH_ORDINAL) * 86400
  + hour * 3600 + minute * 60 + second - tz.

(** [_ord2ymd]: the inverse of [ymd2ord]. *)
Definition ord2ymd (ordinal : Z) : Z * Z * Z :=
  let n := ordinal - 1 in
  let n400 := n / 146097 in
  let n := n mod 146097 in
  let year := n400 * 400 + 1 in
  let n100 := n / 36524 in
  let n := n mod 36524 in
  let n4 := n / 1461 in
  let n := n mod 1461 in
  let n1 := n / 365 in
  let n := n mod 365 in
  let year := year + n100 * 100 + n4 * 4 + n1 in
  if (n1 =? 4) || (n100 =? 4) then (year - 1, 12, 31)
  else
    let leapyear := (n1 =? 3) && (negb (n4 =? 24) || (n100 =? 3)) in
    let month := Z.shiftr (n + 50) 5 in
    let preceding :=
      DAYS_BEFORE_MONTH month + (if (2 <? month) && leapyear then 1 else 0) in
    if n <? preceding then
      let month := month - 1 in
      let preceding :=
        preceding
        - (DAYS_IN_MONTH month + (if (month =? 2) && leapyear then 1 else 0)) in
      (year, month, n - preceding + 1)
    else (year, month, n - preceding + 1).

(** The fields of [datetime.fromtimestamp(t)] in the zone [tz]. *)
Record datetime : Type := mk_datetime
  { dt_year : Z; dt_month : Z; dt_day : Z;
    dt_hour : Z; dt_minute : Z; dt_second : Z }.

Definition fromtimestamp (tz t : Z) : datetime :=
  let local := t + tz in
  let days := local / 86400 in
  let secs := local mod 86400 in
  let '(y, m, d) := ord2ymd (days + EPOCH_ORDINAL) in
  mk_datetime y m d (secs / 3600) ((secs mod 3600) / 60) (secs mod 60).

(** Decimal digits, zero padded to [width] characters (as [%02d], [%04d]). *)
Definition digit_char (d : Z) : ascii := ascii_of_nat (48 + Z.to_nat d).

Fixpoint zpad (width : nat) (n : Z) (acc : string) : string :=
  match width with
  | O => acc
  | S w => zpad w (n / 10) (String (digit_char (n mod 10)) acc)
  end.

(** [dt.strftime("%Y-%m-%d %H:%M:%S")]. *)
Definition strftime (dt : datetime) : string :=
  zpad 4 (dt_year dt)
    (String "-" (zpad 2 (dt_month dt)
      (String "-" (zpad 2 (dt_day dt)
        (String " " (zpad 2 (dt_hour dt)
          (String ":" (zpad 2 (dt_minute dt)
            (String ":" (zpad 2 (dt_second dt) EmptyString)))))))))).

(** ** Frame codec: [extract_frame_time] (lines 21-53) *)

Definition extract_frame_time (tz : Z) (fr : frame) (time_offset : nat)
  : result Z :=
  if (length fr <? 255)%nat then Raise ValueError
  else
    match
      (do year_byte <- getbyte fr time_offset;
       do month_byte <- getbyte fr (time_offset + 1);
       do day_byte <- getbyte fr (time_offset + 2);
       do hour_byte <- getbyte fr (time_offset + 3);
       do minute_byte <- getbyte fr (time_offset + 4);
       do second_byte <- getbyte fr (time_offset + 5);
       Ok (year_byte, month_byte, day_byte, hour_byte, minute_byte, second_byte))
    with
    | Raise _ => Raise ValueError
    | Ok (year_byte, month_byte, day_byte, hour_byte, minute_byte, second_byte) =>
        let year := 2000 + year_byte in
        let month := month_byte in
        let day := day_byte in
        let hour := hour_byte in
        let minute := minute_byte in
        let second := second_byte in
        if valid_datetime year month day hour minute second
        then Ok (timestamp_of tz year month day hour minute second)
        else Raise ValueError
    end.

(** ** Python numbers and values *)

Inductive num : Type :=
| NInt (n : Z)
| NFloat (x : float).

(** A slot of a summary vector: a number, or a formatted timestamp. *)
Inductive value : Type :=
| VNum (a : num)
| VStr (s : string).

(** [float(n)] for the ints of this program (bytes, 16-bit fields and small
    literals), all exactly representable. *)
Definition of_int (n : Z) : float := PrimFloat.of_uint63 (Uint63.of_Z n).

Definition to_float (a : num) : float :=
  match a with
  | NInt n => of_int n
  | NFloat x => x
  end.

(** [a > b] and [a == b] on numbers.  Python compares an int with a float by
    value; the ints that occur are exact as floats. *)
Definition num_gt (a b : num) : bool :=
  match a, b with
  | NInt x, NInt y => y <? x
  | _, _ => PrimFloat.ltb (to_float b) (to_float a)
  end.

Definition num_eq (a b : num) : bool :=
  match a, b with
  | NInt x, NInt y => x =? y
  | _, _ => PrimFloat.eqb (to_float a) (to_float b)
  end.

Definition num_lt (a b : num) : bool := num_gt b a.

(** [a > b] on slot values: ordering a [str] against a number is a
    [TypeError]. *)
Definition vgt (a b : value) : result bool :=
  match a, b with
  | VNum x, VNum y => Ok (num_gt x y)
  | VStr x, VStr y => Ok (String.ltb y x)
  | _, _ => Raise TypeError
  end.

Definition veq (a b : value) : bool :=
  match a, b with
  | VNum x, VNum y => num_eq x y
  | VStr x, VStr y => String.eqb x y
  | _, _ => false
  end.

(** [n * scale] with an int [n] and a float literal [scale]. *)
Definition scaled (n : Z) (scale : float) : num :=
  NFloat (PrimFloat.mul (of_int n) scale).

(** Nearest integer to [n / 2 ^ k] ([0 < k]), ties to even. *)
Definition round_half_even (n k : Z) : Z :=
  let q := Z.shiftr n k in
  let r := Z.land n (Z.ones k) in
  let half := Z.shiftl 1 (k - 1) in
  if r <? half then q
  else if half <? r then q + 1
  else if Z.even q then q else q + 1.

(** [round(x, 3)] on a float: the exact value of [x], [m * 2 ^ e], is
    rounded to three decimals (ties to even) and the decimal is read back as
    the nearest float, which the correctly rounded quotient by [1000] is. *)
Definition round3 (x : float) : float :=
  match Prim2SF x with
  | S754_finite s m e =>
      let n := Z.pos m * 1000 in
      let k := if 0 <=? e then n * 2 ^ e else round_half_even n (- e) in
      let r := PrimFloat.div (of_int k) 1000 in
      if s then PrimFloat.opp r else r
  | _ => x
  end.

(** ** Fields of a frame *)

Inductive field : Type :=
| U8 (i : nat)                    (* frame[i] *)
| U8s (i : nat) (scale : float)   (* frame[i] * scale *)
| U16s (i : nat) (scale : float)  (* struct.unpack('>H', frame[i:i+2])[0] * scale *)
| U16r (i : nat) (scale : float). (* round(struct.unpack('>H', frame[i:i+2])[0] * scale, 3) *)

Definition decode (fd : field) (fr : frame) : result num :=
  match fd with
  | U8 i => do b <- getbyte fr i; Ok (NInt b)
  | U8s i scale => do b <- getbyte fr i; Ok (scaled b scale)
  | U16s i scale => do w <- unpack_H fr i; Ok (scaled w scale)
  | U16r i scale =>
      do w <- unpack_H fr i;
      Ok (NFloat (round3 (PrimFloat.mul (of_int w) scale)))
  end.

(** ** The summary vector under construction *)

(** [res[k]] and [res[k] = v] on a Python list. *)
Definition getitem (res : list value) (k : nat) : result value :=
  match res !! k with
  | Some v => Ok v
  | None => Raise IndexError
  end.

Definition setitem (res : list value) (k : nat) (v : value)
  : result (list value) :=
  if (k <? length res)%nat then Ok (<[k := v]> res) else Raise IndexError.

(** ** Statement blocks of the aggregation loops

    The four [*_data_judge] functions repeat a handful of statement shapes,
    once per channel.  Each shape is a constructor; a profile is the list of
    its blocks in source order.  In [WNDS_data_judge] and [BIDS_data_judge]
    the accumulators are local variables that are returned as the list
    [variables]; a variable is identified with its position in that list. *)

Inductive test : Type :=
| Bit (i : nat) (mask : Z)   (* frame[i] & mask *)
| NonZero (i : nat).         (* frame[i], frame[i] != 0 *)

Inductive block : Type :=
| BMax (slot : nat)
| BEvent (tests : list test) (slot : nat)
| BRange (first count : nat) (slot : nat)
| BMws (cmp store : field) (slot : nat)
| BMaf (amp fre : field) (slot : nat).

Definition eval_test (fr : frame) (t : test) : result bool :=
  match t with
  | Bit i mask => do b <- getbyte fr i; Ok (negb (Z.land b mask =? 0))
  | NonZero i => do b <- getbyte fr i; Ok (negb (b =? 0))
  end.

(** [t1 or t2 or ...]: left to right, stopping at the first true operand. *)
Fixpoint any_test (fr : frame) (tests : list test) : result bool :=
  match tests with
  | [] => Ok false
  | t :: rest =>
      do c <- eval_test fr t;
      if c then Ok true else any_test fr rest
  end.

(** [frame[i] * 0.1 < 8 or frame[i] * 0.1 > 14]. *)
Definition out_of_range (fr : frame) (i : nat) : result bool :=
  do b <- getbyte fr i;
  Ok (num_lt (scaled b 0.1) (NInt 8) || num_gt (scaled b 0.1) (NInt 14)).

(** [for i in range(count): if out_of_range(frame[first + i]): res[slot] = formatted_time]. *)
Fixpoint range_loop (fr : frame) (formatted_time : string) (slot : nat)
    (first : nat) (count : nat) (res : list value) : result (list value) :=
  match count with
  | O => Ok res
  | S count' =>
      do c <- out_of_range fr first;
      do res' <- (if c then setitem res slot (VStr formatted_time) else Ok res);
      range_loop fr formatted_time slot (S first) count' res'
  end.

Definition exec_block (speed : num) (formatted_time : string) (fr : frame)
    (b : block) (res : list value) : result (list value) :=
  match b with
  | BMax slot =>
      (* if (speed > speed_max): speed_max = speed *)
      do cur <- getitem res slot;
      do g <- vgt (VNum speed) cur;
      if g then setitem res slot (VNum speed) else Ok res
  | BEvent tests slot =>
      (* if cond: x = formatted_time *)
      do c <- any_test fr tests;
      if c then setitem res slot (VStr formatted_time) else Ok res
  | BRange first count slot =>
      range_loop fr formatted_time slot first count res
  | BMws cmp store slot =>
      (* if v > v_max: v_max = v'; v_speed = speed
         elif v == v_max: if speed > v_speed: v_speed = speed *)
      do v <- decode cmp fr;
      do cur <- getitem res slot;
      do g <- vgt (VNum v) cur;
      if g then
        do v' <- decode store fr;
        do res1 <- setitem res slot (VNum v');
        setitem res1 (slot + 1) (VNum speed)
      else if veq (VNum v) cur then
        do cs <- getitem res (slot + 1);
        do g' <- vgt (VNum speed) cs;
        if g' then setitem res (slot + 1) (VNum speed) else Ok res
      else Ok res
  | BMaf amp fre slot =>
      (* if a > a_max: a_max = a; f_max = f; a_speed = speed
         elif a == a_max:
           if f > f_max: f_max = f; a_speed = speed
           elif f == f_max: if speed > a_speed: a_speed = speed *)
      do a <- decode amp fr;
      do f <- decode fre fr;
      do cur <- getitem res slot;
      do g <- vgt (VNum a) cur;
      if g then
        do res1 <- setitem res slot (VNum a);
        do res2 <- setitem res1 (slot + 1) (VNum f);
        setitem res2 (slot + 2) (VNum speed)
      else if veq (VNum a) cur then
        do curf <- getitem res (slot + 1);
        do gf <- vgt (VNum f) curf;
        if gf then
          do res1 <- setitem res (slot + 1) (VNum f);
          setitem res1 (slot + 2) (VNum speed)
        else if veq (VNum f) curf then
          do cs <- getitem res (slot + 2);
          do g' <- vgt (VNum speed) cs;
          if g' then setitem res (slot + 2) (VNum speed) else Ok res
        else Ok res
      else Ok res
  end.

Fixpoint run_blocks (speed : num) (formatted_time : string) (fr : frame)
    (blocks : list block) (res : list value) : result (list value) :=
  match blocks with
  | [] => Ok res
  | b :: rest =>
      do res' <- exec_block speed formatted_time fr b res;
      run_blocks speed formatted_time fr rest res'
  end.

(** A profile: the length of its summary vector, how it reads the speed, and
    its blocks. *)
Record profile : Type := mk_profile
  { p_size : nat;
    p_speed : field;
    p_blocks : list block }.

(** The body of [for frame in framelist:]. *)
Definition judge_frame (tz : Z) (p : profile) (time_offset : nat)
    (res : list value) (fr : frame) : result (list value) :=
  do datetime_obj <- extract_frame_time tz fr time_offset;
  let dt := fromtimestamp tz datetime_obj in
  let formatted_time := strftime dt in
  do speed <- decode (p_speed p) fr;
  run_blocks speed formatted_time fr (p_blocks p) res.

Fixpoint judge_loop (tz : Z) (p : profile) (time_offset : nat)
    (framelist : list frame) (res : list value) : result (list value) :=
  match framelist with
  | [] => Ok res
  | fr :: rest =>
      do res' <- judge_frame tz p time_offset res fr;
      judge_loop tz p time_offset rest res'
  end.

Definition data_judge (tz : Z) (p : profile) (framelist : list frame)
    (time_offset : nat) : result (list value) :=
  judge_loop tz p time_offset framelist (replicate (p_size p) (VNum (NInt 0))).

(** ** The four profiles *)

Definition BIT0_MASK : Z := 1.
Definition BIT1_MASK : Z := 2.
Definition BIT2_MASK : Z := 4.
Definition BIT3_MASK : Z := 8.
Definition BIT4_MASK : Z := 16.
Definition BIT5_MASK : Z := 32.
Definition BIT6_MASK : Z := 64.
Definition BIT7_MASK : Z := 128.

(** A channel whose compared value and stored value are the same field. *)
Definition mws (fd : field) (slot : nat) : block := BMws fd fd slot.

(** [WNDS_data_judge], lines 329-506; slots as in [variables], lines 508-562. *)
Definition WNDS_blocks : list block :=
  [ BMax 0;                                             (* speed_max *)
    BEvent [Bit 87 BIT4_MASK; Bit 87 BIT5_MASK] 1;      (* sharedata_comm *)
    BEvent [Bit 90 BIT0_MASK; Bit 90 BIT1_MASK] 2;      (* sensor_check *)
    BEvent [Bit 90 BIT2_MASK; Bit 90 BIT3_MASK] 3;      (* sensor_realtime *)
    BEvent [Bit 88 BIT0_MASK] 4;                        (* stable_HX_warn *)
    BEvent [Bit 88 BIT4_MASK] 5;                        (* stable_HX_alarm *)
    BEvent [Bit 88 BIT1_MASK] 6;                        (* stable_CX_warn *)
    BEvent [Bit 88 BIT5_MASK] 7;                        (* stable_CX_alarm *)
    BEvent [Bit 89 BIT1_MASK] 8;                        (* douche_warn *)
    BEvent [Bit 89 BIT5_MASK] 9;                        (* douche_alarm *)
    BEvent [Bit 89 BIT0_MASK] 10;                       (* shake_warn *)
    BEvent [Bit 89 BIT4_MASK] 11;                       (* shake_alarm *)
    mws (U16s 105 0.01) 12;                             (* stable_1HX *)
    mws (U16s 107 0.01) 14;                             (* stable_2HX *)
    mws (U16s 109 0.01) 16;                             (* stable_1CX *)
    mws (U16s 111 0.01) 18;                             (* stable_2CX *)
    mws (U8s 93 0.001) 20;                              (* peak_0p2_3_1HX *)
    mws (U8s 94 0.001) 22;                              (* peak_0p2_3_2HX *)
    mws (U8s 95 0.001) 24;                              (* rms_5_13_1HX *)
    mws (U8s 96 0.001) 26;                              (* rms_5_13_2HX *)
    mws (U8s 97 0.001) 28;                              (* rms_5_13_1CX *)
    mws (U8s 98 0.001) 30;                              (* rms_5_13_2CX *)
    BMaf (U8s 99 0.001) (U16s 101 0.1) 32;              (* main_fre_amp_1CX *)
    BMaf (U8s 100 0.001) (U16s 103 0.1) 35;             (* main_fre_amp_2CX *)
    mws (U16s 117 0.001) 38;                            (* acc_max_1HX *)
    mws (U16s 119 0.001) 40;                            (* acc_max_2HX *)
    mws (U16s 129 0.001) 42;                            (* acc_valid_1HX *)
    mws (U16s 131 0.001) 44;                            (* acc_valid_2HX *)
    mws (U16s 121 0.001) 46;                            (* acc_max_1CX *)
    mws (U16s 123 0.001) 48;                            (* acc_max_2CX *)
    mws (U16s 133 0.001) 50;                            (* acc_valid_1CX *)
    mws (U16s 135 0.001) 52 ]%nat.                      (* acc_valid_2CX *)

Definition WNDS : profile := mk_profile 54 (U16s 78 0.01) WNDS_blocks.

(** [BIDS_data_judge], lines 645-827; slots as in [variables], lines 829-884. *)
Definition BIDS_blocks : list block :=
  [ BMax 0;                                             (* speed_max *)
    BEvent [Bit 87 BIT4_MASK; Bit 87 BIT5_MASK] 1;      (* sharedata_comm *)
    BEvent [Bit 89 15] 2;                               (* sensor_check, 0b00001111 *)
    BEvent [Bit 89 240] 3;                              (* sensor_realtime, 0b11110000 *)
    BEvent [Bit 90 15] 4;                               (* offset_fault *)
    BEvent [Bit 91 15] 5;                               (* bogie_warn *)
    BEvent [Bit 91 240] 6;                              (* bogie_alarm *)
    mws (U16s 92 0.001) 7;                              (* min_1HX *)
    mws (U16s 94 0.001) 9;                              (* min_2HX *)
    mws (U16s 96 0.001) 11;                             (* min_3HX *)
    mws (U16s 98 0.001) 13;                             (* min_4HX *)
    mws (U16s 100 0.001) 15;                            (* mean_1HX *)
    mws (U16s 102 0.001) 17;                            (* mean_2HX *)
    mws (U16s 104 0.001) 19;                            (* mean_3HX *)
    mws (U16s 106 0.001) 21;                            (* mean_4HX *)
    mws (U16s 108 0.001) 23;                            (* max_1HX *)
    mws (U16s 110 0.001) 25;                            (* max_2HX *)
    mws (U16s 112 0.001) 27;                            (* max_3HX *)
    mws (U16s 114 0.001) 29;                            (* max_4HX *)
    mws (U16s 116 0.001) 31;                            (* rms_1HX *)
    mws (U16s 118 0.001) 33;                            (* rms_2HX *)
    mws (U16s 120 0.001) 35;                            (* rms_3HX *)
    mws (U16s 122 0.001) 37;                            (* rms_4HX *)
    mws (U16s 124 0.001) 39;                            (* max_1CX *)
    mws (U16s 126 0.001) 41;                            (* max_2CX *)
    mws (U16s 128 0.001) 43;                            (* max_3CX *)
    mws (U16s 130 0.001) 45;                            (* max_4CX *)
    mws (U16s 132 0.001) 47;                            (* rms_1CX *)
    mws (U16s 134 0.001) 49;                            (* rms_2CX *)
    mws (U16s 136 0.001) 51;                            (* rms_3CX *)
    mws (U16s 138 0.001) 53 ]%nat.                      (* rms_4CX *)

Definition BIDS : profile := mk_profile 55 (U16s 78 0.01) BIDS_blocks.

(** The loops of [GVDS_data_judge], each [for i in range(4)]. *)

(** [if frame[b + i] > res[d + i * 2]: res[d + i * 2] = frame[b + i]; ...] *)
Definition gvds_byte_loop (byteoffset djoffset : nat) : list block :=
  map (fun i => BMws (U8 (byteoffset + i)) (U8 (byteoffset + i)) (djoffset + i * 2))
      (seq 0 4).

(** Lines 975-981 and 1010-1016:
    [if frame[b + i] > res[d + i * 2]: res[d + i * 2] = frame[b + i * 2]; ...] *)
Definition gvds_byte_loop_stride2 (byteoffset djoffset : nat) : list block :=
  map (fun i => BMws (U8 (byteoffset + i)) (U8 (byteoffset + i * 2)) (djoffset + i * 2))
      (seq 0 4).

(** [val = struct.unpack('>H', frame[b + i * 2: b + i * 2 + 2])[0] * 0.1; ...] *)
Definition gvds_word_loop (byteoffset djoffset : nat) : list block :=
  map (fun i => mws (U16s (byteoffset + i * 2) 0.1) (djoffset + i * 2)) (seq 0 4).

(** [GVDS_data_judge], lines 903-1115. *)
Definition GVDS_blocks : list block :=
  ([ BMax 0;
     BEvent [Bit 87 48] 1;                              (* 0b00110000 *)
     BEvent [NonZero 88; NonZero 89] 2;
     BEvent [NonZero 218; NonZero 221; NonZero 232; NonZero 233; NonZero 234;
             NonZero 235; NonZero 238; NonZero 247; NonZero 248; NonZero 249;
             NonZero 250; NonZero 253] 3;
     BEvent [NonZero 219; NonZero 222; NonZero 224; NonZero 225; NonZero 226;
             NonZero 227; NonZero 236; NonZero 239; NonZero 240; NonZero 241;
             NonZero 242; NonZero 251] 4;
     BEvent [NonZero 220; NonZero 223; NonZero 228; NonZero 229; NonZero 230;
             NonZero 231; NonZero 237; NonZero 243; NonZero 244; NonZero 245;
             NonZero 246; NonZero 252] 5;
     BRange 286 16 6 ]
   ++ gvds_byte_loop 92 7
   ++ gvds_byte_loop 104 15
   ++ gvds_byte_loop 116 23
   ++ gvds_byte_loop 128 31
   ++ gvds_byte_loop 140 39
   ++ gvds_byte_loop 152 47
   ++ gvds_byte_loop 164 55
   ++ gvds_byte_loop_stride2 176 63
   ++ gvds_byte_loop 98 71
   ++ gvds_byte_loop 110 79
   ++ gvds_byte_loop 122 87
   ++ gvds_byte_loop 134 95
   ++ gvds_byte_loop_stride2 146 103
   ++ gvds_byte_loop 158 111
   ++ gvds_byte_loop 170 119
   ++ gvds_byte_loop 182 127
   ++ gvds_word_loop 186 135
   ++ gvds_word_loop 202 143
   ++ gvds_word_loop 194 151
   ++ gvds_word_loop 210 159
   ++ gvds_word_loop 254 167
   ++ gvds_word_loop 270 175
   ++ gvds_word_loop 262 183
   ++ gvds_word_loop 278 191)%nat.

Definition GVDS : profile := mk_profile 199 (U16s 78 0.01) GVDS_blocks.

(** The loops of [MVDS_data_judge]. *)

(** Lines 1153-1174: [for i in range(48)], skipping [i % 6 == 1]; groups of
    six bytes go alternately to the slots counted by [chuandong_cnt] and
    [nochuandong_cnt]. *)
Fixpoint mvds_byte_loop (indices : list nat)
    (chuandong_cnt nochuandong_cnt : nat) : list block :=
  match indices with
  | [] => []
  | i :: rest =>
      if (i mod 6 =? 1)%nat then
        mvds_byte_loop rest chuandong_cnt nochuandong_cnt
      else if ((i / 6) mod 2 =? 0)%nat then
        mws (U8 (89 + i)) chuandong_cnt
          :: mvds_byte_loop rest (chuandong_cnt + 2) nochuandong_cnt
      else
        mws (U8 (89 + i)) nochuandong_cnt
          :: mvds_byte_loop rest chuandong_cnt (nochuandong_cnt + 2)
  end%nat.

(** Lines 1175-1194 and 1196-1217: [for i in range(8)], the word at
    [first + i * 2], even [i] to [chuandong_cnt], odd [i] to
    [nochuandong_cnt]. *)
Fixpoint mvds_word_loop (first : nat) (indices : list nat)
    (chuandong_cnt nochuandong_cnt : nat) : list block :=
  match indices with
  | [] => []
  | i :: rest =>
      if (i mod 2 =? 0)%nat then
        mws (U16r (first + i * 2) 0.1) chuandong_cnt
          :: mvds_word_loop first rest (chuandong_cnt + 2) nochuandong_cnt
      else
        mws (U16r (first + i * 2) 0.1) nochuandong_cnt
          :: mvds_word_loop first rest chuandong_cnt (nochuandong_cnt + 2)
  end%nat.

(** [MVDS_data_judge], lines 1135-1217. *)
Definition MVDS_blocks : list block :=
  ([ BMax 0;
     BEvent [Bit 87 48] 1;                              (* 0b00110000 *)
     BEvent [NonZero 88] 2;
     BEvent [NonZero 137; NonZero 148; NonZero 149; NonZero 150; NonZero 151] 3;
     BEvent [NonZero 138; NonZero 140; NonZero 141; NonZero 142; NonZero 143] 4;
     BEvent [NonZero 139; NonZero 144; NonZero 145; NonZero 146; NonZero 147] 5;
     BRange 184 8 6 ]
   ++ mvds_byte_loop (seq 0 48) 7 47
   ++ mvds_word_loop 152 (seq 0 8) 87 95
   ++ mvds_word_loop 168 (seq 0 8) 103 111)%nat.

Definition MVDS : profile := mk_profile 119 (U16r 78 0.01) MVDS_blocks.

Definition WNDS_data_judge (tz : Z) (framelist : list frame) (time_offset : nat)
  : result (list value) := data_judge tz WNDS framelist time_offset.

Definition BIDS_data_judge (tz : Z) (framelist : list frame) (time_offset : nat)
  : result (list value) := data_judge tz BIDS framelist time_offset.

Definition GVDS_data_judge (tz : Z) (framelist : list frame) (time_offset : nat)
  : result (list value) := data_judge tz GVDS framelist time_offset.

Definition MVDS_data_judge (tz : Z) (framelist : list frame) (time_offset : nat)
  : result (list value) := data_judge tz MVDS framelist time_offset.

(** ** Building frames for examples *)

Definition byte_of (n : Z) : Byte.byte :=
  match Byte.of_N (Z.to_N n) with
  | Some b => b
  | None => Byte.x00
  end.

(** [fr] with the bytes [vals] written from position [i] on. *)
Fixpoint patch (fr : frame) (i : nat) (vals : list Z) : frame :=
  match vals with
  | [] => fr
  | v :: rest => patch (<[i := byte_of v]> fr) (S i) rest
  end.

Definition blank_frame (size : nat) : frame := replicate size Byte.x00.

(** ** Frame-stream reader: [read_binary_file] (lines 143-216)

    The file is its content [data]; the file object is the read position.
    [start_timestamp] and [end_timestamp] are the epoch seconds that lines
    153-154 parse from the two time strings.  The function returns [results];
    the error log it prints is returned beside it. *)

Inductive reason : Type :=
| FrameLength (got expected : nat)   (* "帧长度异常" *)
| TimeParse (e : exn)                (* "时间解析失败" *)
| NegativeTimestamp (t : Z)          (* "时间戳为负值" *)
| TimeOutOfRange (t : Z).            (* "时间超出合理范围" *)

Record error_entry : Type := mk_error
  { err_frame : nat;      (* frame_count *)
    err_offset : Z;       (* error_offset *)
    err_reason : reason }.

Section Reader.

Variable tz : Z.
Variables frame_offset time_offset : nat.
Variables start_timestamp end_timestamp : Z.
Variable frame_size : nat.

(** Lines 173-192, the [try] body after the read: [inl] is the exception
    raised, [inr keep] says whether the frame is appended to [results]. *)
Definition check_frame (frame_data : frame) : reason + bool :=
  if negb (length frame_data =? frame_size)%nat then
    inl (FrameLength (length frame_data) frame_size)
  else
    match extract_frame_time tz frame_data time_offset with
    | Raise e => inl (TimeParse e)
    | Ok timestamp =>
        let local_time := fromtimestamp tz timestamp in
        if timestamp <? 0 then inl (NegativeTimestamp timestamp)
        else if (dt_year local_time <? 2000) || (2100 <? dt_year local_time)
        then inl (TimeOutOfRange timestamp)
        else inr ((start_timestamp <=? timestamp) && (timestamp <=? end_timestamp))
    end.

(** [while True:], one iteration per unit of [fuel]; [None] when the fuel
    runs out before the loop breaks. *)
Fixpoint read_loop (data : list Byte.byte) (fuel : nat) (pos : nat)
    (frame_count : nat) (results : list frame) (error_log : list error_entry)
  : option (list frame * list error_entry) :=
  match fuel with
  | O => None
  | S fuel' =>
      let frame_start := pos in
      let frame_data := take frame_size (drop pos data) in
      match frame_data with
      | [] => Some (results, error_log)
      | _ :: _ =>
          match check_frame frame_data with
          | inr keep =>
              read_loop data fuel' (pos + length frame_data) (S frame_count)
                (if keep then results ++ [frame_data] else results) error_log
          | inl why =>
              let error_offset := Z.of_nat frame_start - 16 in
              read_loop data fuel' (frame_start + frame_size) frame_count
                results (error_log ++ [mk_error frame_count error_offset why])
          end
      end
  end.

Definition read_binary_file (data : list Byte.byte)
  : option (list frame * list error_entry) :=
  read_loop data (S (length data)) frame_offset 0 [] [].

(** The slots the scan visits from [pos] on: start position and bytes read. *)
Fixpoint slots (data : list Byte.byte) (fuel : nat) (pos : nat)
  : list (nat * frame) :=
  match fuel with
  | O => []
  | S fuel' =>
      match take frame_size (drop pos data) with
      | [] => []
      | (_ :: _) as frame_data =>
          (pos, frame_data) :: slots data fuel' (pos + frame_size)
      end
  end.

Definition all_slots (data : list Byte.byte) : list (nat * frame) :=
  slots data (S (length data)) frame_offset.

(** A frame the reader appends to [results]. *)
Definition emitted (frame_data : frame) : bool :=
  match check_frame frame_data with
  | inr true => true
  | _ => false
  end.

Definition failed (frame_data : frame) : bool :=
  match check_frame frame_data with
  | inl _ => true
  | inr _ => false
  end.

(** What a scan of the slots [sl] should leave in [results] and in the
    error log, stated on the list of slots: the emitted frames in order, and
    one entry per failed slot, numbered by the count of slots that passed
    before it, starting from [frame_count]. *)
Definition kept (sl : list (nat * frame)) : list frame :=
  map snd (List.filter (fun s => emitted (snd s)) sl).

Fixpoint errors_from (frame_count : nat) (sl : list (nat * frame))
  : list error_entry :=
  match sl with
  | [] => []
  | (pos, frame_data) :: rest =>
      match check_frame frame_data with
      | inl why =>
          mk_error frame_count (Z.of_nat pos - 16) why
            :: errors_from frame_count rest
      | inr _ => errors_from (S frame_count) rest
      end
  end.

(** The slots of a stream made of the whole frames [frames], the first one
    starting at [pos]. *)
Fixpoint place (pos : nat) (frames : list frame) : list (nat * frame) :=
  match frames with
  | [] => []
  | fd :: rest => (pos, fd) :: place (pos + frame_size) rest
  end.

(** The error log as the specification words it: one [(frame_index,
    byte_offset)] per failed slot, the index counting every slot consumed
    so far, corrupted ones included, and the offset being the slot's start
    position in the source. *)
Definition claimed_log (sl : list (nat * frame)) : list (nat * Z) :=
  map (fun ks => (fst ks, Z.of_nat (fst (snd ks))))
      (List.filter (fun ks => failed (snd (snd ks)))
                   (combine (seq 0 (length sl)) sl)).

End Reader.

(** Frames for examples: 255 bytes, the timestamp field at offset 23. *)
Definition frame_at (year_byte month day hour minute second : Z) : frame :=
  patch (blank_frame 255) 23 [year_byte; month; day; hour; minute; second].

Definition file_header : list Byte.byte := replicate 16 Byte.x00.

(** ** One data file of [DataCheck.data_process] (lines 1259-1279) *)

Inductive outcome : Type :=
| EmptyResultSet
    (* "所给时间段的数据为空": logged, then [continue] *)
| Judged (p : profile) (frame_data : list frame) (result : result (list value))
    (* the data-judge function of [p] was called on [frame_data] *)
| UnknownObject.
    (* [obj1] names no profile: [continue] *)

Definition profile_of (obj1 : string) : option profile :=
  if String.eqb obj1 "WNDS" then Some WNDS
  else if String.eqb obj1 "BIDS" then Some BIDS
  else if String.eqb obj1 "GVDS" then Some GVDS
  else if String.eqb obj1 "MVDS" then Some MVDS
  else None.

Definition data_process (tz : Z) (obj1 : string)
    (frameoffset timeoffset : nat) (starttime endtime : Z) (framesize : nat)
    (data : list Byte.byte) : option outcome :=
  match read_binary_file tz frameoffset timeoffset starttime endtime framesize data with
  | None => None
  | Some (frame_data, _) =>
      match frame_data with
      | [] => Some EmptyResultSet
      | _ :: _ =>
          match profile_of obj1 with
          | Some p => Some (Judged p frame_data (data_judge tz p frame_data timeoffset))
          | None => Some UnknownObject
          end
      end
  end.

(** ** Specification-level readings of a frame's timestamp field

    Written from the specification's words, to be compared with
    [extract_frame_time]: the six consecutive bytes at [time_offset]. *)

Definition time_bytes (fr : frame) (time_offset : nat) : list Z :=
  map byte_val (take 6 (drop time_offset fr)).

Definition calendar_valid (fr : frame) (time_offset : nat) : bool :=
  match time_bytes fr time_offset with
  | [byte0; byte1; byte2; byte3; byte4; byte5] =>
      valid_datetime (2000 + byte0) byte1 byte2 byte3 byte4 byte5
  | _ => false
  end.

Definition wall_clock_epoch (tz : Z) (fr : frame) (time_offset : nat) : Z :=
  match time_bytes fr time_offset with
  | [byte0; byte1; byte2; byte3; byte4; byte5] =>
      timestamp_of tz (2000 + byte0) byte1 byte2 byte3 byte4 byte5
  | _ => 0
  end.

(** ** Channels: slots, observations and reducers *)

(** The slots a block reads and writes. *)
Definition block_slots (b : block) : list nat :=
  match b with
  | BMax slot => [slot]
  | BEvent _ slot => [slot]
  | BRange _ _ slot => [slot]
  | BMws _ _ slot => [slot; (slot + 1)%nat]
  | BMaf _ _ slot => [slot; (slot + 1)%nat; (slot + 2)%nat]
  end.

(** One past the last frame index a block may read. *)
Definition field_reach (fd : field) : nat :=
  match fd with
  | U8 i | U8s i _ => S i
  | U16s i _ | U16r i _ => S (S i)
  end.

Definition test_reach (t : test) : nat :=
  match t with
  | Bit i _ | NonZero i => S i
  end.

Definition block_reach (b : block) : nat :=
  match b with
  | BMax _ => 0
  | BEvent tests _ => foldr Nat.max 0%nat (map test_reach tests)
  | BRange first count _ => (first + count)%nat
  | BMws cmp store _ => Nat.max (field_reach cmp) (field_reach store)
  | BMaf amp fre _ => Nat.max (field_reach amp) (field_reach fre)
  end.

Definition profile_reach (p : profile) : nat :=
  Nat.max (field_reach (p_speed p))
          (foldr Nat.max 0%nat (map block_reach (p_blocks p))).

(** A frame a data-judge function can process: long enough for the
    profile's field accesses, with a timestamp that decodes. *)
Definition frame_ok (tz : Z) (p : profile) (time_offset : nat) (fr : frame)
  : Prop :=
  (profile_reach p <= length fr)%nat /\
  is_ok (extract_frame_time tz fr time_offset) = true.

(** The decoded value of a field, the formatted timestamp and the speed of a
    frame, for frames on which the reads succeed. *)
Definition val (fd : field) (fr : frame) : num :=
  match decode fd fr with
  | Ok v => v
  | Raise _ => NInt 0
  end.

Definition frame_time (tz : Z) (time_offset : nat) (fr : frame) : string :=
  match extract_frame_time tz fr time_offset with
  | Ok t => strftime (fromtimestamp tz t)
  | Raise _ => EmptyString
  end.

Definition frame_speed (p : profile) (fr : frame) : num := val (p_speed p) fr.

(** What one frame does to a [BMws] channel's pair of slots: [v] is the
    compared value, [v'] the value stored when [v] is larger. *)
Definition mws_step (v v' speed : num) (acc : num * num) : num * num :=
  let '(best_value, assoc_speed) := acc in
  if num_gt v best_value then (v', speed)
  else if num_eq v best_value then
    (if num_gt speed assoc_speed then (best_value, speed) else acc)
  else acc.

(** The reducers in the specification's words. *)

(** [MaxWithSpeedTiebreak]: "If value > best_value: replace both.  Else if
    value == best_value and speed > assoc_speed: update assoc_speed only.
    Strictly-less values never affect state." *)
Definition MaxWithSpeedTiebreak (acc : num * num) (obs : num * num)
  : num * num :=
  let '(best_value, assoc_speed) := acc in
  let '(value, speed) := obs in
  if num_gt value best_value then (value, speed)
  else if num_eq value best_value && num_gt speed assoc_speed
       then (best_value, speed)
       else (best_value, assoc_speed).

(** [MaxAmplitudeFrequencySpeed]: "On amplitude > best_amplitude: replace all
    three.  On equal amplitude and frequency > best_frequency: replace
    frequency and speed.  On equal amplitude and equal frequency and
    speed > best_speed: replace speed only." *)
Definition MaxAmplitudeFrequencySpeed (acc : num * num * num)
    (obs : num * num * num) : num * num * num :=
  let '(best_amplitude, best_frequency, best_speed) := acc in
  let '(amplitude, frequency, speed) := obs in
  if num_gt amplitude best_amplitude then (amplitude, frequency, speed)
  else if num_eq amplitude best_amplitude && num_gt frequency best_frequency
       then (best_amplitude, frequency, speed)
  else if num_eq amplitude best_amplitude && num_eq frequency best_frequency
          && num_gt speed best_speed
       then (best_amplitude, best_frequency, speed)
  else (best_amplitude, best_frequency, best_speed).

(** [EventTimestamp]: "the timestamp of the last frame (in stream order) for
    which the condition held, or the zero sentinel if it never held";
    [events] pairs each frame's condition with its formatted timestamp. *)
Definition EventTimestamp (events : list (bool * string)) : value :=
  match last (List.filter fst events) with
  | Some (_, formatted_time) => VStr formatted_time
  | None => VNum (NInt 0)
  end.

(** "Any bit in the configured mask (over one or more specified bytes) is
    set"; a [NonZero] byte is tested against the full mask. *)
Definition test_mask (t : test) : nat * Z :=
  match t with
  | Bit i mask => (i, mask)
  | NonZero i => (i, 255)
  end.

Definition byte_at (fr : frame) (i : nat) : Z :=
  match fr !! i with
  | Some b => byte_val b
  | None => 0
  end.

Definition any_bit_set (fr : frame) (tests : list test) : bool :=
  existsb (fun t => let '(i, mask) := test_mask t in
                    negb (Z.land (byte_at fr i) mask =? 0))
          tests.

Definition profiles : list profile := [WNDS; BIDS; GVDS; MVDS].

(** A profile's table is well formed when no slot belongs to two blocks and
    every slot is inside the summary vector. *)
Definition wf_profile (p : profile) : Prop :=
  NoDup (flat_map block_slots (p_blocks p)) /\
  Forall (fun j => (j < p_size p)%nat) (flat_map block_slots (p_blocks p)).

(** The condition of an event block on a frame. *)
Definition block_cond (b : block) (fr : frame) : bool :=
  match b with
  | BEvent tests _ =>
      match any_test fr tests with
      | Ok c => c
      | Raise _ => false
      end
  | BRange first count _ =>
      existsb (fun i => match out_of_range fr i with
                        | Ok c => c
                        | Raise _ => false
                        end)
              (seq first count)
  | _ => false
  end.

(** The slots of a block hold what the block expects: numbers where it
    compares, anything where it only assigns. *)
Definition is_num (res : list value) (j : nat) : Prop :=
  exists a, res !! j = Some (VNum a).

Definition slots_typed (res : list value) (b : block) : Prop :=
  match b with
  | BMax slot => is_num res slot
  | BEvent _ slot | BRange _ _ slot => is_Some (res !! slot)
  | BMws _ _ slot => is_num res slot /\ is_num res (slot + 1)
  | BMaf _ _ slot =>
      is_num res slot /\ is_num res (slot + 1) /\ is_num res (slot + 2)
  end.

(** The pair and the triple of numbers a channel keeps at [slot]. *)
Definition view2 (slot : nat) (res : list value) : option (num * num) :=
  match res !! slot, res !! (slot + 1)%nat with
  | Some (VNum a), Some (VNum b) => Some (a, b)
  | _, _ => None
  end.

Definition view3 (slot : nat) (res : list value) : option (num * num * num) :=
  match res !! slot, res !! (slot + 1)%nat, res !! (slot + 2)%nat with
  | Some (VNum a), Some (VNum b), Some (VNum c) => Some (a, b, c)
  | _, _, _ => None
  end.

(** ** Raw fields and their decoded values *)

(** The unsigned integer a field holds, and the number [decode] makes of it. *)
Definition raw_field (fd : field) (fr : frame) : Z :=
  match fd with
  | U8 i | U8s i _ => byte_at fr i
  | U16s i _ | U16r i _ => 256 * byte_at fr i + byte_at fr (S i)
  end.

Definition field_value (fd : field) (raw : Z) : num :=
  match fd with
  | U8 _ => NInt raw
  | U8s _ scale | U16s _ scale => scaled raw scale
  | U16r _ scale => NFloat (round3 (PrimFloat.mul (of_int raw) scale))
  end.

(** [raw |-> field_value fd raw] is strictly increasing from [raw] to
    [raw + 1] and yields no NaN, for the [count] raw values from [k] on;
    [x] is the value at [k]. *)
Fixpoint increasing_from (fd : field) (k : Z) (x : float) (count : nat)
  : bool :=
  match count with
  | O => true
  | S count' =>
      let y := to_float (field_value fd (k + 1)) in
      PrimFloat.ltb x y && PrimFloat.eqb y y
      && increasing_from fd (k + 1) y count'
  end.

Definition increasing_upto (fd : field) (count : nat) : bool :=
  let x := to_float (field_value fd 0) in
  PrimFloat.eqb x x && increasing_from fd 0 x count.

(** A number [v] that stands for the raw speed [w]: the initial [0], or the
    decoded value of [w]. *)
Definition has_key (fd : field) (v : num) (w : Z) : Prop :=
  (v = NInt 0 /\ w = 0) \/ (v = field_value fd w /\ 0 <= w < 65536).

(** The raw values of a 16-bit field are [0 .. 65535]. *)
Definition raw_count : nat := Z.to_nat 65535.

(** [fr] with the 16-bit value [w] written big-endian at [i]. *)
Definition with_u16 (fr : frame) (i : nat) (w : Z) : frame :=
  patch fr i [w / 256; w mod 256].

(** A 255-byte frame dated 2025-03-15 10:30:[second] with the raw speed
    [speed_raw] at bytes 78-79. *)
Definition sample_frame (second speed_raw : Z) : frame :=
  with_u16 (frame_at 25 3 15 10 30 second) 78 speed_raw.

(** The frame index a field starts at, and whether a channel stores the
    field it compares. *)
Definition field_index (fd : field) : nat :=
  match fd with
  | U8 i | U8s i _ | U16s i _ | U16r i _ => i
  end.

Definition stores_other_field (b : block) : bool :=
  match b with
  | BMws cmp store _ => negb (field_index cmp =? field_index store)%nat
  | _ => false
  end.

(** The number a channel keeps at [slot]. *)
Definition view1 (slot : nat) (res : list value) : option num :=
  match res !! slot with
  | Some (VNum a) => Some a
  | _ => None
  end.

(** ** The stages of [_ord2ymd]

    [_ord2ymd] first writes [n = ordinal - 1] in the mixed radix of 400-year,
    100-year, 4-year and 1-year cycles, then finds the month and the day of
    the day count that is left. *)

Definition ord_digits (n : Z) : Z * Z * Z * Z * Z :=
  let n400 := n / 146097 in
  let n := n mod 146097 in
  let n100 := n / 36524 in
  let n := n mod 36524 in
  let n4 := n / 1461 in
  let n := n mod 1461 in
  let n1 := n / 365 in
  let n := n mod 365 in
  (n400, n100, n4, n1, n).

Definition month_day (leapyear : bool) (n : Z) : Z * Z :=
  let month := Z.shiftr (n + 50) 5 in
  let preceding :=
    DAYS_BEFORE_MONTH month + (if (2 <? month) && leapyear then 1 else 0) in
  if n <? preceding then
    let month := month - 1 in
    let preceding :=
      preceding
      - (DAYS_IN_MONTH month + (if (month =? 2) && leapyear then 1 else 0)) in
    (month, n - preceding + 1)
  else (month, n - preceding + 1).

Definition ord2ymd_finish (digits : Z * Z * Z * Z * Z) : Z * Z * Z :=
  let '(n400, n100, n4, n1, n) := digits in
  let year := n400 * 400 + 1 + n100 * 100 + n4 * 4 + n1 in
  if (n1 =? 4) || (n100 =? 4) then (year - 1, 12, 31)
  else
    let leapyear := (n1 =? 3) && (negb (n4 =? 24) || (n100 =? 3)) in
    let '(month, day) := month_day leapyear n in
    (year, month, day).

Definition date_eqb (a b : Z * Z * Z) : bool :=
  let '(y, m, d) := a in
  let '(y', m', d') := b in
  (y =? y') && (m =? m') && (d =? d').

(** The first 365 days of [year] share their cycle digits, which name the
    year and tell whether it is a leap year; the 366th day of a leap year is
    the case [_ord2ymd] treats apart. *)
Definition year_digits_ok (year : Z) : bool :=
  let first := days_before_year year in
  let '(a400, a100, a4, a1, a) := ord_digits first in
  let '(b400, b100, b4, b1, b) := ord_digits (first + 364) in
  (a400 =? b400) && (a100 =? b100) && (a4 =? b4) && (a1 =? b1) && (a =? 0)
  && negb ((a1 =? 4) || (a100 =? 4))
  && (a400 * 400 + 1 + a100 * 100 + a4 * 4 + a1 =? year)
  && Bool.eqb ((a1 =? 3) && (negb (a4 =? 24) || (a100 =? 3))) (is_leap year)
  && (if is_leap year
      then date_eqb (ord2ymd (first + 366)) (year, 12, 31)
      else true).

Fixpoint years_ok (year : Z) (count : nat) : bool :=
  match count with
  | O => true
  | S count' => year_digits_ok year && years_ok (year + 1) count'
  end.

(** Day [day] of month [month], counted from the start of the year, is
    found again by [month_day]; days past the end of the month and the 366th
    day of the year are left out. *)
Definition month_day_ok (leapyear : bool) (month day : Z) : bool :=
  let n :=
    DAYS_BEFORE_MONTH month + (if (2 <? month) && leapyear then 1 else 0)
    + day - 1 in
  (DAYS_IN_MONTH month + (if (month =? 2) && leapyear then 1 else 0) <? day)
  || (364 <? n)
  || (let '(m, d) := month_day leapyear n in (m =? month) && (d =? day)).

Definition months_ok (leapyear : bool) : bool :=
  forallb
    (fun m =>
       forallb (fun d => month_day_ok leapyear (Z.of_nat m) (Z.of_nat d))
               (seq 1 31))
    (seq 1 12).

(** The date and time a frame's six timestamp bytes spell. *)
Definition bytes_datetime (fr : frame) (time_offset : nat) : datetime :=
  mk_datetime (2000 + byte_at fr time_offset)
    (byte_at fr (time_offset + 1)) (byte_at fr (time_offset + 2))
    (byte_at fr (time_offset + 3)) (byte_at fr (time_offset + 4))
    (byte_at fr (time_offset + 5)).

(** [datetime(...)]'s checks and [int(dt.timestamp())] on a record of
    fields. *)
Definition datetime_valid (dt : datetime) : bool :=
  valid_datetime (dt_year dt) (dt_month dt) (dt_day dt)
                 (dt_hour dt) (dt_minute dt) (dt_second dt).

Definition datetime_timestamp (tz : Z) (dt : datetime) : Z :=
  timestamp_of tz (dt_year dt) (dt_month dt) (dt_day dt)
               (dt_hour dt) (dt_minute dt) (dt_second dt).

(** ** The reader's window test and the chunks of a file *)

(** [start_timestamp <= timestamp <= end_timestamp] on a frame whose
    timestamp decodes. *)
Definition in_window (tz : Z) (time_offset : nat)
    (start_timestamp end_timestamp : Z) (frame_data : frame) : bool :=
  match extract_frame_time tz frame_data time_offset with
  | Ok timestamp =>
      (start_timestamp <=? timestamp) && (timestamp <=? end_timestamp)
  | Raise _ => false
  end.

(** The bytes of the [k]-th slot: [data[frame_offset + k * frame_size :
    frame_offset + (k + 1) * frame_size]]. *)
Definition chunk (frame_offset frame_size : nat) (data : list Byte.byte)
    (k : nat) : frame :=
  take frame_size (drop (frame_offset + k * frame_size) data).

(** ** Channels in terms of raw field values *)

(** A raw voltage byte below 80 or above 140: below 8.0 or above 14.0 after
    scaling by 0.1. *)
Definition voltage_fault (fr : frame) (first count : nat) : bool :=
  existsb (fun i => (byte_at fr i <? 80) || (140 <? byte_at fr i))
          (seq first count).

(** The test of the voltage loops on a raw byte [b], as the source computes
    it, against the thresholds on [b]. *)
Definition voltage_thresholds_ok : bool :=
  forallb (fun k =>
             let b := Z.of_nat k in
             Bool.eqb (num_lt (scaled b 0.1) (NInt 8)
                       || num_gt (scaled b 0.1) (NInt 14))
                      ((b <? 80) || (140 <? b)))
          (seq 0 256).

Definition is_range_block (b : block) : bool :=
  match b with
  | BRange _ _ _ => true
  | _ => false
  end.

(** Fields that decode a raw value in the same way have the same shape. *)
Definition field_shape (fd : field) : field :=
  match fd with
  | U8 _ => U8 0
  | U8s _ scale | U16s _ scale => U16s 0 scale
  | U16r _ scale => U16r 0 scale
  end.

Definition field_eqb (a b : field) : bool :=
  match a, b with
  | U8 i, U8 j => (i =? j)%nat
  | U8s i s, U8s j t | U16s i s, U16s j t | U16r i s, U16r j t =>
      (i =? j)%nat && PrimFloat.Leibniz.eqb s t
  | _, _ => false
  end.

(** The shapes of the fields the four profiles decode. *)
Definition shapes : list field :=
  [U8 0; U16s 0 0.01; U16s 0 0.001; U16s 0 0.1; U16r 0 0.01; U16r 0 0.1]%nat.

Definition known_shape (fd : field) : bool :=
  existsb (field_eqb (field_shape fd)) shapes.

Definition fields_of (b : block) : list field :=
  match b with
  | BMws cmp store _ => [cmp; store]
  | BMaf amp fre _ => [amp; fre]
  | _ => []
  end.

Definition profile_fields (p : profile) : list field :=
  p_speed p :: flat_map fields_of (p_blocks p).

(** Numbers that stand for raw values compare as the raw values do. *)
Definition ordered_field (fd : field) : Prop :=
  forall a b wa wb,
    has_key fd a wa -> has_key fd b wb ->
    num_gt a b = (wb <? wa) /\ num_eq a b = (wa =? wb).

(** The lexicographic maximum on pairs of raw values, and the two numbers
    that stand for such a pair in a channel's slots: the initial int 0 where
    nothing was stored yet, a decoded value elsewhere. *)
Definition key_step (acc obs : Z * Z) : Z * Z :=
  let '(m, s) := acc in
  let '(v, w) := obs in
  if m <? v then (v, w)
  else if v =? m then (m, Z.max s w)
  else (m, s).

Definition of_keys (fd sp : field) (acc : Z * Z) : num * num :=
  let '(m, s) := acc in
  (if m =? 0 then NInt 0 else field_value fd m,
   if (m =? 0) && (s =? 0) then NInt 0 else field_value sp s).

(** The largest raw value of a field over the frames, and the largest raw
    speed among the frames that attain it. *)
Definition top_value (fd : field) (framelist : list frame) : Z :=
  fold_left Z.max (map (raw_field fd) framelist) 0.

Definition top_speed (sp fd : field) (framelist : list frame) : Z :=
  fold_left Z.max
    (map (raw_field sp)
         (List.filter (fun fr => raw_field fd fr =? top_value fd framelist)
                      framelist))
    0.

(** The slots of the event channels of a profile, and whether every slot of
    the summary vector belongs to a block. *)
Definition event_slots (p : profile) : list nat :=
  flat_map (fun b => match b with
                     | BEvent _ slot | BRange _ _ slot => [slot]
                     | _ => []
                     end) (p_blocks p).

Definition slots_covered (p : profile) : bool :=
  forallb (fun j => existsb (fun b => existsb (Nat.eqb j) (block_slots b))
                            (p_blocks p))
          (seq 0 (p_size p)).

(** The same for a main-frequency channel: the lexicographic maximum on
    (amplitude, (frequency, speed)), and the three numbers in the slots. *)
Definition key_step3 (acc obs : Z * (Z * Z)) : Z * (Z * Z) :=
  let '(a, fs) := acc in
  let '(va, vfs) := obs in
  if a <? va then (va, vfs)
  else if va =? a then (a, key_step fs vfs)
  else (a, fs).

Definition of_keys3 (amp fre sp : field) (acc : Z * (Z * Z))
  : num * num * num :=
  let '(a, (f, s)) := acc in
  (if a =? 0 then NInt 0 else field_value amp a,
   if (a =? 0) && (f =? 0) then NInt 0 else field_value fre f,
   if (a =? 0) && (f =? 0) && (s =? 0) then NInt 0 else field_value sp s).

(** The frames that attain the largest raw amplitude. *)
Definition loudest (amp : field) (framelist : list frame) : list frame :=
  List.filter (fun fr => raw_field amp fr =? top_value amp framelist) framelist.
(** ** Merging the data files of a directory: [merge_dat_files] (lines 61-140)

    A [str] is the string of the bytes of its UTF-8 encoding: splitting at
    ['_'] and comparing two strings give the same results on the bytes as
    on the code points.  The functions of [os.path] and the archive reader
    are parameters, and so are what [os.path.exists(directory)],
    [glob.glob] (line 68) and [os.walk] (line 75) answer.  The disk is a
    function from paths to the content of the file there, if any: [os.remove]
    (line 70), [extractall] (line 93) and the write of line 133 change it,
    and [open(file, 'rb')] on a path without a file raises
    [FileNotFoundError].  The lines [save_print_to_txt] appends to
    [./log.txt] are returned beside the disk, which stands for all the other
    files.  What [glob.glob] matches is taken to be files that can be
    removed, and an archive to be one that [zipfile] can open. *)

(** [s.split(sep)] for a separator of one character: never empty. *)
Fixpoint split (sep : ascii) (s : string) : list string :=
  match s with
  | EmptyString => [EmptyString]
  | String c rest =>
      if Ascii.eqb c sep then EmptyString :: split sep rest
      else
        match split sep rest with
        | part :: parts => String c part :: parts
        | [] => [String c EmptyString]
        end
  end.

(** [sub in s]. *)
Fixpoint contains (sub s : string) : bool :=
  String.prefix sub s
  || match s with
     | EmptyString => false
     | String _ rest => contains sub rest
     end.

(** [s.endswith(suffix)]. *)
Definition endswith (s suffix : string) : bool :=
  (String.length suffix <=? String.length s)%nat
  && String.eqb
       (String.substring (String.length s - String.length suffix)
                         (String.length suffix) s)
       suffix.

(** [l[i]] on a list. *)
Definition list_item {A : Type} (l : list A) (i : nat) : result A :=
  match l !! i with
  | Some x => Ok x
  | None => Raise IndexError
  end.

(** [for x in l: acc = f(acc, x)], stopping at the first exception. *)
Fixpoint fold_result {A B : Type} (f : A -> B -> result A) (l : list B)
    (acc : A) : result A :=
  match l with
  | [] => Ok acc
  | x :: rest => do acc' <- f acc x; fold_result f rest acc'
  end.

(** A [dict] from car numbers to lists of files, in insertion order. *)
Abbreviation car_dict := (list (string * list string)).

(** [if car_number not in car_files: car_files[car_number] = []] and
    [car_files[car_number].append(file)]. *)
Fixpoint dict_append (car_files : car_dict) (car_number file : string)
  : car_dict :=
  match car_files with
  | [] => [(car_number, [file])]
  | (k, files) :: rest =>
      if String.eqb k car_number then (k, files ++ [file]) :: rest
      else (k, files) :: dict_append rest car_number file
  end.

(** [l.sort(key=...)] on a list of pairs of a key and an item, the keys
    compared with [<]: Python's sort is stable, so it returns the one sorted
    arrangement that keeps items with equal keys in their order; insertion
    from the right computes it. *)
Fixpoint insert_sorted (kx : string * string) (l : list (string * string))
  : list (string * string) :=
  match l with
  | [] => [kx]
  | ky :: rest =>
      if String.ltb (fst ky) (fst kx) then ky :: insert_sorted kx rest
      else kx :: l
  end.

Definition stable_sort (l : list (string * string)) : list (string * string) :=
  foldr insert_sorted [] l.

(** [car_files.get(car_number, [])]. *)
Fixpoint dict_get (car_files : car_dict) (car_number : string) : list string :=
  match car_files with
  | [] => []
  | (k, files) :: rest =>
      if String.eqb k car_number then files else dict_get rest car_number
  end.

(** The distinct elements of a list in the order in which they are first
    met: the order of the keys of a [dict] that is filled in the order of
    the list. *)
Fixpoint first_met (l : list string) : list string :=
  match l with
  | [] => []
  | x :: rest =>
      x :: List.filter (fun y => negb (String.eqb y x)) (first_met rest)
  end.

(** The content of the files that exist: what [f.read()] returns on each. *)
Abbreviation file_system := (string -> list Byte.byte).

(** The disk: the content of the file at a path, [None] where there is no
    file. *)
Abbreviation disk := (string -> option (list Byte.byte)).

Definition contents (d : disk) : file_system :=
  fun path => match d path with
              | Some data => data
              | None => []
              end.

(** [os.remove(path)] and [open(path, 'wb').write(data)]. *)
Definition remove_file (d : disk) (path : string) : disk :=
  fun q => if String.eqb q path then None else d q.

Definition write_file (d : disk) (path : string) (data : list Byte.byte)
  : disk :=
  fun q => if String.eqb q path then Some data else d q.

(** The exceptions that leave [merge_dat_files]. *)
Inductive os_exn : Type :=
| PyExn (e : exn)                      (* [parts[1]], [x.split('_')[2]] *)
| FileNotFoundError (file : string).   (* [open(file, 'rb')] *)

Inductive os_result (A : Type) : Type :=
| Done (a : A)
| Throw (e : os_exn).

Arguments Done {A} a.
Arguments Throw {A} e.

(** The lines [merge_dat_files] appends to [./log.txt]. *)
Inductive log_line : Type :=
| DirectoryMissing                  (* line 64 *)
| NoDataFiles (directory : string). (* line 81 *)

(** Lines 68-71. *)
Definition remove_old (old_merged : list string) (d : disk) : disk :=
  fold_left (fun d merged_file =>
               match d merged_file with
               | Some _ => remove_file d merged_file
               | None => d
               end)
            old_merged d.

(** Lines 120-129, on the disk. *)
Fixpoint merge_loop_disk (d : disk) (i : nat) (files : list string)
    (merged_data : list Byte.byte) : os_result (list Byte.byte) :=
  match files with
  | [] => Done merged_data
  | file :: rest =>
      match d file with
      | None => Throw (FileNotFoundError file)
      | Some data =>
          merge_loop_disk d (S i) rest
            (merged_data ++ (if (i =? 0)%nat then data else drop 16 data))
      end
  end.

Section Merge.

Variable path_join : string -> string -> string.   (* os.path.join *)
Variable basename : string -> string.              (* os.path.basename *)
Variable dirname : string -> string.               (* os.path.dirname *)
Variable namelist : string -> list string.         (* zip_ref.namelist() *)
Variable extractall : string -> disk -> disk.
  (* zip_ref.extractall(os.path.dirname(file)) for the archive [file] *)

(** Line 77. *)
Definition is_data_file (data_type file : string) : bool :=
  contains data_type file
  && (endswith file ".dat" || endswith file ".dat.zip").

(** Lines 74-78: [walk] is what [os.walk(directory)] yields, the [dirs]
    left out. *)
Definition find_data_files (data_type : string)
    (walk : list (string * list string)) : list string :=
  flat_map (fun rf => map (path_join (fst rf))
                          (List.filter (is_data_file data_type) (snd rf)))
           walk.

(** Lines 99-104 and 107-112. *)
Definition car_number_of (file : string) : result string :=
  list_item (split "_" (basename file)) 1.

Definition add_file (car_files : car_dict) (file : string) : result car_dict :=
  do car_number <- car_number_of file;
  Ok (dict_append car_files car_number file).

(** Lines 88-112, the body of [for file in data_files:]. *)
Definition group_file (car_files : car_dict) (file : string)
  : result car_dict :=
  if endswith file ".dat.zip" then
    let extracted_files :=
      map (path_join (dirname file))
          (List.filter (fun f => endswith f ".dat") (namelist file)) in
    fold_result add_file extracted_files car_files
  else add_file car_files file.

(** The files one data file contributes to the groups: the [.dat] members
    of an archive, or the file itself. *)
Definition expand_file (file : string) : list string :=
  if endswith file ".dat.zip" then
    map (path_join (dirname file))
        (List.filter (fun f => endswith f ".dat") (namelist file))
  else [file].

(** The car numbers of the files that have one, in the order of the files. *)
Definition car_numbers (files : list string) : list string :=
  flat_map (fun file => match car_number_of file with
                        | Ok car_number => [car_number]
                        | Raise _ => []
                        end)
           files.

Definition has_car_number (car_number file : string) : bool :=
  match car_number_of file with
  | Ok c => String.eqb c car_number
  | Raise _ => false
  end.

(** Line 117: the keys [x.split('_')[2]] are computed for every file, in
    order, before the list is sorted. *)
Definition sort_key (x : string) : result string :=
  list_item (split "_" x) 2.

Fixpoint with_keys (files : list string) : result (list (string * string)) :=
  match files with
  | [] => Ok []
  | x :: rest =>
      do k <- sort_key x;
      do keyed <- with_keys rest;
      Ok ((k, x) :: keyed)
  end.

Definition sort_files (files : list string) : result (list string) :=
  do keyed <- with_keys files;
  Ok (map snd (stable_sort keyed)).

(** Lines 120-129. *)
Fixpoint merge_loop (fs : file_system) (i : nat) (files : list string)
    (merged_data : list Byte.byte) : list Byte.byte :=
  match files with
  | [] => merged_data
  | file :: rest =>
      let data := fs file in
      merge_loop fs (S i) rest
        (merged_data ++ (if (i =? 0)%nat then data else drop 16 data))
  end.

Definition merged_name (car_number : string) : string :=
  car_number ++ "_mergedata.dat".

(** Lines 88-112 with the effect of line 93: an archive is unpacked before
    its members are grouped. *)
Definition unpack (d : disk) (file : string) : disk :=
  if endswith file ".dat.zip" then extractall file d else d.

Definition group_step (st : car_dict * disk) (file : string)
  : result (car_dict * disk) :=
  let d := unpack (snd st) file in
  do car_files <- group_file (fst st) file;
  Ok (car_files, d).

(** Lines 115-136. *)
Fixpoint merge_groups (directory : string) (car_files : car_dict)
    (d : disk) : os_result disk :=
  match car_files with
  | [] => Done d
  | (car_number, files) :: rest =>
      match sort_files files with
      | Raise e => Throw (PyExn e)
      | Ok files =>
          match merge_loop_disk d 0 files [] with
          | Throw e => Throw e
          | Done merged_data =>
              let output_file := path_join directory (merged_name car_number) in
              merge_groups directory rest (write_file d output_file merged_data)
          end
      end
  end.

(** The whole function: the list it returns, [None] for Python's [None],
    the disk it leaves and the lines it appends to [./log.txt].
    [old_merged] is what [glob.glob] yields at line 68 and [walk] what
    [os.walk] yields at line 75. *)
Definition merge_dat_files (directory_exists : bool) (directory : string)
    (data_type : string) (old_merged : list string)
    (walk : list (string * list string)) (d : disk)
  : os_result (option (list string) * disk * list log_line) :=
  if negb directory_exists then Done (None, d, [DirectoryMissing])
  else
    let d := remove_old old_merged d in
    let data_files := find_data_files data_type walk in
    match data_files with
    | [] => Done (None, d, [NoDataFiles directory])
    | _ :: _ =>
        match fold_result group_step data_files ([], d) with
        | Raise e => Throw (PyExn e)
        | Ok (car_files, d) =>
            match merge_groups directory car_files d with
            | Throw e => Throw e
            | Done d =>
                let merged_files :=
                  map (fun kv => path_join directory (merged_name (fst kv)))
                      car_files in
                Done (Some merged_files, d, [])
            end
        end
    end.

End Merge.

(** [x] may stand before [y] in a list sorted by the keys: the key of [y] is
    not less than the key of [x]. *)
Definition key_le (x y : string) : Prop :=
  match sort_key x, sort_key y with
  | Ok kx, Ok ky => String.ltb ky kx = false
  | _, _ => False
  end.

Definition has_sort_key (k : string) (x : string) : bool :=
  match sort_key x with
  | Ok kx => String.eqb kx k
  | Raise _ => false
  end.

(** A data file as the recorder writes it: a file header of 16 bytes, then
    whole frames. *)
Definition framed (frame_size : nat) (data : list Byte.byte)
    (frames : list frame) : Prop :=
  exists header,
    data = header ++ concat frames
    /\ length header = 16%nat
    /\ Forall (fun fd => length fd = frame_size) frames.

(** The list [read_binary_file] returns. *)
Definition read_results (tz : Z) (frame_offset time_offset : nat)
    (start_timestamp end_timestamp : Z) (frame_size : nat)
    (data : list Byte.byte) : list frame :=
  match read_binary_file tz frame_offset time_offset start_timestamp
          end_timestamp frame_size data with
  | Some (results, _) => results
  | None => []
  end.

(** ** More data for examples *)

(** A 302-byte frame dated 2025-03-15 10:30:[second] with the raw speed
    [speed_raw] at bytes 78-79. *)
Definition long_frame (second speed_raw : Z) : frame :=
  with_u16 (patch (blank_frame 302) 23 [25; 3; 15; 10; 30; second]) 78 speed_raw.

(** Two recordings of car 01 and the frames they hold. *)
Definition sample_frames_of (path : string) : list frame :=
  if String.eqb path "d/wnds_01_0900.dat" then [sample_frame 0 100]
  else if String.eqb path "d/wnds_01_1000.dat"
       then [sample_frame 1 200; sample_frame 2 300]
  else [].

Definition sample_fs : file_system :=
  fun path => file_header ++ concat (sample_frames_of path).

(** A frame of [sample_frame] with the main-frequency amplitude [amp] at
    byte 99 and the raw frequency [fre] at bytes 101-102. *)
Definition tone_frame (second speed_raw amp fre : Z) : frame :=
  with_u16 (patch (sample_frame second speed_raw) 99 [amp]) 101 fre.

(** The two time strings of the examples with their epoch seconds in the
    zone of offset 0; no other string parses. *)
Definition sample_strptime (s : string) : option Z :=
  if String.eqb s "2025-03-15 10:00:00" then Some 1742032800
  else if String.eqb s "2025-03-15 11:00:00" then Some 1742036400
  else None.

(** [os.path.join], [os.path.basename] and [os.path.dirname] on the paths
    of the examples, which have ['/'] between the directory and a file
    name. *)
Definition sample_join (a b : string) : string := a ++ "/" ++ b.

Definition sample_basename (path : string) : string :=
  List.last (split "/" path) EmptyString.

Definition sample_dirname (path : string) : string :=
  String.concat "/" (removelast (split "/" path)).

(** A directory [d] with three recordings, a text file and an archive that
    holds a fourth recording and a text file, and an old merged file. *)
Definition sample_walk : list (string * list string) :=
  [("d"%string,
    ["wnds_02_0900.dat"; "wnds_01_1000.dat"; "notes.txt"; "wnds_a.dat.zip";
     "wnds_01_0900.dat"]%string)].

Definition sample_namelist (file : string) : list string :=
  if String.eqb file "d/wnds_a.dat.zip"
  then ["wnds_02_1000.dat"; "readme.txt"]%string
  else [].

Definition sample_extractall (file : string) (d : disk) : disk :=
  if String.eqb file "d/wnds_a.dat.zip"
  then write_file
         (write_file d "d/wnds_02_1000.dat" (file_header ++ sample_frame 3 400))
         "d/readme.txt" []
  else d.

Definition sample_disk : disk :=
  fun path =>
    if String.eqb path "d/wnds_02_0900.dat"
    then Some (file_header ++ sample_frame 0 100)
    else if String.eqb path "d/wnds_01_1000.dat"
    then Some (file_header ++ sample_frame 2 300)
    else if String.eqb path "d/wnds_01_0900.dat"
    then Some (file_header ++ sample_frame 1 200)
    else if String.eqb path "d/wnds_a.dat.zip"
    then Some [Byte.x50; Byte.x4b]
    else if String.eqb path "d/09_mergedata.dat"
    then Some file_header
    else None.

(** ** The reader's slots as the specification words them

    Written from sections 4.1, 4.2 and 7 of the specification, to be
    compared with [check_frame]: a slot is a truncated frame when the read
    did not yield [frame_size] bytes; its timestamp is malformed when
    [time_offset + 6 > len(frame)], when the six bytes are no valid calendar
    date and time, or when [len(frame) < 255]; a decoded timestamp is out of
    the sanity range when the decoded year is outside [2000, 2100] or the
    epoch value is negative; a decoded, sane frame is emitted when its
    timestamp is within [start, end], bounds included, and discarded
    otherwise, which is no error. *)

Inductive slot_class : Type :=
| TruncatedFrame
| MalformedTimestamp
| TimestampOutOfSanityRange
| OutOfWindow
| InWindow.

Definition slot_class_of (tz : Z) (time_offset : nat) (start_ end_ : Z)
    (frame_size : nat) (fd : frame) : slot_class :=
  if negb (length fd =? frame_size)%nat then TruncatedFrame
  else if (length fd <? time_offset + 6)%nat
          || negb (datetime_valid (bytes_datetime fd time_offset))
          || (length fd <? 255)%nat
  then MalformedTimestamp
  else
    let decoded := bytes_datetime fd time_offset in
    let t := datetime_timestamp tz decoded in
    if (dt_year decoded <? 2000) || (2100 <? dt_year decoded) || (t <? 0)
    then TimestampOutOfSanityRange
    else if (start_ <=? t) && (t <=? end_) then InWindow
    else OutOfWindow.

(** The three classes of per-frame errors, which get a diagnostic. *)
Definition class_is_error (c : slot_class) : bool :=
  match c with
  | TruncatedFrame | MalformedTimestamp | TimestampOutOfSanityRange => true
  | OutOfWindow | InWindow => false
  end.

Definition class_is_emitted (c : slot_class) : bool :=
  match c with
  | InWindow => true
  | _ => false
  end.

(** The class an outcome of [check_frame] stands for: the reason of the
    exception raised, or whether the frame was appended to [results]. *)
Definition reason_class (why : reason) : slot_class :=
  match why with
  | FrameLength _ _ => TruncatedFrame
  | TimeParse _ => MalformedTimestamp
  | NegativeTimestamp _ => TimestampOutOfSanityRange
  | TimeOutOfRange _ => TimestampOutOfSanityRange
  end.

Definition outcome_class (o : reason + bool) : slot_class :=
  match o with
  | inl why => reason_class why
  | inr true => InWindow
  | inr false => OutOfWindow
  end.

(** ** [read_binary_file] and [data_process] from the configuration

    Lines 153-154 and 160-161 of [read_binary_file] are outside its [try]:
    the exception of [datetime.strptime] on a time string that does not
    match ['%Y-%m-%d %H:%M:%S'] (a [ValueError]) and the [OSError] of
    [f.seek] on a negative [frame_offset] leave the function and, through
    [data_process], which has no handler, the program.
    [strptime_timestamp] stands for
    [int(datetime.strptime(s, '%Y-%m-%d %H:%M:%S').timestamp())], [None]
    when it raises.  [time_offset] and [frame_size] are natural numbers, as
    everywhere in this development. *)

Inductive raised (A : Type) : Type :=
| Returns (a : A)
| TimeStringError (time_string : string)   (* lines 153 and 154 *)
| SeekError (frame_offset : Z).            (* line 161 *)

Arguments Returns {A} a.
Arguments TimeStringError {A} time_string.
Arguments SeekError {A} frame_offset.

Section Configuration.

Variable strptime_timestamp : string -> option Z.

(** Lines 153-161, then the loop. *)
Definition read_binary_file_config (tz : Z) (frame_offset : Z)
    (time_offset : nat) (start_time end_time : string) (frame_size : nat)
    (data : list Byte.byte)
  : raised (option (list frame * list error_entry)) :=
  match strptime_timestamp start_time with
  | None => TimeStringError start_time
  | Some start_timestamp =>
      match strptime_timestamp end_time with
      | None => TimeStringError end_time
      | Some end_timestamp =>
          if frame_offset <? 0 then SeekError frame_offset
          else
            Returns (read_binary_file tz (Z.to_nat frame_offset) time_offset
                       start_timestamp end_timestamp frame_size data)
      end
  end.

(** Lines 1259-1274, for one data file. *)
Definition data_process_config (tz : Z) (obj1 : string) (frameoffset : Z)
    (timeoffset : nat) (starttime endtime : string) (framesize : nat)
    (data : list Byte.byte) : raised (option outcome) :=
  match read_binary_file_config tz frameoffset timeoffset starttime endtime
          framesize data with
  | TimeStringError s => TimeStringError s
  | SeekError z => SeekError z
  | Returns None => Returns None
  | Returns (Some (frame_data, _)) =>
      match frame_data with
      | [] => Returns (Some EmptyResultSet)
      | _ :: _ =>
          match profile_of obj1 with
          | Some p =>
              Returns (Some (Judged p frame_data
                               (data_judge tz p frame_data timeoffset)))
          | None => Returns (Some UnknownObject)
          end
      end
  end.

End Configuration.

(** * Proofs *)

(** ** Frame codec *)

Lemma getbyte_lookup (fr : frame) (i : nat) (c : Byte.byte) :
  fr !! i = Some c -> getbyte fr i = Ok (byte_val c).
Proof. intros H. unfold getbyte. now rewrite H. Qed.

Lemma getbyte_out (fr : frame) (i : nat) :
  (length fr <= i)%nat -> getbyte fr i = Raise IndexError.
Proof.
  intros H. unfold getbyte. now rewrite (lookup_ge_None_2 fr i H).
Qed.

Lemma getbyte_in (fr : frame) (i : nat) :
  (i < length fr)%nat -> exists c, fr !! i = Some c /\ getbyte fr i = Ok (byte_val c).
Proof.
  intros H. destruct (lookup_lt_is_Some_2 fr i H) as [c Hc].
  exists c. split; [exact Hc | now apply getbyte_lookup].
Qed.

Lemma time_field_lookup (fr : frame) (off k : nat) :
  (k < 6)%nat -> take 6 (drop off fr) !! k = fr !! (off + k)%nat.
Proof.
  intros H. rewrite lookup_take_lt by exact H. apply lookup_drop.
Qed.

Lemma time_field_length (fr : frame) (off : nat) :
  length (take 6 (drop off fr)) = Nat.min 6 (length fr - off).
Proof. now rewrite length_take, length_drop. Qed.

(** When the field lies inside the frame the six reads succeed and give the
    bytes of the slice. *)
Lemma time_field_inside (fr : frame) (off : nat) :
  (off + 6 <= length fr)%nat ->
  exists c0 c1 c2 c3 c4 c5,
    take 6 (drop off fr) = [c0; c1; c2; c3; c4; c5] /\
    fr !! off = Some c0 /\ fr !! (off + 1)%nat = Some c1 /\
    fr !! (off + 2)%nat = Some c2 /\ fr !! (off + 3)%nat = Some c3 /\
    fr !! (off + 4)%nat = Some c4 /\ fr !! (off + 5)%nat = Some c5.
Proof.
  intros Hlen.
  pose proof (time_field_length fr off) as Hl.
  rewrite Nat.min_l in Hl by lia.
  pose proof (time_field_lookup fr off) as Hk.
  destruct (take 6 (drop off fr)) as [|c0 [|c1 [|c2 [|c3 [|c4 [|c5 [|c6 s]]]]]]];
    simpl in Hl; try lia.
  exists c0, c1, c2, c3, c4, c5. split; [reflexivity|].
  pose proof (Hk 0%nat ltac:(lia)) as H0. rewrite Nat.add_0_r in H0.
  pose proof (Hk 1%nat ltac:(lia)) as H1.
  pose proof (Hk 2%nat ltac:(lia)) as H2.
  pose proof (Hk 3%nat ltac:(lia)) as H3.
  pose proof (Hk 4%nat ltac:(lia)) as H4.
  pose proof (Hk 5%nat ltac:(lia)) as H5.
  simpl in *. repeat split; congruence.
Qed.

(** When it does not, one of the six reads is out of range. *)
Lemma time_field_outside (fr : frame) (off : nat) :
  (length fr < off + 6)%nat ->
  (do year_byte <- getbyte fr off;
   do month_byte <- getbyte fr (off + 1);
   do day_byte <- getbyte fr (off + 2);
   do hour_byte <- getbyte fr (off + 3);
   do minute_byte <- getbyte fr (off + 4);
   do second_byte <- getbyte fr (off + 5);
   Ok (year_byte, month_byte, day_byte, hour_byte, minute_byte, second_byte))
  = Raise IndexError.
Proof.
  intros Hlen.
  assert (Hcase :
    forall i, (i <= off + 5)%nat ->
      (length fr <= i)%nat \/ exists c, getbyte fr i = Ok (byte_val c)).
  { intros i _. destruct (Nat.le_gt_cases (length fr) i) as [H|H]; [now left|].
    right. destruct (getbyte_in fr i H) as (c & _ & Hc). now exists c. }
  destruct (Hcase off ltac:(lia)) as [H|[c0 H0]];
    [now rewrite (getbyte_out _ _ H)|rewrite H0; simpl].
  destruct (Hcase (off + 1)%nat ltac:(lia)) as [H|[c1 H1]];
    [now rewrite (getbyte_out _ _ H)|rewrite H1; simpl].
  destruct (Hcase (off + 2)%nat ltac:(lia)) as [H|[c2 H2]];
    [now rewrite (getbyte_out _ _ H)|rewrite H2; simpl].
  destruct (Hcase (off + 3)%nat ltac:(lia)) as [H|[c3 H3]];
    [now rewrite (getbyte_out _ _ H)|rewrite H3; simpl].
  destruct (Hcase (off + 4)%nat ltac:(lia)) as [H|[c4 H4]];
    [now rewrite (getbyte_out _ _ H)|rewrite H4; simpl].
  rewrite (getbyte_out fr (off + 5)%nat) by lia. reflexivity.
Qed.

(** C4. [extract_frame_time] reads the six consecutive bytes at
    [time_offset] as year-2000, month, day, hour, minute, second; it raises
    [ValueError] exactly when [time_offset + 6 > len(frame)], or the bytes are
    no valid calendar date and time, or [len(frame) < 255]; otherwise it
    returns the epoch seconds of that wall-clock instant in the zone [tz].
    Bytes (25,3,15,10,30,0) give the epoch of 2025-03-15 10:30:00. *)
Theorem extract_frame_time_spec (tz : Z) (fr : frame) (time_offset : nat) :
  extract_frame_time tz fr time_offset =
    (if (length fr <? time_offset + 6)%nat
        || negb (calendar_valid fr time_offset)
        || (length fr <? 255)%nat
     then Raise ValueError
     else Ok (wall_clock_epoch tz fr time_offset))
  /\ (forall byte0 byte1 byte2 byte3 byte4 byte5,
        time_bytes fr time_offset = [byte0; byte1; byte2; byte3; byte4; byte5] ->
        wall_clock_epoch tz fr time_offset =
          timestamp_of tz (2000 + byte0) byte1 byte2 byte3 byte4 byte5)
  /\ ((255 <= length fr)%nat ->
      time_bytes fr time_offset = [25; 3; 15; 10; 30; 0] ->
      extract_frame_time tz fr time_offset = Ok (1742034600 - tz)
      /\ strftime (fromtimestamp 0 1742034600) = "2025-03-15 10:30:00"%string).
Proof.
  assert (Hmain :
    extract_frame_time tz fr time_offset =
      (if (length fr <? time_offset + 6)%nat
          || negb (calendar_valid fr time_offset)
          || (length fr <? 255)%nat
       then Raise ValueError
       else Ok (wall_clock_epoch tz fr time_offset))).
  { unfold extract_frame_time.
    destruct (Nat.ltb_spec (length fr) 255) as [H255|H255].
    { now rewrite orb_true_r. }
    rewrite orb_false_r.
    destruct (Nat.ltb_spec (length fr) (time_offset + 6)) as [Hout|Hin].
    { now rewrite (time_field_outside fr time_offset Hout). }
    destruct (time_field_inside fr time_offset Hin)
      as (c0 & c1 & c2 & c3 & c4 & c5 & Hs & H0 & H1 & H2 & H3 & H4 & H5).
    rewrite (getbyte_lookup _ _ _ H0), (getbyte_lookup _ _ _ H1),
      (getbyte_lookup _ _ _ H2), (getbyte_lookup _ _ _ H3),
      (getbyte_lookup _ _ _ H4), (getbyte_lookup _ _ _ H5).
    unfold calendar_valid, wall_clock_epoch, time_bytes. rewrite Hs.
    cbn [rbind map orb].
    now destruct (valid_datetime _ _ _ _ _ _). }
  split; [exact Hmain|]. split.
  - intros b0 b1 b2 b3 b4 b5 Hb. unfold wall_clock_epoch. now rewrite Hb.
  - intros Hlen Hb. split; [|vm_compute; reflexivity].
    rewrite Hmain.
    assert (Hin : (time_offset + 6 <= length fr)%nat).
    { destruct (Nat.le_gt_cases (time_offset + 6) (length fr)) as [H|H]; [exact H|].
      pose proof (time_field_length fr time_offset) as Hl.
      assert (Hl' : length (time_bytes fr time_offset) = 6%nat) by now rewrite Hb.
      unfold time_bytes in Hl'. rewrite length_map in Hl'.
      rewrite Hl in Hl'. lia. }
    destruct (Nat.ltb_spec (length fr) (time_offset + 6)); [lia|].
    destruct (Nat.ltb_spec (length fr) 255); [lia|].
    unfold calendar_valid, wall_clock_epoch. rewrite Hb.
    cbn [orb negb]. replace (valid_datetime (2000 + 25) 3 15 10 30 0) with true
      by (vm_compute; reflexivity).
    cbn [negb orb]. reflexivity.
Qed.

(** ** Frame-stream reader *)

Section ReaderProofs.

Variable tz : Z.
Variables frame_offset time_offset : nat.
Variables start_timestamp end_timestamp : Z.
Variable frame_size : nat.

Local Abbreviation check :=
  (check_frame tz time_offset start_timestamp end_timestamp frame_size).
Local Abbreviation loop :=
  (read_loop tz time_offset start_timestamp end_timestamp frame_size).
Local Abbreviation slots_of := (slots frame_size).
Local Abbreviation emitted_frame :=
  (emitted tz time_offset start_timestamp end_timestamp frame_size).
Local Abbreviation failed_frame :=
  (failed tz time_offset start_timestamp end_timestamp frame_size).
Local Abbreviation kept_of :=
  (kept tz time_offset start_timestamp end_timestamp frame_size).
Local Abbreviation errors :=
  (errors_from tz time_offset start_timestamp end_timestamp frame_size).

Lemma check_pass_length (fd : frame) (keep : bool) :
  check fd = inr keep -> length fd = frame_size.
Proof.
  unfold check_frame. destruct (Nat.eqb_spec (length fd) frame_size) as [H|H];
    [intros _; exact H | discriminate].
Qed.

(** A read that returns bytes moves forward. *)
Lemma read_nonempty (data : list Byte.byte) (pos : nat) c fd :
  take frame_size (drop pos data) = c :: fd ->
  (0 < frame_size)%nat /\ (pos < length data)%nat.
Proof.
  intros H.
  assert (Hl : length (take frame_size (drop pos data)) = S (length fd))
    by now rewrite H.
  rewrite length_take, length_drop in Hl. lia.
Qed.

Lemma kept_cons_emitted pos fd sl :
  emitted_frame fd = true -> kept_of ((pos, fd) :: sl) = fd :: kept_of sl.
Proof. intros H. unfold kept. cbn [List.filter snd]. now rewrite H. Qed.

Lemma kept_cons_dropped pos fd sl :
  emitted_frame fd = false -> kept_of ((pos, fd) :: sl) = kept_of sl.
Proof. intros H. unfold kept. cbn [List.filter snd]. now rewrite H. Qed.

(** The loop computes [kept] and [errors_from] of the slots it visits, and
    the fuel [length data - pos + 1] is enough for it to reach its [break]. *)
Lemma read_loop_slots (data : list Byte.byte) :
  forall fuel pos frame_count results error_log,
    (length data - pos < fuel)%nat ->
    loop data fuel pos frame_count results error_log =
      Some (results ++ kept_of (slots_of data fuel pos),
            error_log ++ errors frame_count (slots_of data fuel pos)).
Proof.
  induction fuel as [|fuel IH]; intros pos cnt results error_log Hfuel; [lia|].
  cbn [read_loop slots].
  destruct (take frame_size (drop pos data)) as [|c fd] eqn:Hread.
  { cbn. now rewrite !app_nil_r. }
  destruct (read_nonempty _ _ _ _ Hread) as [Hfs Hpos].
  cbn [errors_from].
  destruct (check (c :: fd)) as [why|keep] eqn:Hchk.
  - rewrite IH by lia.
    rewrite kept_cons_dropped by (unfold emitted; now rewrite Hchk).
    now rewrite <- app_assoc.
  - rewrite (check_pass_length _ _ Hchk).
    rewrite IH by lia. destruct keep.
    + rewrite kept_cons_emitted by (unfold emitted; now rewrite Hchk).
      now rewrite <- app_assoc.
    + rewrite kept_cons_dropped by (unfold emitted; now rewrite Hchk).
      reflexivity.
Qed.

Lemma read_binary_file_slots (data : list Byte.byte) :
  read_binary_file tz frame_offset time_offset start_timestamp end_timestamp
    frame_size data =
  Some (kept_of (all_slots frame_offset frame_size data),
        errors 0 (all_slots frame_offset frame_size data)).
Proof.
  unfold read_binary_file, all_slots.
  rewrite read_loop_slots by lia. reflexivity.
Qed.

(** Slots are [frame_size]-aligned from where the scan starts. *)
Lemma slots_aligned (data : list Byte.byte) :
  forall fuel pos,
    map fst (slots_of data fuel pos) =
    map (fun k => (pos + k * frame_size)%nat)
        (seq 0 (length (slots_of data fuel pos))).
Proof.
  induction fuel as [|fuel IH]; intros pos; [reflexivity|].
  cbn [slots]. destruct (take frame_size (drop pos data)) as [|c fd]; [reflexivity|].
  cbn [map fst length seq]. f_equal; [lia|].
  rewrite IH, <- seq_shift, map_map.
  apply map_ext. intros k. lia.
Qed.

(** Together the slots are the bytes from the start position on. *)
Lemma slots_cover (data : list Byte.byte) :
  forall fuel pos,
    (length data - pos < fuel)%nat ->
    concat (map snd (slots_of data fuel pos)) =
    if (frame_size =? 0)%nat then [] else drop pos data.
Proof.
  induction fuel as [|fuel IH]; intros pos Hfuel; [lia|].
  cbn [slots].
  destruct (take frame_size (drop pos data)) as [|c fd] eqn:Hread.
  - destruct (Nat.eqb_spec frame_size 0) as [H0|H0]; [reflexivity|].
    cbn. symmetry.
    destruct (drop pos data) as [|x rest]; [reflexivity|].
    destruct frame_size; [lia|discriminate].
  - destruct (read_nonempty _ _ _ _ Hread) as [Hfs Hpos].
    cbn [map snd concat]. rewrite IH by lia.
    destruct (Nat.eqb_spec frame_size 0) as [H0|H0]; [lia|].
    rewrite <- Hread, <- drop_drop. apply take_drop.
Qed.

Lemma check_emitted (fd : frame) :
  emitted_frame fd = true ->
  length fd = frame_size /\
  exists t,
    extract_frame_time tz fd time_offset = Ok t /\
    0 <= t /\
    2000 <= dt_year (fromtimestamp tz t) <= 2100 /\
    start_timestamp <= t <= end_timestamp.
Proof.
  unfold emitted. destruct (check fd) as [why|[|]] eqn:Hchk; try discriminate.
  intros _. split; [exact (check_pass_length _ _ Hchk)|].
  unfold check_frame in Hchk.
  destruct (negb (length fd =? frame_size)%nat); [discriminate|].
  destruct (extract_frame_time tz fd time_offset) as [t|e]; [|discriminate].
  exists t. split; [reflexivity|].
  destruct (Z.ltb_spec t 0); [discriminate|].
  destruct (Z.ltb_spec (dt_year (fromtimestamp tz t)) 2000); [discriminate|].
  destruct (Z.ltb_spec 2100 (dt_year (fromtimestamp tz t))); [discriminate|].
  cbn [orb] in Hchk.
  destruct (Z.leb_spec start_timestamp t); [|discriminate].
  destruct (Z.leb_spec t end_timestamp); [|discriminate].
  lia.
Qed.

(** A frame in the time window's complement reaches neither list. *)
Lemma check_out_of_window (fd : frame) :
  check fd = inr false ->
  emitted_frame fd = false /\ failed_frame fd = false /\
  exists t, extract_frame_time tz fd time_offset = Ok t /\
            ~ (start_timestamp <= t <= end_timestamp).
Proof.
  intros Hchk. unfold emitted, failed. rewrite Hchk. split; [reflexivity|].
  split; [reflexivity|].
  unfold check_frame in Hchk.
  destruct (negb (length fd =? frame_size)%nat); [discriminate|].
  destruct (extract_frame_time tz fd time_offset) as [t|e]; [|discriminate].
  exists t. split; [reflexivity|].
  destruct (t <? 0); [discriminate|].
  destruct (_ || _); [discriminate|].
  destruct (Z.leb_spec start_timestamp t); destruct (Z.leb_spec t end_timestamp);
    cbn in Hchk; try discriminate; lia.
Qed.

Lemma kept_emitted (sl : list (nat * frame)) :
  Forall (fun fd => emitted_frame fd = true) (kept_of sl).
Proof.
  unfold kept. apply List.Forall_forall. intros fd Hin.
  apply in_map_iff in Hin. destruct Hin as ([pos fd'] & Heq & Hin).
  cbn in Heq. subst fd'.
  apply filter_In in Hin. now destruct Hin.
Qed.

(** The log holds one entry per failed slot, in order, tagged with the
    slot's start position less 16. *)
Lemma errors_offsets (sl : list (nat * frame)) :
  forall frame_count,
    map err_offset (errors frame_count sl) =
    map (fun s => Z.of_nat (fst s) - 16)
        (List.filter (fun s => failed_frame (snd s)) sl).
Proof.
  induction sl as [|[pos fd] sl IH]; intros cnt; [reflexivity|].
  cbn [errors_from List.filter snd]. unfold failed at 1.
  destruct (check fd) as [why|keep].
  - cbn [map err_offset fst]. now rewrite IH.
  - apply IH.
Qed.

Lemma check_emitted_iff (fd : frame) :
  emitted_frame fd = true <->
  length fd = frame_size /\
  exists t,
    extract_frame_time tz fd time_offset = Ok t /\
    0 <= t /\
    2000 <= dt_year (fromtimestamp tz t) <= 2100 /\
    start_timestamp <= t <= end_timestamp.
Proof.
  split; [apply check_emitted|].
  intros (Hlen & t & Ht & H0 & Hy & Hw).
  unfold emitted, check_frame. rewrite Ht.
  destruct (Nat.eqb_spec (length fd) frame_size); [|contradiction].
  cbn [negb].
  destruct (Z.ltb_spec t 0); [lia|].
  destruct (Z.ltb_spec (dt_year (fromtimestamp tz t)) 2000); [lia|].
  destruct (Z.ltb_spec 2100 (dt_year (fromtimestamp tz t))); [lia|].
  cbn [orb].
  destruct (Z.leb_spec start_timestamp t); [|lia].
  destruct (Z.leb_spec t end_timestamp); [|lia].
  reflexivity.
Qed.

Lemma slots_past_end (data : list Byte.byte) (fuel pos : nat) :
  (length data <= pos)%nat -> slots_of data fuel pos = [].
Proof.
  intros H. destruct fuel; [reflexivity|]. cbn [slots].
  now rewrite drop_ge, take_nil by exact H.
Qed.

Lemma slots_step (data : list Byte.byte) (fuel pos : nat) (fd : frame) :
  take frame_size (drop pos data) = fd -> fd <> [] ->
  slots_of data (S fuel) pos = (pos, fd) :: slots_of data fuel (pos + frame_size).
Proof.
  intros Hread Hne. cbn [slots]. rewrite Hread.
  destruct fd; [contradiction|reflexivity].
Qed.

(** The slots of a header, whole frames and a short tail. *)
Lemma slots_frames (tail : list Byte.byte) :
  (0 < frame_size)%nat -> (length tail < frame_size)%nat ->
  forall frames header fuel,
    Forall (fun fd => length fd = frame_size) frames ->
    (length frames < fuel)%nat ->
    slots_of (header ++ concat frames ++ tail) fuel (length header) =
    place frame_size (length header) frames
    ++ match tail with
       | [] => []
       | _ :: _ => [((length header + length frames * frame_size)%nat, tail)]
       end.
Proof.
  intros Hfs Htail. induction frames as [|fd frames IH];
    intros header fuel Hall Hfuel.
  - destruct fuel as [|fuel]; [lia|]. cbn [concat place app slots length].
    rewrite drop_app_length, take_ge by lia.
    destruct tail as [|c tail']; [reflexivity|].
    rewrite slots_past_end; [f_equal; f_equal; lia|].
    rewrite length_app. cbn [length] in *. lia.
  - destruct fuel as [|fuel]; [cbn in Hfuel; lia|].
    apply Forall_cons in Hall. destruct Hall as [Hfd Hall].
    cbn [concat place].
    rewrite (slots_step (header ++ (fd ++ concat frames) ++ tail) fuel
               (length header) fd).
    + cbn [app]. f_equal.
      replace (header ++ (fd ++ concat frames) ++ tail)
        with ((header ++ fd) ++ concat frames ++ tail)
        by now rewrite <- !app_assoc.
      replace (length header + frame_size)%nat with (length (header ++ fd))
        by (rewrite length_app; lia).
      rewrite IH by (try exact Hall; cbn in Hfuel; lia).
      f_equal. destruct tail; [reflexivity|].
      f_equal. f_equal. rewrite length_app. cbn [length] in *. lia.
    + rewrite drop_app_length, <- (app_assoc fd).
      apply take_app_length'. symmetry. exact Hfd.
    + intros ->. cbn in Hfd. lia.
Qed.

Lemma kept_app (sl1 sl2 : list (nat * frame)) :
  kept_of (sl1 ++ sl2) = kept_of sl1 ++ kept_of sl2.
Proof. unfold kept. now rewrite List.filter_app, map_app. Qed.

Lemma kept_place_emitted (frames : list frame) :
  Forall (fun fd => emitted_frame fd = true) frames ->
  forall pos, kept_of (place frame_size pos frames) = frames.
Proof.
  induction 1 as [|fd frames Hfd _ IH]; intros pos; [reflexivity|].
  cbn [place]. rewrite kept_cons_emitted by exact Hfd. now rewrite IH.
Qed.

Lemma place_app (frames1 frames2 : list frame) :
  forall pos,
    place frame_size pos (frames1 ++ frames2) =
    place frame_size pos frames1
    ++ place frame_size (pos + length frames1 * frame_size) frames2.
Proof.
  induction frames1 as [|fd frames1 IH]; intros pos.
  - cbn. f_equal. lia.
  - cbn [app place length]. rewrite IH. cbn [app]. do 3 f_equal. lia.
Qed.

Lemma emitted_not_failed (fd : frame) :
  emitted_frame fd = true -> exists keep, check fd = inr keep.
Proof.
  unfold emitted. destruct (check fd) as [why|keep]; [discriminate|].
  intros _. now exists keep.
Qed.

Lemma errors_app_emitted (frames : list frame) :
  Forall (fun fd => emitted_frame fd = true) frames ->
  forall pos frame_count sl,
    errors frame_count (place frame_size pos frames ++ sl) =
    errors (frame_count + length frames) sl.
Proof.
  induction 1 as [|fd frames Hfd _ IH]; intros pos cnt sl.
  - cbn. f_equal. lia.
  - cbn [place app errors_from length].
    destruct (emitted_not_failed _ Hfd) as [keep ->].
    rewrite IH. f_equal. lia.
Qed.

Lemma concat_frames_length (frames : list frame) :
  Forall (fun fd => length fd = frame_size) frames ->
  length (concat frames) = (length frames * frame_size)%nat.
Proof.
  induction 1 as [|fd frames Hfd _ IH]; [reflexivity|].
  cbn [concat length]. rewrite length_app, IH, Hfd. lia.
Qed.

Lemma errors_app (sl1 sl2 : list (nat * frame)) :
  forall frame_count,
    errors frame_count (sl1 ++ sl2) =
    errors frame_count sl1
    ++ errors (frame_count
               + length (List.filter (fun s => negb (failed_frame (snd s))) sl1))
              sl2.
Proof.
  induction sl1 as [|[pos fd] sl1 IH]; intros cnt.
  - cbn. f_equal. lia.
  - cbn [app errors_from List.filter snd]. unfold failed at 1.
    destruct (check fd) as [why|keep]; cbn [negb].
    + rewrite IH. reflexivity.
    + rewrite IH. cbn [length]. do 2 f_equal. lia.
Qed.

Lemma check_truncated (fd : frame) :
  length fd <> frame_size ->
  check fd = inl (FrameLength (length fd) frame_size).
Proof.
  intros H. unfold check_frame.
  destruct (Nat.eqb_spec (length fd) frame_size); [contradiction|reflexivity].
Qed.

(** C7, as amended.  Each entry of the error log carries the failed slot's
    start position less 16 (the file header), entries in slot order.  In a
    stream of whole frames of which exactly one, [bad], fails and all others
    are emitted, the reader returns the other frames in order and exactly
    one entry: its frame index is the number of frames before [bad] and its
    offset is [bad]'s start position less 16. *)
Theorem read_binary_file_one_corrupted
    (header : list Byte.byte) (pre post : list frame) (bad : frame)
    (why : reason) :
  length header = frame_offset ->
  (0 < frame_size)%nat ->
  Forall (fun fd => emitted_frame fd = true) (pre ++ post) ->
  length bad = frame_size ->
  check bad = inl why ->
  let data := header ++ concat (pre ++ bad :: post) in
  read_binary_file tz frame_offset time_offset start_timestamp end_timestamp
    frame_size data =
  Some (pre ++ post,
        [mk_error (length pre)
           (Z.of_nat (frame_offset + length pre * frame_size) - 16) why])
  /\ (forall data' results error_log,
        read_binary_file tz frame_offset time_offset start_timestamp
          end_timestamp frame_size data' = Some (results, error_log) ->
        map err_offset error_log =
        map (fun s => Z.of_nat (fst s) - 16)
            (List.filter (fun s => failed_frame (snd s))
                         (all_slots frame_offset frame_size data'))).
Proof.
  intros Hh Hfs Hall Hbad Hchk data. split.
  - apply Forall_app in Hall. destruct Hall as [Hpre Hpost].
    rewrite read_binary_file_slots. unfold all_slots, data.
    rewrite <- Hh.
    replace (header ++ concat (pre ++ bad :: post))
      with (header ++ concat (pre ++ bad :: post) ++ [])
      by now rewrite app_nil_r.
    assert (Hlens : Forall (fun fd => length fd = frame_size)
                      (pre ++ bad :: post)).
    { apply Forall_app. split.
      * eapply Forall_impl; [exact Hpre|]. intros fd Hfd.
        now apply check_emitted in Hfd.
      * constructor; [exact Hbad|].
        eapply Forall_impl; [exact Hpost|]. intros fd Hfd.
        now apply check_emitted in Hfd. }
    rewrite (slots_frames []);
      [ | exact Hfs | cbn [length]; lia | exact Hlens | ].
    + rewrite app_nil_r, place_app. cbn [place].
      rewrite kept_app, errors_app_emitted by exact Hpre.
      rewrite (kept_place_emitted _ Hpre).
      rewrite kept_cons_dropped by (unfold emitted; now rewrite Hchk).
      rewrite (kept_place_emitted _ Hpost).
      cbn [errors_from]. rewrite Hchk.
      replace (place frame_size
                 (length header + length pre * frame_size + frame_size) post)
        with (place frame_size
                (length header + length pre * frame_size + frame_size) post
              ++ []) by apply app_nil_r.
      rewrite errors_app_emitted by exact Hpost. reflexivity.
    + rewrite (length_app header), (length_app (concat _)),
        (concat_frames_length _ Hlens).
      cbn [length].
      pose proof (Nat.mul_le_mono_l 1 frame_size (length (pre ++ bad :: post))
                    ltac:(lia)).
      lia.
  - intros data' results error_log Hread.
    rewrite read_binary_file_slots in Hread.
    injection Hread as _ <-. apply errors_offsets.
Qed.

Lemma kept_none (sl : list (nat * frame)) :
  Forall (fun s => emitted_frame (snd s) = false) sl -> kept_of sl = [].
Proof.
  induction 1 as [|[pos fd] sl Hfd _ IH]; [reflexivity|].
  now rewrite kept_cons_dropped.
Qed.

End ReaderProofs.

Lemma none_emitted_check (tz : Z) (time_offset : nat)
    (start_timestamp end_timestamp : Z) (frame_size : nat)
    (sl : list (nat * frame)) :
  forallb (fun s => negb (emitted tz time_offset start_timestamp end_timestamp
                            frame_size (snd s))) sl = true ->
  Forall (fun s => emitted tz time_offset start_timestamp end_timestamp
                     frame_size (snd s) = false) sl.
Proof.
  intros H. apply List.Forall_forall. intros s Hs.
  rewrite forallb_forall in H. apply H in Hs. now apply negb_true_iff in Hs.
Qed.

(** ** One data file of [data_process] *)

(** C8. When no slot of the file holds a frame inside the time window, the
    reader's result list is empty, the outcome is [EmptyResultSet] and no
    data-judge function is called; whenever one is called, it is called on
    the reader's non-empty result list. *)
Theorem empty_result_set_skips_judge (tz : Z) (obj1 : string)
    (frameoffset timeoffset : nat) (starttime endtime : Z) (framesize : nat)
    (data : list Byte.byte) :
  Forall (fun s => emitted tz timeoffset starttime endtime framesize (snd s) = false)
         (all_slots frameoffset framesize data) ->
  (exists error_log,
     read_binary_file tz frameoffset timeoffset starttime endtime framesize data
     = Some ([], error_log))
  /\ data_process tz obj1 frameoffset timeoffset starttime endtime
       framesize data = Some EmptyResultSet
  /\ (forall obj1' data' p frame_data r,
        data_process tz obj1' frameoffset timeoffset starttime endtime
          framesize data' = Some (Judged p frame_data r) ->
        frame_data <> []
        /\ (exists error_log,
              read_binary_file tz frameoffset timeoffset starttime endtime
                framesize data' = Some (frame_data, error_log))
        /\ r = data_judge tz p frame_data timeoffset).
Proof.
  intros Hnone.
  pose proof (read_binary_file_slots tz frameoffset timeoffset starttime
                endtime framesize data) as Hread.
  rewrite (kept_none _ _ _ _ _ _ Hnone) in Hread.
  split; [eexists; exact Hread|].
  split; [unfold data_process; now rewrite Hread|].
  intros obj1' data' p frame_data r. unfold data_process.
  destruct (read_binary_file _ _ _ _ _ _ data') as [[fds elog]|];
    [|discriminate].
  destruct fds as [|fd fds]; [discriminate|].
  destruct (profile_of obj1') as [p'|]; [|discriminate].
  intros H. injection H as <- <- <-.
  split; [discriminate|]. split; [now exists elog|reflexivity].
Qed.

(** ** Execution of blocks *)

Lemma rbind_ok {A B : Type} (m : result A) (k : A -> result B) (b : B) :
  rbind m k = Ok b -> exists a, m = Ok a /\ k a = Ok b.
Proof. destruct m as [a|e]; [|discriminate]. intros H. now exists a. Qed.

Lemma getitem_inv (res : list value) (k : nat) (v : value) :
  getitem res k = Ok v -> res !! k = Some v.
Proof. unfold getitem. destruct (res !! k); [|discriminate]. congruence. Qed.

Lemma setitem_inv (res res' : list value) (k : nat) (v : value) :
  setitem res k v = Ok res' -> (k < length res)%nat /\ res' = <[k := v]> res.
Proof.
  unfold setitem. destruct (Nat.ltb_spec k (length res)) as [Hlt|Hge];
    [|discriminate].
  intros H. injection H as <-. now split.
Qed.

Lemma vgt_inv (a : num) (cur : value) (g : bool) :
  vgt (VNum a) cur = Ok g -> exists c, cur = VNum c /\ g = num_gt a c.
Proof.
  destruct cur as [c|s]; [|discriminate]. cbn. intros H. injection H as <-.
  now exists c.
Qed.

Lemma getitem_lookup (res : list value) (k : nat) (v : value) :
  res !! k = Some v -> getitem res k = Ok v.
Proof. intros H. unfold getitem. now rewrite H. Qed.

Lemma setitem_lt (res : list value) (k : nat) (v : value) :
  (k < length res)%nat -> setitem res k v = Ok (<[k := v]> res).
Proof.
  intros H. unfold setitem. destruct (Nat.ltb_spec k (length res)); [reflexivity|lia].
Qed.

Lemma val_ok (fd : field) (fr : frame) (v : num) :
  decode fd fr = Ok v -> val fd fr = v.
Proof. intros H. unfold val. now rewrite H. Qed.

(** Break a successful run of binds into its steps. *)
Ltac ok_inv :=
  repeat match goal with
  | H : rbind _ _ = Ok _ |- _ =>
      let a := fresh "a" in let Ha := fresh "Ha" in
      apply rbind_ok in H; destruct H as (a & Ha & H); cbv beta in H
  | H : getitem _ _ = Ok _ |- _ => apply getitem_inv in H
  | H : setitem _ _ _ = Ok _ |- _ =>
      let Hlt := fresh "Hlt" in
      apply setitem_inv in H; destruct H as [Hlt H]; subst
  | H : vgt (VNum _) _ = Ok _ |- _ =>
      let c := fresh "c" in
      apply vgt_inv in H; destruct H as (c & ? & ?); subst
  | H : Ok _ = Ok _ |- _ =>
      let E := fresh "E" in injection H as E; subst
  | H : (if ?c then _ else _) = Ok _ |- _ => destruct c eqn:?
  end.

Lemma range_loop_frame (fr : frame) (ft : string) (slot : nat) :
  forall count first res res',
    range_loop fr ft slot first count res = Ok res' ->
    length res' = length res /\
    forall j, j <> slot -> res' !! j = res !! j.
Proof.
  induction count as [|count IH]; intros first res res' H.
  - cbn in H. injection H as <-. now split.
  - cbn [range_loop] in H.
    apply rbind_ok in H. destruct H as (c & Hc & H). cbv beta in H.
    apply rbind_ok in H. destruct H as (res1 & H1 & H). cbv beta in H.
    apply IH in H. destruct H as [Hlen Hj].
    destruct c.
    + apply setitem_inv in H1. destruct H1 as [Hlt ->].
      rewrite length_insert in Hlen. split; [exact Hlen|].
      intros j Hne. rewrite Hj by exact Hne.
      now apply list_lookup_insert_ne.
    + injection H1 as <-. now split.
Qed.

(** A block changes no slot but its own, and never the length. *)
Lemma exec_block_frame (speed : num) (ft : string) (fr : frame) (b : block)
    (res res' : list value) :
  exec_block speed ft fr b res = Ok res' ->
  length res' = length res /\
  forall j, j ∉ block_slots b -> res' !! j = res !! j.
Proof.
  destruct b as [slot|tests slot|first count slot|cmp store slot|amp fre slot];
    cbn [exec_block block_slots]; intros H.
  - ok_inv; (split; [now rewrite ?length_insert|]); intros j Hj;
      rewrite ?not_elem_of_cons in Hj; destruct_and?;
      rewrite ?list_lookup_insert_ne by lia; reflexivity.
  - ok_inv; (split; [now rewrite ?length_insert|]); intros j Hj;
      rewrite ?not_elem_of_cons in Hj; destruct_and?;
      rewrite ?list_lookup_insert_ne by lia; reflexivity.
  - apply range_loop_frame in H. destruct H as [Hlen Hj].
    split; [exact Hlen|]. intros j Hn. apply Hj.
    rewrite not_elem_of_cons in Hn. tauto.
  - ok_inv; (split; [now rewrite ?length_insert|]); intros j Hj;
      rewrite ?not_elem_of_cons in Hj; destruct_and?;
      rewrite ?list_lookup_insert_ne by lia; reflexivity.
  - ok_inv; (split; [now rewrite ?length_insert|]); intros j Hj;
      rewrite ?not_elem_of_cons in Hj; destruct_and?;
      rewrite ?list_lookup_insert_ne by lia; reflexivity.
Qed.

Lemma run_blocks_frame (speed : num) (ft : string) (fr : frame) :
  forall blocks res res',
    run_blocks speed ft fr blocks res = Ok res' ->
    length res' = length res /\
    forall j, j ∉ flat_map block_slots blocks -> res' !! j = res !! j.
Proof.
  induction blocks as [|b blocks IH]; intros res res' H.
  - cbn in H. injection H as <-. now split.
  - cbn [run_blocks] in H. apply rbind_ok in H.
    destruct H as (res1 & H1 & H). cbv beta in H.
    apply exec_block_frame in H1. destruct H1 as [Hlen1 Hj1].
    apply IH in H. destruct H as [Hlen Hj].
    split; [congruence|]. intros j Hn. cbn [flat_map] in Hn.
    rewrite not_elem_of_app in Hn. destruct Hn as [Hn1 Hn2].
    now rewrite Hj, Hj1.
Qed.

(** In a run of blocks with pairwise disjoint slots, each block sees its
    slots as they were before the run and leaves them as they are after. *)
Lemma run_blocks_at (speed : num) (ft : string) (fr : frame) (b : block) :
  forall blocks res res',
    NoDup (flat_map block_slots blocks) ->
    b ∈ blocks ->
    run_blocks speed ft fr blocks res = Ok res' ->
    exists res0 res1,
      exec_block speed ft fr b res0 = Ok res1 /\
      forall j, j ∈ block_slots b ->
                res0 !! j = res !! j /\ res1 !! j = res' !! j.
Proof.
  induction blocks as [|a blocks IH]; intros res res' Hnd Hin H.
  - now apply elem_of_nil in Hin.
  - cbn [run_blocks] in H. apply rbind_ok in H.
    destruct H as (res1 & H1 & H). cbv beta in H.
    cbn [flat_map] in Hnd. apply NoDup_app in Hnd.
    destruct Hnd as (_ & Hdisj & Hnd).
    apply elem_of_cons in Hin. destruct Hin as [->|Hin].
    + exists res, res1. split; [exact H1|]. intros j Hj. split; [reflexivity|].
      apply run_blocks_frame in H. destruct H as [_ Hfr].
      symmetry. apply Hfr. now apply Hdisj.
    + destruct (IH res1 res' Hnd Hin H) as (r0 & r1 & Hex & Hslots).
      exists r0, r1. split; [exact Hex|]. intros j Hj.
      destruct (Hslots j Hj) as [Hin0 Hout]. split; [|exact Hout].
      rewrite Hin0. apply exec_block_frame in H1. destruct H1 as [_ Hfr].
      apply Hfr. intros Hja. apply (Hdisj j Hja).
      apply list_elem_of_In, in_flat_map. exists b.
      split; apply list_elem_of_In; assumption.
Qed.

(** *** What a block does to its own slots *)

Lemma exec_mws (speed : num) (ft : string) (fr : frame) (cmp store : field)
    (slot : nat) (res res' : list value) (best sp : num) :
  exec_block speed ft fr (BMws cmp store slot) res = Ok res' ->
  res !! slot = Some (VNum best) ->
  res !! (slot + 1)%nat = Some (VNum sp) ->
  res' !! slot = Some (VNum (fst (mws_step (val cmp fr) (val store fr) speed (best, sp))))
  /\ res' !! (slot + 1)%nat
     = Some (VNum (snd (mws_step (val cmp fr) (val store fr) speed (best, sp)))).
Proof.
  cbn [exec_block]. intros H Hb Hs.
  apply rbind_ok in H. destruct H as (v & Hv & H). cbv beta in H.
  rewrite (val_ok _ _ _ Hv).
  rewrite (getitem_lookup _ _ _ Hb) in H. cbn [rbind vgt] in H.
  unfold mws_step.
  destruct (num_gt v best).
  - apply rbind_ok in H. destruct H as (v' & Hv' & H). cbv beta in H.
    rewrite (val_ok _ _ _ Hv'). ok_inv. cbn [fst snd].
    split.
    + rewrite list_lookup_insert_ne by lia.
      now apply list_lookup_insert_eq.
    + now apply list_lookup_insert_eq.
  - cbn [veq] in H. destruct (num_eq v best).
    + rewrite (getitem_lookup _ _ _ Hs) in H. cbn [rbind vgt] in H.
      destruct (num_gt speed sp); cbn [fst snd].
      * ok_inv. split.
        -- rewrite list_lookup_insert_ne by lia. exact Hb.
        -- now apply list_lookup_insert_eq.
      * injection H as <-. now split.
    + injection H as <-. now split.
Qed.

Lemma run_blocks_mws (speed : num) (ft : string) (fr : frame)
    (cmp store : field) (slot : nat) (blocks : list block)
    (res res' : list value) (best sp : num) :
  NoDup (flat_map block_slots blocks) ->
  BMws cmp store slot ∈ blocks ->
  run_blocks speed ft fr blocks res = Ok res' ->
  res !! slot = Some (VNum best) ->
  res !! (slot + 1)%nat = Some (VNum sp) ->
  res' !! slot = Some (VNum (fst (mws_step (val cmp fr) (val store fr) speed (best, sp))))
  /\ res' !! (slot + 1)%nat
     = Some (VNum (snd (mws_step (val cmp fr) (val store fr) speed (best, sp)))).
Proof.
  intros Hnd Hin Hrun Hb Hs.
  destruct (run_blocks_at _ _ _ _ _ _ _ Hnd Hin Hrun) as (r0 & r1 & Hex & Hsl).
  assert (H0 : slot ∈ block_slots (BMws cmp store slot)) by (cbn; rewrite !elem_of_cons; auto).
  assert (H1 : (slot + 1)%nat ∈ block_slots (BMws cmp store slot))
    by (cbn; rewrite !elem_of_cons; auto).
  destruct (Hsl _ H0) as [Hi0 Ho0]. destruct (Hsl _ H1) as [Hi1 Ho1].
  rewrite <- Hi0 in Hb. rewrite <- Hi1 in Hs.
  destruct (exec_mws _ _ _ _ _ _ _ _ _ _ Hex Hb Hs) as [E0 E1].
  rewrite <- Ho0, <- Ho1. now split.
Qed.

Lemma mws_step_same (v speed : num) (acc : num * num) :
  mws_step v v speed acc = MaxWithSpeedTiebreak acc (v, speed).
Proof.
  destruct acc as [best sp]. unfold mws_step, MaxWithSpeedTiebreak.
  destruct (num_gt v best); [reflexivity|].
  destruct (num_eq v best); [|reflexivity].
  now destruct (num_gt speed sp).
Qed.

Lemma exec_maf (speed : num) (ft : string) (fr : frame) (amp fre : field)
    (slot : nat) (res res' : list value) (ba bf bs : num) :
  exec_block speed ft fr (BMaf amp fre slot) res = Ok res' ->
  res !! slot = Some (VNum ba) ->
  res !! (slot + 1)%nat = Some (VNum bf) ->
  res !! (slot + 2)%nat = Some (VNum bs) ->
  let acc' :=
    MaxAmplitudeFrequencySpeed (ba, bf, bs) (val amp fr, val fre fr, speed) in
  res' !! slot = Some (VNum (fst (fst acc')))
  /\ res' !! (slot + 1)%nat = Some (VNum (snd (fst acc')))
  /\ res' !! (slot + 2)%nat = Some (VNum (snd acc')).
Proof.
  cbn [exec_block]. intros H Ha Hf Hs.
  apply rbind_ok in H. destruct H as (a & Hda & H). cbv beta in H.
  apply rbind_ok in H. destruct H as (f & Hdf & H). cbv beta in H.
  rewrite (val_ok _ _ _ Hda), (val_ok _ _ _ Hdf).
  rewrite (getitem_lookup _ _ _ Ha) in H. cbn [rbind vgt veq] in H.
  unfold MaxAmplitudeFrequencySpeed.
  destruct (num_gt a ba).
  - ok_inv. cbn [fst snd]. rewrite !length_insert in *.
    repeat split.
    + rewrite !list_lookup_insert_ne by lia. now apply list_lookup_insert_eq.
    + rewrite list_lookup_insert_ne by lia.
      apply list_lookup_insert_eq. now rewrite length_insert.
    + apply list_lookup_insert_eq. now rewrite !length_insert.
  - destruct (num_eq a ba); cbn [andb]; [|injection H as <-; now repeat split].
    rewrite (getitem_lookup _ _ _ Hf) in H. cbn [rbind vgt veq] in H.
    destruct (num_gt f bf).
    + ok_inv. cbn [fst snd]. rewrite !length_insert in *.
      repeat split.
      * rewrite !list_lookup_insert_ne by lia. exact Ha.
      * rewrite list_lookup_insert_ne by lia. now apply list_lookup_insert_eq.
      * apply list_lookup_insert_eq. now rewrite length_insert.
    + destruct (num_eq f bf); [|injection H as <-; now repeat split].
      rewrite (getitem_lookup _ _ _ Hs) in H. cbn [rbind vgt] in H.
      destruct (num_gt speed bs); cbn [fst snd].
      * ok_inv. repeat split.
        -- rewrite list_lookup_insert_ne by lia. exact Ha.
        -- rewrite list_lookup_insert_ne by lia. exact Hf.
        -- now apply list_lookup_insert_eq.
      * injection H as <-. now repeat split.
Qed.

Lemma exec_max (speed : num) (ft : string) (fr : frame) (slot : nat)
    (res res' : list value) (cur : num) :
  exec_block speed ft fr (BMax slot) res = Ok res' ->
  res !! slot = Some (VNum cur) ->
  res' !! slot = Some (VNum (if num_gt speed cur then speed else cur)).
Proof.
  cbn [exec_block]. intros H Hc.
  rewrite (getitem_lookup _ _ _ Hc) in H. cbn [rbind vgt] in H.
  destruct (num_gt speed cur).
  - ok_inv. now apply list_lookup_insert_eq.
  - now injection H as <-.
Qed.

Lemma range_loop_slot (fr : frame) (ft : string) (slot : nat) :
  forall count first res res',
    range_loop fr ft slot first count res = Ok res' ->
    res' !! slot =
      if block_cond (BRange first count slot) fr
      then Some (VStr ft) else res !! slot.
Proof.
  induction count as [|count IH]; intros first res res' H.
  - cbn in H. now injection H as <-.
  - cbn [range_loop] in H.
    apply rbind_ok in H. destruct H as (c & Hc & H). cbv beta in H.
    apply rbind_ok in H. destruct H as (res1 & H1 & H). cbv beta in H.
    pose proof (IH _ _ _ H) as Hrest.
    cbn [block_cond seq existsb] in *. rewrite Hc. rewrite Hrest.
    destruct (existsb _ (seq (S first) count)) eqn:Hany.
    + now rewrite orb_true_r.
    + rewrite orb_false_r. destruct c.
      * apply setitem_inv in H1. destruct H1 as [Hlt ->].
        now apply list_lookup_insert_eq.
      * now injection H1 as <-.
Qed.

Lemma exec_event (speed : num) (ft : string) (fr : frame) (b : block)
    (slot : nat) (res res' : list value) :
  (exists tests, b = BEvent tests slot)
  \/ (exists first count, b = BRange first count slot) ->
  exec_block speed ft fr b res = Ok res' ->
  res' !! slot = if block_cond b fr then Some (VStr ft) else res !! slot.
Proof.
  intros [(tests & ->)|(first & count & ->)] H.
  - cbn [exec_block] in H. cbn [block_cond].
    apply rbind_ok in H. destruct H as (c & Hc & H). cbv beta in H.
    rewrite Hc. destruct c.
    + ok_inv. now apply list_lookup_insert_eq.
    + now injection H as <-.
  - now apply range_loop_slot.
Qed.

Lemma fold_left_map_obs {A B C : Type} (f : A -> B -> A) (g : C -> B)
    (l : list C) :
  forall a, fold_left f (map g l) a = fold_left (fun a x => f a (g x)) l a.
Proof. induction l as [|x l IH]; intros a; [reflexivity|]. cbn. apply IH. Qed.

Lemma fold_left_pointwise {A B : Type} (f g : A -> B -> A) (l : list B) :
  (forall a x, f a x = g a x) ->
  forall a, fold_left f l a = fold_left g l a.
Proof.
  intros H. induction l as [|x l IH]; intros a; [reflexivity|].
  cbn. rewrite H. apply IH.
Qed.

(** *** The loop over the frames *)

Section JudgeLoop.

Variable tz : Z.
Variable p : profile.
Variable time_offset : nat.

(** Whatever a view of the vector does at each frame, it does as a fold
    over the frame list. *)
Lemma judge_loop_fold {S : Type} (view : list value -> option S)
    (step : frame -> S -> S) :
  (forall res fr res' st,
     judge_frame tz p time_offset res fr = Ok res' ->
     view res = Some st -> view res' = Some (step fr st)) ->
  forall framelist res res' st,
    judge_loop tz p time_offset framelist res = Ok res' ->
    view res = Some st ->
    view res' = Some (fold_left (fun st fr => step fr st) framelist st).
Proof.
  intros Hstep. induction framelist as [|fr framelist IH];
    intros res res' st H Hv.
  - cbn in H. now injection H as <-.
  - cbn [judge_loop] in H. apply rbind_ok in H.
    destruct H as (res1 & H1 & H). cbv beta in H.
    cbn [fold_left]. eapply IH; [exact H|]. eapply Hstep; eassumption.
Qed.

Lemma judge_frame_inv (res res' : list value) (fr : frame) :
  judge_frame tz p time_offset res fr = Ok res' ->
  exists t speed,
    extract_frame_time tz fr time_offset = Ok t /\
    frame_time tz time_offset fr = strftime (fromtimestamp tz t) /\
    decode (p_speed p) fr = Ok speed /\
    frame_speed p fr = speed /\
    run_blocks speed (frame_time tz time_offset fr) fr (p_blocks p) res = Ok res'.
Proof.
  unfold judge_frame. intros H.
  apply rbind_ok in H. destruct H as (t & Ht & H). cbv beta zeta in H.
  apply rbind_ok in H. destruct H as (speed & Hs & H). cbv beta in H.
  exists t, speed. unfold frame_time, frame_speed. rewrite Ht.
  rewrite (val_ok _ _ _ Hs). auto.
Qed.

Hypothesis Hwf : wf_profile p.

Lemma view2_inv slot res a b :
  view2 slot res = Some (a, b) ->
  res !! slot = Some (VNum a) /\ res !! (slot + 1)%nat = Some (VNum b).
Proof.
  unfold view2.
  destruct (res !! slot) as [[x|]|]; try discriminate.
  destruct (res !! (slot + 1)%nat) as [[y|]|]; try discriminate.
  intros H. injection H as <- <-. now split.
Qed.

Lemma view3_inv slot res a b c :
  view3 slot res = Some (a, b, c) ->
  res !! slot = Some (VNum a) /\ res !! (slot + 1)%nat = Some (VNum b)
  /\ res !! (slot + 2)%nat = Some (VNum c).
Proof.
  unfold view3.
  destruct (res !! slot) as [[x|]|]; try discriminate.
  destruct (res !! (slot + 1)%nat) as [[y|]|]; try discriminate.
  destruct (res !! (slot + 2)%nat) as [[z|]|]; try discriminate.
  intros H. injection H as <- <- <-. now repeat split.
Qed.

Lemma judge_loop_mws (cmp store : field) (slot : nat)
    (framelist : list frame) (res res' : list value) (acc : num * num) :
  BMws cmp store slot ∈ p_blocks p ->
  judge_loop tz p time_offset framelist res = Ok res' ->
  view2 slot res = Some acc ->
  view2 slot res' =
    Some (fold_left
            (fun acc fr =>
               mws_step (val cmp fr) (val store fr) (frame_speed p fr) acc)
            framelist acc).
Proof.
  intros Hin. apply (judge_loop_fold (view2 slot)
    (fun fr acc => mws_step (val cmp fr) (val store fr) (frame_speed p fr) acc)).
  intros r fr r' [best sp] Hfr Hv.
  destruct (judge_frame_inv _ _ _ Hfr) as (t & speed & _ & _ & _ & Hsp & Hrun).
  apply view2_inv in Hv. destruct Hv as [Hb Hs].
  destruct (run_blocks_mws _ _ _ _ _ _ _ _ _ _ _ (proj1 Hwf) Hin Hrun Hb Hs)
    as [E0 E1].
  unfold view2. rewrite E0, E1, Hsp. now destruct (mws_step _ _ _ _).
Qed.

Lemma judge_loop_maf (amp fre : field) (slot : nat)
    (framelist : list frame) (res res' : list value) (acc : num * num * num) :
  BMaf amp fre slot ∈ p_blocks p ->
  judge_loop tz p time_offset framelist res = Ok res' ->
  view3 slot res = Some acc ->
  view3 slot res' =
    Some (fold_left MaxAmplitudeFrequencySpeed
            (map (fun fr => (val amp fr, val fre fr, frame_speed p fr)) framelist)
            acc).
Proof.
  intros Hin Hloop Hv.
  rewrite fold_left_map_obs.
  revert Hloop Hv.
  apply (judge_loop_fold (view3 slot)
    (fun fr acc => MaxAmplitudeFrequencySpeed acc
                     (val amp fr, val fre fr, frame_speed p fr))).
  intros r fr r' [[ba bf] bs] Hfr Hv.
  destruct (judge_frame_inv _ _ _ Hfr) as (t & speed & _ & _ & _ & Hsp & Hrun).
  apply view3_inv in Hv. destruct Hv as (Ha & Hf & Hs).
  destruct (run_blocks_at _ _ _ _ _ _ _ (proj1 Hwf) Hin Hrun)
    as (r0 & r1 & Hex & Hsl).
  assert (H0 : slot ∈ block_slots (BMaf amp fre slot))
    by (cbn; rewrite !elem_of_cons; auto).
  assert (H1 : (slot + 1)%nat ∈ block_slots (BMaf amp fre slot))
    by (cbn; rewrite !elem_of_cons; auto).
  assert (H2 : (slot + 2)%nat ∈ block_slots (BMaf amp fre slot))
    by (cbn; rewrite !elem_of_cons; auto).
  destruct (Hsl _ H0) as [Hi0 Ho0]. destruct (Hsl _ H1) as [Hi1 Ho1].
  destruct (Hsl _ H2) as [Hi2 Ho2].
  rewrite <- Hi0 in Ha. rewrite <- Hi1 in Hf. rewrite <- Hi2 in Hs.
  destruct (exec_maf _ _ _ _ _ _ _ _ _ _ _ Hex Ha Hf Hs) as (E0 & E1 & E2).
  unfold view3. rewrite <- Ho0, <- Ho1, <- Ho2, E0, E1, E2, Hsp.
  now destruct (MaxAmplitudeFrequencySpeed _ _) as [[? ?] ?].
Qed.

Lemma judge_loop_event (b : block) (slot : nat)
    (framelist : list frame) (res res' : list value) (v : value) :
  (exists tests, b = BEvent tests slot)
  \/ (exists first count, b = BRange first count slot) ->
  b ∈ p_blocks p ->
  judge_loop tz p time_offset framelist res = Ok res' ->
  res !! slot = Some v ->
  res' !! slot =
    Some (fold_left
            (fun v fr =>
               if block_cond b fr then VStr (frame_time tz time_offset fr) else v)
            framelist v).
Proof.
  intros Hb Hin. apply (judge_loop_fold (fun res => res !! slot)
    (fun fr v => if block_cond b fr
                 then VStr (frame_time tz time_offset fr) else v)).
  intros r fr r' v0 Hfr Hv.
  destruct (judge_frame_inv _ _ _ Hfr) as (t & speed & _ & _ & _ & _ & Hrun).
  destruct (run_blocks_at _ _ _ _ _ _ _ (proj1 Hwf) Hin Hrun)
    as (r0 & r1 & Hex & Hsl).
  assert (H0 : slot ∈ block_slots b).
  { destruct Hb as [(tests & ->)|(first & count & ->)];
      cbn; rewrite elem_of_cons; auto. }
  destruct (Hsl _ H0) as [Hi0 Ho0].
  rewrite <- Ho0, (exec_event _ _ _ _ _ _ _ Hb Hex), Hi0, Hv.
  now destruct (block_cond b fr).
Qed.

Lemma judge_loop_max (slot : nat) (framelist : list frame)
    (res res' : list value) (cur : num) :
  BMax slot ∈ p_blocks p ->
  judge_loop tz p time_offset framelist res = Ok res' ->
  view1 slot res = Some cur ->
  view1 slot res' =
    Some (fold_left
            (fun cur fr =>
               if num_gt (frame_speed p fr) cur then frame_speed p fr else cur)
            framelist cur).
Proof.
  intros Hin. apply (judge_loop_fold (view1 slot)
    (fun fr cur => if num_gt (frame_speed p fr) cur
                   then frame_speed p fr else cur)).
  intros r fr r' c Hfr Hv.
  destruct (judge_frame_inv _ _ _ Hfr) as (t & speed & _ & _ & _ & Hsp & Hrun).
  destruct (run_blocks_at _ _ _ _ _ _ _ (proj1 Hwf) Hin Hrun)
    as (r0 & r1 & Hex & Hsl).
  assert (H0 : slot ∈ block_slots (BMax slot))
    by (cbn; rewrite elem_of_cons; auto).
  unfold view1 in Hv. destruct (r !! slot) as [[a|]|] eqn:Hr; try discriminate.
  injection Hv as ->.
  destruct (Hsl _ H0) as [Hi0 Ho0]. rewrite Hr in Hi0.
  pose proof (exec_max _ _ _ _ _ _ _ Hex Hi0) as E.
  unfold view1. now rewrite <- Ho0, E, Hsp.
Qed.

End JudgeLoop.

(** ** The data-judge functions return on well-formed frames *)

Lemma getbyte_total (fr : frame) (i : nat) :
  (i < length fr)%nat -> exists b, getbyte fr i = Ok b /\ 0 <= b < 256.
Proof.
  intros H. destruct (getbyte_in fr i H) as (c & _ & Hc).
  exists (byte_val c). split; [exact Hc|].
  unfold byte_val. pose proof (Byte.to_N_bounded c). lia.
Qed.

Lemma unpack_H_total (fr : frame) (i : nat) :
  (S i < length fr)%nat -> exists w, unpack_H fr i = Ok w /\ 0 <= w < 65536.
Proof.
  intros H. unfold unpack_H.
  destruct (lookup_lt_is_Some_2 fr i ltac:(lia)) as [hi Hhi].
  destruct (lookup_lt_is_Some_2 fr (S i) H) as [lo Hlo].
  rewrite Hhi, Hlo. eexists. split; [reflexivity|].
  unfold byte_val.
  pose proof (Byte.to_N_bounded hi). pose proof (Byte.to_N_bounded lo). lia.
Qed.

Lemma decode_total (fd : field) (fr : frame) :
  (field_reach fd <= length fr)%nat -> exists v, decode fd fr = Ok v.
Proof.
  destruct fd as [i|i scale|i scale|i scale]; cbn [field_reach decode]; intros H.
  - destruct (getbyte_total fr i ltac:(lia)) as (b & -> & _). now eexists.
  - destruct (getbyte_total fr i ltac:(lia)) as (b & -> & _). now eexists.
  - destruct (unpack_H_total fr i ltac:(lia)) as (w & -> & _). now eexists.
  - destruct (unpack_H_total fr i ltac:(lia)) as (w & -> & _). now eexists.
Qed.

Lemma any_test_total (fr : frame) (tests : list test) :
  (foldr Nat.max 0%nat (map test_reach tests) <= length fr)%nat ->
  exists c, any_test fr tests = Ok c.
Proof.
  induction tests as [|t tests IH]; cbn [map foldr any_test]; intros H.
  - now eexists.
  - assert (Ht : exists c, eval_test fr t = Ok c).
    { destruct t as [i mask|i]; cbn [test_reach eval_test] in *;
        destruct (getbyte_total fr i ltac:(lia)) as (b & -> & _); now eexists. }
    destruct Ht as [c ->]. cbn [rbind]. destruct c; [now eexists|].
    apply IH. lia.
Qed.

Lemma range_loop_total (fr : frame) (ft : string) (slot : nat) :
  forall count first res,
    (first + count <= length fr)%nat ->
    is_Some (res !! slot) ->
    exists res', range_loop fr ft slot first count res = Ok res'.
Proof.
  induction count as [|count IH]; intros first res Hlen Hs; cbn [range_loop].
  - now eexists.
  - unfold out_of_range at 1.
    destruct (getbyte_total fr first ltac:(lia)) as (b & -> & _).
    cbn [rbind].
    destruct (_ || _).
    + rewrite setitem_lt by (now apply lookup_lt_is_Some). cbn [rbind].
      apply IH; [lia|]. apply lookup_lt_is_Some. rewrite length_insert.
      now apply lookup_lt_is_Some.
    + cbn [rbind]. apply IH; [lia|exact Hs].
Qed.

Lemma is_num_lt (res : list value) (j : nat) :
  is_num res j -> (j < length res)%nat.
Proof. intros [a Ha]. now apply lookup_lt_Some in Ha. Qed.

Lemma exec_block_runs (speed : num) (ft : string) (fr : frame) (b : block)
    (res : list value) :
  (block_reach b <= length fr)%nat ->
  slots_typed res b ->
  exists res', exec_block speed ft fr b res = Ok res'.
Proof.
  destruct b as [slot|tests slot|first count slot|cmp store slot|amp fre slot];
    cbn [block_reach slots_typed exec_block]; intros Hlen Ht.
  - destruct Ht as [cur Hc]. rewrite (getitem_lookup _ _ _ Hc).
    cbn [rbind vgt]. destruct (num_gt speed cur); [|now eexists].
    rewrite setitem_lt by (now apply lookup_lt_Some in Hc). now eexists.
  - destruct (any_test_total fr tests Hlen) as [c ->]. cbn [rbind].
    destruct c; [|now eexists].
    rewrite setitem_lt by (now apply lookup_lt_is_Some). now eexists.
  - now apply range_loop_total.
  - destruct Ht as [[best Hb] Hs].
    destruct (decode_total cmp fr ltac:(lia)) as [v ->].
    destruct (decode_total store fr ltac:(lia)) as [v' ->].
    rewrite (getitem_lookup _ _ _ Hb). cbn [rbind vgt veq].
    pose proof (is_num_lt _ _ Hs) as Hlt1. apply lookup_lt_Some in Hb.
    destruct (num_gt v best).
    + rewrite setitem_lt by exact Hb. cbn [rbind].
      rewrite setitem_lt by (now rewrite length_insert). now eexists.
    + destruct (num_eq v best); [|now eexists].
      destruct Hs as [sp Hs]. rewrite (getitem_lookup _ _ _ Hs).
      cbn [rbind vgt]. destruct (num_gt speed sp); [|now eexists].
      rewrite setitem_lt by exact Hlt1. now eexists.
  - destruct Ht as ([ba Ha] & Hf & Hs).
    destruct (decode_total amp fr ltac:(lia)) as [a ->].
    destruct (decode_total fre fr ltac:(lia)) as [f ->].
    rewrite (getitem_lookup _ _ _ Ha). cbn [rbind vgt veq].
    pose proof (is_num_lt _ _ Hf) as Hlt1.
    pose proof (is_num_lt _ _ Hs) as Hlt2. apply lookup_lt_Some in Ha.
    destruct (num_gt a ba).
    + rewrite setitem_lt by exact Ha. cbn [rbind].
      rewrite setitem_lt by (now rewrite length_insert). cbn [rbind].
      rewrite setitem_lt by (now rewrite !length_insert). now eexists.
    + destruct (num_eq a ba); [|now eexists].
      destruct Hf as [bf Hf]. rewrite (getitem_lookup _ _ _ Hf).
      cbn [rbind vgt veq]. destruct (num_gt f bf).
      * rewrite setitem_lt by exact Hlt1. cbn [rbind].
        rewrite setitem_lt by (now rewrite length_insert). now eexists.
      * destruct (num_eq f bf); [|now eexists].
        destruct Hs as [bs Hs]. rewrite (getitem_lookup _ _ _ Hs).
        cbn [rbind vgt]. destruct (num_gt speed bs); [|now eexists].
        rewrite setitem_lt by exact Hlt2. now eexists.
Qed.

(** A block leaves its own slots typed as it found them. *)
Lemma exec_block_typed (speed : num) (ft : string) (fr : frame) (b : block)
    (res res' : list value) :
  exec_block speed ft fr b res = Ok res' ->
  slots_typed res b -> slots_typed res' b.
Proof.
  destruct b as [slot|tests slot|first count slot|cmp store slot|amp fre slot];
    cbn [slots_typed]; intros H Ht.
  - destruct Ht as [cur Hc]. eexists. eapply exec_max; eassumption.
  - apply exec_block_frame in H. destruct H as [Hlen _].
    apply lookup_lt_is_Some. rewrite Hlen. now apply lookup_lt_is_Some.
  - apply exec_block_frame in H. destruct H as [Hlen _].
    apply lookup_lt_is_Some. rewrite Hlen. now apply lookup_lt_is_Some.
  - destruct Ht as [[best Hb] [sp Hs]].
    destruct (exec_mws _ _ _ _ _ _ _ _ _ _ H Hb Hs) as [E0 E1].
    split; eexists; eassumption.
  - destruct Ht as ([ba Ha] & [bf Hf] & [bs Hs]).
    destruct (exec_maf _ _ _ _ _ _ _ _ _ _ _ H Ha Hf Hs) as (E0 & E1 & E2).
    repeat split; eexists; eassumption.
Qed.

Lemma slots_typed_ext (b : block) (res1 res2 : list value) :
  (forall j, j ∈ block_slots b -> res2 !! j = res1 !! j) ->
  slots_typed res1 b -> slots_typed res2 b.
Proof.
  intros Hext.
  assert (Hnum : forall j, j ∈ block_slots b -> is_num res1 j -> is_num res2 j).
  { intros j Hj [a Ha]. exists a. now rewrite Hext. }
  destruct b as [slot|tests slot|first count slot|cmp store slot|amp fre slot];
    cbn [slots_typed block_slots] in *.
  - apply Hnum. rewrite elem_of_cons; auto.
  - rewrite Hext; [auto|rewrite elem_of_cons; auto].
  - rewrite Hext; [auto|rewrite elem_of_cons; auto].
  - intros [H0 H1]. split; (apply Hnum; [rewrite !elem_of_cons; auto|assumption]).
  - intros (H0 & H1 & H2).
    repeat split; (apply Hnum; [rewrite !elem_of_cons; auto|assumption]).
Qed.

Lemma run_blocks_total (speed : num) (ft : string) (fr : frame) :
  forall blocks res,
    NoDup (flat_map block_slots blocks) ->
    Forall (fun b => (block_reach b <= length fr)%nat) blocks ->
    Forall (slots_typed res) blocks ->
    exists res',
      run_blocks speed ft fr blocks res = Ok res' /\
      Forall (slots_typed res') blocks.
Proof.
  induction blocks as [|a blocks IH]; intros res Hnd Hlen Ht.
  - exists res. now split.
  - cbn [flat_map] in Hnd. apply NoDup_app in Hnd.
    destruct Hnd as (_ & Hdisj & Hnd).
    apply Forall_cons in Hlen. destruct Hlen as [Hla Hlen].
    apply Forall_cons in Ht. destruct Ht as [Hta Ht].
    destruct (exec_block_runs speed ft fr a res Hla Hta) as [res1 H1].
    pose proof (exec_block_typed _ _ _ _ _ _ H1 Hta) as Hta1.
    pose proof (exec_block_frame _ _ _ _ _ _ H1) as [_ Hfr1].
    assert (Ht1 : Forall (slots_typed res1) blocks).
    { apply Forall_forall. intros b Hb.
      apply (slots_typed_ext b res).
      - intros j Hj. apply Hfr1. intros Hja. apply (Hdisj j Hja).
        apply list_elem_of_In, in_flat_map. exists b.
        split; apply list_elem_of_In; assumption.
      - rewrite Forall_forall in Ht. now apply Ht. }
    destruct (IH res1 Hnd Hlen Ht1) as (res' & Hrun & Ht').
    exists res'. cbn [run_blocks]. rewrite H1. cbn [rbind].
    split; [exact Hrun|]. apply Forall_cons. split; [|exact Ht'].
    apply (slots_typed_ext a res1); [|exact Hta1].
    intros j Hj. apply run_blocks_frame in Hrun. destruct Hrun as [_ Hfr].
    apply Hfr. now apply Hdisj.
Qed.

Lemma reach_blocks (p : profile) (fr : frame) :
  (profile_reach p <= length fr)%nat ->
  (field_reach (p_speed p) <= length fr)%nat /\
  Forall (fun b => (block_reach b <= length fr)%nat) (p_blocks p).
Proof.
  unfold profile_reach. intros H. split; [lia|].
  assert (Hmax : (foldr Nat.max 0%nat (map block_reach (p_blocks p))
                  <= length fr)%nat) by lia.
  clear H. induction (p_blocks p) as [|b blocks IH]; [constructor|].
  cbn [map foldr] in Hmax. constructor; [lia|]. apply IH. lia.
Qed.

Section JudgeTotal.

Variable tz : Z.
Variable p : profile.
Variable time_offset : nat.
Hypothesis Hwf : wf_profile p.

Lemma judge_frame_total (res : list value) (fr : frame) :
  frame_ok tz p time_offset fr ->
  Forall (slots_typed res) (p_blocks p) ->
  exists res',
    judge_frame tz p time_offset res fr = Ok res' /\
    Forall (slots_typed res') (p_blocks p) /\
    length res' = length res.
Proof.
  intros [Hlen Htime] Ht. unfold judge_frame.
  destruct (extract_frame_time tz fr time_offset) as [t|e]; [|discriminate].
  cbn [rbind]. destruct (reach_blocks p fr Hlen) as [Hsp Hbl].
  destruct (decode_total _ _ Hsp) as [speed ->]. cbn [rbind].
  destruct (run_blocks_total speed (strftime (fromtimestamp tz t)) fr
              (p_blocks p) res (proj1 Hwf) Hbl Ht) as (res' & Hrun & Ht').
  exists res'. split; [exact Hrun|]. split; [exact Ht'|].
  now apply run_blocks_frame in Hrun.
Qed.

Lemma judge_loop_total (framelist : list frame) :
  Forall (frame_ok tz p time_offset) framelist ->
  forall res,
    Forall (slots_typed res) (p_blocks p) ->
    exists res',
      judge_loop tz p time_offset framelist res = Ok res' /\
      length res' = length res.
Proof.
  induction 1 as [|fr framelist Hfr _ IH]; intros res Ht.
  - exists res. now split.
  - destruct (judge_frame_total res fr Hfr Ht) as (res1 & H1 & Ht1 & Hl1).
    destruct (IH res1 Ht1) as (res' & Hrun & Hl).
    exists res'. cbn [judge_loop]. rewrite H1. cbn [rbind].
    split; [exact Hrun|congruence].
Qed.

Lemma initial_typed :
  Forall (slots_typed (replicate (p_size p) (VNum (NInt 0)))) (p_blocks p).
Proof.
  destruct Hwf as [_ Hin]. rewrite Forall_forall in Hin.
  apply Forall_forall. intros b Hb.
  assert (Hnum : forall j, j ∈ block_slots b ->
                           is_num (replicate (p_size p) (VNum (NInt 0))) j).
  { intros j Hj. exists (NInt 0). apply lookup_replicate_2. apply Hin.
    apply list_elem_of_In, in_flat_map. exists b.
    split; apply list_elem_of_In; assumption. }
  destruct b as [slot|tests slot|first count slot|cmp store slot|amp fre slot];
    cbn [slots_typed block_slots] in *.
  - apply Hnum. rewrite elem_of_cons; auto.
  - destruct (Hnum slot) as [a Ha]; [rewrite elem_of_cons; auto|].
    rewrite Ha. now eexists.
  - destruct (Hnum slot) as [a Ha]; [rewrite elem_of_cons; auto|].
    rewrite Ha. now eexists.
  - split; apply Hnum; rewrite !elem_of_cons; auto.
  - repeat split; apply Hnum; rewrite !elem_of_cons; auto.
Qed.

Lemma data_judge_total (framelist : list frame) :
  Forall (frame_ok tz p time_offset) framelist ->
  exists res,
    data_judge tz p framelist time_offset = Ok res /\
    length res = p_size p.
Proof.
  intros Hok. unfold data_judge.
  destruct (judge_loop_total framelist Hok _ initial_typed) as (res & Hrun & Hl).
  exists res. split; [exact Hrun|]. now rewrite Hl, length_replicate.
Qed.

Lemma initial_slot (j : nat) :
  (j < p_size p)%nat ->
  replicate (p_size p) (VNum (NInt 0)) !! j = Some (VNum (NInt 0)).
Proof. intros H. now apply lookup_replicate_2. Qed.

Lemma block_slot_lt (b : block) (j : nat) :
  b ∈ p_blocks p -> j ∈ block_slots b -> (j < p_size p)%nat.
Proof.
  intros Hb Hj. destruct Hwf as [_ Hin]. rewrite Forall_forall in Hin.
  apply Hin. apply list_elem_of_In, in_flat_map. exists b.
  split; apply list_elem_of_In; assumption.
Qed.

End JudgeTotal.

(** The four tables are well formed. *)
Lemma profiles_wf (p : profile) : In p profiles -> wf_profile p.
Proof.
  intros Hin. unfold profiles in Hin. cbn [In] in Hin.
  destruct Hin as [<-|[<-|[<-|[<-|[]]]]];
    (split;
     [ refine (bool_decide_unpack (NoDup _) _)
     | refine (bool_decide_unpack (Forall _ _) _) ];
     vm_compute; exact I).
Qed.

(** ** Ordering of decoded values

    The comparisons of binary64 values are those of their specification
    ([SFcompare]); on the values a 16-bit field decodes to they agree with
    the comparisons of the raw integers. *)

Ltac cmp_cases :=
  repeat match goal with
  | |- context [Z.compare ?a ?b] => destruct (Z.compare_spec a b)
  | |- context [Pos.compare_cont Eq ?a ?b] =>
      change (Pos.compare_cont Eq a b) with (Pos.compare a b)
  | |- context [Pos.compare ?a ?b] => destruct (Pos.compare_spec a b)
  end.

Lemma SFcompare_lt_trans (x y z : spec_float) :
  SFcompare x y = Some Lt -> SFcompare y z = Some Lt -> SFcompare x z = Some Lt.
Proof.
  destruct x as [sx|sx| |sx mx ex], y as [sy|sy| |sy my ey],
    z as [sz|sz| |sz mz ez]; cbn;
    try discriminate;
    try destruct sx; try destruct sy; try destruct sz;
    try discriminate; try reflexivity;
    cmp_cases; cbn; intros; try discriminate; try reflexivity; try lia.
Qed.

Lemma SFcompare_antisym (x y : spec_float) :
  SFcompare y x = option_map CompOpp (SFcompare x y).
Proof.
  destruct x as [sx|sx| |sx mx ex], y as [sy|sy| |sy my ey]; cbn;
    try reflexivity;
    try destruct sx; try destruct sy; try reflexivity;
    cmp_cases; cbn; try reflexivity; try lia.
Qed.

Lemma float_ltb_lt (x y : float) :
  PrimFloat.ltb x y = true <-> SFcompare (Prim2SF x) (Prim2SF y) = Some Lt.
Proof.
  rewrite FloatAxioms.ltb_spec. unfold SFltb.
  destruct (SFcompare _ _) as [[| |]|]; split; congruence.
Qed.

Lemma float_eqb_eq (x y : float) :
  PrimFloat.eqb x y = true <-> SFcompare (Prim2SF x) (Prim2SF y) = Some Eq.
Proof.
  rewrite FloatAxioms.eqb_spec. unfold SFeqb.
  destruct (SFcompare _ _) as [[| |]|]; split; congruence.
Qed.

Lemma float_ltb_trans (x y z : float) :
  PrimFloat.ltb x y = true -> PrimFloat.ltb y z = true ->
  PrimFloat.ltb x z = true.
Proof.
  rewrite !float_ltb_lt. apply SFcompare_lt_trans.
Qed.

Lemma float_ltb_asym (x y : float) :
  PrimFloat.ltb x y = true ->
  PrimFloat.ltb y x = false /\ PrimFloat.eqb x y = false
  /\ PrimFloat.eqb y x = false.
Proof.
  rewrite float_ltb_lt. intros H.
  rewrite FloatAxioms.ltb_spec, !FloatAxioms.eqb_spec. unfold SFltb, SFeqb.
  rewrite (SFcompare_antisym (Prim2SF x) (Prim2SF y)), H. now cbn.
Qed.

Lemma float_eqb_not_lt (x y : float) :
  PrimFloat.eqb x y = true ->
  PrimFloat.ltb x y = false /\ PrimFloat.ltb y x = false.
Proof.
  rewrite float_eqb_eq. intros H.
  rewrite !FloatAxioms.ltb_spec. unfold SFltb.
  rewrite (SFcompare_antisym (Prim2SF x) (Prim2SF y)), H. now cbn.
Qed.

(** A value numerically equal to another is not greater than it. *)
Lemma num_eq_not_gt (a b : num) :
  num_eq a b = true -> num_gt a b = false /\ num_gt b a = false.
Proof.
  destruct a as [x|x], b as [y|y]; cbn [num_eq num_gt to_float];
    try (intros H; apply float_eqb_not_lt in H; tauto).
  intros H. apply Z.eqb_eq in H. subst. split; apply Z.ltb_irrefl.
Qed.

Section FieldOrder.

Variable fd : field.
Variable count : nat.
Hypothesis Hinc : increasing_upto fd count = true.

Local Abbreviation f := (fun w => to_float (field_value fd w)).

Lemma increasing_from_step (n : nat) :
  forall k0 k,
    PrimFloat.eqb (f k0) (f k0) = true ->
    increasing_from fd k0 (f k0) n = true ->
    k0 <= k < k0 + Z.of_nat n ->
    PrimFloat.ltb (f k) (f (k + 1)) = true
    /\ PrimFloat.eqb (f k) (f k) = true
    /\ PrimFloat.eqb (f (k + 1)) (f (k + 1)) = true.
Proof.
  induction n as [|n IH]; intros k0 k H0 H Hk; [lia|].
  cbn [increasing_from] in H. cbv zeta in H.
  apply andb_prop in H. destruct H as [H Hrest].
  apply andb_prop in H. destruct H as [H1 H2].
  destruct (Z.eq_dec k k0) as [->|Hne]; [auto|].
  apply (IH (k0 + 1)); [exact H2|exact Hrest|lia].
Qed.

Lemma increasing_step (k : Z) :
  0 <= k < Z.of_nat count ->
  PrimFloat.ltb (f k) (f (k + 1)) = true
  /\ PrimFloat.eqb (f k) (f k) = true
  /\ PrimFloat.eqb (f (k + 1)) (f (k + 1)) = true.
Proof.
  intros Hk. unfold increasing_upto in Hinc. cbv zeta in Hinc.
  apply andb_prop in Hinc. destruct Hinc as [H0 H].
  apply (increasing_from_step count 0); [exact H0|exact H|lia].
Qed.

Lemma increasing_lt (a b : Z) :
  0 <= a -> a < b -> b <= Z.of_nat count ->
  PrimFloat.ltb (f a) (f b) = true.
Proof.
  intros Ha Hab Hb.
  replace b with (a + 1 + Z.of_nat (Z.to_nat (b - a - 1))) by lia.
  assert (Hn : a + 1 + Z.of_nat (Z.to_nat (b - a - 1)) <= Z.of_nat count) by lia.
  induction (Z.to_nat (b - a - 1)) as [|n IH].
  - rewrite Z.add_0_r. apply increasing_step. lia.
  - eapply float_ltb_trans; [apply IH; lia|].
    replace (a + 1 + Z.of_nat (S n)) with (a + 1 + Z.of_nat n + 1) by lia.
    apply increasing_step. lia.
Qed.

Lemma increasing_refl (a : Z) :
  0 <= a <= Z.of_nat count -> (0 < count)%nat ->
  PrimFloat.eqb (f a) (f a) = true.
Proof.
  intros Ha Hc. destruct (Z.eq_dec a (Z.of_nat count)) as [->|Hne].
  - replace (Z.of_nat count) with (Z.of_nat count - 1 + 1) by lia.
    apply increasing_step. lia.
  - apply increasing_step. lia.
Qed.

Lemma increasing_ltb (a b : Z) :
  0 <= a <= Z.of_nat count -> 0 <= b <= Z.of_nat count -> (0 < count)%nat ->
  PrimFloat.ltb (f a) (f b) = (a <? b)
  /\ PrimFloat.eqb (f a) (f b) = (a =? b).
Proof.
  intros Ha Hb Hc.
  destruct (Z.lt_trichotomy a b) as [Hlt|[->|Hgt]].
  - pose proof (increasing_lt a b ltac:(lia) Hlt ltac:(lia)) as H.
    destruct (float_ltb_asym _ _ H) as (_ & He & _).
    rewrite H, He. split; symmetry; [now apply Z.ltb_lt|now apply Z.eqb_neq; lia].
  - pose proof (increasing_refl b Hb Hc) as H.
    destruct (float_eqb_not_lt _ _ H) as [Hl _].
    rewrite H, Hl, Z.ltb_irrefl, Z.eqb_refl. now split.
  - pose proof (increasing_lt b a ltac:(lia) Hgt ltac:(lia)) as H.
    destruct (float_ltb_asym _ _ H) as (Hl & _ & He).
    rewrite Hl, He. split; symmetry; [apply Z.ltb_ge; lia|apply Z.eqb_neq; lia].
Qed.

End FieldOrder.

(** ** Channels of the four profiles *)

Lemma byte_at_getbyte (fr : frame) (i : nat) (b : Z) :
  getbyte fr i = Ok b -> byte_at fr i = b /\ 0 <= b < 256.
Proof.
  unfold getbyte, byte_at. destruct (fr !! i) as [c|]; [|discriminate].
  intros H. injection H as <-. split; [reflexivity|].
  unfold byte_val. pose proof (Byte.to_N_bounded c). lia.
Qed.

Lemma decode_value (fd : field) (fr : frame) (v : num) :
  decode fd fr = Ok v ->
  v = field_value fd (raw_field fd fr) /\ 0 <= raw_field fd fr < 65536.
Proof.
  assert (Hword : forall i w, unpack_H fr i = Ok w ->
            256 * byte_at fr i + byte_at fr (S i) = w /\ 0 <= w < 65536).
  { intros i w. unfold unpack_H, byte_at.
    destruct (fr !! i) as [hi|]; [|discriminate].
    destruct (fr !! S i) as [lo|]; [|discriminate].
    intros H. injection H as <-. split; [reflexivity|].
    unfold byte_val.
    pose proof (Byte.to_N_bounded hi). pose proof (Byte.to_N_bounded lo). lia. }
  destruct fd as [i|i scale|i scale|i scale];
    cbn [decode raw_field field_value]; intros H;
    apply rbind_ok in H; destruct H as (b & Hb & H); cbv beta in H;
    injection H as <-.
  - apply byte_at_getbyte in Hb. destruct Hb as [-> Hb]. split; [reflexivity|lia].
  - apply byte_at_getbyte in Hb. destruct Hb as [-> Hb]. split; [reflexivity|lia].
  - apply Hword in Hb. destruct Hb as [-> Hb]. now split.
  - apply Hword in Hb. destruct Hb as [-> Hb]. now split.
Qed.

(** The masks of event blocks: a test holds when the byte and the mask have
    a bit in common. *)
Lemma eval_test_mask (fr : frame) (t : test) (c : bool) :
  eval_test fr t = Ok c ->
  c = negb (Z.land (byte_at fr (fst (test_mask t))) (snd (test_mask t)) =? 0).
Proof.
  destruct t as [i mask|i]; cbn [eval_test test_mask fst snd]; intros H;
    apply rbind_ok in H; destruct H as (b & Hb & H); cbv beta in H;
    injection H as <-; apply byte_at_getbyte in Hb; destruct Hb as [-> Hb].
  - reflexivity.
  - change 255 with (Z.ones 8). rewrite Z.land_ones by lia.
    now rewrite Z.mod_small by lia.
Qed.

Lemma any_test_mask (fr : frame) (tests : list test) (c : bool) :
  any_test fr tests = Ok c -> c = any_bit_set fr tests.
Proof.
  revert c. induction tests as [|t tests IH]; intros c H.
  - cbn in H. now injection H as <-.
  - cbn [any_test] in H. apply rbind_ok in H.
    destruct H as (c0 & Hc0 & H). cbv beta in H.
    apply eval_test_mask in Hc0. unfold any_bit_set. cbn [existsb].
    destruct (test_mask t) as [i mask]. cbn [fst snd] in Hc0.
    rewrite <- Hc0. destruct c0.
    + now injection H as <-.
    + cbn [orb]. now apply IH.
Qed.

(** The code's running "overwrite when the condition holds" is the
    timestamp of the last frame on which it held. *)
Lemma event_fold_last (events : list (bool * string)) :
  forall v0,
    fold_left (fun (v : value) (e : bool * string) =>
                 if fst e then VStr (snd e) else v) events v0 =
    match last (List.filter fst events) with
    | Some (_, formatted_time) => VStr formatted_time
    | None => v0
    end.
Proof.
  induction events as [|[c t] events IH]; intros v0; [reflexivity|].
  cbn [fold_left List.filter fst snd]. rewrite IH. destruct c; [|reflexivity].
  destruct (List.filter fst events) as [|e rest] eqn:Hf; [reflexivity|].
  rewrite last_cons_cons.
  destruct (last (e :: rest)) as [[? ?]|] eqn:Hl; [reflexivity|].
  now apply last_None in Hl.
Qed.

Section Channels.

Variable tz : Z.
Variable p : profile.
Variable time_offset : nat.
Hypothesis Hp : In p profiles.

Lemma initial_view2 (b : block) (cmp store : field) (slot : nat) :
  b = BMws cmp store slot -> b ∈ p_blocks p ->
  view2 slot (replicate (p_size p) (VNum (NInt 0))) = Some (NInt 0, NInt 0).
Proof.
  intros -> Hb. unfold view2.
  rewrite !(initial_slot p) by
    (apply (block_slot_lt p (profiles_wf p Hp) _ _ Hb);
     cbn; rewrite !elem_of_cons; auto).
  reflexivity.
Qed.

Lemma initial_view3 (b : block) (amp fre : field) (slot : nat) :
  b = BMaf amp fre slot -> b ∈ p_blocks p ->
  view3 slot (replicate (p_size p) (VNum (NInt 0)))
  = Some (NInt 0, NInt 0, NInt 0).
Proof.
  intros -> Hb. unfold view3.
  rewrite !(initial_slot p) by
    (apply (block_slot_lt p (profiles_wf p Hp) _ _ Hb);
     cbn; rewrite !elem_of_cons; auto).
  reflexivity.
Qed.

(** A [BMws] channel after the whole run. *)
Lemma data_judge_mws (cmp store : field) (slot : nat)
    (framelist : list frame) :
  In (BMws cmp store slot) (p_blocks p) ->
  Forall (frame_ok tz p time_offset) framelist ->
  exists res,
    data_judge tz p framelist time_offset = Ok res /\
    length res = p_size p /\
    view2 slot res =
      Some (fold_left
              (fun acc fr =>
                 mws_step (val cmp fr) (val store fr) (frame_speed p fr) acc)
              framelist (NInt 0, NInt 0)).
Proof.
  intros Hb Hok. apply list_elem_of_In in Hb.
  destruct (data_judge_total tz p time_offset (profiles_wf p Hp) framelist Hok)
    as (res & Hrun & Hlen).
  exists res. split; [exact Hrun|]. split; [exact Hlen|].
  eapply (judge_loop_mws tz p time_offset (profiles_wf p Hp));
    [exact Hb|exact Hrun|].
  now apply (initial_view2 _ cmp store slot eq_refl).
Qed.

(** A channel whose compared and stored fields are the same one folds the
    specification's [MaxWithSpeedTiebreak]. *)
Lemma data_judge_mws_same (fd : field) (slot : nat) (framelist : list frame) :
  In (BMws fd fd slot) (p_blocks p) ->
  Forall (frame_ok tz p time_offset) framelist ->
  exists res,
    data_judge tz p framelist time_offset = Ok res /\
    view2 slot res =
      Some (fold_left MaxWithSpeedTiebreak
              (map (fun fr => (val fd fr, frame_speed p fr)) framelist)
              (NInt 0, NInt 0)).
Proof.
  intros Hb Hok.
  destruct (data_judge_mws fd fd slot framelist Hb Hok) as (res & Hrun & _ & Hv).
  exists res. split; [exact Hrun|]. rewrite Hv, fold_left_map_obs.
  f_equal. apply fold_left_pointwise. intros acc fr. apply mws_step_same.
Qed.

End Channels.

(** *** Speeds compare as their raw values *)

Lemma fold_left_pointwise_in {A B : Type} (f g : A -> B -> A) (l : list B) :
  (forall a x, In x l -> f a x = g a x) ->
  forall a, fold_left f l a = fold_left g l a.
Proof.
  induction l as [|x l IH]; intros H a; [reflexivity|].
  cbn [fold_left]. rewrite H by now left.
  apply IH. intros a' y Hy. apply H. now right.
Qed.

Lemma fold_max_bounds {A : Type} (raw : A -> Z) (l : list A) :
  forall m,
    m <= fold_left (fun m x => Z.max m (raw x)) l m
    /\ (forall x, In x l -> raw x <= fold_left (fun m x => Z.max m (raw x)) l m)
    /\ (fold_left (fun m x => Z.max m (raw x)) l m = m
        \/ exists x, In x l /\ raw x = fold_left (fun m x => Z.max m (raw x)) l m).
Proof.
  induction l as [|x l IH]; intros m; cbn [fold_left].
  - split; [lia|]. split; [intros x []|now left].
  - destruct (IH (Z.max m (raw x))) as (Hge & Hall & Hin).
    split; [lia|]. split.
    + intros y [<-|Hy]; [lia|now apply Hall].
    + destruct Hin as [Heq|(y & Hy & Heq)].
      * destruct (Z.max_spec m (raw x)) as [[_ Hm]|[_ Hm]].
        -- right. exists x. split; [now left|]. now rewrite Heq.
        -- left. now rewrite Heq.
      * right. exists y. split; [now right|exact Heq].
Qed.

Section SpeedOrder.

Variable fd : field.
Hypothesis Hinc : increasing_upto fd raw_count = true.
Hypothesis Hzero : to_float (field_value fd 0) = of_int 0.
Hypothesis Hfloat : forall w, exists x, field_value fd w = NFloat x.

Lemma field_value_cmp (a b : Z) :
  0 <= a < 65536 -> 0 <= b < 65536 ->
  PrimFloat.ltb (to_float (field_value fd a)) (to_float (field_value fd b))
  = (a <? b)
  /\ PrimFloat.eqb (to_float (field_value fd a)) (to_float (field_value fd b))
     = (a =? b).
Proof.
  intros Ha Hb.
  apply (increasing_ltb fd raw_count Hinc a b); unfold raw_count; lia.
Qed.

Lemma has_key_float (v : num) (w : Z) :
  has_key fd v w ->
  to_float v = to_float (field_value fd w) /\ 0 <= w < 65536
  /\ (v = NInt 0 \/ exists x, v = NFloat x).
Proof.
  intros [[-> ->]|[-> Hw]].
  - split; [now rewrite Hzero|]. split; [lia|now left].
  - split; [reflexivity|]. split; [exact Hw|]. right. apply Hfloat.
Qed.

Lemma has_key_cmp (a b : num) (wa wb : Z) :
  has_key fd a wa -> has_key fd b wb ->
  num_gt a b = (wb <? wa) /\ num_eq a b = (wa =? wb).
Proof.
  intros Ha Hb.
  destruct (has_key_float a wa Ha) as (Hfa & Hwa & Hka).
  destruct (has_key_float b wb Hb) as (Hfb & Hwb & Hkb).
  destruct (field_value_cmp wb wa Hwb Hwa) as [Hlt _].
  destruct (field_value_cmp wa wb Hwa Hwb) as [_ Heq].
  destruct Hka as [->|[x ->]], Hkb as [->|[y ->]].
  - destruct Ha as [[_ ->]|[Ha _]], Hb as [[_ ->]|[Hb _]];
      try (destruct (Hfloat wa) as [x Hx]; congruence);
      try (destruct (Hfloat wb) as [x Hx]; congruence).
    now cbn.
  - cbn [num_gt num_eq]. now rewrite Hfa, Hfb.
  - cbn [num_gt num_eq]. now rewrite Hfa, Hfb.
  - cbn [num_gt num_eq]. now rewrite Hfa, Hfb.
Qed.

(** The running maximum of the speeds stands for the maximum of the raw
    speeds. *)
Lemma running_max (raw : frame -> Z) (framelist : list frame) :
  (forall fr, In fr framelist -> 0 <= raw fr < 65536) ->
  forall top m,
    has_key fd top m ->
    has_key fd
      (fold_left (fun sp fr => if num_gt (field_value fd (raw fr)) sp
                               then field_value fd (raw fr) else sp)
                 framelist top)
      (fold_left (fun m fr => Z.max m (raw fr)) framelist m).
Proof.
  induction framelist as [|fr framelist IH]; intros Hraw top m Hk;
    [exact Hk|].
  cbn [fold_left]. apply IH; [intros fr' Hfr'; apply Hraw; now right|].
  assert (Hfr : has_key fd (field_value fd (raw fr)) (raw fr)).
  { right. split; [reflexivity|]. apply Hraw. now left. }
  destruct (has_key_cmp _ _ _ _ Hfr Hk) as [Hgt _]. rewrite Hgt.
  destruct (Z.ltb_spec m (raw fr)).
  - now rewrite Z.max_r by lia.
  - now rewrite Z.max_l by lia.
Qed.

End SpeedOrder.

Lemma plain_speed_increasing : increasing_upto (U16s 78 0.01) raw_count = true.
Proof. vm_compute. reflexivity. Qed.

Lemma rounded_speed_increasing : increasing_upto (U16r 78 0.01) raw_count = true.
Proof. vm_compute. reflexivity. Qed.

Lemma speed_field_order (p : profile) :
  In p profiles ->
  increasing_upto (p_speed p) raw_count = true
  /\ to_float (field_value (p_speed p) 0) = of_int 0
  /\ (forall w, exists x, field_value (p_speed p) w = NFloat x).
Proof.
  assert (Hplain :
    increasing_upto (U16s 78 0.01) raw_count = true
    /\ to_float (field_value (U16s 78 0.01) 0) = of_int 0
    /\ (forall w, exists x, field_value (U16s 78 0.01) w = NFloat x)).
  { split; [exact plain_speed_increasing|].
    split; [vm_compute; reflexivity|]. intros w. eexists. reflexivity. }
  assert (Hround :
    increasing_upto (U16r 78 0.01) raw_count = true
    /\ to_float (field_value (U16r 78 0.01) 0) = of_int 0
    /\ (forall w, exists x, field_value (U16r 78 0.01) w = NFloat x)).
  { split; [exact rounded_speed_increasing|].
    split; [vm_compute; reflexivity|]. intros w. eexists. reflexivity. }
  intros Hp. unfold profiles in Hp. cbn [In] in Hp.
  destruct Hp as [<-|[<-|[<-|[<-|[]]]]].
  - change (p_speed WNDS) with (U16s 78 0.01). exact Hplain.
  - change (p_speed BIDS) with (U16s 78 0.01). exact Hplain.
  - change (p_speed GVDS) with (U16s 78 0.01). exact Hplain.
  - change (p_speed MVDS) with (U16r 78 0.01). exact Hround.
Qed.

(** ** The summary vectors *)

(** C9, as amended.  On a frame list whose frames are long enough for the
    profile's field accesses and carry a timestamp that decodes at the time
    offset, each data-judge function returns a vector of fixed length:
    54 values for WNDS, 55 for BIDS, 199 for GVDS and 119 for MVDS; the
    field accesses reach byte 137, 140, 302 and 192 of a frame. *)
Theorem data_judge_lengths (tz : Z) (framelist : list frame)
    (time_offset : nat) :
  (Forall (frame_ok tz WNDS time_offset) framelist ->
   exists res, WNDS_data_judge tz framelist time_offset = Ok res
               /\ length res = 54%nat)
  /\ (Forall (frame_ok tz BIDS time_offset) framelist ->
      exists res, BIDS_data_judge tz framelist time_offset = Ok res
                  /\ length res = 55%nat)
  /\ (Forall (frame_ok tz GVDS time_offset) framelist ->
      exists res, GVDS_data_judge tz framelist time_offset = Ok res
                  /\ length res = 199%nat)
  /\ (Forall (frame_ok tz MVDS time_offset) framelist ->
      exists res, MVDS_data_judge tz framelist time_offset = Ok res
                  /\ length res = 119%nat)
  /\ map profile_reach profiles = [137; 140; 302; 192]%nat.
Proof.
  split; [|split; [|split; [|split; [|vm_compute; reflexivity]]]]; intros Hok.
  - apply (data_judge_total tz WNDS time_offset); [|exact Hok].
    apply profiles_wf. cbn. tauto.
  - apply (data_judge_total tz BIDS time_offset); [|exact Hok].
    apply profiles_wf. cbn. tauto.
  - apply (data_judge_total tz GVDS time_offset); [|exact Hok].
    apply profiles_wf. cbn. tauto.
  - apply (data_judge_total tz MVDS time_offset); [|exact Hok].
    apply profiles_wf. cbn. tauto.
Qed.

(** C2. A main-frequency-amplitude channel keeps the lexicographic maximum
    over (amplitude, frequency, speed): after the run its three slots hold
    the fold of [MaxAmplitudeFrequencySpeed] over the frames' decoded
    triples, from (0, 0, 0).  The channels of this kind are the two of WNDS,
    and the triples (5,20,60), (5,25,40), (5,25,70) reduce to (5,25,70). *)
Theorem main_frequency_channel (tz : Z) (p : profile) (amp fre : field)
    (slot : nat) (framelist : list frame) (time_offset : nat) :
  In p profiles ->
  In (BMaf amp fre slot) (p_blocks p) ->
  Forall (frame_ok tz p time_offset) framelist ->
  (exists res,
     data_judge tz p framelist time_offset = Ok res /\
     view3 slot res =
       Some (fold_left MaxAmplitudeFrequencySpeed
               (map (fun fr => (val amp fr, val fre fr, frame_speed p fr))
                    framelist)
               (NInt 0, NInt 0, NInt 0)))
  /\ flat_map (fun q => List.filter (fun b => match b with
                                              | BMaf _ _ _ => true
                                              | _ => false
                                              end) (p_blocks q)) profiles
     = [BMaf (U8s 99 0.001) (U16s 101 0.1) 32;
        BMaf (U8s 100 0.001) (U16s 103 0.1) 35]
  /\ fold_left MaxAmplitudeFrequencySpeed
       [(NFloat 5, NFloat 20, NFloat 60); (NFloat 5, NFloat 25, NFloat 40);
        (NFloat 5, NFloat 25, NFloat 70)]
       (NInt 0, NInt 0, NInt 0)
     = (NFloat 5, NFloat 25, NFloat 70).
Proof.
  intros Hp Hb Hok. split; [|split; vm_compute; reflexivity].
  apply list_elem_of_In in Hb.
  destruct (data_judge_total tz p time_offset (profiles_wf p Hp) framelist Hok)
    as (res & Hrun & _).
  exists res. split; [exact Hrun|].
  eapply (judge_loop_maf tz p time_offset (profiles_wf p Hp));
    [exact Hb|exact Hrun|].
  now apply (initial_view3 p Hp _ amp fre slot eq_refl).
Qed.

(** C3. An event-timestamp channel holds, after the run, the formatted
    timestamp of the last frame in stream order on which a bit of its mask
    was set, and the integer 0 when there was none.  With the bit set in
    the first and third of three frames the output is the third frame's
    timestamp. *)
Theorem event_timestamp_channel (tz : Z) (p : profile) (tests : list test)
    (slot : nat) (framelist : list frame) (time_offset : nat) :
  In p profiles ->
  In (BEvent tests slot) (p_blocks p) ->
  Forall (frame_ok tz p time_offset) framelist ->
  (exists res,
     data_judge tz p framelist time_offset = Ok res /\
     res !! slot =
       Some (EventTimestamp
               (map (fun fr => (any_bit_set fr tests,
                                frame_time tz time_offset fr))
                    framelist)))
  /\ EventTimestamp [] = VNum (NInt 0)
  /\ (forall t1 t2 t3,
        EventTimestamp [(true, t1); (false, t2); (true, t3)] = VStr t3).
Proof.
  intros Hp Hb Hok. split; [|split; [reflexivity|intros; reflexivity]].
  apply list_elem_of_In in Hb.
  pose proof (profiles_wf p Hp) as Hwf.
  destruct (data_judge_total tz p time_offset Hwf framelist Hok)
    as (res & Hrun & _).
  exists res. split; [exact Hrun|].
  assert (Hinit : replicate (p_size p) (VNum (NInt 0)) !! slot
                  = Some (VNum (NInt 0))).
  { apply initial_slot. apply (block_slot_lt p Hwf _ _ Hb).
    cbn. rewrite elem_of_cons. auto. }
  rewrite (judge_loop_event tz p time_offset Hwf (BEvent tests slot) slot
             framelist _ res (VNum (NInt 0))
             (or_introl (ex_intro _ tests eq_refl)) Hb Hrun Hinit).
  f_equal. unfold EventTimestamp.
  rewrite <- (event_fold_last _ (VNum (NInt 0))), fold_left_map_obs.
  apply fold_left_pointwise_in. intros v fr Hfr. cbn [fst snd].
  assert (Hc : block_cond (BEvent tests slot) fr = any_bit_set fr tests).
  { cbn [block_cond].
    rewrite List.Forall_forall in Hok. destruct (Hok fr Hfr) as [Hlen _].
    destruct (reach_blocks p fr Hlen) as [_ Hbl].
    rewrite Forall_forall in Hbl. specialize (Hbl _ Hb). cbn [block_reach] in Hbl.
    destruct (any_test_total fr tests Hbl) as [c Hc]. rewrite Hc.
    now apply any_test_mask. }
  now rewrite Hc.
Qed.

(** X1. A max-with-speed-tiebreak channel that stores the field it compares
    folds the specification's reducer: after the run its two slots hold the
    fold of [MaxWithSpeedTiebreak] over the frames' (value, speed), from
    (0, 0).  The channels that store another field are those of the GVDS
    loops over bytes 176..179 and 146..149, for [i] = 1, 2, 3.  The values
    10, 10, 7 with the speeds 50, 80, 99 reduce to (10, 80). *)
Theorem max_with_speed_channel (tz : Z) (p : profile) (fd : field)
    (slot : nat) (framelist : list frame) (time_offset : nat) :
  In p profiles ->
  In (BMws fd fd slot) (p_blocks p) ->
  Forall (frame_ok tz p time_offset) framelist ->
  (exists res,
     data_judge tz p framelist time_offset = Ok res /\
     view2 slot res =
       Some (fold_left MaxWithSpeedTiebreak
               (map (fun fr => (val fd fr, frame_speed p fr)) framelist)
               (NInt 0, NInt 0)))
  /\ flat_map (fun q => List.filter stores_other_field (p_blocks q)) profiles
     = [BMws (U8 177) (U8 178) 65; BMws (U8 178) (U8 180) 67;
        BMws (U8 179) (U8 182) 69; BMws (U8 147) (U8 148) 105;
        BMws (U8 148) (U8 150) 107; BMws (U8 149) (U8 152) 109]
  /\ fold_left MaxWithSpeedTiebreak
       [(NFloat 10, NFloat 50); (NFloat 10, NFloat 80); (NFloat 7, NFloat 99)]
       (NInt 0, NInt 0)
     = (NFloat 10, NFloat 80).
Proof.
  intros Hp Hb Hok. split; [|split; vm_compute; reflexivity].
  now apply data_judge_mws_same.
Qed.

(** X2. The headline speed channel (slot 0 of every profile) is the running
    maximum of the frame speeds: after the run it holds the initial 0 or the
    speed of one of the frames, and no frame's speed exceeds it. *)
Theorem speed_max_channel (tz : Z) (p : profile) (framelist : list frame)
    (time_offset : nat) :
  In p profiles ->
  Forall (frame_ok tz p time_offset) framelist ->
  In (BMax 0) (p_blocks p)
  /\ exists res top,
       data_judge tz p framelist time_offset = Ok res /\
       res !! 0%nat = Some (VNum top) /\
       (top = NInt 0 \/ exists fr, In fr framelist /\ top = frame_speed p fr) /\
       (forall fr, In fr framelist -> num_gt (frame_speed p fr) top = false).
Proof.
  intros Hp Hok.
  assert (Hb : In (BMax 0) (p_blocks p)).
  { unfold profiles in Hp. cbn [In] in Hp.
    destruct Hp as [<-|[<-|[<-|[<-|[]]]]]; left; reflexivity. }
  split; [exact Hb|].
  pose proof (profiles_wf p Hp) as Hwf.
  destruct (data_judge_total tz p time_offset Hwf framelist Hok)
    as (res & Hrun & _).
  destruct (speed_field_order p Hp) as (Hinc & Hz & Hfl).
  assert (Hb' : BMax 0 ∈ p_blocks p) by now apply list_elem_of_In.
  assert (Hinit : view1 0 (replicate (p_size p) (VNum (NInt 0))) = Some (NInt 0)).
  { unfold view1. rewrite (initial_slot p); [reflexivity|].
    apply (block_slot_lt p Hwf _ _ Hb'). cbn. rewrite elem_of_cons. auto. }
  pose proof (judge_loop_max tz p time_offset Hwf 0 framelist _ res (NInt 0)
                Hb' Hrun Hinit) as Hv.
  set (raw := raw_field (p_speed p)).
  set (fv := field_value (p_speed p)).
  assert (Hspeed : forall fr, In fr framelist ->
            frame_speed p fr = fv (raw fr) /\ 0 <= raw fr < 65536).
  { intros fr Hfr. rewrite List.Forall_forall in Hok.
    destruct (Hok fr Hfr) as [Hlen _].
    destruct (reach_blocks p fr Hlen) as [Hsp _].
    destruct (decode_total _ _ Hsp) as [v Hv'].
    unfold frame_speed. rewrite (val_ok _ _ _ Hv').
    now apply decode_value. }
  set (top := fold_left
                (fun cur fr =>
                   if num_gt (frame_speed p fr) cur then frame_speed p fr else cur)
                framelist (NInt 0)) in Hv.
  exists res, top. split; [exact Hrun|].
  split.
  { unfold view1 in Hv. destruct (res !! 0%nat) as [[a|]|]; try discriminate.
    now injection Hv as ->. }
  split.
  - (* the fold returns its seed or one of the speeds *)
    assert (Hsel : forall l c,
              (forall fr, In fr l -> In fr framelist) ->
              let r := fold_left
                         (fun cur fr =>
                            if num_gt (frame_speed p fr) cur
                            then frame_speed p fr else cur) l c in
              r = c \/ exists fr, In fr framelist /\ r = frame_speed p fr).
    { induction l as [|fr l IH]; intros c Hsub; [now left|].
      cbn [fold_left]. cbv zeta.
      destruct (IH (if num_gt (frame_speed p fr) c then frame_speed p fr else c))
        as [Heq|Hex]; [intros fr' H'; apply Hsub; now right| |right; exact Hex].
      cbv zeta in Heq. rewrite Heq.
      destruct (num_gt (frame_speed p fr) c); [|now left].
      right. exists fr. split; [apply Hsub; now left|reflexivity]. }
    apply (Hsel framelist (NInt 0)). auto.
  - assert (Hkey : has_key (p_speed p) top
                     (fold_left (fun m fr => Z.max m (raw fr)) framelist 0)).
    { unfold top.
      rewrite (fold_left_pointwise_in
                 (fun cur fr => if num_gt (frame_speed p fr) cur
                                then frame_speed p fr else cur)
                 (fun sp fr => if num_gt (fv (raw fr)) sp
                               then fv (raw fr) else sp)).
      - apply (running_max (p_speed p) Hinc Hz Hfl raw framelist).
        + intros fr Hfr. now apply Hspeed.
        + left. now split.
      - intros a fr Hfr. destruct (Hspeed fr Hfr) as [-> _]. reflexivity. }
    destruct (fold_max_bounds raw framelist 0) as (_ & Hall & _).
    intros fr Hfr.
    assert (Hfk : has_key (p_speed p) (frame_speed p fr) (raw fr)).
    { destruct (Hspeed fr Hfr) as [-> Hr]. right. now split. }
    destruct (has_key_cmp (p_speed p) Hinc Hz Hfl _ _ _ _ Hfk Hkey) as [Hgt _].
    rewrite Hgt. apply Z.ltb_ge. now apply Hall.
Qed.

(** C10. When a max-with-speed-tiebreak channel's compared value is 0 in
    every frame of a non-empty list, its best value stays the initial 0 and
    its speed slot holds the maximum frame speed: a value equal to the speed
    of one of the frames and exceeded by the speed of none. *)
Theorem zero_channel_speed (tz : Z) (p : profile) (cmp store : field)
    (slot : nat) (framelist : list frame) (time_offset : nat) :
  In p profiles ->
  In (BMws cmp store slot) (p_blocks p) ->
  framelist <> [] ->
  Forall (frame_ok tz p time_offset) framelist ->
  (forall fr, In fr framelist -> num_eq (val cmp fr) (NInt 0) = true) ->
  exists res top,
    data_judge tz p framelist time_offset = Ok res /\
    res !! slot = Some (VNum (NInt 0)) /\
    res !! (slot + 1)%nat = Some (VNum top) /\
    (exists fr, In fr framelist /\ num_eq top (frame_speed p fr) = true) /\
    (forall fr, In fr framelist -> num_gt (frame_speed p fr) top = false).
Proof.
  intros Hp Hb Hne Hok Hzero.
  destruct (data_judge_mws tz p time_offset Hp cmp store slot framelist Hb Hok)
    as (res & Hrun & _ & Hv).
  destruct (speed_field_order p Hp) as (Hinc & Hz & Hfl).
  set (raw := raw_field (p_speed p)).
  set (fv := field_value (p_speed p)).
  (* the speed of a frame is the decoded value of its raw speed *)
  assert (Hspeed : forall fr, In fr framelist ->
            frame_speed p fr = fv (raw fr) /\ 0 <= raw fr < 65536).
  { intros fr Hfr. rewrite List.Forall_forall in Hok.
    destruct (Hok fr Hfr) as [Hlen _].
    destruct (reach_blocks p fr Hlen) as [Hsp _].
    destruct (decode_total _ _ Hsp) as [v Hv'].
    unfold frame_speed. rewrite (val_ok _ _ _ Hv').
    now apply decode_value. }
  (* the fold keeps the best value 0 and the running maximum of the speeds *)
  assert (Hfold : forall l sp,
            (forall fr, In fr l -> In fr framelist) ->
            fold_left
              (fun acc fr =>
                 mws_step (val cmp fr) (val store fr) (frame_speed p fr) acc)
              l (NInt 0, sp)
            = (NInt 0,
               fold_left (fun sp fr => if num_gt (fv (raw fr)) sp
                                       then fv (raw fr) else sp) l sp)).
  { induction l as [|fr l IH]; intros sp Hsub; [reflexivity|].
    cbn [fold_left].
    assert (Hfr : In fr framelist) by (apply Hsub; now left).
    destruct (num_eq_not_gt _ _ (Hzero fr Hfr)) as [Hgt _].
    destruct (Hspeed fr Hfr) as [Hs _].
    unfold mws_step at 2. rewrite Hgt, (Hzero fr Hfr), Hs.
    destruct (num_gt (fv (raw fr)) sp);
      apply IH; intros fr' H'; apply Hsub; now right. }
  rewrite Hfold in Hv by auto.
  set (top := fold_left (fun sp fr => if num_gt (fv (raw fr)) sp
                                      then fv (raw fr) else sp)
                        framelist (NInt 0)) in Hv.
  set (m := fold_left (fun m fr => Z.max m (raw fr)) framelist 0).
  assert (Hkey : has_key (p_speed p) top m).
  { apply (running_max (p_speed p) Hinc Hz Hfl raw framelist).
    - intros fr Hfr. now apply Hspeed.
    - left. now split. }
  destruct (fold_max_bounds raw framelist 0) as (Hge & Hall & Hin).
  fold m in Hge, Hall, Hin.
  exists res, top. split; [exact Hrun|].
  unfold view2 in Hv.
  destruct (res !! slot) as [[a|]|]; try discriminate.
  destruct (res !! (slot + 1)%nat) as [[b|]|]; try discriminate.
  injection Hv as -> ->. split; [reflexivity|]. split; [reflexivity|].
  assert (Hfr_key : forall fr, In fr framelist ->
            has_key (p_speed p) (frame_speed p fr) (raw fr)).
  { intros fr Hfr. destruct (Hspeed fr Hfr) as [-> Hr]. right. now split. }
  split.
  - assert (Hex : exists fr, In fr framelist /\ raw fr = m).
    { destruct Hin as [Hm0|Hex]; [|exact Hex].
      destruct framelist as [|fr rest]; [contradiction|].
      exists fr. split; [now left|].
      specialize (Hall fr (or_introl eq_refl)).
      destruct (Hspeed fr (or_introl eq_refl)) as [_ Hr]. lia. }
    destruct Hex as (fr & Hfr & Hraw). exists fr. split; [exact Hfr|].
    destruct (has_key_cmp (p_speed p) Hinc Hz Hfl _ _ _ _ Hkey (Hfr_key fr Hfr))
      as [_ Heq].
    rewrite Heq. apply Z.eqb_eq. lia.
  - intros fr Hfr.
    destruct (has_key_cmp (p_speed p) Hinc Hz Hfl _ _ _ _ (Hfr_key fr Hfr) Hkey)
      as [Hgt _].
    rewrite Hgt. apply Z.ltb_ge. now apply Hall.
Qed.

(** ** The calendar round trip *)

Lemma valid_datetime_spec (year month day hour minute second : Z) :
  valid_datetime year month day hour minute second = true <->
  1 <= year <= 9999 /\ 1 <= month <= 12 /\
  1 <= day <= days_in_month year month /\
  0 <= hour <= 23 /\ 0 <= minute <= 59 /\ 0 <= second <= 59.
Proof.
  unfold valid_datetime. rewrite !andb_true_iff, !Z.leb_le. tauto.
Qed.

Lemma ord2ymd_stages (ordinal : Z) :
  ord2ymd ordinal = ord2ymd_finish (ord_digits (ordinal - 1)).
Proof.
  unfold ord2ymd, ord2ymd_finish, ord_digits, month_day. cbv zeta.
  destruct (_ || _); [reflexivity|].
  now destruct (_ <? _).
Qed.

(** Between two numbers with the same quotient, the quotient stays and the
    remainder counts up. *)
Lemma div_between (k a b n : Z) :
  0 < k -> a <= n <= b -> a / k = b / k ->
  n / k = a / k /\ n mod k = a mod k + (n - a).
Proof.
  intros Hk Hn Hab.
  assert (Hq : n / k = a / k).
  { pose proof (Z.div_le_mono a n k Hk ltac:(lia)).
    pose proof (Z.div_le_mono n b k Hk ltac:(lia)). lia. }
  split; [exact Hq|].
  rewrite (Z.mod_eq n k), (Z.mod_eq a k), Hq by lia. lia.
Qed.

Lemma ord_digits_between (first last n : Z) :
  first <= n <= last ->
  fst (ord_digits first) = fst (ord_digits last) ->
  ord_digits n =
    (fst (ord_digits first), snd (ord_digits first) + (n - first)).
Proof.
  intros Hn. unfold ord_digits. cbv zeta. cbn [fst snd].
  intros Heq. injection Heq as E400 E100 E4 E1.
  destruct (div_between 146097 first last n ltac:(lia) Hn E400) as [Q1 R1].
  destruct (div_between 146097 first last last ltac:(lia) ltac:(lia) E400)
    as [_ L1].
  rewrite Q1, R1. rewrite L1 in E100, E4, E1.
  set (r1 := first mod 146097) in *.
  destruct (div_between 36524 r1 (r1 + (last - first)) (r1 + (n - first))
              ltac:(lia) ltac:(lia) E100) as [Q2 R2].
  destruct (div_between 36524 r1 (r1 + (last - first)) (r1 + (last - first))
              ltac:(lia) ltac:(lia) E100) as [_ L2].
  rewrite Q2, R2. rewrite L2 in E4, E1.
  set (r2 := r1 mod 36524) in *.
  replace (r2 + (r1 + (n - first) - r1)) with (r2 + (n - first)) by lia.
  replace (r2 + (r1 + (last - first) - r1)) with (r2 + (last - first))
    in E4, E1 by lia.
  destruct (div_between 1461 r2 (r2 + (last - first)) (r2 + (n - first))
              ltac:(lia) ltac:(lia) E4) as [Q3 R3].
  destruct (div_between 1461 r2 (r2 + (last - first)) (r2 + (last - first))
              ltac:(lia) ltac:(lia) E4) as [_ L3].
  rewrite Q3, R3. rewrite L3 in E1.
  set (r3 := r2 mod 1461) in *.
  replace (r3 + (r2 + (n - first) - r2)) with (r3 + (n - first)) by lia.
  replace (r3 + (r2 + (last - first) - r2)) with (r3 + (last - first))
    in E1 by lia.
  destruct (div_between 365 r3 (r3 + (last - first)) (r3 + (n - first))
              ltac:(lia) ltac:(lia) E1) as [Q4 R4].
  rewrite Q4, R4. do 2 f_equal. lia.
Qed.

Lemma years_ok_spec (count : nat) :
  forall first year,
    years_ok first count = true ->
    first <= year < first + Z.of_nat count ->
    year_digits_ok year = true.
Proof.
  induction count as [|count IH]; intros first year H Hy; [lia|].
  cbn [years_ok] in H. apply andb_true_iff in H. destruct H as [H0 H].
  destruct (Z.eq_dec year first) as [->|Hne]; [exact H0|].
  apply (IH (first + 1)); [exact H|lia].
Qed.

Lemma frame_years_ok : years_ok 2000 256 = true.
Proof. vm_compute. reflexivity. Qed.

Lemma all_months_ok : months_ok true && months_ok false = true.
Proof. vm_compute. reflexivity. Qed.

Lemma month_day_found (leapyear : bool) (month day : Z) :
  1 <= month <= 12 ->
  1 <= day <= DAYS_IN_MONTH month
             + (if (month =? 2) && leapyear then 1 else 0) ->
  let n :=
    DAYS_BEFORE_MONTH month + (if (2 <? month) && leapyear then 1 else 0)
    + day - 1 in
  n <= 364 -> month_day leapyear n = (month, day).
Proof.
  intros Hm Hd n Hn.
  assert (Hdim : DAYS_IN_MONTH month <= 31).
  { assert (Hc : month = 1 \/ month = 2 \/ month = 3 \/ month = 4 \/ month = 5
                 \/ month = 6 \/ month = 7 \/ month = 8 \/ month = 9
                 \/ month = 10 \/ month = 11 \/ month = 12) by lia.
    repeat (destruct Hc as [->|Hc]; [cbn; lia|]). subst. cbn. lia. }
  assert (Hd31 : day <= 31).
  { destruct (Z.eq_dec day 32) as [->|]; [|destruct ((month =? 2) && leapyear); lia].
    destruct (Z.eqb_spec month 2) as [->|]; [cbn in Hd; destruct leapyear; cbn in Hd; lia|].
    cbn [andb] in Hd. lia. }
  assert (H : month_day_ok leapyear month day = true).
  { pose proof all_months_ok as Hall. apply andb_true_iff in Hall.
    assert (Hl : months_ok leapyear = true) by (destruct leapyear; tauto).
    unfold months_ok in Hl. rewrite List.forallb_forall in Hl.
    specialize (Hl (Z.to_nat month)). rewrite Z2Nat.id in Hl by lia.
    rewrite List.in_seq, List.forallb_forall in Hl.
    specialize (Hl ltac:(lia) (Z.to_nat day)). rewrite Z2Nat.id in Hl by lia.
    apply Hl. apply List.in_seq. lia. }
  unfold month_day_ok in H. fold n in H.
  destruct (Z.ltb_spec (DAYS_IN_MONTH month
                        + (if (month =? 2) && leapyear then 1 else 0)) day);
    [lia|].
  destruct (Z.ltb_spec 364 n); [lia|]. cbn [orb] in H.
  destruct (month_day leapyear n) as [m d].
  apply andb_true_iff in H. rewrite !Z.eqb_eq in H. now destruct H as [-> ->].
Qed.

Lemma ord2ymd_ymd2ord (year month day : Z) :
  2000 <= year <= 2255 -> 1 <= month <= 12 ->
  1 <= day <= days_in_month year month ->
  ord2ymd (ymd2ord year month day) = (year, month, day).
Proof.
  intros Hy Hm Hd.
  pose proof (years_ok_spec 256 2000 year frame_years_ok ltac:(lia)) as Hok.
  unfold year_digits_ok in Hok. cbv zeta in Hok.
  set (first := days_before_year year) in *.
  pose proof (ord_digits_between first (first + 364)) as Hbetween.
  destruct (ord_digits first) as [[[[a400 a100] a4] a1] a] eqn:Ea.
  destruct (ord_digits (first + 364)) as [[[[b400 b100] b4] b1] b] eqn:Eb.
  rewrite !andb_true_iff, !Z.eqb_eq, negb_true_iff in Hok.
  destruct Hok as [[[[[[[[E400 E100] E4] E1] E0] Hsp] Hyear] Hleap] Hlast].
  subst b400 b100 b4 b1 a. apply Bool.eqb_prop in Hleap.
  cbn [fst snd] in Hbetween.
  assert (Hdim : days_in_month year month
                 = DAYS_IN_MONTH month
                   + (if (month =? 2) && is_leap year then 1 else 0)).
  { unfold days_in_month. destruct (Z.eqb_spec month 2) as [->|]; [|cbn; lia].
    destruct (is_leap year); reflexivity. }
  set (n := DAYS_BEFORE_MONTH month
            + (if (2 <? month) && is_leap year then 1 else 0) + day - 1).
  assert (Hord : ymd2ord year month day - 1 = first + n).
  { unfold ymd2ord, days_before_month, n. fold first. lia. }
  assert (Hn0 : 0 <= n).
  { unfold n.
    assert (0 <= DAYS_BEFORE_MONTH month).
    { assert (Hc : month = 1 \/ month = 2 \/ month = 3 \/ month = 4
                   \/ month = 5 \/ month = 6 \/ month = 7 \/ month = 8
                   \/ month = 9 \/ month = 10 \/ month = 11 \/ month = 12)
        by lia.
      repeat (destruct Hc as [->|Hc]; [cbn; lia|]). subst. cbn. lia. }
    destruct ((2 <? month) && is_leap year); lia. }
  destruct (Z.le_gt_cases n 364) as [Hn|Hn].
  - rewrite ord2ymd_stages, Hord.
    rewrite (Hbetween (first + n)) by (lia || reflexivity).
    unfold ord2ymd_finish. rewrite Hsp, Hleap. cbv zeta.
    replace (0 + (first + n - first)) with n by lia.
    unfold n. rewrite month_day_found; [|lia|lia|fold n; lia].
    now rewrite Hyear.
  - (* the 366th day of a leap year *)
    assert (Hlong : is_leap year = true /\ month = 12 /\ day = 31).
    { unfold n in Hn. rewrite Hdim in Hd.
      assert (Hc : month = 1 \/ month = 2 \/ month = 3 \/ month = 4
                   \/ month = 5 \/ month = 6 \/ month = 7 \/ month = 8
                   \/ month = 9 \/ month = 10 \/ month = 11 \/ month = 12)
        by lia.
      destruct (is_leap year);
        repeat (destruct Hc as [->|Hc]; [cbn in Hn, Hd; lia|]);
        subst; cbn in Hn, Hd; lia. }
    destruct Hlong as (Hl & -> & ->). rewrite Hl in Hlast.
    replace (ymd2ord year 12 31) with (first + 366).
    + unfold date_eqb in Hlast.
      destruct (ord2ymd (first + 366)) as [[y m] d].
      rewrite !andb_true_iff, !Z.eqb_eq in Hlast.
      now destruct Hlast as [[-> ->] ->].
    + unfold ymd2ord, days_before_month. fold first. rewrite Hl. cbn. lia.
Qed.

Lemma day_seconds (days hour minute second : Z) :
  0 <= hour <= 23 -> 0 <= minute <= 59 -> 0 <= second <= 59 ->
  let local := days * 86400 + hour * 3600 + minute * 60 + second in
  local / 86400 = days /\
  (local mod 86400) / 3600 = hour /\
  ((local mod 86400) mod 3600) / 60 = minute /\
  (local mod 86400) mod 60 = second.
Proof.
  intros Hh Hm Hs local.
  assert (Hd : local / 86400 = days).
  { symmetry. apply (Z.div_unique local 86400 days
                       (hour * 3600 + minute * 60 + second)); [lia|].
    unfold local. lia. }
  assert (Hr : local mod 86400 = hour * 3600 + minute * 60 + second).
  { symmetry. apply (Z.mod_unique local 86400 days); [lia|]. unfold local. lia. }
  rewrite Hr. split; [exact Hd|]. split; [|split].
  - symmetry. apply (Z.div_unique _ 3600 hour (minute * 60 + second)); lia.
  - assert (Hr' : (hour * 3600 + minute * 60 + second) mod 3600
                  = minute * 60 + second).
    { symmetry. apply (Z.mod_unique _ 3600 hour); lia. }
    rewrite Hr'. symmetry. apply (Z.div_unique _ 60 minute second); lia.
  - symmetry. apply (Z.mod_unique _ 60 (hour * 60 + minute)); lia.
Qed.

Lemma fromtimestamp_fields (tz year month day hour minute second : Z) :
  2000 <= year <= 2255 ->
  valid_datetime year month day hour minute second = true ->
  fromtimestamp tz (timestamp_of tz year month day hour minute second)
  = mk_datetime year month day hour minute second.
Proof.
  intros Hy Hv. apply valid_datetime_spec in Hv.
  destruct Hv as (_ & Hm & Hd & Hh & Hmi & Hs).
  unfold fromtimestamp, timestamp_of.
  replace ((ymd2ord year month day - EPOCH_ORDINAL) * 86400 + hour * 3600
           + minute * 60 + second - tz + tz)
    with ((ymd2ord year month day - EPOCH_ORDINAL) * 86400 + hour * 3600
          + minute * 60 + second) by lia.
  destruct (day_seconds (ymd2ord year month day - EPOCH_ORDINAL)
              hour minute second Hh Hmi Hs) as (E1 & E2 & E3 & E4).
  cbv zeta in E1, E2, E3, E4. rewrite E1, E2, E3, E4.
  replace (ymd2ord year month day - EPOCH_ORDINAL + EPOCH_ORDINAL)
    with (ymd2ord year month day) by lia.
  now rewrite ord2ymd_ymd2ord.
Qed.

(** X3. Converting wall-clock fields to epoch seconds and back gives the
    fields again, in every fixed zone: for a valid date and time of the years
    2000 to 2255 (the years a frame can name), [datetime.fromtimestamp] of
    the timestamp has the same six fields; so two valid dates and times with
    the same timestamp are the same. *)
Theorem timestamp_round_trip (tz : Z) (dt : datetime) :
  2000 <= dt_year dt <= 2255 ->
  datetime_valid dt = true ->
  fromtimestamp tz (datetime_timestamp tz dt) = dt
  /\ (forall dt',
        2000 <= dt_year dt' <= 2255 -> datetime_valid dt' = true ->
        datetime_timestamp tz dt' = datetime_timestamp tz dt -> dt' = dt).
Proof.
  intros Hy Hv.
  assert (Hback : forall d, 2000 <= dt_year d <= 2255 ->
            datetime_valid d = true ->
            fromtimestamp tz (datetime_timestamp tz d) = d).
  { intros [y m d hh mm ss] Hy' Hv'. now apply fromtimestamp_fields. }
  split; [now apply Hback|].
  intros dt' Hy' Hv' Heq.
  rewrite <- (Hback dt' Hy' Hv'), Heq. now apply Hback.
Qed.

(** [extract_frame_time] on the frame's bytes. *)
Lemma extract_frame_time_bytes (tz : Z) (fr : frame) (time_offset : nat) :
  extract_frame_time tz fr time_offset =
    if (length fr <? 255)%nat || (length fr <? time_offset + 6)%nat
       || negb (datetime_valid (bytes_datetime fr time_offset))
    then Raise ValueError
    else Ok (datetime_timestamp tz (bytes_datetime fr time_offset)).
Proof.
  unfold extract_frame_time.
  destruct (Nat.ltb_spec (length fr) 255) as [H255|H255]; [reflexivity|].
  cbn [orb].
  destruct (Nat.ltb_spec (length fr) (time_offset + 6)) as [Hout|Hin].
  { now rewrite (time_field_outside fr time_offset Hout). }
  destruct (time_field_inside fr time_offset Hin)
    as (c0 & c1 & c2 & c3 & c4 & c5 & _ & H0 & H1 & H2 & H3 & H4 & H5).
  rewrite (getbyte_lookup _ _ _ H0), (getbyte_lookup _ _ _ H1),
    (getbyte_lookup _ _ _ H2), (getbyte_lookup _ _ _ H3),
    (getbyte_lookup _ _ _ H4), (getbyte_lookup _ _ _ H5).
  cbn [rbind orb].
  unfold datetime_valid, datetime_timestamp, bytes_datetime, byte_at.
  rewrite H0, H1, H2, H3, H4, H5.
  cbn [dt_year dt_month dt_day dt_hour dt_minute dt_second].
  now destruct (valid_datetime _ _ _ _ _ _).
Qed.

Lemma byte_at_range (fr : frame) (i : nat) : 0 <= byte_at fr i < 256.
Proof.
  unfold byte_at. destruct (fr !! i) as [c|]; [|lia].
  unfold byte_val. pose proof (Byte.to_N_bounded c). lia.
Qed.

(** The first day of 2000 is the earliest a frame can name. *)
Lemma timestamp_of_2000 (tz year month day hour minute second : Z) :
  2000 <= year ->
  valid_datetime year month day hour minute second = true ->
  946684800 - tz <= timestamp_of tz year month day hour minute second.
Proof.
  intros Hy Hv. apply valid_datetime_spec in Hv.
  destruct Hv as (_ & Hm & Hd & Hh & Hmi & Hs).
  unfold timestamp_of, ymd2ord, EPOCH_ORDINAL.
  assert (Hdby : 730119 <= days_before_year year).
  { unfold days_before_year. cbv zeta.
    Z.to_euclidean_division_equations. lia. }
  assert (Hdbm : 0 <= days_before_month year month).
  { unfold days_before_month.
    assert (Hc : month = 1 \/ month = 2 \/ month = 3 \/ month = 4 \/ month = 5
                 \/ month = 6 \/ month = 7 \/ month = 8 \/ month = 9
                 \/ month = 10 \/ month = 11 \/ month = 12) by lia.
    destruct (is_leap year);
      repeat (destruct Hc as [->|Hc]; [cbn; lia|]); subst; cbn; lia. }
  lia.
Qed.

Lemma fromtimestamp_bytes (tz : Z) (fr : frame) (time_offset : nat) :
  datetime_valid (bytes_datetime fr time_offset) = true ->
  fromtimestamp tz (datetime_timestamp tz (bytes_datetime fr time_offset))
  = bytes_datetime fr time_offset
  /\ 946684800 - tz <= datetime_timestamp tz (bytes_datetime fr time_offset).
Proof.
  intros Hv. pose proof (byte_at_range fr time_offset) as Hb. split.
  - unfold datetime_timestamp. apply fromtimestamp_fields; [|exact Hv].
    cbn [bytes_datetime dt_year]. lia.
  - apply timestamp_of_2000; [|exact Hv]. cbn [bytes_datetime dt_year]. lia.
Qed.

Lemma extract_frame_time_ok (tz : Z) (fr : frame) (time_offset : nat) (t : Z) :
  extract_frame_time tz fr time_offset = Ok t ->
  (255 <= length fr)%nat /\ (time_offset + 6 <= length fr)%nat /\
  datetime_valid (bytes_datetime fr time_offset) = true /\
  t = datetime_timestamp tz (bytes_datetime fr time_offset) /\
  fromtimestamp tz t = bytes_datetime fr time_offset.
Proof.
  rewrite extract_frame_time_bytes. intros H.
  destruct (Nat.ltb_spec (length fr) 255); [discriminate|].
  destruct (Nat.ltb_spec (length fr) (time_offset + 6)); [discriminate|].
  destruct (datetime_valid _) eqn:Hv; [|discriminate].
  cbn [orb negb] in H. injection H as <-.
  repeat (split; [assumption || reflexivity|]).
  unfold datetime_timestamp. apply fromtimestamp_fields; [|exact Hv].
  cbn [bytes_datetime dt_year].
  pose proof (byte_at_range fr time_offset). lia.
Qed.

(** X4. The timestamp a data-judge function writes for a frame is the
    frame's own six bytes, whatever the zone of the host: when the timestamp
    decodes, the local time of the decoded epoch has the year 2000 + byte 0
    and the month, day, hour, minute and second of bytes 1 to 5; the
    formatted time is that date and time printed as [%Y-%m-%d %H:%M:%S], 19
    characters, and is the same in every zone. *)
Theorem frame_time_bytes (tz : Z) (fr : frame) (time_offset : nat) (t : Z) :
  extract_frame_time tz fr time_offset = Ok t ->
  fromtimestamp tz t = bytes_datetime fr time_offset
  /\ frame_time tz time_offset fr = strftime (bytes_datetime fr time_offset)
  /\ String.length (frame_time tz time_offset fr) = 19%nat
  /\ (forall tz', frame_time tz' time_offset fr = frame_time tz time_offset fr).
Proof.
  intros H.
  assert (Hany : forall z,
            frame_time z time_offset fr
            = strftime (bytes_datetime fr time_offset)).
  { intros z. unfold frame_time.
    pose proof (extract_frame_time_bytes z fr time_offset) as Hz.
    rewrite extract_frame_time_bytes in H.
    destruct (_ || _); [discriminate|].
    rewrite Hz.
    assert (Hok : extract_frame_time z fr time_offset
                  = Ok (datetime_timestamp z (bytes_datetime fr time_offset)))
      by exact Hz.
    now destruct (extract_frame_time_ok z fr time_offset _ Hok)
      as (_ & _ & _ & _ & ->). }
  destruct (extract_frame_time_ok tz fr time_offset t H) as (_ & _ & _ & _ & Hf).
  split; [exact Hf|]. split; [apply Hany|]. split.
  - rewrite Hany. reflexivity.
  - intros tz'. now rewrite !Hany.
Qed.


(** ** More on the frame-stream reader *)

Section ReaderMore.

Variable tz : Z.
Variables frame_offset time_offset : nat.
Variable frame_size : nat.

Local Abbreviation check := (check_frame tz time_offset).
Local Abbreviation emitted_frame := (emitted tz time_offset).
Local Abbreviation kept_of := (kept tz time_offset).
Local Abbreviation errors := (errors_from tz time_offset).
Local Abbreviation read := (read_binary_file tz frame_offset time_offset).

(** The window decides only between keeping and dropping a frame that
    passed the checks. *)
Lemma check_frame_window (s e : Z) (fd : frame) :
  (exists why, forall s' e', check s' e' frame_size fd = inl why)
  \/ (forall s' e',
        check s' e' frame_size fd
        = inr (in_window tz time_offset s' e' fd)).
Proof.
  unfold check_frame, in_window.
  destruct (negb _); [left; eexists; reflexivity|].
  destruct (extract_frame_time tz fd time_offset) as [t|err];
    [|left; eexists; reflexivity].
  destruct (t <? 0); [left; eexists; reflexivity|].
  destruct (_ || _); [left; eexists; reflexivity|].
  right. reflexivity.
Qed.

Lemma errors_window (s e s' e' : Z) (sl : list (nat * frame)) :
  forall frame_count,
    errors s e frame_size frame_count sl
    = errors s' e' frame_size frame_count sl.
Proof.
  induction sl as [|[pos fd] sl IH]; intros cnt; [reflexivity|].
  cbn [errors_from].
  destruct (check_frame_window s e fd) as [[why H]|H]; rewrite !H.
  - now rewrite IH.
  - apply IH.
Qed.

Lemma emitted_window (s e : Z) (fd : frame) :
  emitted_frame s e frame_size fd = true ->
  in_window tz time_offset s e fd = true
  /\ forall s' e',
       emitted_frame s' e' frame_size fd = in_window tz time_offset s' e' fd.
Proof.
  unfold emitted. intros H.
  destruct (check_frame_window s e fd) as [[why Hc]|Hc].
  - now rewrite Hc in H.
  - rewrite Hc in H. split.
    + now destruct (in_window tz time_offset s e fd).
    + intros s' e'. rewrite Hc.
      now destruct (in_window tz time_offset s' e' fd).
Qed.

Lemma in_window_narrow (s e s' e' : Z) (fd : frame) :
  s' <= s -> e <= e' ->
  in_window tz time_offset s e fd = true ->
  in_window tz time_offset s' e' fd = true.
Proof.
  unfold in_window. intros Hs He.
  destruct (extract_frame_time tz fd time_offset) as [t|]; [|discriminate].
  rewrite !andb_true_iff, !Z.leb_le. lia.
Qed.

Lemma kept_narrow (s e s' e' : Z) (sl : list (nat * frame)) :
  s' <= s -> e <= e' ->
  kept_of s e frame_size sl
  = List.filter (in_window tz time_offset s e) (kept_of s' e' frame_size sl).
Proof.
  intros Hs He. induction sl as [|[pos fd] sl IH]; [reflexivity|].
  unfold kept in *. cbn [List.filter snd].
  destruct (emitted_frame s e frame_size fd) eqn:Hem.
  - destruct (emitted_window s e fd Hem) as [Hw Hall].
    rewrite (Hall s' e'), (in_window_narrow s e s' e' fd Hs He Hw).
    cbn [map List.filter snd]. rewrite Hw. now rewrite IH.
  - destruct (emitted_frame s' e' frame_size fd) eqn:Hem'; [|exact IH].
    destruct (emitted_window s' e' fd Hem') as [_ Hall].
    cbn [map List.filter snd]. rewrite <- (Hall s e), Hem. exact IH.
Qed.

(** X5. The time window only selects among the frames that pass the checks:
    the error log is the same for every window; a window inside another one
    yields the frames of the wider result that lie in the narrower window, in
    the same order; and a window whose end is before its start yields no
    frame. *)
Theorem read_binary_file_window (s e s' e' : Z) (data : list Byte.byte) :
  s' <= s -> e <= e' ->
  exists results wider error_log,
    read s e frame_size data = Some (results, error_log)
    /\ read s' e' frame_size data = Some (wider, error_log)
    /\ results = List.filter (in_window tz time_offset s e) wider
    /\ (e < s -> results = []).
Proof.
  intros Hs He.
  exists (kept_of s e frame_size (all_slots frame_offset frame_size data)),
         (kept_of s' e' frame_size (all_slots frame_offset frame_size data)),
         (errors s e frame_size 0 (all_slots frame_offset frame_size data)).
  split; [apply read_binary_file_slots|].
  split; [rewrite (errors_window s e s' e'); apply read_binary_file_slots|].
  split; [now apply kept_narrow|].
  intros Hempty. rewrite (kept_narrow s e s' e' _ Hs He).
  induction (kept_of s' e' frame_size _) as [|fd l IH]; [reflexivity|].
  cbn [List.filter]. rewrite IH.
  unfold in_window. destruct (extract_frame_time tz fd time_offset) as [t|];
    [|reflexivity].
  destruct (Z.leb_spec s t), (Z.leb_spec t e); try reflexivity. lia.
Qed.

Variables start_timestamp end_timestamp : Z.

Local Abbreviation check1 :=
  (check_frame tz time_offset start_timestamp end_timestamp frame_size).
Local Abbreviation read1 :=
  (read_binary_file tz frame_offset time_offset start_timestamp end_timestamp
     frame_size).
Local Abbreviation kept1 :=
  (kept tz time_offset start_timestamp end_timestamp frame_size).
Local Abbreviation errors1 :=
  (errors_from tz time_offset start_timestamp end_timestamp frame_size).
Local Abbreviation emitted1 :=
  (emitted tz time_offset start_timestamp end_timestamp frame_size).

(** Every slot holds the bytes that start at its position. *)
Lemma slots_chunks (data : list Byte.byte) :
  forall fuel pos,
    slots frame_size data fuel pos =
    map (fun k => ((pos + k * frame_size)%nat, chunk pos frame_size data k))
        (seq 0 (length (slots frame_size data fuel pos))).
Proof.
  induction fuel as [|fuel IH]; intros pos; [reflexivity|].
  cbn [slots].
  destruct (take frame_size (drop pos data)) as [|c fd] eqn:Hread;
    [reflexivity|].
  cbn [length seq map]. f_equal.
  - unfold chunk. now rewrite Nat.mul_0_l, Nat.add_0_r, Hread.
  - rewrite IH at 1. rewrite <- seq_shift, map_map.
    apply map_ext. intros k. unfold chunk.
    now replace (pos + frame_size + k * frame_size)%nat
      with (pos + S k * frame_size)%nat by lia.
Qed.

Lemma slot_count (data : list Byte.byte) :
  forall fuel pos,
    (length data - pos < fuel)%nat -> (0 < frame_size)%nat ->
    length (slots frame_size data fuel pos)
    = ((length data - pos + frame_size - 1) / frame_size)%nat.
Proof.
  induction fuel as [|fuel IH]; intros pos Hfuel Hfs; [lia|].
  cbn [slots].
  destruct (take frame_size (drop pos data)) as [|c fd] eqn:Hread.
  - assert (Hl : length (take frame_size (drop pos data)) = 0%nat)
      by now rewrite Hread.
    rewrite length_take, length_drop in Hl.
    replace (length data - pos)%nat with 0%nat by lia.
    cbn [length]. symmetry. apply Nat.div_small. lia.
  - destruct (read_nonempty _ _ _ _ _ Hread) as [_ Hpos].
    cbn [length]. rewrite IH by lia.
    destruct (Nat.le_gt_cases (pos + frame_size) (length data)).
    + replace (length data - pos + frame_size - 1)%nat
        with (1 * frame_size
              + (length data - (pos + frame_size) + frame_size - 1))%nat
        by lia.
      rewrite Nat.div_add_l by lia. lia.
    + (* a short last slot *)
      replace (length data - (pos + frame_size))%nat with 0%nat by lia.
      rewrite (Nat.div_small (0 + frame_size - 1)) by lia.
      apply (Nat.div_unique _ frame_size 1 (length data - pos - 1)); lia.
Qed.

(** X6. The frames the reader returns are chunks of the file, taken in
    slot order: with [n] the number of slots the scan visits, the result is
    the list of the chunks [data[frame_offset + k * frame_size :
    frame_offset + (k + 1) * frame_size]] for the slot numbers [k] of
    [0 .. n-1] whose chunk passes the checks and lies in the window; every
    returned chunk lies wholly inside the file; each slot gives at most one
    frame or one log entry; and with a positive frame size
    [n = ceil((len(data) - frame_offset) / frame_size)]. *)
Theorem read_binary_file_chunks (data : list Byte.byte) :
  let n := length (all_slots frame_offset frame_size data) in
  let ks :=
    List.filter (fun k => emitted1 (chunk frame_offset frame_size data k))
                (seq 0 n) in
  exists results error_log,
    read1 data = Some (results, error_log)
    /\ results = map (chunk frame_offset frame_size data) ks
    /\ Forall (fun k => (frame_offset + (k + 1) * frame_size <= length data)%nat)
              ks
    /\ (length results + length error_log <= n)%nat
    /\ ((0 < frame_size)%nat ->
        n = ((length data - frame_offset + frame_size - 1) / frame_size)%nat).
Proof.
  intros n ks.
  set (sl := all_slots frame_offset frame_size data) in *.
  set (g := fun k => ((frame_offset + k * frame_size)%nat,
                      chunk frame_offset frame_size data k)).
  assert (Hsl : sl = map g (seq 0 n)) by apply slots_chunks.
  exists (kept1 sl), (errors1 0 sl).
  split; [apply read_binary_file_slots|].
  split.
  { unfold kept, ks. rewrite Hsl at 1. clear Hsl. generalize (seq 0 n) as l.
    induction l as [|k l IH]; [reflexivity|].
    cbn [map List.filter snd g].
    destruct (emitted1 (chunk frame_offset frame_size data k));
      cbn [map snd]; now rewrite IH. }
  split.
  { apply List.Forall_forall. intros k Hk. apply List.filter_In in Hk.
    destruct Hk as [_ Hk]. apply check_emitted in Hk.
    destruct Hk as (Hlen & t & Ht & _).
    apply extract_frame_time_ok in Ht. destruct Ht as (H255 & _).
    unfold chunk in Hlen, H255. rewrite length_take, length_drop in Hlen, H255.
    lia. }
  split.
  { clear Hsl ks. generalize 0%nat as cnt. unfold n. clear n.
    induction sl as [|[pos fd] l IH]; intros cnt; [cbn; lia|].
    unfold kept in *. cbn [List.filter snd errors_from length].
    unfold emitted at 1.
    pose proof (IH cnt). pose proof (IH (S cnt)).
    destruct (check1 fd) as [why|[|]]; cbn [map length]; lia. }
  intros Hfs. apply slot_count; [lia|exact Hfs].
Qed.

(** X7. The reader's checks in terms of the frame's bytes.  In a zone at
    most 946684800 seconds east of UTC (every real one), a frame read from
    the file is rejected for its length, or because its timestamp does not
    decode, or because its year byte is above 100; the branch for a negative
    timestamp is never taken; and a frame that passes is kept exactly when
    the epoch seconds of its six bytes lie in the window. *)
Theorem check_frame_by_bytes (fd : frame) :
  tz <= 946684800 ->
  check1 fd =
    let dt := bytes_datetime fd time_offset in
    let timestamp := datetime_timestamp tz dt in
    if negb (length fd =? frame_size)%nat
    then inl (FrameLength (length fd) frame_size)
    else if (length fd <? 255)%nat || (length fd <? time_offset + 6)%nat
            || negb (datetime_valid dt)
    then inl (TimeParse ValueError)
    else if 100 <? byte_at fd time_offset
    then inl (TimeOutOfRange timestamp)
    else inr ((start_timestamp <=? timestamp) && (timestamp <=? end_timestamp)).
Proof.
  intros Htz. unfold check_frame. cbv zeta.
  destruct (negb _); [reflexivity|].
  rewrite extract_frame_time_bytes.
  destruct (_ || _) eqn:Hbad; [reflexivity|].
  apply orb_false_iff in Hbad. destruct Hbad as [_ Hv].
  apply negb_false_iff in Hv.
  pose proof (byte_at_range fd time_offset) as Hb.
  destruct (fromtimestamp_bytes tz fd time_offset Hv) as [Hback Hpos].
  rewrite Hback.
  destruct (Z.ltb_spec (datetime_timestamp tz (bytes_datetime fd time_offset)) 0);
    [lia|].
  cbn [dt_year bytes_datetime].
  destruct (Z.ltb_spec (2000 + byte_at fd time_offset) 2000); [lia|].
  cbn [orb].
  destruct (Z.ltb_spec 2100 (2000 + byte_at fd time_offset)),
           (Z.ltb_spec 100 (byte_at fd time_offset)); try lia; reflexivity.
Qed.

Lemma slots_nonempty (data : list Byte.byte) :
  forall fuel pos,
    Forall (fun s => snd s <> [] /\ (length (snd s) <= frame_size)%nat)
           (slots frame_size data fuel pos).
Proof.
  induction fuel as [|fuel IH]; intros pos; [constructor|].
  cbn [slots].
  destruct (take frame_size (drop pos data)) as [|c fd] eqn:Hread;
    [constructor|].
  constructor; [|apply IH]. cbn [snd]. split; [discriminate|].
  rewrite <- Hread, length_take. lia.
Qed.

(** X8. A frame size below 255 yields no frame: every slot is logged,
    either as too short or because [extract_frame_time] refuses a frame
    shorter than 255 bytes, every entry carries the frame index 0, and
    [data_process] takes its empty-result branch. *)
Theorem read_binary_file_short_frames (obj1 : string) (data : list Byte.byte) :
  (frame_size < 255)%nat ->
  exists error_log,
    read1 data = Some ([], error_log)
    /\ length error_log = length (all_slots frame_offset frame_size data)
    /\ Forall (fun e =>
                 err_frame e = 0%nat /\
                 (err_reason e = TimeParse ValueError
                  \/ exists got, (got < frame_size)%nat /\
                                 err_reason e = FrameLength got frame_size))
              error_log
    /\ data_process tz obj1 frame_offset time_offset start_timestamp
         end_timestamp frame_size data = Some EmptyResultSet.
Proof.
  intros Hfs.
  assert (Hchk : forall fd, (length fd <= frame_size)%nat ->
            check1 fd = inl (TimeParse ValueError)
            \/ ((length fd < frame_size)%nat /\
                check1 fd = inl (FrameLength (length fd) frame_size))).
  { intros fd Hlen. unfold check_frame.
    destruct (Nat.eqb_spec (length fd) frame_size) as [E|E]; cbn [negb].
    - left. unfold extract_frame_time.
      destruct (Nat.ltb_spec (length fd) 255); [reflexivity|lia].
    - right. split; [lia|reflexivity]. }
  pose proof (slots_nonempty data (S (length data)) frame_offset) as Hsl.
  fold (all_slots frame_offset frame_size data) in Hsl.
  assert (Hrun : read1 data
                 = Some ([], errors1 0 (all_slots frame_offset frame_size data))
                 /\ length (errors1 0 (all_slots frame_offset frame_size data))
                    = length (all_slots frame_offset frame_size data)
                 /\ Forall (fun e =>
                      err_frame e = 0%nat /\
                      (err_reason e = TimeParse ValueError
                       \/ exists got, (got < frame_size)%nat /\
                                      err_reason e = FrameLength got frame_size))
                      (errors1 0 (all_slots frame_offset frame_size data))).
  { rewrite read_binary_file_slots.
    induction Hsl as [|[pos fd] sl [_ Hlen] _ IH].
    { repeat split. constructor. }
    destruct IH as (Hk & Hl & Hf). injection Hk as Hk.
    unfold kept in *. cbn [List.filter snd errors_from length].
    unfold emitted at 1. cbn [snd] in Hlen.
    destruct (Hchk fd Hlen) as [E|[Hlt E]]; rewrite E;
      (split; [now rewrite Hk|]); (split; [cbn [length]; now rewrite Hl|]);
      (constructor; [|exact Hf]); cbn [err_frame err_reason];
      (split; [reflexivity|]); [now left|right; eauto]. }
  destruct Hrun as (Hrun & Hlen & Hall).
  eexists. split; [exact Hrun|]. split; [exact Hlen|]. split; [exact Hall|].
  unfold data_process. now rewrite Hrun.
Qed.

(** X9. When there is nothing to read the reader returns at once: with a
    frame size of 0, or a frame offset at or past the end of the file, the
    result and the error log are both empty. *)
Theorem read_binary_file_nothing (data : list Byte.byte) :
  frame_size = 0%nat \/ (length data <= frame_offset)%nat ->
  read_binary_file tz frame_offset time_offset start_timestamp end_timestamp
    frame_size data = Some ([], []).
Proof.
  intros H. rewrite read_binary_file_slots.
  assert (Hsl : all_slots frame_offset frame_size data = []).
  { unfold all_slots. cbn [slots].
    destruct H as [->|H]; [reflexivity|].
    now rewrite drop_ge, take_nil by lia. }
  now rewrite Hsl.
Qed.

Lemma errors_index (sl : list (nat * frame)) :
  forall first frame_count failures j e,
    map fst sl
    = map (fun k => (frame_offset + k * frame_size)%nat) (seq first (length sl)) ->
    first = (frame_count + failures)%nat ->
    errors1 frame_count sl !! j = Some e ->
    err_offset e
    = Z.of_nat (frame_offset + (err_frame e + failures + j) * frame_size) - 16.
Proof.
  induction sl as [|[pos fd] sl IH]; intros first cnt failures j e Hpos Hfirst Hj;
    [discriminate|].
  cbn [map fst length seq] in Hpos. injection Hpos as Hp Hrest.
  cbn [errors_from] in Hj.
  destruct (check1 fd) as [why|keep].
  - destruct j as [|j].
    + injection Hj as <-. cbn [err_offset err_frame]. subst. do 2 f_equal. lia.
    + cbn in Hj.
      rewrite (IH (S first) cnt (S failures) j e Hrest ltac:(lia) Hj).
      do 2 f_equal. lia.
  - rewrite (IH (S first) (S cnt) failures j e Hrest ltac:(lia) Hj).
    reflexivity.
Qed.

(** X10. How a log entry's frame index and byte offset go together: the
    index counts the frames that passed the checks before the entry, so the
    [j]-th entry of the log (from 0) belongs to slot number [index + j] and
    its offset is [frame_offset + (index + j) * frame_size - 16]; the
    indices never decrease along the log. *)
Theorem error_log_index (data : list Byte.byte) :
  exists results error_log,
    read_binary_file tz frame_offset time_offset start_timestamp end_timestamp
      frame_size data = Some (results, error_log)
    /\ (forall j e,
          error_log !! j = Some e ->
          err_offset e
          = Z.of_nat (frame_offset + (err_frame e + j) * frame_size) - 16)
    /\ (forall i j e1 e2,
          (i <= j)%nat -> error_log !! i = Some e1 -> error_log !! j = Some e2 ->
          (err_frame e1 <= err_frame e2)%nat).
Proof.
  exists (kept1 (all_slots frame_offset frame_size data)),
         (errors1 0 (all_slots frame_offset frame_size data)).
  split; [apply read_binary_file_slots|]. split.
  - intros j e Hj.
    rewrite (errors_index _ 0 0 0 j e (slots_aligned _ _ _ _) eq_refl Hj).
    do 4 f_equal. lia.
  - generalize (all_slots frame_offset frame_size data) as sl.
    generalize 0%nat as cnt.
    assert (Hge : forall sl cnt j e,
              errors1 cnt sl !! j = Some e -> (cnt <= err_frame e)%nat).
    { induction sl as [|[pos fd] sl IH]; intros cnt j e Hj; [discriminate|].
      cbn [errors_from] in Hj. destruct (check1 fd).
      - destruct j as [|j]; [injection Hj as <-; cbn; lia|].
        apply (IH cnt j e Hj).
      - specialize (IH (S cnt) j e Hj). lia. }
    intros cnt sl. revert cnt.
    induction sl as [|[pos fd] sl IH]; intros cnt i j e1 e2 Hij H1 H2;
      [discriminate|].
    cbn [errors_from] in H1, H2. destruct (check1 fd).
    + destruct i as [|i], j as [|j]; try lia.
      * injection H1 as <-. injection H2 as <-. lia.
      * injection H1 as <-. cbn in H2. cbn [err_frame].
        apply (Hge sl cnt j e2 H2).
      * cbn in H1, H2. apply (IH cnt i j e1 e2 ltac:(lia) H1 H2).
    + apply (IH (S cnt) i j e1 e2 Hij H1 H2).
Qed.

End ReaderMore.

(** ** The reader against the specification's classes of slots *)

Section ReaderClaims.

Variable tz : Z.
Variables frame_offset time_offset : nat.
Variables start_timestamp end_timestamp : Z.
Variable frame_size : nat.

Local Abbreviation check :=
  (check_frame tz time_offset start_timestamp end_timestamp frame_size).
Local Abbreviation emitted_frame :=
  (emitted tz time_offset start_timestamp end_timestamp frame_size).
Local Abbreviation failed_frame :=
  (failed tz time_offset start_timestamp end_timestamp frame_size).
Local Abbreviation kept_of :=
  (kept tz time_offset start_timestamp end_timestamp frame_size).
Local Abbreviation errors :=
  (errors_from tz time_offset start_timestamp end_timestamp frame_size).
Local Abbreviation class_of :=
  (slot_class_of tz time_offset start_timestamp end_timestamp frame_size).

(** [check_frame] sorts a slot into the class the specification gives it. *)
Lemma check_frame_class (fd : frame) : outcome_class (check fd) = class_of fd.
Proof.
  unfold check_frame, slot_class_of.
  destruct (negb (length fd =? frame_size)%nat); [reflexivity|].
  rewrite extract_frame_time_bytes.
  replace ((length fd <? time_offset + 6)%nat
           || negb (datetime_valid (bytes_datetime fd time_offset))
           || (length fd <? 255)%nat)
    with ((length fd <? 255)%nat || (length fd <? time_offset + 6)%nat
          || negb (datetime_valid (bytes_datetime fd time_offset)))
    by (destruct (length fd <? 255)%nat, (length fd <? time_offset + 6)%nat,
          (datetime_valid (bytes_datetime fd time_offset)); reflexivity).
  destruct ((length fd <? 255)%nat || (length fd <? time_offset + 6)%nat)
    eqn:Hshort; cbn [orb]; [reflexivity|].
  destruct (datetime_valid (bytes_datetime fd time_offset)) eqn:Hv;
    cbn [negb]; [|reflexivity].
  destruct (fromtimestamp_bytes tz fd time_offset Hv) as [-> _].
  cbv zeta.
  destruct (datetime_timestamp tz (bytes_datetime fd time_offset) <? 0);
    [now rewrite orb_true_r|].
  rewrite orb_false_r. clear Hshort.
  destruct (_ || _); [reflexivity|].
  now destruct (_ && _).
Qed.

Lemma failed_class (fd : frame) :
  failed_frame fd = class_is_error (class_of fd).
Proof.
  rewrite <- check_frame_class. unfold failed.
  destruct (check fd) as [[]|[]]; reflexivity.
Qed.

Lemma emitted_class (fd : frame) :
  emitted_frame fd = class_is_emitted (class_of fd).
Proof.
  rewrite <- check_frame_class. unfold emitted.
  destruct (check fd) as [[]|[]]; reflexivity.
Qed.

Lemma kept_class (sl : list (nat * frame)) :
  kept_of sl
  = map snd (List.filter (fun s => class_is_emitted (class_of (snd s))) sl).
Proof.
  unfold kept. f_equal. apply filter_ext. intros s. apply emitted_class.
Qed.

(** One diagnostic per slot of an error class, in order, with the slot's
    start position less 16 and a reason of the slot's class. *)
Lemma errors_class (sl : list (nat * frame)) :
  forall frame_count,
    map (fun e => (err_offset e, reason_class (err_reason e)))
        (errors frame_count sl)
    = map (fun s => (Z.of_nat (fst s) - 16, class_of (snd s)))
          (List.filter (fun s => class_is_error (class_of (snd s))) sl).
Proof.
  induction sl as [|[pos fd] sl IH]; intros cnt; [reflexivity|].
  cbn [errors_from List.filter snd].
  pose proof (check_frame_class fd) as Hcl.
  destruct (check fd) as [why|keep]; cbn [outcome_class] in Hcl;
    rewrite <- Hcl.
  - replace (class_is_error (reason_class why)) with true by now destruct why.
    cbn [map err_offset err_reason fst snd]. now rewrite IH, Hcl.
  - replace (class_is_error (if keep then InWindow else OutOfWindow))
      with false by now destruct keep.
    apply IH.
Qed.

(** A frame that decodes and is sane outside the window: the outcome that
    appends to neither list. *)
Lemma check_out_of_window_iff (fd : frame) :
  check fd = inr false <->
  length fd = frame_size /\
  exists t,
    extract_frame_time tz fd time_offset = Ok t /\
    0 <= t /\
    2000 <= dt_year (fromtimestamp tz t) <= 2100 /\
    ~ (start_timestamp <= t <= end_timestamp).
Proof.
  unfold check_frame.
  destruct (Nat.eqb_spec (length fd) frame_size) as [Hlen|Hlen]; cbn [negb].
  2:{ split; [discriminate|]. now intros [H _]. }
  destruct (extract_frame_time tz fd time_offset) as [t|e].
  2:{ split; [discriminate|]. now intros (_ & t & H & _). }
  destruct (Z.ltb_spec t 0).
  { split; [discriminate|]. intros (_ & t' & [= <-] & H0 & _). lia. }
  destruct (Z.ltb_spec (dt_year (fromtimestamp tz t)) 2000).
  { split; [discriminate|]. intros (_ & t' & [= <-] & _ & Hy & _). lia. }
  destruct (Z.ltb_spec 2100 (dt_year (fromtimestamp tz t))).
  { split; [discriminate|]. intros (_ & t' & [= <-] & _ & Hy & _). lia. }
  cbn [orb].
  destruct (Z.leb_spec start_timestamp t), (Z.leb_spec t end_timestamp);
    cbn [andb].
  1:{ split; [discriminate|]. intros (_ & t' & [= <-] & _ & _ & Hw). lia. }
  all: split; [|reflexivity]; intros _; (split; [exact Hlen|]); exists t;
    repeat split; first [reflexivity | lia].
Qed.

Lemma failed_iff (fd : frame) :
  failed_frame fd = true <->
  length fd <> frame_size
  \/ (exists e, extract_frame_time tz fd time_offset = Raise e)
  \/ (exists t,
        extract_frame_time tz fd time_offset = Ok t /\
        (t < 0 \/ dt_year (fromtimestamp tz t) < 2000
         \/ 2100 < dt_year (fromtimestamp tz t))).
Proof.
  unfold failed, check_frame.
  destruct (Nat.eqb_spec (length fd) frame_size) as [Hlen|Hlen]; cbn [negb].
  2:{ split; [now left|reflexivity]. }
  destruct (extract_frame_time tz fd time_offset) as [t|e].
  2:{ split; [right; left; now exists e|reflexivity]. }
  destruct (Z.ltb_spec t 0).
  { split; [|reflexivity]. intros _. right. right. exists t. split; [reflexivity|lia]. }
  destruct (Z.ltb_spec (dt_year (fromtimestamp tz t)) 2000).
  { split; [|reflexivity]. intros _. right. right. exists t. split; [reflexivity|lia]. }
  destruct (Z.ltb_spec 2100 (dt_year (fromtimestamp tz t))).
  { split; [|reflexivity]. intros _. right. right. exists t. split; [reflexivity|lia]. }
  cbn [orb]. split; [discriminate|].
  intros [H'|[[e H']|(t' & [= <-] & H')]]; [contradiction|discriminate|lia].
Qed.

(** C6. Per-frame errors never abort the scan.  For every byte source the
    reader returns: its result is the emitted frames of the slots and one
    diagnostic per failed slot; the slots are [frame_size]-aligned from
    [frame_offset] whatever failed before them, and together they are all
    the bytes from [frame_offset] on, so the scan goes on after an error
    until a read yields no bytes.  A slot fails exactly when it has the
    wrong length, when its timestamp does not decode, or when the decoded
    timestamp is negative or has its year outside [2000, 2100]: these are
    the specification's truncated frames, malformed timestamps and
    timestamps out of the sanity range, each of which gets one diagnostic
    with the slot's start position less 16 and a reason of its class, in
    slot order, while the frames of the later slots that are in the window
    are still returned.  When the bytes past [frame_offset] are whole
    frames followed by a shorter tail, the scan ends after that incomplete
    read, which it logs as a frame of the wrong length. *)
Theorem read_binary_file_total (data : list Byte.byte) :
  let sl := all_slots frame_offset frame_size data in
  read_binary_file tz frame_offset time_offset start_timestamp end_timestamp
    frame_size data = Some (kept_of sl, errors 0 sl)
  /\ map fst sl =
     map (fun k => (frame_offset + k * frame_size)%nat) (seq 0 (length sl))
  /\ concat (map snd sl) =
     (if (frame_size =? 0)%nat then [] else drop frame_offset data)
  /\ length (errors 0 sl) =
     length (List.filter (fun s => failed_frame (snd s)) sl)
  /\ (forall header frames tail,
        data = header ++ concat frames ++ tail ->
        length header = frame_offset ->
        Forall (fun fd => length fd = frame_size) frames ->
        (0 < length tail < frame_size)%nat ->
        exists frame_count,
          read_binary_file tz frame_offset time_offset start_timestamp
            end_timestamp frame_size data =
          Some (kept_of (place frame_size frame_offset frames),
                errors 0 (place frame_size frame_offset frames)
                ++ [mk_error frame_count
                      (Z.of_nat (frame_offset + length frames * frame_size) - 16)
                      (FrameLength (length tail) frame_size)]))
  /\ (forall fd,
        failed_frame fd = true <->
        length fd <> frame_size
        \/ (exists e, extract_frame_time tz fd time_offset = Raise e)
        \/ (exists t,
              extract_frame_time tz fd time_offset = Ok t /\
              (t < 0 \/ dt_year (fromtimestamp tz t) < 2000
               \/ 2100 < dt_year (fromtimestamp tz t))))
  /\ (forall fd, outcome_class (check fd) = class_of fd)
  /\ map (fun e => (err_offset e, reason_class (err_reason e))) (errors 0 sl)
     = map (fun s => (Z.of_nat (fst s) - 16, class_of (snd s)))
           (List.filter (fun s => class_is_error (class_of (snd s))) sl)
  /\ kept_of sl
     = map snd (List.filter (fun s => class_is_emitted (class_of (snd s))) sl).
Proof.
  intros sl. split; [apply read_binary_file_slots|].
  split; [apply slots_aligned|].
  split; [apply slots_cover; lia|].
  split.
  { rewrite <- (length_map err_offset), errors_offsets. apply length_map. }
  split.
  { intros header frames tail -> Hh Hall Htail.
    rewrite read_binary_file_slots. unfold all_slots.
    rewrite <- Hh.
    rewrite (slots_frames frame_size tail) by
      (try exact Hall;
       rewrite ?length_app, ?(concat_frames_length _ _ Hall); nia).
    destruct tail as [|c tail']; [cbn in Htail; lia|].
    rewrite kept_app, errors_app.
    exists (0 + length (List.filter (fun s => negb (failed_frame (snd s)))
                          (place frame_size (length header) frames)))%nat.
    f_equal. f_equal.
    - rewrite kept_cons_dropped; [apply app_nil_r|].
      unfold emitted. rewrite check_truncated by lia. reflexivity.
    - cbn [errors_from]. rewrite check_truncated by lia. reflexivity. }
  split; [apply failed_iff|].
  split; [apply check_frame_class|].
  split; [apply errors_class|apply kept_class].
Qed.

(** C5. Every frame in [results] has length [frame_size], a timestamp that
    decodes, is non-negative, has its year in [2000, 2100] and lies in
    [start, end], bounds included; such frames are exactly the ones emitted.
    [results] are the emitted slots in the order of the byte source, whose
    start positions increase.  A frame that decodes and is sane but lies
    outside the window is exactly a frame with the outcome that appends to
    neither list: it is not emitted and it is no error, the error log
    holding one entry per slot of the specification's three error classes
    and none for a slot out of the window. *)
Theorem read_binary_file_emits (data : list Byte.byte) :
  let sl := all_slots frame_offset frame_size data in
  let in_window (fd : frame) :=
    length fd = frame_size /\
    exists t,
      extract_frame_time tz fd time_offset = Ok t /\
      0 <= t /\
      2000 <= dt_year (fromtimestamp tz t) <= 2100 /\
      start_timestamp <= t <= end_timestamp in
  let out_of_window (fd : frame) :=
    length fd = frame_size /\
    exists t,
      extract_frame_time tz fd time_offset = Ok t /\
      0 <= t /\
      2000 <= dt_year (fromtimestamp tz t) <= 2100 /\
      ~ (start_timestamp <= t <= end_timestamp) in
  exists results error_log,
    read_binary_file tz frame_offset time_offset start_timestamp end_timestamp
      frame_size data = Some (results, error_log)
    /\ Forall in_window results
    /\ results = map snd (List.filter (fun s => emitted_frame (snd s)) sl)
    /\ (forall fd, emitted_frame fd = true <-> in_window fd)
    /\ map fst sl =
       map (fun k => (frame_offset + k * frame_size)%nat) (seq 0 (length sl))
    /\ map err_offset error_log =
       map (fun s => Z.of_nat (fst s) - 16)
           (List.filter (fun s => failed_frame (snd s)) sl)
    /\ (forall fd, check fd = inr false <-> out_of_window fd)
    /\ (forall fd,
          out_of_window fd ->
          emitted_frame fd = false /\ failed_frame fd = false
          /\ class_of fd = OutOfWindow)
    /\ (forall fd, outcome_class (check fd) = class_of fd)
    /\ results
       = map snd (List.filter (fun s => class_is_emitted (class_of (snd s))) sl)
    /\ map err_offset error_log =
       map (fun s => Z.of_nat (fst s) - 16)
           (List.filter (fun s => class_is_error (class_of (snd s))) sl).
Proof.
  intros sl in_window out_of_window.
  exists (kept_of sl), (errors 0 sl).
  split; [apply read_binary_file_slots|].
  split.
  { eapply Forall_impl; [apply kept_emitted|].
    intros fd Hfd. now apply check_emitted in Hfd. }
  split; [reflexivity|].
  split; [intros fd; apply check_emitted_iff|].
  split; [apply slots_aligned|].
  split; [apply errors_offsets|].
  split; [intros fd; apply check_out_of_window_iff|].
  split.
  { intros fd Hfd. apply check_out_of_window_iff in Hfd.
    rewrite <- check_frame_class. unfold emitted, failed.
    now rewrite Hfd. }
  split; [apply check_frame_class|].
  split; [apply kept_class|].
  rewrite errors_offsets. f_equal. apply filter_ext. intros s.
  apply failed_class.
Qed.

End ReaderClaims.

(** ** Reader and data-judge functions together *)

Lemma profile_of_in (obj1 : string) (p : profile) :
  profile_of obj1 = Some p ->
  In p profiles /\
  (obj1 = "GVDS"%string /\ p = GVDS \/ (profile_reach p <= 255)%nat).
Proof.
  unfold profile_of, profiles.
  destruct (String.eqb_spec obj1 "WNDS") as [->|_].
  { intros [= <-]. split; [now left|]. right. vm_compute. lia. }
  destruct (String.eqb_spec obj1 "BIDS") as [->|_].
  { intros [= <-]. split; [right; now left|]. right. vm_compute. lia. }
  destruct (String.eqb_spec obj1 "GVDS") as [->|_].
  { intros [= <-]. split; [do 2 right; now left|]. now left. }
  destruct (String.eqb_spec obj1 "MVDS") as [->|_]; [|discriminate].
  intros [= <-]. split; [do 3 right; now left|]. right. vm_compute. lia.
Qed.

(** The frames the reader returns decode and have the configured size. *)
Lemma kept_frames (tz : Z) (time_offset : nat) (s e : Z) (frame_size : nat)
    (sl : list (nat * frame)) :
  Forall (fun fd => length fd = frame_size /\ (255 <= frame_size)%nat /\
                    is_ok (extract_frame_time tz fd time_offset) = true)
         (kept tz time_offset s e frame_size sl).
Proof.
  pose proof (kept_emitted tz time_offset s e frame_size sl) as H.
  induction H as [|fd l Hfd _ IH]; constructor; [|exact IH].
  apply check_emitted in Hfd. destruct Hfd as (Hlen & t & Ht & _).
  split; [exact Hlen|]. split.
  - apply extract_frame_time_ok in Ht. lia.
  - now rewrite Ht.
Qed.

Section PipelineConfig.

Variable strptime_timestamp : string -> option Z.

(** X11. What one data file's pass through [data_process] comes to, for
    time strings, an integer frame offset and natural time offset and frame
    size.  It raises when the start time does not parse, else when the end
    time does not parse, else, with [OSError], when the frame offset is
    negative.  Otherwise, when the frames are long enough for the profile
    (always for WNDS, BIDS and MVDS, and for GVDS when the frame size is at
    least 302), it does not raise: the reader returns a list, and the pass
    ends in the empty-result branch when that list is empty, in the
    unknown-object branch when it is not and [obj1] names no profile, and
    else with the summary vector, of the profile's length, that the
    profile's data-judge function returns on that very list. *)
Theorem data_process_returns (tz : Z) (obj1 : string) (frameoffset : Z)
    (timeoffset : nat) (starttime endtime : string) (framesize : nat)
    (data : list Byte.byte) :
  (obj1 = "GVDS"%string -> (302 <= framesize)%nat) ->
  let run :=
    data_process_config strptime_timestamp tz obj1 frameoffset timeoffset
      starttime endtime framesize data in
  match strptime_timestamp starttime, strptime_timestamp endtime with
  | None, _ => run = TimeStringError starttime
  | Some _, None => run = TimeStringError endtime
  | Some start_timestamp, Some end_timestamp =>
      if frameoffset <? 0 then run = SeekError frameoffset
      else
        exists frame_data error_log,
          read_binary_file tz (Z.to_nat frameoffset) timeoffset
            start_timestamp end_timestamp framesize data
          = Some (frame_data, error_log)
          /\ ((frame_data = [] /\ run = Returns (Some EmptyResultSet))
              \/ (frame_data <> [] /\ profile_of obj1 = None
                  /\ run = Returns (Some UnknownObject))
              \/ (frame_data <> [] /\
                  exists p res,
                    profile_of obj1 = Some p
                    /\ data_judge tz p frame_data timeoffset = Ok res
                    /\ length res = p_size p
                    /\ run = Returns (Some (Judged p frame_data (Ok res)))))
  end.
Proof.
  intros Hsize run. unfold run, data_process_config, read_binary_file_config.
  destruct (strptime_timestamp starttime) as [s|]; [|reflexivity].
  destruct (strptime_timestamp endtime) as [e|]; [|reflexivity].
  destruct (frameoffset <? 0); [reflexivity|].
  rewrite read_binary_file_slots.
  pose proof (kept_frames tz timeoffset s e framesize
                (all_slots (Z.to_nat frameoffset) framesize data)) as Hk.
  eexists _, _. split; [reflexivity|].
  destruct (kept _ _ _ _ _ _) as [|fd frames] eqn:Ek.
  { left. now split. }
  right. destruct (profile_of obj1) as [p|] eqn:Ep.
  2:{ left. now repeat split. }
  right. split; [discriminate|].
  destruct (profile_of_in obj1 p Ep) as [Hin Hreach].
  assert (Hok : Forall (frame_ok tz p timeoffset) (fd :: frames)).
  { eapply Forall_impl; [exact Hk|]. cbv beta.
    intros fr (Hlen & H255 & Ht). split; [|exact Ht].
    destruct Hreach as [[-> ->]|Hr]; [|lia].
    specialize (Hsize eq_refl).
    change (profile_reach GVDS) with 302%nat. lia. }
  destruct (data_judge_total tz p timeoffset (profiles_wf p Hin) _ Hok)
    as (res & Hrun & Hlen).
  exists p, res. rewrite Hrun. now repeat split.
Qed.

End PipelineConfig.

Lemma run_blocks_app (speed : num) (ft : string) (fr : frame)
    (blocks1 blocks2 : list block) :
  forall res,
    run_blocks speed ft fr (blocks1 ++ blocks2) res
    = do res1 <- run_blocks speed ft fr blocks1 res;
      run_blocks speed ft fr blocks2 res1.
Proof.
  induction blocks1 as [|b blocks1 IH]; intros res; [reflexivity|].
  cbn [app run_blocks].
  destruct (exec_block speed ft fr b res) as [res1|e]; [|reflexivity].
  cbn [rbind]. apply IH.
Qed.

(** A range loop that runs past the end of the frame raises. *)
Lemma range_loop_short (fr : frame) (ft : string) (slot : nat) :
  forall count first res,
    (0 < count)%nat -> (length fr < first + count)%nat ->
    (slot < length res)%nat ->
    range_loop fr ft slot first count res = Raise IndexError.
Proof.
  induction count as [|count IH]; intros first res Hc Hlen Hs; [lia|].
  cbn [range_loop]. unfold out_of_range at 1.
  destruct (Nat.le_gt_cases (length fr) first) as [Hout|Hin].
  { now rewrite (getbyte_out fr first Hout). }
  destruct (getbyte_total fr first Hin) as (b & -> & _). cbn [rbind].
  destruct (_ || _).
  - rewrite setitem_lt by exact Hs. cbn [rbind].
    apply IH; [lia|lia|now rewrite length_insert].
  - cbn [rbind]. apply IH; [lia|lia|exact Hs].
Qed.

(** The blocks of [GVDS_data_judge] before the voltage loop, and after it. *)
Lemma GVDS_blocks_split :
  exists before after,
    GVDS_blocks = before ++ BRange 286 16 6 :: after
    /\ length before = 6%nat
    /\ Forall (fun b => (block_reach b <= 255)%nat) before.
Proof.
  eexists (take 6 GVDS_blocks), (drop 7 GVDS_blocks).
  split; [vm_compute; reflexivity|]. split; [reflexivity|].
  refine (bool_decide_unpack (Forall _ _) _). vm_compute. exact I.
Qed.

(** On a frame shorter than 302 bytes whose timestamp decodes, the body of
    the GVDS loop raises at the voltage loop. *)
Lemma gvds_frame_short (tz : Z) (time_offset : nat) (res : list value)
    (fr : frame) :
  Forall (slots_typed res) GVDS_blocks ->
  is_ok (extract_frame_time tz fr time_offset) = true ->
  (length fr < 302)%nat ->
  judge_frame tz GVDS time_offset res fr = Raise IndexError.
Proof.
  intros Hty Ht Hlen. unfold judge_frame.
  destruct (extract_frame_time tz fr time_offset) as [t|] eqn:Et;
    [|discriminate].
  apply extract_frame_time_ok in Et. destruct Et as (H255 & _).
  cbn [rbind].
  destruct (decode_total (p_speed GVDS) fr) as [speed ->].
  { change (field_reach (p_speed GVDS)) with 80%nat. lia. }
  cbn [rbind]. change (p_blocks GVDS) with GVDS_blocks.
  destruct GVDS_blocks_split as (before & after & Hsplit & Hlen6 & Hreach).
  pose proof (profiles_wf GVDS ltac:(cbn; tauto)) as [Hnd _].
  change (p_blocks GVDS) with GVDS_blocks in Hnd.
  rewrite Hsplit in Hnd, Hty |- *.
  rewrite flat_map_app in Hnd. apply NoDup_app in Hnd.
  destruct Hnd as (Hnd & _ & _).
  apply Forall_app in Hty. destruct Hty as [Hty1 Hty2].
  apply Forall_cons in Hty2. destruct Hty2 as [Hty2 _].
  rewrite run_blocks_app.
  destruct (run_blocks_total speed (strftime (fromtimestamp tz t)) fr before
              res Hnd) as (res1 & Hrun1 & _).
  { eapply Forall_impl; [exact Hreach|]. cbv beta. intros b Hb. lia. }
  { exact Hty1. }
  rewrite Hrun1. cbn [rbind run_blocks exec_block].
  rewrite range_loop_short; [reflexivity|lia|lia|].
  apply run_blocks_frame in Hrun1. destruct Hrun1 as [-> _].
  cbn [slots_typed] in Hty2. now apply lookup_lt_is_Some.
Qed.

(** X12. [GVDS_data_judge] reads frame bytes up to index 301: with a frame
    size below 302 the voltage loop over bytes 286..301 runs past the end of
    every frame.  So the pass of a GVDS file ends in the empty-result
    branch exactly when the reader returns no frame, and whenever the reader
    returns a frame the data-judge function is called on the reader's list
    and raises [IndexError]. *)
Theorem gvds_short_frames_raise (tz : Z)
    (frameoffset timeoffset : nat) (starttime endtime : Z) (framesize : nat)
    (data : list Byte.byte) :
  (framesize < 302)%nat ->
  exists frame_data error_log,
    read_binary_file tz frameoffset timeoffset starttime endtime framesize
      data = Some (frame_data, error_log)
    /\ data_process tz "GVDS" frameoffset timeoffset starttime endtime
         framesize data
       = Some (match frame_data with
               | [] => EmptyResultSet
               | _ :: _ => Judged GVDS frame_data (Raise IndexError)
               end)
    /\ (frame_data <> [] ->
        GVDS_data_judge tz frame_data timeoffset = Raise IndexError).
Proof.
  intros Hsize. unfold data_process.
  rewrite read_binary_file_slots.
  pose proof (kept_frames tz timeoffset starttime endtime framesize
                (all_slots frameoffset framesize data)) as Hk.
  eexists _, _. split; [reflexivity|].
  destruct (kept _ _ _ _ _ _) as [|fd frames] eqn:Ek.
  { split; [reflexivity|]. now intros []. }
  change (profile_of "GVDS") with (Some GVDS).
  assert (Hraise : data_judge tz GVDS (fd :: frames) timeoffset
                   = Raise IndexError).
  { apply Forall_cons in Hk. destruct Hk as [(Hlen & H255 & Ht) _].
    unfold data_judge. cbn [judge_loop].
    rewrite gvds_frame_short; [reflexivity| |exact Ht|lia].
    apply (initial_typed GVDS). apply profiles_wf. cbn. tauto. }
  split; [now rewrite Hraise|]. intros _. exact Hraise.
Qed.

(** ** The voltage channels *)

Lemma voltage_thresholds : voltage_thresholds_ok = true.
Proof. vm_compute. reflexivity. Qed.

Lemma out_of_range_byte (fr : frame) (i : nat) (c : bool) :
  out_of_range fr i = Ok c ->
  c = (byte_at fr i <? 80) || (140 <? byte_at fr i).
Proof.
  unfold out_of_range. intros H.
  destruct (getbyte fr i) as [b|] eqn:Hb; [|discriminate].
  cbn [rbind] in H. injection H as <-.
  destruct (byte_at_getbyte fr i b Hb) as [<- Hr].
  pose proof voltage_thresholds as Hall. unfold voltage_thresholds_ok in Hall.
  rewrite List.forallb_forall in Hall.
  specialize (Hall (Z.to_nat (byte_at fr i))).
  rewrite Z2Nat.id in Hall by lia.
  apply Bool.eqb_prop. apply Hall. apply List.in_seq. lia.
Qed.

Lemma block_cond_range (fr : frame) (first count slot : nat) :
  (first + count <= length fr)%nat ->
  block_cond (BRange first count slot) fr = voltage_fault fr first count.
Proof.
  intros Hlen. cbn [block_cond]. unfold voltage_fault.
  revert first Hlen. induction count as [|count IH]; intros first Hlen;
    [reflexivity|].
  cbn [seq existsb]. rewrite IH by lia. f_equal.
  destruct (getbyte_total fr first ltac:(lia)) as (b & Hb & _).
  assert (Ho : exists c, out_of_range fr first = Ok c).
  { unfold out_of_range. rewrite Hb. now eexists. }
  destruct Ho as [c Hc]. rewrite Hc. now apply out_of_range_byte.
Qed.

(** X13. The voltage channel of GVDS (bytes 286..301) and of MVDS (bytes
    184..191), slot 6 of both, holds after the run the formatted timestamp
    of the last frame in which one of these raw bytes is below 80 or above
    140, and the integer 0 when there is none: the float tests
    [b * 0.1 < 8] and [b * 0.1 > 14] hold exactly for the raw bytes below 80
    and above 140. *)
Theorem voltage_event_channel (tz : Z) (p : profile) (first count slot : nat)
    (framelist : list frame) (time_offset : nat) :
  In p profiles ->
  In (BRange first count slot) (p_blocks p) ->
  Forall (frame_ok tz p time_offset) framelist ->
  (exists res,
     data_judge tz p framelist time_offset = Ok res /\
     res !! slot =
       Some (EventTimestamp
               (map (fun fr => (voltage_fault fr first count,
                                frame_time tz time_offset fr))
                    framelist)))
  /\ map (fun q => List.filter is_range_block (p_blocks q)) profiles
     = [[]; []; [BRange 286 16 6]; [BRange 184 8 6]].
Proof.
  intros Hp Hb Hok. split; [|vm_compute; reflexivity].
  apply list_elem_of_In in Hb.
  pose proof (profiles_wf p Hp) as Hwf.
  destruct (data_judge_total tz p time_offset Hwf framelist Hok)
    as (res & Hrun & _).
  exists res. split; [exact Hrun|].
  assert (Hinit : replicate (p_size p) (VNum (NInt 0)) !! slot
                  = Some (VNum (NInt 0))).
  { apply initial_slot. apply (block_slot_lt p Hwf _ _ Hb).
    cbn. rewrite elem_of_cons. auto. }
  rewrite (judge_loop_event tz p time_offset Hwf (BRange first count slot) slot
             framelist _ res (VNum (NInt 0))
             (or_intror (ex_intro _ first (ex_intro _ count eq_refl)))
             Hb Hrun Hinit).
  f_equal. unfold EventTimestamp.
  rewrite <- (event_fold_last _ (VNum (NInt 0))), fold_left_map_obs.
  apply fold_left_pointwise_in. intros v fr Hfr. cbn [fst snd].
  rewrite block_cond_range; [reflexivity|].
  rewrite List.Forall_forall in Hok. destruct (Hok fr Hfr) as [Hlen _].
  destruct (reach_blocks p fr Hlen) as [_ Hbl].
  rewrite Forall_forall in Hbl. specialize (Hbl _ Hb). exact Hbl.
Qed.

(** ** The shared-data channel *)

Lemma two_masks (b m1 m2 : Z) :
  negb (Z.land b (Z.lor m1 m2) =? 0)
  = negb (Z.land b m1 =? 0) || negb (Z.land b m2 =? 0).
Proof.
  rewrite Z.land_lor_distr_r.
  destruct (Z.eqb_spec (Z.land b m1) 0) as [E1|E1],
           (Z.eqb_spec (Z.land b m2) 0) as [E2|E2]; cbn [negb orb];
    destruct (Z.eqb_spec (Z.lor (Z.land b m1) (Z.land b m2)) 0) as [E|E];
    try reflexivity; exfalso.
  - apply E. now apply Z.lor_eq_0_iff.
  - apply Z.lor_eq_0_iff in E. tauto.
  - apply Z.lor_eq_0_iff in E. tauto.
  - apply Z.lor_eq_0_iff in E. tauto.
Qed.

(** X24. Slot 1 of the summary means the same in the four functions: each
    has an event channel on slot 1, and its condition on a frame, written
    [(frame[87] & BIT4_MASK) or (frame[87] & BIT5_MASK)] in two of them
    and [frame[87] & 0b00110000] in the other two, is that bit 4 or bit 5
    of byte 87 is set; on a frame without byte 87 both raise IndexError. *)
Theorem shared_data_channel (p : profile) :
  In p profiles ->
  exists tests,
    In (BEvent tests 1) (p_blocks p) /\
    forall fr : frame,
      any_test fr tests
      = (do b <- getbyte fr 87;
         Ok (Z.testbit b 4 || Z.testbit b 5)).
Proof.
  assert (Hbits : forall b, negb (Z.land b 48 =? 0)
                            = Z.testbit b 4 || Z.testbit b 5).
  { intros b. change 48 with (Z.lor (Z.shiftl 1 4) (Z.shiftl 1 5)).
    rewrite two_masks.
    assert (H1 : forall n, 0 <= n ->
              negb (Z.land b (Z.shiftl 1 n) =? 0) = Z.testbit b n).
    { intros n Hn.
      destruct (Z.testbit b n) eqn:Eb.
      - destruct (Z.eqb_spec (Z.land b (Z.shiftl 1 n)) 0) as [E|E];
          [|reflexivity].
        assert (Ht : Z.testbit (Z.land b (Z.shiftl 1 n)) n = true).
        { rewrite Z.land_spec, Eb, Z.shiftl_spec by lia.
          now rewrite Z.sub_diag. }
        rewrite E, Z.bits_0 in Ht. discriminate.
      - destruct (Z.eqb_spec (Z.land b (Z.shiftl 1 n)) 0) as [E|E];
          [reflexivity|].
        exfalso. apply E. apply Z.bits_inj'. intros k Hk.
        rewrite Z.land_spec, Z.bits_0, Z.shiftl_spec by lia.
        destruct (Z.eq_dec k n) as [->|Hne]; [now rewrite Eb|].
        destruct (Z.ltb_spec k n).
        + rewrite (Z.testbit_neg_r 1 (k - n)) by lia. apply andb_false_r.
        + replace (Z.testbit 1 (k - n)) with false; [apply andb_false_r|].
          symmetry. change 1 with (2 ^ 0). apply Z.pow2_bits_false. lia. }
    now rewrite !H1 by lia. }
  intros Hp.
  assert (Hfr : forall fr : frame,
            any_test fr [Bit 87 BIT4_MASK; Bit 87 BIT5_MASK]
            = any_test fr [Bit 87 48]).
  { intros fr. cbn [any_test eval_test].
    destruct (getbyte fr 87) as [b|e]; cbn [rbind]; [|reflexivity].
    change 48 with (Z.lor BIT4_MASK BIT5_MASK). rewrite two_masks.
    now destruct (negb (Z.land b BIT4_MASK =? 0)),
                 (negb (Z.land b BIT5_MASK =? 0)). }
  assert (Hone : forall fr : frame,
            any_test fr [Bit 87 48]
            = (do b <- getbyte fr 87; Ok (Z.testbit b 4 || Z.testbit b 5))).
  { intros fr. cbn [any_test eval_test].
    destruct (getbyte fr 87) as [b|e]; cbn [rbind]; [|reflexivity].
    rewrite Hbits. now destruct (Z.testbit b 4 || Z.testbit b 5). }
  cbn in Hp. destruct Hp as [<-|[<-|[<-|[<-|[]]]]].
  - exists [Bit 87 BIT4_MASK; Bit 87 BIT5_MASK].
    split; [cbn; tauto|]. intros fr. now rewrite Hfr.
  - exists [Bit 87 BIT4_MASK; Bit 87 BIT5_MASK].
    split; [cbn; tauto|]. intros fr. now rewrite Hfr.
  - exists [Bit 87 48]. split; [cbn; tauto|]. exact Hone.
  - exists [Bit 87 48]. split; [cbn; tauto|]. exact Hone.
Qed.

(** ** Max-with-speed channels in closed form *)

Lemma field_eqb_eq (a b : field) : field_eqb a b = true -> a = b.
Proof.
  destruct a, b; cbn [field_eqb]; try discriminate;
    rewrite ?andb_true_iff, ?Nat.eqb_eq;
    try (intros [-> H]; apply FloatAxioms.Leibniz.eqb_spec in H; now subst).
  now intros ->.
Qed.

Lemma field_value_shape (fd : field) (w : Z) :
  field_value fd w = field_value (field_shape fd) w.
Proof. now destruct fd. Qed.

Lemma has_key_shape (fd : field) (v : num) (w : Z) :
  has_key fd v w <-> has_key (field_shape fd) v w.
Proof. unfold has_key. now rewrite field_value_shape. Qed.

Lemma increasing_from_shape (fd : field) (count : nat) :
  forall k x,
    increasing_from fd k x count = increasing_from (field_shape fd) k x count.
Proof.
  induction count as [|count IH]; intros k x; [reflexivity|].
  cbn [increasing_from]. now rewrite field_value_shape, IH.
Qed.

Lemma increasing_upto_shape (fd : field) (count : nat) :
  increasing_upto fd count = increasing_upto (field_shape fd) count.
Proof.
  unfold increasing_upto.
  now rewrite <- field_value_shape, increasing_from_shape.
Qed.

Lemma plain_001_increasing : increasing_upto (U16s 0 0.01) raw_count = true.
Proof.
  change (U16s 0 0.01) with (field_shape (U16s 78 0.01)).
  rewrite <- increasing_upto_shape. exact plain_speed_increasing.
Qed.

Lemma rounded_001_increasing : increasing_upto (U16r 0 0.01) raw_count = true.
Proof.
  change (U16r 0 0.01) with (field_shape (U16r 78 0.01)).
  rewrite <- increasing_upto_shape. exact rounded_speed_increasing.
Qed.

Lemma plain_0001_increasing : increasing_upto (U16s 0 0.001) raw_count = true.
Proof. vm_compute. reflexivity. Qed.

Lemma plain_01_increasing : increasing_upto (U16s 0 0.1) raw_count = true.
Proof. vm_compute. reflexivity. Qed.

Lemma rounded_01_increasing : increasing_upto (U16r 0 0.1) raw_count = true.
Proof. vm_compute. reflexivity. Qed.

Lemma ordered_float (fd : field) :
  increasing_upto fd raw_count = true ->
  to_float (field_value fd 0) = of_int 0 ->
  (forall w, exists x, field_value fd w = NFloat x) ->
  ordered_field fd.
Proof.
  intros Hinc Hz Hfl a b wa wb. now apply has_key_cmp.
Qed.

Lemma ordered_shapes (fd : field) : In fd shapes -> ordered_field fd.
Proof.
  unfold shapes. cbn [In].
  intros [<-|[<-|[<-|[<-|[<-|[<-|[]]]]]]].
  - intros a b wa wb Ha Hb.
    assert (Ea : a = NInt wa) by (destruct Ha as [[-> ->]|[-> _]]; reflexivity).
    assert (Eb : b = NInt wb) by (destruct Hb as [[-> ->]|[-> _]]; reflexivity).
    subst. cbn [num_gt num_eq]. split; reflexivity.
  - apply ordered_float; [exact plain_001_increasing|vm_compute; reflexivity|].
    intros w. eexists. reflexivity.
  - apply ordered_float; [exact plain_0001_increasing|vm_compute; reflexivity|].
    intros w. eexists. reflexivity.
  - apply ordered_float; [exact plain_01_increasing|vm_compute; reflexivity|].
    intros w. eexists. reflexivity.
  - apply ordered_float; [exact rounded_001_increasing|vm_compute; reflexivity|].
    intros w. eexists. reflexivity.
  - apply ordered_float; [exact rounded_01_increasing|vm_compute; reflexivity|].
    intros w. eexists. reflexivity.
Qed.

Lemma profile_fields_known :
  forallb (fun p => forallb known_shape (profile_fields p)) profiles = true.
Proof. vm_compute. reflexivity. Qed.

(** Every field the profiles decode is ordered as its raw values. *)
Lemma profile_field_ordered (p : profile) (fd : field) :
  In p profiles -> In fd (profile_fields p) -> ordered_field fd.
Proof.
  intros Hp Hfd.
  pose proof profile_fields_known as H.
  rewrite List.forallb_forall in H. specialize (H p Hp).
  rewrite List.forallb_forall in H. specialize (H fd Hfd).
  unfold known_shape in H. apply List.existsb_exists in H.
  destruct H as (sh & Hsh & Heq). apply field_eqb_eq in Heq.
  pose proof (ordered_shapes sh Hsh) as Hord. rewrite <- Heq in Hord.
  intros a b wa wb Ha Hb.
  apply Hord; [exact (proj1 (has_key_shape _ _ _) Ha)|exact (proj1 (has_key_shape _ _ _) Hb)].
Qed.

Lemma fold_max_ge (l : list Z) : forall a, a <= fold_left Z.max l a.
Proof.
  induction l as [|x l IH]; intros a; cbn [fold_left]; [lia|].
  specialize (IH (Z.max a x)). lia.
Qed.

Lemma fold_max_range (l : list Z) (bound : Z) :
  Forall (fun x => 0 <= x < bound) l ->
  forall a, 0 <= a < bound -> 0 <= fold_left Z.max l a < bound.
Proof.
  induction 1 as [|x l Hx _ IH]; intros a Ha; cbn [fold_left]; [exact Ha|].
  apply IH. lia.
Qed.

(** The fold of [key_step] in closed form. *)
Lemma key_fold_closed (obs : list (Z * Z)) :
  forall m s,
    0 <= s -> Forall (fun o => 0 <= snd o) obs ->
    fold_left key_step obs (m, s) =
    (fold_left Z.max (map fst obs) m,
     fold_left Z.max
       (map snd (List.filter
                   (fun o => fst o =? fold_left Z.max (map fst obs) m) obs))
       (if m =? fold_left Z.max (map fst obs) m then s else 0)).
Proof.
  induction obs as [|[v w] obs IH]; intros m s Hs Hall.
  { cbn. now rewrite Z.eqb_refl. }
  apply Forall_cons in Hall. destruct Hall as [Hw Hall]. cbn [snd] in Hw.
  cbn [fold_left map fst List.filter].
  pose proof (fold_max_ge (map fst obs) (Z.max m v)) as HM.
  unfold key_step at 2.
  destruct (Z.ltb_spec m v) as [Hlt|Hge].
  - rewrite IH by assumption. replace (Z.max m v) with v in * by lia.
    f_equal.
    destruct (Z.eqb_spec v (fold_left Z.max (map fst obs) v)) as [E|E],
             (Z.eqb_spec m (fold_left Z.max (map fst obs) v)) as [E'|E'];
      try lia; cbn [map snd fold_left]; f_equal; lia.
  - replace (Z.max m v) with m in * by lia.
    destruct (Z.eqb_spec v m) as [->|Hne].
    + rewrite IH by (assumption || lia). f_equal.
      destruct (Z.eqb_spec m (fold_left Z.max (map fst obs) m)) as [E|E];
        cbn [map snd fold_left]; reflexivity.
    + rewrite IH by assumption. f_equal.
      destruct (Z.eqb_spec v (fold_left Z.max (map fst obs) m)) as [E|E];
        [lia|reflexivity].
Qed.

Section MaxChannel.

Variables fd sp : field.
Hypothesis Hfd : ordered_field fd.
Hypothesis Hsp : ordered_field sp.

Lemma has_key_value (m : Z) :
  0 <= m < 65536 ->
  has_key fd (if m =? 0 then NInt 0 else field_value fd m) m.
Proof.
  intros Hm. destruct (Z.eqb_spec m 0) as [->|_]; [now left|now right].
Qed.

Lemma has_key_speed (m s : Z) :
  0 <= s < 65536 ->
  has_key sp (if (m =? 0) && (s =? 0) then NInt 0 else field_value sp s) s.
Proof.
  intros Hs. destruct (Z.eqb_spec s 0) as [->|_];
    destruct (m =? 0); cbn [andb]; try (now left); now right.
Qed.

Lemma step_keys (m s v w : Z) :
  0 <= m < 65536 -> 0 <= s < 65536 -> 0 <= v < 65536 -> 0 <= w < 65536 ->
  MaxWithSpeedTiebreak (of_keys fd sp (m, s))
                       (field_value fd v, field_value sp w)
  = of_keys fd sp (key_step (m, s) (v, w)).
Proof.
  intros Hm Hs Hv Hw. unfold of_keys, key_step, MaxWithSpeedTiebreak.
  destruct (Hfd (field_value fd v) _ v m
              (or_intror (conj eq_refl Hv)) (has_key_value m Hm)) as [Hgt Heq].
  destruct (Hsp (field_value sp w) _ w s
              (or_intror (conj eq_refl Hw)) (has_key_speed m s Hs)) as [Hgs _].
  rewrite Hgt, Heq, Hgs.
  destruct (Z.ltb_spec m v) as [Hlt|Hge].
  - destruct (Z.eqb_spec v 0) as [E|_]; [lia|]. reflexivity.
  - destruct (Z.eqb_spec v m) as [->|Hne]; cbn [andb]; [|reflexivity].
    destruct (Z.ltb_spec s w) as [Hlt|Hge'].
    + rewrite Z.max_r by lia.
      destruct (Z.eqb_spec w 0) as [E|_]; [lia|].
      now rewrite andb_false_r.
    + now rewrite Z.max_l by lia.
Qed.

Lemma key_step_range (m s v w : Z) :
  0 <= m < 65536 -> 0 <= s < 65536 -> 0 <= v < 65536 -> 0 <= w < 65536 ->
  0 <= fst (key_step (m, s) (v, w)) < 65536
  /\ 0 <= snd (key_step (m, s) (v, w)) < 65536.
Proof.
  intros Hm Hs Hv Hw. unfold key_step.
  destruct (m <? v); [cbn; lia|]. destruct (v =? m); cbn; lia.
Qed.

Lemma fold_keys (obs : list (Z * Z)) :
  Forall (fun o => 0 <= fst o < 65536 /\ 0 <= snd o < 65536) obs ->
  forall m s,
    0 <= m < 65536 -> 0 <= s < 65536 ->
    fold_left MaxWithSpeedTiebreak
      (map (fun o => (field_value fd (fst o), field_value sp (snd o))) obs)
      (of_keys fd sp (m, s))
    = of_keys fd sp (fold_left key_step obs (m, s)).
Proof.
  induction 1 as [|[v w] obs [Hv Hw] _ IH]; intros m s Hm Hs; [reflexivity|].
  cbn [map fold_left fst snd] in *.
  rewrite step_keys by assumption.
  destruct (key_step_range m s v w Hm Hs Hv Hw) as [Hm' Hs'].
  destruct (key_step (m, s) (v, w)) as [m' s']. now apply IH.
Qed.

(** The running maximum of the speeds, from the initial int 0. *)
Lemma fold_speed_max (raws : list Z) :
  Forall (fun w => 0 <= w < 65536) raws ->
  forall m,
    0 <= m < 65536 ->
    fold_left (fun cur w => if num_gt (field_value sp w) cur
                            then field_value sp w else cur)
              raws (if m =? 0 then NInt 0 else field_value sp m)
    = (if fold_left Z.max raws m =? 0 then NInt 0
       else field_value sp (fold_left Z.max raws m)).
Proof.
  induction 1 as [|w raws Hw _ IH]; intros m Hm; [reflexivity|].
  cbn [fold_left].
  assert (Hk : has_key sp (if m =? 0 then NInt 0 else field_value sp m) m).
  { destruct (Z.eqb_spec m 0) as [->|_]; [now left|now right]. }
  destruct (Hsp (field_value sp w) _ w m (or_intror (conj eq_refl Hw)) Hk)
    as [Hgt _].
  rewrite Hgt. rewrite <- IH by lia.
  destruct (Z.ltb_spec m w) as [Hlt|Hge].
  - rewrite Z.max_r by lia. destruct (Z.eqb_spec w 0); [lia|reflexivity].
  - now rewrite Z.max_l by lia.
Qed.

End MaxChannel.

Lemma val_raw (fd : field) (fr : frame) :
  (field_reach fd <= length fr)%nat ->
  val fd fr = field_value fd (raw_field fd fr)
  /\ 0 <= raw_field fd fr < 65536.
Proof.
  intros Hlen. destruct (decode_total fd fr Hlen) as [v Hv].
  rewrite (val_ok _ _ _ Hv). now apply decode_value.
Qed.

Lemma filter_map_comm {A B : Type} (g : A -> B) (P : B -> bool) (l : list A) :
  List.filter P (map g l) = map g (List.filter (fun x => P (g x)) l).
Proof.
  induction l as [|x l IH]; [reflexivity|].
  cbn [map List.filter]. destruct (P (g x)); cbn [map]; now rewrite IH.
Qed.

Section ClosedForm.

Variable tz : Z.
Variable p : profile.
Variable time_offset : nat.
Hypothesis Hp : In p profiles.

Lemma speed_raw (framelist : list frame) :
  Forall (frame_ok tz p time_offset) framelist ->
  Forall (fun fr => frame_speed p fr
                    = field_value (p_speed p) (raw_field (p_speed p) fr)
                    /\ 0 <= raw_field (p_speed p) fr < 65536) framelist.
Proof.
  intros Hok. eapply Forall_impl; [exact Hok|]. cbv beta.
  intros fr [Hlen _]. destruct (reach_blocks p fr Hlen) as [Hs _].
  now apply val_raw.
Qed.

(** A faithful max-with-speed channel after the run, on raw values. *)
Lemma mws_closed (fd : field) (slot : nat) (framelist : list frame) :
  In (BMws fd fd slot) (p_blocks p) ->
  Forall (frame_ok tz p time_offset) framelist ->
  exists res,
    data_judge tz p framelist time_offset = Ok res /\
    view2 slot res
    = Some (of_keys fd (p_speed p)
              (top_value fd framelist, top_speed (p_speed p) fd framelist)).
Proof.
  intros Hb Hok.
  destruct (data_judge_mws_same tz p time_offset Hp fd slot framelist Hb Hok)
    as (res & Hrun & Hv).
  exists res. split; [exact Hrun|]. rewrite Hv. f_equal.
  assert (Hfd : ordered_field fd).
  { apply (profile_field_ordered p fd Hp). right.
    apply in_flat_map. exists (BMws fd fd slot). split; [exact Hb|now left]. }
  assert (Hsp : ordered_field (p_speed p))
    by (apply (profile_field_ordered p _ Hp); now left).
  set (g := fun fr => (raw_field fd fr, raw_field (p_speed p) fr)).
  assert (Hraw : Forall (fun fr =>
                   (val fd fr, frame_speed p fr)
                   = (field_value fd (fst (g fr)),
                      field_value (p_speed p) (snd (g fr)))
                   /\ (0 <= fst (g fr) < 65536 /\ 0 <= snd (g fr) < 65536))
                  framelist).
  { pose proof (speed_raw framelist Hok) as Hs.
    rewrite List.Forall_forall in *. intros fr Hfr.
    destruct (Hs fr Hfr) as [Es Rs]. destruct (Hok fr Hfr) as [Hlen _].
    destruct (reach_blocks p fr Hlen) as [_ Hbl].
    rewrite List.Forall_forall in Hbl. specialize (Hbl _ Hb).
    cbn [block_reach] in Hbl.
    destruct (val_raw fd fr ltac:(lia)) as [Ev Rv].
    cbn [g fst snd]. now rewrite Ev, Es. }
  replace (map (fun fr => (val fd fr, frame_speed p fr)) framelist)
    with (map (fun o => (field_value fd (fst o), field_value (p_speed p) (snd o)))
              (map g framelist)).
  2:{ rewrite map_map. apply map_ext_in. intros fr Hfr.
      rewrite List.Forall_forall in Hraw. now destruct (Hraw fr Hfr) as [-> _]. }
  change (NInt 0, NInt 0) with (of_keys fd (p_speed p) (0, 0)).
  rewrite (fold_keys fd (p_speed p) Hfd Hsp) by
    (try lia; rewrite List.Forall_forall in *; intros o Ho;
     apply in_map_iff in Ho; destruct Ho as (fr & <- & Hfr);
     now destruct (Hraw fr Hfr)).
  rewrite key_fold_closed.
  - unfold top_value, top_speed.
    rewrite filter_map_comm, !map_map. cbn [g fst snd].
    now destruct (0 =? _).
  - lia.
  - rewrite List.Forall_forall in *. intros o Ho.
    apply in_map_iff in Ho. destruct Ho as (fr & <- & Hfr).
    destruct (Hraw fr Hfr) as [_ [_ H]]. lia.
Qed.

(** The headline speed after the run, on raw values. *)
Lemma speed_max_closed (framelist : list frame) :
  Forall (frame_ok tz p time_offset) framelist ->
  exists res,
    data_judge tz p framelist time_offset = Ok res /\
    view1 0 res
    = Some (if top_value (p_speed p) framelist =? 0 then NInt 0
            else field_value (p_speed p) (top_value (p_speed p) framelist)).
Proof.
  intros Hok.
  pose proof (profiles_wf p Hp) as Hwf.
  destruct (data_judge_total tz p time_offset Hwf framelist Hok)
    as (res & Hrun & _).
  exists res. split; [exact Hrun|].
  assert (Hb : BMax 0 ∈ p_blocks p).
  { apply list_elem_of_In. unfold profiles in Hp. cbn [In] in Hp.
    destruct Hp as [<-|[<-|[<-|[<-|[]]]]]; left; reflexivity. }
  assert (Hinit : view1 0 (replicate (p_size p) (VNum (NInt 0))) = Some (NInt 0)).
  { unfold view1. rewrite (initial_slot p); [reflexivity|].
    apply (block_slot_lt p Hwf _ _ Hb). cbn. rewrite elem_of_cons. auto. }
  rewrite (judge_loop_max tz p time_offset Hwf 0 framelist _ res (NInt 0)
             Hb Hrun Hinit).
  f_equal.
  assert (Hsp : ordered_field (p_speed p))
    by (apply (profile_field_ordered p _ Hp); now left).
  pose proof (speed_raw framelist Hok) as Hs.
  rewrite (fold_left_pointwise_in _
             (fun cur fr =>
                if num_gt (field_value (p_speed p) (raw_field (p_speed p) fr)) cur
                then field_value (p_speed p) (raw_field (p_speed p) fr)
                else cur)).
  2:{ intros a fr Hfr. rewrite List.Forall_forall in Hs.
      now destruct (Hs fr Hfr) as [-> _]. }
  rewrite <- (fold_left_map_obs
                (fun cur w => if num_gt (field_value (p_speed p) w) cur
                              then field_value (p_speed p) w else cur)
                (raw_field (p_speed p))).
  change (NInt 0) with (if 0 =? 0 then NInt 0 else field_value (p_speed p) 0)
    at 1.
  rewrite (fold_speed_max (p_speed p) Hsp); [reflexivity| |lia].
  rewrite List.Forall_forall in *. intros w Hw.
  apply in_map_iff in Hw. destruct Hw as (fr & <- & Hfr).
  now destruct (Hs fr Hfr).
Qed.

End ClosedForm.

Lemma fold_max_perm (l l' : list Z) :
  Permutation l l' -> forall a, fold_left Z.max l a = fold_left Z.max l' a.
Proof.
  induction 1 as [|x l l' _ IH|x y l|l l' l'' _ IH1 _ IH2]; intros a.
  - reflexivity.
  - cbn [fold_left]. apply IH.
  - cbn [fold_left]. f_equal. lia.
  - now rewrite IH1.
Qed.

Lemma filter_perm {A : Type} (P : A -> bool) (l l' : list A) :
  Permutation l l' -> Permutation (List.filter P l) (List.filter P l').
Proof.
  induction 1 as [|x l l' _ IH|x y l|l l' l'' _ IH1 _ IH2].
  - constructor.
  - cbn [List.filter]. destruct (P x); [now constructor|exact IH].
  - cbn [List.filter]. destruct (P x), (P y); try reflexivity. constructor.
  - now transitivity (List.filter P l').
Qed.

Lemma top_value_perm (fd : field) (l l' : list frame) :
  Permutation l l' -> top_value fd l = top_value fd l'.
Proof.
  intros H. unfold top_value. apply fold_max_perm. now apply Permutation_map.
Qed.

Lemma top_speed_perm (sp fd : field) (l l' : list frame) :
  Permutation l l' -> top_speed sp fd l = top_speed sp fd l'.
Proof.
  intros H. unfold top_speed. rewrite (top_value_perm fd l l' H).
  apply fold_max_perm. apply Permutation_map. now apply filter_perm.
Qed.

(** X14. A max-with-speed channel that stores the field it compares, in
    closed form.  With [m] the largest raw value of the channel's field over
    the frames and [s] the largest raw speed among the frames whose raw
    value is [m]: the value slot holds the decoded [m], or the initial int 0
    when [m] is 0; the speed slot holds the decoded [s], or the initial int
    0 when [m] and [s] are both 0.  The comparisons of decoded values agree
    with those of the raw values for every field the four profiles decode. *)
Theorem max_with_speed_closed_form (tz : Z) (p : profile) (fd : field)
    (slot : nat) (framelist : list frame) (time_offset : nat) :
  In p profiles ->
  In (BMws fd fd slot) (p_blocks p) ->
  Forall (frame_ok tz p time_offset) framelist ->
  let m := top_value fd framelist in
  let s := top_speed (p_speed p) fd framelist in
  exists res,
    data_judge tz p framelist time_offset = Ok res /\
    res !! slot = Some (VNum (if m =? 0 then NInt 0 else field_value fd m)) /\
    res !! (slot + 1)%nat
    = Some (VNum (if (m =? 0) && (s =? 0) then NInt 0
                  else field_value (p_speed p) s)).
Proof.
  intros Hp Hb Hok m s.
  destruct (mws_closed tz p time_offset Hp fd slot framelist Hb Hok)
    as (res & Hrun & Hv).
  exists res. split; [exact Hrun|].
  unfold of_keys in Hv. fold m s in Hv. unfold view2 in Hv.
  destruct (res !! slot) as [[a|]|]; try discriminate.
  destruct (res !! (slot + 1)%nat) as [[b|]|]; try discriminate.
  now injection Hv as -> ->.
Qed.

(** X15. The numeric summary does not depend on the order of the frames:
    for two frame lists that are permutations of each other, the headline
    speed (slot 0) and the two slots of every max-with-speed channel that
    stores the field it compares are the same. *)
Theorem max_channels_any_order (tz : Z) (p : profile) (fd : field)
    (slot : nat) (framelist framelist' : list frame) (time_offset : nat) :
  In p profiles ->
  In (BMws fd fd slot) (p_blocks p) ->
  Forall (frame_ok tz p time_offset) framelist ->
  Permutation framelist framelist' ->
  exists res res',
    data_judge tz p framelist time_offset = Ok res /\
    data_judge tz p framelist' time_offset = Ok res' /\
    view1 0 res = view1 0 res' /\
    view2 slot res = view2 slot res'.
Proof.
  intros Hp Hb Hok Hperm.
  assert (Hok' : Forall (frame_ok tz p time_offset) framelist').
  { rewrite List.Forall_forall in *. intros fr Hfr. apply Hok.
    apply (Permutation_in fr (Permutation_sym Hperm) Hfr). }
  destruct (mws_closed tz p time_offset Hp fd slot framelist Hb Hok)
    as (res & Hrun & Hv).
  destruct (mws_closed tz p time_offset Hp fd slot framelist' Hb Hok')
    as (res' & Hrun' & Hv').
  destruct (speed_max_closed tz p time_offset Hp framelist Hok)
    as (r & Hr & Hs).
  destruct (speed_max_closed tz p time_offset Hp framelist' Hok')
    as (r' & Hr' & Hs').
  rewrite Hrun in Hr. injection Hr as <-.
  rewrite Hrun' in Hr'. injection Hr' as <-.
  exists res, res'. split; [exact Hrun|]. split; [exact Hrun'|]. split.
  - rewrite Hs, Hs'. now rewrite (top_value_perm _ _ _ Hperm).
  - rewrite Hv, Hv'.
    now rewrite (top_value_perm _ _ _ Hperm), (top_speed_perm _ _ _ _ Hperm).
Qed.

(** ** Every slot of a summary vector *)

Lemma profiles_covered : forallb slots_covered profiles = true.
Proof. vm_compute. reflexivity. Qed.

Lemma slot_block (p : profile) (j : nat) :
  In p profiles -> (j < p_size p)%nat ->
  exists b, In b (p_blocks p) /\ In j (block_slots b).
Proof.
  intros Hp Hj. pose proof profiles_covered as H.
  rewrite List.forallb_forall in H. specialize (H p Hp).
  unfold slots_covered in H. rewrite List.forallb_forall in H.
  specialize (H j ltac:(apply List.in_seq; lia)).
  apply List.existsb_exists in H. destruct H as (b & Hb & H).
  apply List.existsb_exists in H. destruct H as (k & Hk & E).
  apply Nat.eqb_eq in E. subst k. now exists b.
Qed.

Lemma event_fold_choice (tz : Z) (time_offset : nat) (b : block)
    (framelist : list frame) :
  forall v,
    let r := fold_left
               (fun v fr =>
                  if block_cond b fr then VStr (frame_time tz time_offset fr)
                  else v)
               framelist v in
    r = v \/ exists fr, In fr framelist
                        /\ r = VStr (frame_time tz time_offset fr).
Proof.
  induction framelist as [|fr framelist IH]; intros v; [now left|].
  cbn [fold_left]. cbv zeta.
  destruct (IH (if block_cond b fr then VStr (frame_time tz time_offset fr)
                else v)) as [E|(fr' & Hin & E)]; cbv zeta in E; rewrite E.
  - destruct (block_cond b fr); [|now left].
    right. exists fr. split; [now left|reflexivity].
  - right. exists fr'. split; [now right|reflexivity].
Qed.

Section Slots.

Variable tz : Z.
Variable p : profile.
Variable time_offset : nat.
Hypothesis Hwf : wf_profile p.

Lemma judge_loop_typed (framelist : list frame) :
  Forall (frame_ok tz p time_offset) framelist ->
  forall res res',
    Forall (slots_typed res) (p_blocks p) ->
    judge_loop tz p time_offset framelist res = Ok res' ->
    Forall (slots_typed res') (p_blocks p).
Proof.
  induction 1 as [|fr framelist Hfr _ IH]; intros res res' Ht Hrun.
  - now injection Hrun as <-.
  - cbn [judge_loop] in Hrun.
    destruct (judge_frame_total tz p time_offset Hwf res fr Hfr Ht)
      as (res1 & H1 & Ht1 & _).
    rewrite H1 in Hrun. cbn [rbind] in Hrun. now apply (IH res1).
Qed.

End Slots.

(** X16. Every slot of a summary vector is accounted for.  Each index below
    the profile's length belongs to a block of the profile; after a run on
    frames that are long enough and decode, a slot of an event channel holds
    the initial int 0 or the formatted timestamp of one of the input frames,
    and every other slot holds a number. *)
Theorem summary_slots (tz : Z) (p : profile) (framelist : list frame)
    (time_offset : nat) :
  In p profiles ->
  Forall (frame_ok tz p time_offset) framelist ->
  exists res,
    data_judge tz p framelist time_offset = Ok res
    /\ length res = p_size p
    /\ forall j,
         (j < p_size p)%nat ->
         if bool_decide (j ∈ event_slots p)
         then res !! j = Some (VNum (NInt 0))
              \/ exists fr, In fr framelist
                            /\ res !! j
                               = Some (VStr (frame_time tz time_offset fr))
         else exists a, res !! j = Some (VNum a).
Proof.
  intros Hp Hok. pose proof (profiles_wf p Hp) as Hwf.
  destruct (data_judge_total tz p time_offset Hwf framelist Hok)
    as (res & Hrun & Hlen).
  exists res. split; [exact Hrun|]. split; [exact Hlen|].
  intros j Hj. destruct (slot_block p j Hp Hj) as (b & Hb & Hjb).
  pose proof (proj2 (list_elem_of_In _ _) Hb) as Hb'.
  assert (Hinit : replicate (p_size p) (VNum (NInt 0)) !! j
                  = Some (VNum (NInt 0))) by now apply initial_slot.
  pose proof (judge_loop_typed tz p time_offset Hwf framelist Hok _ res
                (initial_typed p Hwf) Hrun) as Hty.
  rewrite Forall_forall in Hty. specialize (Hty b Hb').
  destruct (bool_decide (j ∈ event_slots p)) eqn:Hev.
  - apply bool_decide_eq_true in Hev. apply list_elem_of_In in Hev.
    unfold event_slots in Hev. apply in_flat_map in Hev.
    destruct Hev as (b' & Hb0 & Hj').
    destruct b' as [s|tests s|first count s|c st s|a f s];
      cbn [In] in Hj'; try contradiction;
      destruct Hj' as [<-|[]].
    + clear Hty Hjb Hb Hb' b.
      pose proof (proj2 (list_elem_of_In _ _) Hb0) as Hb'.
      rewrite (judge_loop_event tz p time_offset Hwf (BEvent tests s) s
                 framelist _ res (VNum (NInt 0))
                 (or_introl (ex_intro _ tests eq_refl)) Hb' Hrun Hinit).
      destruct (event_fold_choice tz time_offset (BEvent tests s) framelist
                  (VNum (NInt 0)))
        as [E|(fr & Hin & E)]; cbv zeta in E; rewrite E; [now left|].
      right. now exists fr.
    + clear Hty Hjb Hb Hb' b.
      pose proof (proj2 (list_elem_of_In _ _) Hb0) as Hb'.
      rewrite (judge_loop_event tz p time_offset Hwf (BRange first count s) s
                 framelist _ res (VNum (NInt 0))
                 (or_intror (ex_intro _ first (ex_intro _ count eq_refl)))
                 Hb' Hrun Hinit).
      destruct (event_fold_choice tz time_offset (BRange first count s)
                  framelist (VNum (NInt 0)))
        as [E|(fr & Hin & E)]; cbv zeta in E; rewrite E; [now left|].
      right. now exists fr.
  - apply bool_decide_eq_false in Hev.
    assert (Hnot : forall slot, In slot (block_slots b) ->
              match b with
              | BEvent _ _ | BRange _ _ _ => False
              | _ => True
              end).
    { intros slot Hs. destruct b; try exact I; exfalso; apply Hev;
        apply list_elem_of_In; unfold event_slots; apply in_flat_map;
        eexists; (split; [exact Hb|]); cbn [block_slots In] in Hjb |- *;
        tauto. }
    specialize (Hnot j Hjb).
    destruct b as [s|tests s|first count s|c st s|a f s];
      try contradiction; cbn [slots_typed block_slots In] in Hty, Hjb.
    + destruct Hjb as [<-|[]]. exact Hty.
    + destruct Hty as [H0 H1]. destruct Hjb as [<-|[<-|[]]]; assumption.
    + destruct Hty as (H0 & H1 & H2).
      destruct Hjb as [<-|[<-|[<-|[]]]]; assumption.
Qed.

(** ** Merging data files *)

(** *** The order of strings *)

Lemma ascii_compare_lt_trans (a b c : ascii) :
  Ascii.compare a b = Lt -> Ascii.compare b c = Lt -> Ascii.compare a c = Lt.
Proof.
  unfold Ascii.compare. rewrite !N.compare_lt_iff. lia.
Qed.

Lemma string_compare_lt_trans (x : string) :
  forall y z,
    String.compare x y = Lt -> String.compare y z = Lt ->
    String.compare x z = Lt.
Proof.
  induction x as [|a x IH]; intros [|b y] [|c z]; cbn [String.compare];
    try discriminate; try reflexivity.
  destruct (Ascii.compare a b) eqn:Eab; try discriminate.
  - apply Ascii.compare_eq_iff in Eab. subst b.
    destruct (Ascii.compare a c); try discriminate; [apply IH|reflexivity].
  - intros _. destruct (Ascii.compare b c) eqn:Ebc; try discriminate.
    + apply Ascii.compare_eq_iff in Ebc. subst c. now rewrite Eab.
    + now rewrite (ascii_compare_lt_trans a b c Eab Ebc).
Qed.

Lemma string_ltb_lt (x y : string) :
  String.ltb x y = true <-> String.compare x y = Lt.
Proof.
  unfold String.ltb. destruct (String.compare x y); split; congruence.
Qed.

Lemma string_compare_refl (x : string) : String.compare x x = Eq.
Proof.
  induction x as [|a x IH]; [reflexivity|]. cbn [String.compare].
  unfold Ascii.compare. now rewrite N.compare_refl.
Qed.

(** [not (y < x)] is a total preorder. *)
Lemma string_le_trans (x y z : string) :
  String.ltb y x = false -> String.ltb z y = false -> String.ltb z x = false.
Proof.
  intros Hxy Hyz.
  destruct (String.ltb z x) eqn:Hzx; [|reflexivity]. exfalso.
  apply string_ltb_lt in Hzx.
  assert (Hyx : String.compare y x <> Lt)
    by (intros H; apply string_ltb_lt in H; congruence).
  assert (Hzy : String.compare z y <> Lt)
    by (intros H; apply string_ltb_lt in H; congruence).
  destruct (String.compare y x) eqn:E1; try congruence.
  - apply String.compare_eq_iff in E1. subst y. congruence.
  - destruct (String.compare z y) eqn:E2; try congruence.
    + apply String.compare_eq_iff in E2. subst z. congruence.
    + rewrite String.compare_antisym in E1, E2.
      destruct (String.compare x y) eqn:E1'; try discriminate.
      destruct (String.compare y z) eqn:E2'; try discriminate.
      pose proof (string_compare_lt_trans x y z E1' E2') as H.
      rewrite String.compare_antisym, H in Hzx. discriminate.
Qed.

Lemma string_lt_asym (x y : string) :
  String.ltb x y = true -> String.ltb y x = false /\ String.eqb x y = false.
Proof.
  intros H. apply string_ltb_lt in H. split.
  - unfold String.ltb. rewrite String.compare_antisym, H. reflexivity.
  - apply String.eqb_neq. intros ->. rewrite string_compare_refl in H.
    discriminate.
Qed.

(** *** The stable sort *)

Abbreviation le_key :=
  (fun a b : string * string => String.ltb (fst b) (fst a) = false).

Lemma insert_sorted_perm (kx : string * string) (l : list (string * string)) :
  Permutation (kx :: l) (insert_sorted kx l).
Proof.
  induction l as [|ky l IH]; [reflexivity|].
  cbn [insert_sorted]. destruct (String.ltb (fst ky) (fst kx)); [|reflexivity].
  rewrite perm_swap. now constructor.
Qed.

Lemma stable_sort_perm (l : list (string * string)) :
  Permutation l (stable_sort l).
Proof.
  induction l as [|kx l IH]; [reflexivity|].
  cbn [stable_sort foldr]. fold (stable_sort l).
  rewrite <- insert_sorted_perm. now constructor.
Qed.

Lemma insert_sorted_sorted (kx : string * string) (l : list (string * string)) :
  StronglySorted le_key l -> StronglySorted le_key (insert_sorted kx l).
Proof.
  induction 1 as [|ky l Hs IH Hky]; cbn [insert_sorted].
  { repeat constructor. }
  destruct (String.ltb (fst ky) (fst kx)) eqn:Hlt.
  - constructor; [exact IH|].
    apply List.Forall_forall. intros z Hz.
    apply (Permutation_in z (Permutation_sym (insert_sorted_perm kx l))) in Hz.
    destruct Hz as [<-|Hz].
    + now apply string_lt_asym in Hlt.
    + rewrite List.Forall_forall in Hky. now apply Hky.
  - constructor; [now constructor|].
    constructor; [exact Hlt|].
    rewrite List.Forall_forall in *. intros z Hz.
    apply (string_le_trans (fst kx) (fst ky) (fst z)); [exact Hlt|].
    now apply Hky.
Qed.

Lemma stable_sort_sorted (l : list (string * string)) :
  StronglySorted le_key (stable_sort l).
Proof.
  induction l as [|kx l IH]; [constructor|].
  cbn [stable_sort foldr]. now apply insert_sorted_sorted.
Qed.

Lemma insert_sorted_stable (k : string) (kx : string * string)
    (l : list (string * string)) :
  List.filter (fun a => String.eqb (fst a) k) (insert_sorted kx l)
  = List.filter (fun a => String.eqb (fst a) k) (kx :: l).
Proof.
  induction l as [|ky l IH]; [reflexivity|].
  cbn [insert_sorted]. destruct (String.ltb (fst ky) (fst kx)) eqn:Hlt;
    [|reflexivity].
  cbn [List.filter] in *. rewrite IH.
  destruct (String.eqb_spec (fst kx) k) as [Ex|Ex];
    destruct (String.eqb_spec (fst ky) k) as [Ey|Ey]; try reflexivity.
  apply string_lt_asym in Hlt. destruct Hlt as [_ Hne].
  apply String.eqb_neq in Hne. congruence.
Qed.

Lemma stable_sort_stable (k : string) (l : list (string * string)) :
  List.filter (fun a => String.eqb (fst a) k) (stable_sort l)
  = List.filter (fun a => String.eqb (fst a) k) l.
Proof.
  induction l as [|kx l IH]; [reflexivity|].
  cbn [stable_sort foldr]. fold (stable_sort l).
  rewrite insert_sorted_stable. cbn [List.filter]. now rewrite IH.
Qed.

Lemma list_item_ok {A : Type} (l : list A) (i : nat) :
  (i < length l)%nat -> exists x, list_item l i = Ok x.
Proof.
  intros H. unfold list_item.
  destruct (lookup_lt_is_Some_2 l i H) as [x ->]. now exists x.
Qed.

Lemma list_item_raise {A : Type} (l : list A) (i : nat) (e : exn) :
  list_item l i = Raise e -> e = IndexError /\ (length l <= i)%nat.
Proof.
  unfold list_item. destruct (l !! i) eqn:E; [discriminate|].
  intros [= <-]. split; [reflexivity|]. now apply lookup_ge_None.
Qed.

Lemma with_keys_ok (files : list string) :
  forall keyed,
    with_keys files = Ok keyed ->
    map snd keyed = files
    /\ Forall (fun a => sort_key (snd a) = Ok (fst a)) keyed.
Proof.
  induction files as [|x files IH]; intros keyed H; cbn [with_keys] in H.
  { injection H as <-. split; [reflexivity|constructor]. }
  destruct (sort_key x) as [k|] eqn:Ek; [|discriminate]. cbn [rbind] in H.
  destruct (with_keys files) as [rest|]; [|discriminate]. cbn [rbind] in H.
  injection H as <-. destruct (IH rest eq_refl) as [Hm Hf].
  split; [cbn [map snd]; now rewrite Hm|]. constructor; [exact Ek|exact Hf].
Qed.

Lemma with_keys_raise (files : list string) (e : exn) :
  with_keys files = Raise e <->
  e = IndexError
  /\ exists f, In f files /\ (length (split "_" f) <= 2)%nat.
Proof.
  revert e. induction files as [|x files IH]; intros e; cbn [with_keys].
  { split; [discriminate|]. now intros (_ & f & [] & _). }
  destruct (sort_key x) as [k|e'] eqn:Ek; cbn [rbind].
  - destruct (with_keys files) as [rest|e'] eqn:Er; cbn [rbind].
    + split; [discriminate|]. intros (He & f & [<-|Hf] & Hlen).
      * exfalso. unfold sort_key, list_item in Ek.
        destruct (split "_" x !! 2%nat) eqn:E; [|discriminate].
        apply lookup_lt_Some in E. lia.
      * discriminate (proj2 (IH e) (conj He (ex_intro _ f (conj Hf Hlen)))).
    + destruct (proj1 (IH e') eq_refl) as (-> & f & Hf & Hlen). split.
      * intros [= <-]. split; [reflexivity|].
        exists f. split; [now right|exact Hlen].
      * now intros (-> & _).
  - apply list_item_raise in Ek. destruct Ek as [-> Hlen]. split.
    + intros [= <-]. split; [reflexivity|]. exists x. split; [now left|exact Hlen].
    + now intros (-> & _).
Qed.

Lemma sorted_map_keys (l : list (string * string)) :
  Forall (fun a => sort_key (snd a) = Ok (fst a)) l ->
  StronglySorted le_key l ->
  StronglySorted key_le (map snd l).
Proof.
  intros Hk Hs. induction Hs as [|a l Hs IH Ha]; [constructor|].
  apply Forall_cons in Hk. destruct Hk as [Hka Hk].
  cbn [map]. constructor; [now apply IH|].
  rewrite List.Forall_forall in *. intros y Hy.
  apply in_map_iff in Hy. destruct Hy as (b & <- & Hb).
  unfold key_le. rewrite Hka, (Hk b Hb). now apply Ha.
Qed.

Lemma sort_files_ok (files sorted : list string) :
  sort_files files = Ok sorted ->
  Permutation files sorted
  /\ StronglySorted key_le sorted
  /\ forall k, List.filter (has_sort_key k) sorted
               = List.filter (has_sort_key k) files.
Proof.
  intros H. unfold sort_files in H.
  destruct (with_keys files) as [keyed|] eqn:Ek; [|discriminate].
  cbn [rbind] in H. injection H as <-.
  destruct (with_keys_ok files keyed Ek) as [Hm Hk].
  assert (Hk' : Forall (fun a => sort_key (snd a) = Ok (fst a))
                       (stable_sort keyed)).
  { rewrite List.Forall_forall in *. intros a Ha. apply Hk.
    apply (Permutation_in a (Permutation_sym (stable_sort_perm keyed)) Ha). }
  split; [|split].
  - rewrite <- Hm. apply Permutation_map, stable_sort_perm.
  - apply sorted_map_keys; [exact Hk'|apply stable_sort_sorted].
  - intros k.
    assert (Hf : forall l,
              Forall (fun a => sort_key (snd a) = Ok (fst a)) l ->
              List.filter (has_sort_key k) (map snd l)
              = map snd (List.filter (fun a => String.eqb (fst a) k) l)).
    { induction 1 as [|a l Ha _ IH]; [reflexivity|].
      cbn [map List.filter]. unfold has_sort_key at 1. rewrite Ha.
      destruct (String.eqb (fst a) k); cbn [map]; now rewrite IH. }
    rewrite <- Hm. rewrite !Hf by assumption.
    now rewrite stable_sort_stable.
Qed.

Lemma sort_files_raise (files : list string) (e : exn) :
  sort_files files = Raise e <->
  e = IndexError
  /\ exists f, In f files /\ (length (split "_" f) <= 2)%nat.
Proof.
  unfold sort_files. rewrite <- with_keys_raise.
  destruct (with_keys files) as [keyed|e']; cbn [rbind]; split; congruence.
Qed.

(** X17. [files.sort(key=lambda x: x.split('_')[2])].  The sorted list is a
    rearrangement of the files in which no file stands before one with a
    smaller key, and files with equal keys keep their order; the keys are
    the third ['_']-separated part of the whole path, compared as strings.
    The sort raises, and only [IndexError], exactly when some path has fewer
    than three parts. *)
Theorem sort_files_spec (files : list string) :
  (forall sorted,
     sort_files files = Ok sorted ->
     Permutation files sorted
     /\ StronglySorted key_le sorted
     /\ forall k, List.filter (has_sort_key k) sorted
                  = List.filter (has_sort_key k) files)
  /\ (forall e,
        sort_files files = Raise e <->
        e = IndexError
        /\ exists f, In f files /\ (length (split "_" f) <= 2)%nat).
Proof.
  split; [intros sorted; apply sort_files_ok|intros e; apply sort_files_raise].
Qed.

(** *** Grouping by car number *)

Ltac string_cases :=
  repeat match goal with
  | |- context [String.eqb ?a ?b] => destruct (String.eqb_spec a b)
  end;
  subst; try congruence; try reflexivity.

Lemma dict_get_append (d : car_dict) (k f k' : string) :
  dict_get (dict_append d k f) k'
  = if String.eqb k k' then dict_get d k ++ [f] else dict_get d k'.
Proof.
  induction d as [|[k0 files] d IH]; cbn [dict_append dict_get].
  { string_cases. }
  destruct (String.eqb_spec k0 k) as [->|Hne]; cbn [dict_get];
    rewrite ?IH; string_cases.
Qed.

Lemma dict_append_keys (d : car_dict) (k f k' : string) :
  In k' (map fst (dict_append d k f)) <-> k' = k \/ In k' (map fst d).
Proof.
  induction d as [|[k0 files] d IH]; cbn [dict_append map fst In].
  { intuition. }
  destruct (String.eqb_spec k0 k) as [->|Hne]; cbn [map fst In].
  - intuition.
  - rewrite IH. intuition.
Qed.

Lemma dict_append_nodup (d : car_dict) (k f : string) :
  NoDup (map fst d) -> NoDup (map fst (dict_append d k f)).
Proof.
  induction d as [|[k0 files] d IH]; cbn [dict_append map fst]; intros H.
  { apply NoDup_singleton. }
  apply NoDup_cons in H. destruct H as [Hk0 Hd].
  destruct (String.eqb_spec k0 k) as [->|Hne]; cbn [map fst];
    apply NoDup_cons; split; try assumption; [|now apply IH].
  rewrite list_elem_of_In, dict_append_keys. rewrite list_elem_of_In in Hk0.
  intros [E|E]; [congruence|contradiction].
Qed.

Lemma dict_append_nonempty (d : car_dict) (k f : string) :
  Forall (fun kv => snd kv <> []) d ->
  Forall (fun kv => snd kv <> []) (dict_append d k f).
Proof.
  induction 1 as [|[k0 files] d Hk Hd IH]; cbn [dict_append].
  { repeat constructor. discriminate. }
  destruct (String.eqb k0 k); constructor; try assumption.
  cbn [snd]. now destruct files.
Qed.

Lemma dict_get_in (d : car_dict) (k : string) (files : list string) :
  NoDup (map fst d) -> In (k, files) d -> dict_get d k = files.
Proof.
  induction d as [|[k0 files0] d IH]; cbn [map fst dict_get In]; intros Hnd Hin;
    [contradiction|].
  apply NoDup_cons in Hnd. destruct Hnd as [Hk0 Hd].
  destruct Hin as [[= -> ->]|Hin]; [now rewrite String.eqb_refl|].
  destruct (String.eqb_spec k0 k) as [->|_]; [|now apply IH].
  exfalso. apply Hk0. apply list_elem_of_In, in_map_iff. now exists (k, files).
Qed.

Lemma dict_in_get (d : car_dict) (k : string) :
  In k (map fst d) -> In (k, dict_get d k) d.
Proof.
  induction d as [|[k0 files0] d IH]; cbn [map fst dict_get In]; [tauto|].
  destruct (String.eqb_spec k0 k) as [->|Hne]; [now left|].
  intros [E|Hin]; [contradiction|]. right. now apply IH.
Qed.

Lemma filter_filter_and {A : Type} (P Q : A -> bool) (l : list A) :
  List.filter P (List.filter Q l) = List.filter (fun x => Q x && P x) l.
Proof.
  induction l as [|x l IH]; [reflexivity|]. cbn [List.filter].
  destruct (Q x); cbn [andb List.filter]; [|exact IH].
  destruct (P x); now rewrite IH.
Qed.

Lemma filter_all {A : Type} (l : list A) : List.filter (fun _ => true) l = l.
Proof. induction l as [|x l IH]; [reflexivity|]. cbn. now rewrite IH. Qed.

Lemma existsb_eqb_In (x : string) (l : list string) :
  existsb (String.eqb x) l = true <-> In x l.
Proof.
  rewrite existsb_exists. split.
  - intros (y & Hy & E). apply String.eqb_eq in E. now subst.
  - intros H. exists x. split; [exact H|apply String.eqb_refl].
Qed.

(** [first_met] has the elements of the list, each once. *)
Lemma first_met_In (l : list string) (x : string) :
  In x (first_met l) <-> In x l.
Proof.
  induction l as [|y l IH]; [reflexivity|]. cbn [first_met In].
  rewrite filter_In, IH. destruct (String.eqb_spec x y) as [->|Hne].
  - split; [now left|]. intros _. now left.
  - split; [intros [E|[H _]]; [now left|now right]|].
    intros [E|H]; [now left|]. right. now split.
Qed.

Lemma first_met_NoDup (l : list string) : List.NoDup (first_met l).
Proof.
  induction l as [|y l IH]; cbn [first_met]; constructor.
  - rewrite filter_In. intros [_ H]. now rewrite String.eqb_refl in H.
  - now apply List.NoDup_filter.
Qed.

(** Appending to the dictionary keeps the keys, or adds the new one last. *)
Lemma dict_append_fst (d : car_dict) (k f : string) :
  map fst (dict_append d k f)
  = if existsb (String.eqb k) (map fst d) then map fst d
    else map fst d ++ [k].
Proof.
  induction d as [|[k0 files] d IH]; cbn [dict_append map fst existsb];
    [reflexivity|].
  rewrite (String.eqb_sym k k0).
  destruct (String.eqb k0 k); cbn [map fst orb]; [reflexivity|].
  rewrite IH. now destruct (existsb _ _).
Qed.

Section Grouping.

Variable path_join : string -> string -> string.
Variable basename : string -> string.
Variable dirname : string -> string.
Variable namelist : string -> list string.

Local Abbreviation car_of := (car_number_of basename).
Local Abbreviation add := (add_file basename).
Local Abbreviation in_car := (has_car_number basename).
Local Abbreviation expand := (expand_file path_join dirname namelist).
Local Abbreviation group := (group_file path_join basename dirname namelist).
Local Abbreviation cars_of := (car_numbers basename).

Lemma fold_add_inv (files : list string) :
  forall acc res,
    NoDup (map fst acc) -> Forall (fun kv => snd kv <> []) acc ->
    fold_result add files acc = Ok res ->
    NoDup (map fst res)
    /\ Forall (fun kv => snd kv <> []) res
    /\ (forall car, dict_get res car
                    = dict_get acc car ++ List.filter (in_car car) files)
    /\ (forall car, In car (map fst res) <->
                    In car (map fst acc)
                    \/ exists f, In f files /\ car_of f = Ok car).
Proof.
  induction files as [|f files IH]; intros acc res Hnd Hne H;
    cbn [fold_result] in H.
  { injection H as <-. repeat split; try assumption.
    - intros car. cbn [List.filter]. now rewrite app_nil_r.
    - now left.
    - now intros [H|(f & [] & _)]. }
  unfold add_file at 1 in H.
  destruct (car_of f) as [c|] eqn:Ec; [|discriminate]. cbn [rbind] in H.
  destruct (IH _ res (dict_append_nodup acc c f Hnd)
              (dict_append_nonempty acc c f Hne) H)
    as (Hnd' & Hne' & Hget & Hkeys).
  repeat split; try assumption.
  - intros car. rewrite Hget, dict_get_append. cbn [List.filter].
    unfold has_car_number at 2. rewrite Ec.
    destruct (String.eqb_spec c car) as [->|_];
      [now rewrite <- app_assoc|reflexivity].
  - rewrite Hkeys, dict_append_keys.
    intros [[->|Hin]|(g & Hg & Eg)].
    + right. exists f. split; [now left|exact Ec].
    + now left.
    + right. exists g. split; [now right|exact Eg].
  - rewrite Hkeys, dict_append_keys.
    intros [Hin|(g & [<-|Hg] & Eg)].
    + left. now right.
    + left. left. congruence.
    + right. now exists g.
Qed.

Lemma fold_add_raise (files : list string) :
  forall acc e,
    fold_result add files acc = Raise e <->
    e = IndexError
    /\ exists f, In f files /\ (length (split "_" (basename f)) <= 1)%nat.
Proof.
  induction files as [|f files IH]; intros acc e; cbn [fold_result].
  { split; [discriminate|]. now intros (_ & f & [] & _). }
  unfold add_file at 1. unfold car_number_of at 1.
  destruct (list_item (split "_" (basename f)) 1) as [c|e'] eqn:Ec;
    cbn [rbind].
  - rewrite IH. split.
    + intros (-> & g & Hg & Hlen). split; [reflexivity|].
      exists g. split; [now right|exact Hlen].
    + intros (-> & g & [<-|Hg] & Hlen).
      * exfalso. unfold list_item in Ec.
        destruct (split "_" (basename f) !! 1%nat) eqn:E; [|discriminate].
        apply lookup_lt_Some in E. lia.
      * split; [reflexivity|]. now exists g.
  - apply list_item_raise in Ec. destruct Ec as [-> Hlen]. split.
    + intros [= <-]. split; [reflexivity|]. exists f. split; [now left|exact Hlen].
    + now intros (-> & _).
Qed.

Lemma fold_result_app {A B : Type} (f : A -> B -> result A) (l1 l2 : list B) :
  forall acc,
    fold_result f (l1 ++ l2) acc
    = do acc' <- fold_result f l1 acc; fold_result f l2 acc'.
Proof.
  induction l1 as [|x l1 IH]; intros acc; [reflexivity|].
  cbn [app fold_result]. destruct (f acc x); [apply IH|reflexivity].
Qed.

(** Grouping the data files is grouping the files they expand to. *)
Lemma fold_group_expand (data_files : list string) :
  forall acc,
    fold_result group data_files acc
    = fold_result add (flat_map expand data_files) acc.
Proof.
  induction data_files as [|file data_files IH]; intros acc; [reflexivity|].
  cbn [fold_result flat_map]. rewrite fold_result_app.
  assert (E : group acc file = fold_result add (expand file) acc).
  { unfold group_file, expand_file.
    destruct (endswith file ".dat.zip"); [reflexivity|].
    cbn [fold_result]. now destruct (add acc file). }
  rewrite E. destruct (fold_result add (expand file) acc); [apply IH|reflexivity].
Qed.

(** The keys of the dictionary are the car numbers in first-met order. *)
Lemma fold_add_keys (files : list string) :
  forall acc res,
    fold_result add files acc = Ok res ->
    map fst res
    = map fst acc
      ++ List.filter (fun c => negb (existsb (String.eqb c) (map fst acc)))
                     (first_met (cars_of files)).
Proof.
  induction files as [|f files IH]; intros acc res H; cbn [fold_result] in H.
  { injection H as <-. cbn. now rewrite app_nil_r. }
  unfold add_file at 1 in H.
  destruct (car_of f) as [c|] eqn:Ec; [|discriminate]. cbn [rbind] in H.
  rewrite (IH _ res H), dict_append_fst.
  unfold car_numbers. cbn [flat_map]. rewrite Ec. cbn [app first_met].
  fold (cars_of files). cbn [List.filter].
  rewrite filter_filter_and.
  destruct (existsb (String.eqb c) (map fst acc)) eqn:Hc; cbn [negb].
  - f_equal. apply filter_ext_in. intros y _.
    destruct (String.eqb_spec y c) as [->|_]; cbn [negb andb].
    + now rewrite Hc.
    + reflexivity.
  - rewrite <- app_assoc. cbn [app]. do 2 f_equal.
    apply filter_ext_in. intros y _.
    rewrite existsb_app. cbn [existsb].
    rewrite orb_false_r, negb_orb. apply andb_comm.
Qed.

Lemma car_numbers_In (files : list string) (car : string) :
  In car (cars_of files) <-> exists f, In f files /\ car_of f = Ok car.
Proof.
  unfold car_numbers. rewrite in_flat_map. split.
  - intros (f & Hf & H). exists f. split; [exact Hf|].
    destruct (car_of f) as [c|]; [|contradiction].
    destruct H as [->|[]]. reflexivity.
  - intros (f & Hf & E). exists f. split; [exact Hf|]. rewrite E. now left.
Qed.

(** The dictionary in closed form. *)
Lemma fold_add_closed (files : list string) :
  fold_result add files []
  = if forallb (fun f => (2 <=? length (split "_" (basename f)))%nat) files
    then Ok (map (fun car => (car, List.filter (in_car car) files))
                 (first_met (cars_of files)))
    else Raise IndexError.
Proof.
  destruct (fold_result add files []) as [res|e] eqn:H.
  - assert (Hall : forallb (fun f => (2 <=? length (split "_" (basename f)))%nat)
                     files = true).
    { apply forallb_forall. intros f Hf. apply Nat.leb_le.
      destruct (Nat.le_gt_cases 2 (length (split "_" (basename f))))
        as [Hl|Hl]; [exact Hl|].
      assert (Hr : fold_result add files [] = Raise IndexError).
      { apply fold_add_raise. split; [reflexivity|]. exists f.
        split; [exact Hf|lia]. }
      congruence. }
    rewrite Hall. f_equal.
    destruct (fold_add_inv files [] res (NoDup_nil_2) (Forall_nil_2 _) H)
      as (Hnd & _ & Hget & _).
    pose proof (fold_add_keys files [] res H) as Hkeys.
    cbn [map fst app existsb negb] in Hkeys.
    rewrite filter_all in Hkeys.
    rewrite <- Hkeys, map_map.
    rewrite <- (map_id res) at 1. apply map_ext_in. intros [car fs] Hin.
    cbn [fst]. f_equal. specialize (Hget car). cbn [dict_get app] in Hget.
    rewrite <- Hget. symmetry. now apply dict_get_in.
  - apply fold_add_raise in H. destruct H as (-> & f & Hf & Hl).
    replace (forallb _ files) with false; [reflexivity|].
    symmetry. apply not_true_is_false. intros Hall.
    rewrite forallb_forall in Hall. specialize (Hall f Hf).
    apply Nat.leb_le in Hall. lia.
Qed.

(** X18. The grouping loop of [merge_dat_files].  When it ends normally the
    car numbers are distinct keys, in the order in which they are first met
    among the files; the group of a car number is the list of the files with
    that car number (the second ['_']-separated part of the base name) in
    the order in which they were found, never empty, and every file is in
    the group of its car number: the dictionary is the list of the car
    numbers in first-met order, each with its files.  The loop ends normally
    when the base name of every file has a ['_'], and it raises, and only
    [IndexError], exactly when the base name of some file has none. *)
Theorem group_files_spec (data_files : list string) :
  let grouped := flat_map expand data_files in
  (forall car_files,
     fold_result group data_files [] = Ok car_files ->
     NoDup (map fst car_files)
     /\ (forall car files,
           In (car, files) car_files ->
           files <> [] /\ files = List.filter (in_car car) grouped)
     /\ (forall file,
           In file grouped ->
           exists car,
             car_of file = Ok car
             /\ In (car, List.filter (in_car car) grouped) car_files)
     /\ map fst car_files = first_met (cars_of grouped)
     /\ car_files
        = map (fun car => (car, List.filter (in_car car) grouped))
              (first_met (cars_of grouped)))
  /\ (forall e,
        fold_result group data_files [] = Raise e <->
        e = IndexError
        /\ exists file, In file grouped
                        /\ (length (split "_" (basename file)) <= 1)%nat)
  /\ (Forall (fun file => (2 <= length (split "_" (basename file)))%nat)
             grouped ->
      fold_result group data_files []
      = Ok (map (fun car => (car, List.filter (in_car car) grouped))
                (first_met (cars_of grouped)))).
Proof.
  intros grouped. split; [|split].
  - intros car_files H. rewrite fold_group_expand in H. fold grouped in H.
    destruct (fold_add_inv grouped [] car_files (NoDup_nil_2)
                (Forall_nil_2 _) H) as (Hnd & Hne & Hget & Hkeys).
    cbn [dict_get app] in Hget.
    split; [exact Hnd|]. split; [|split; [|split]].
    + intros car files Hin. split.
      * rewrite List.Forall_forall in Hne. apply (Hne _ Hin).
      * rewrite <- Hget. symmetry. now apply dict_get_in.
    + intros file Hfile.
      assert (Hc : exists car, car_of file = Ok car).
      { destruct (car_of file) as [c|e] eqn:Ec; [now exists c|]. exfalso.
        assert (Hr : fold_result add grouped [] = Raise IndexError).
        { apply fold_add_raise. split; [reflexivity|]. exists file.
          split; [exact Hfile|]. unfold car_number_of in Ec.
          now apply list_item_raise in Ec. }
        congruence. }
      destruct Hc as [car Hcar]. exists car. split; [exact Hcar|].
      rewrite <- Hget. apply dict_in_get. apply Hkeys. right. now exists file.
    + rewrite fold_add_closed in H.
      destruct (forallb _ grouped); [|discriminate].
      injection H as <-. rewrite map_map. cbn [fst]. apply map_id.
    + rewrite fold_add_closed in H.
      destruct (forallb _ grouped); [|discriminate]. now injection H as <-.
  - intros e. rewrite fold_group_expand. apply fold_add_raise.
  - intros Hall. rewrite fold_group_expand. fold grouped.
    rewrite fold_add_closed.
    replace (forallb _ grouped) with true; [reflexivity|].
    symmetry. apply forallb_forall. intros f Hf. apply Nat.leb_le.
    rewrite List.Forall_forall in Hall. now apply Hall.
Qed.

End Grouping.

(** *** The merged file *)

Lemma merge_loop_rest (fs : file_system) (files : list string) :
  forall i acc,
    merge_loop fs (S i) files acc
    = acc ++ concat (map (fun f => drop 16 (fs f)) files).
Proof.
  induction files as [|f files IH]; intros i acc; cbn [merge_loop map concat].
  { now rewrite app_nil_r. }
  rewrite IH. cbn [Nat.eqb]. now rewrite <- app_assoc.
Qed.

Lemma merge_loop_first (fs : file_system) (f : string) (rest : list string) :
  merge_loop fs 0 (f :: rest) []
  = fs f ++ concat (map (fun g => drop 16 (fs g)) rest).
Proof. cbn [merge_loop Nat.eqb app]. apply merge_loop_rest. Qed.

Lemma merge_loop_ext (fs1 fs2 : file_system) (files : list string) :
  (forall f, In f files -> fs1 f = fs2 f) ->
  forall i acc, merge_loop fs1 i files acc = merge_loop fs2 i files acc.
Proof.
  induction files as [|f files IH]; intros H i acc; [reflexivity|].
  cbn [merge_loop]. rewrite (H f) by now left.
  apply IH. intros g Hg. apply H. now right.
Qed.

Lemma kept_place (tz : Z) (time_offset : nat) (s e : Z) (frame_size : nat)
    (frames : list frame) :
  forall pos,
    kept tz time_offset s e frame_size (place frame_size pos frames)
    = List.filter (emitted tz time_offset s e frame_size) frames.
Proof.
  induction frames as [|fd frames IH]; intros pos; [reflexivity|].
  unfold kept in *. cbn [place List.filter snd].
  destruct (emitted tz time_offset s e frame_size fd); cbn [map snd];
    now rewrite IH.
Qed.

Lemma read_framed (tz : Z) (time_offset : nat) (s e : Z) (frame_size : nat)
    (data : list Byte.byte) (frames : list frame) :
  (0 < frame_size)%nat ->
  framed frame_size data frames ->
  read_results tz 16 time_offset s e frame_size data
  = List.filter (emitted tz time_offset s e frame_size) frames.
Proof.
  intros Hfs (header & -> & Hh & Hlen).
  unfold read_results. rewrite read_binary_file_slots. unfold all_slots.
  pose proof (slots_frames frame_size [] Hfs Hfs frames header
                (S (length (header ++ concat frames))) Hlen) as Hsl.
  rewrite app_nil_r, Hh in Hsl. rewrite Hsl.
  - rewrite app_nil_r. apply kept_place.
  - rewrite length_app, (concat_frames_length frame_size frames Hlen). nia.
Qed.

Lemma filter_concat {A : Type} (P : A -> bool) (ls : list (list A)) :
  List.filter P (concat ls) = concat (map (List.filter P) ls).
Proof.
  induction ls as [|l ls IH]; [reflexivity|].
  cbn [concat map]. now rewrite List.filter_app, IH.
Qed.

(** X19. Merging keeps the frames and their alignment.  When every file of
    a group is a 16-byte header followed by whole frames, the merged data is
    the header of the first file followed by the frames of all the files in
    the sorted order, and reading it from offset 16 returns the frames that
    reading the files one by one returns, in the same order. *)
Theorem merged_file_frames (tz : Z) (time_offset : nat) (s e : Z)
    (frame_size : nat) (fs : file_system) (files : list string)
    (frames_of : string -> list frame) :
  (0 < frame_size)%nat ->
  files <> [] ->
  Forall (fun f => framed frame_size (fs f) (frames_of f)) files ->
  framed frame_size (merge_loop fs 0 files []) (concat (map frames_of files))
  /\ take 16 (merge_loop fs 0 files [])
     = take 16 (fs (List.hd EmptyString files))
  /\ read_results tz 16 time_offset s e frame_size (merge_loop fs 0 files [])
     = concat (map (fun f => read_results tz 16 time_offset s e frame_size
                               (fs f))
                   files).
Proof.
  intros Hfs Hne Hall.
  destruct files as [|f rest]; [contradiction|]. clear Hne.
  assert (Hrest : concat (map (fun g => drop 16 (fs g)) rest)
                  = concat (concat (map frames_of rest))).
  { apply Forall_cons in Hall. destruct Hall as [_ Hall].
    induction Hall as [|g rest (header & Hg & Hh & _) _ IH]; [reflexivity|].
    cbn [map concat]. rewrite concat_app, IH, Hg. f_equal.
    rewrite <- Hh. apply drop_app_length. }
  assert (Hframed : framed frame_size (merge_loop fs 0 (f :: rest) [])
                      (concat (map frames_of (f :: rest)))).
  { rewrite merge_loop_first, Hrest.
    pose proof Hall as Hall'. apply Forall_cons in Hall'.
    destruct Hall' as [(header & Hf & Hh & Hl) Hall'].
    exists header. cbn [map concat]. rewrite concat_app, Hf, <- app_assoc.
    split; [reflexivity|]. split; [exact Hh|].
    apply Forall_app. split; [exact Hl|].
    apply Forall_concat. apply Forall_map.
    eapply Forall_impl; [exact Hall'|]. cbv beta.
    now intros g (_ & _ & _ & Hg). }
  split; [exact Hframed|]. split.
  - cbn [List.hd]. rewrite merge_loop_first.
    apply Forall_cons in Hall. destruct Hall as [(header & Hf & Hh & _) _].
    rewrite Hf, <- app_assoc, !take_app_length' by (symmetry; exact Hh).
    reflexivity.
  - rewrite (read_framed tz time_offset s e frame_size _ _ Hfs Hframed).
    rewrite filter_concat, map_map. f_equal.
    apply map_ext_in. intros g Hg. symmetry.
    apply read_framed; [exact Hfs|].
    rewrite List.Forall_forall in Hall. now apply Hall.
Qed.

(** *** The whole function *)

Lemma remove_old_spec (old_merged : list string) :
  forall (d : disk) (q : string),
    remove_old old_merged d q
    = if existsb (String.eqb q) old_merged then None else d q.
Proof.
  induction old_merged as [|m rest IH]; intros d q; [reflexivity|].
  change (remove_old (m :: rest) d)
    with (remove_old rest (match d m with
                           | Some _ => remove_file d m
                           | None => d
                           end)).
  rewrite IH. cbn [existsb].
  destruct (existsb (String.eqb q) rest); [now rewrite orb_true_r|].
  rewrite orb_false_r. unfold remove_file.
  destruct (String.eqb_spec q m) as [->|Hne]; destruct (d m) eqn:E;
    rewrite ?String.eqb_refl; try reflexivity.
  - exact E.
  - now destruct (String.eqb_spec q m).
Qed.

Lemma merge_loop_disk_done (d : disk) (files : list string) :
  Forall (fun f => d f <> None) files ->
  forall i acc,
    merge_loop_disk d i files acc = Done (merge_loop (contents d) i files acc).
Proof.
  induction 1 as [|f files Hf _ IH]; intros i acc; [reflexivity|].
  cbn [merge_loop_disk merge_loop].
  destruct (d f) as [data|] eqn:E; [|contradiction].
  assert (Hc : contents d f = data) by (unfold contents; now rewrite E).
  rewrite Hc. apply IH.
Qed.

Lemma merge_loop_disk_inv (d : disk) (files : list string) :
  forall i acc,
    match merge_loop_disk d i files acc with
    | Done _ => Forall (fun f => d f <> None) files
    | Throw e =>
        exists f, e = FileNotFoundError f /\ In f files /\ d f = None
    end.
Proof.
  induction files as [|f files IH]; intros i acc; cbn [merge_loop_disk].
  { constructor. }
  destruct (d f) as [data|] eqn:E.
  - specialize (IH (S i) (acc ++ (if (i =? 0)%nat then data else drop 16 data))).
    destruct (merge_loop_disk d (S i) files _).
    + constructor; [congruence|exact IH].
    + destruct IH as (g & -> & Hg & Eg). exists g. now repeat split; [right|].
  - exists f. repeat split; [now left|exact E].
Qed.

Lemma merge_loop_disk_ext (d1 d2 : disk) (files : list string) :
  (forall f, In f files -> d1 f = d2 f) ->
  forall i acc, merge_loop_disk d1 i files acc = merge_loop_disk d2 i files acc.
Proof.
  induction files as [|f files IH]; intros H i acc; [reflexivity|].
  cbn [merge_loop_disk]. rewrite (H f) by now left.
  destruct (d2 f); [|reflexivity].
  apply IH. intros g Hg. apply H. now right.
Qed.

Lemma write_file_same (d : disk) (path : string) (data : list Byte.byte) :
  write_file d path data path = Some data.
Proof. unfold write_file. now rewrite String.eqb_refl. Qed.

Lemma write_file_other (d : disk) (path q : string) (data : list Byte.byte) :
  q <> path -> write_file d path data q = d q.
Proof.
  intros H. unfold write_file. now destruct (String.eqb_spec q path).
Qed.

Section MergeAll.

Variable path_join : string -> string -> string.
Variable basename : string -> string.
Variable dirname : string -> string.
Variable namelist : string -> list string.
Variable extractall : string -> disk -> disk.
Variable directory : string.

Local Abbreviation group := (group_file path_join basename dirname namelist).
Local Abbreviation expand := (expand_file path_join dirname namelist).
Local Abbreviation in_car := (has_car_number basename).
Local Abbreviation step :=
  (group_step path_join basename dirname namelist extractall).
Local Abbreviation unpack_file := (unpack extractall).
Local Abbreviation output :=
  (fun car : string => path_join directory (merged_name car)).
Local Abbreviation merge := (merge_groups path_join directory).

(** Grouping and unpacking go side by side. *)
Lemma fold_group_step (data_files : list string) :
  forall car_files d,
    fold_result step data_files (car_files, d)
    = match fold_result group data_files car_files with
      | Ok car_files' => Ok (car_files', fold_left unpack_file data_files d)
      | Raise e => Raise e
      end.
Proof.
  induction data_files as [|file rest IH]; intros car_files d; [reflexivity|].
  cbn [fold_result fold_left]. unfold group_step at 1. cbn [fst snd].
  destruct (group car_files file) as [car_files'|e]; cbn [rbind];
    [apply IH|reflexivity].
Qed.

(** The groups are merged one after the other: when every group can be
    sorted and every file is there, each output holds the merge of its
    group as the files were before, and nothing else changes. *)
Lemma merge_groups_done (car_files : car_dict) :
  forall d d',
    merge car_files d = Done d' ->
    NoDup (map (fun kv => output (fst kv)) car_files) ->
    (forall car files f,
       In (car, files) car_files -> In f files ->
       ~ In f (map (fun kv => output (fst kv)) car_files)) ->
    (forall car files,
       In (car, files) car_files ->
       (exists sorted,
          sort_files files = Ok sorted
          /\ d' (output car) = Some (merge_loop (contents d) 0 sorted []))
       /\ Forall (fun f => (3 <= length (split "_" f))%nat /\ d f <> None)
                 files)
    /\ (forall q, ~ In q (map (fun kv => output (fst kv)) car_files) ->
                  d' q = d q).
Proof.
  induction car_files as [|[car files] rest IH]; intros d d' Hrun Hnd Hin.
  { injection Hrun as <-. split; [intros ? ? []|reflexivity]. }
  cbn [merge_groups] in Hrun.
  destruct (sort_files files) as [sorted|] eqn:Es; [|discriminate].
  pose proof (merge_loop_disk_inv d sorted 0 []) as Hinv.
  destruct (merge_loop_disk d 0 sorted []) as [merged|] eqn:Em;
    [|discriminate].
  cbn [map fst] in Hnd, Hin.
  apply NoDup_cons in Hnd. destruct Hnd as [Hout Hnd].
  rewrite list_elem_of_In in Hout.
  set (out := path_join directory (merged_name car)) in *.
  destruct (IH _ d' Hrun Hnd) as [Hgroups Hother].
  { intros car' files' f H1 H2 H3.
    apply (Hin car' files' f); [now right|exact H2|now right]. }
  destruct (sort_files_ok files sorted Es) as [Hperm _].
  split.
  - intros car' files' [[= <- <-]|Hcf].
    + split.
      * exists sorted. split; [exact Es|]. fold out.
        rewrite (Hother out Hout), write_file_same. f_equal.
        rewrite (merge_loop_disk_done d sorted Hinv) in Em.
        now injection Em.
      * rewrite List.Forall_forall in *. intros f Hf. split.
        -- destruct (Nat.le_gt_cases 3 (length (split "_" f))) as [H|H];
             [exact H|].
           assert (Hr : sort_files files = Raise IndexError).
           { apply sort_files_raise. split; [reflexivity|]. exists f.
             split; [exact Hf|lia]. }
           congruence.
        -- apply Hinv. apply (Permutation_in f Hperm Hf).
    + destruct (Hgroups car' files' Hcf) as [(sorted' & Es' & Hd') Hall].
      assert (Hne : forall f, In f files' -> f <> out).
      { intros f Hf ->. apply (Hin car' files' out); [now right|exact Hf|].
        now left. }
      split.
      * exists sorted'. split; [exact Es'|]. rewrite Hd'. f_equal.
        apply merge_loop_ext. intros f Hf. unfold contents.
        rewrite write_file_other; [reflexivity|]. apply Hne.
        destruct (sort_files_ok files' sorted' Es') as [Hperm' _].
        apply (Permutation_in _ (Permutation_sym Hperm') Hf).
      * rewrite List.Forall_forall in *. intros f Hf.
        destruct (Hall f Hf) as [Hk He]. split; [exact Hk|].
        rewrite write_file_other in He by now apply Hne. exact He.
  - intros q Hq. rewrite Hother by (intros H; apply Hq; now right).
    apply write_file_other. intros ->. apply Hq. now left.
Qed.

Lemma merge_groups_throw (car_files : car_dict) :
  forall d e,
    merge car_files d = Throw e ->
    (forall car files f,
       In (car, files) car_files -> In f files ->
       ~ In f (map (fun kv => output (fst kv)) car_files)) ->
    exists car files f,
      In (car, files) car_files /\ In f files
      /\ ((e = PyExn IndexError /\ (length (split "_" f) <= 2)%nat)
          \/ (e = FileNotFoundError f /\ d f = None)).
Proof.
  induction car_files as [|[car files] rest IH]; intros d e Hrun Hin;
    [discriminate|].
  cbn [merge_groups] in Hrun.
  destruct (sort_files files) as [sorted|e'] eqn:Es.
  2:{ injection Hrun as <-. apply sort_files_raise in Es.
      destruct Es as (-> & f & Hf & Hl).
      exists car, files, f. split; [now left|]. split; [exact Hf|].
      left. now split. }
  destruct (sort_files_ok files sorted Es) as [Hperm _].
  pose proof (merge_loop_disk_inv d sorted 0 []) as Hinv.
  destruct (merge_loop_disk d 0 sorted []) as [merged|e'] eqn:Em.
  2:{ injection Hrun as <-. destruct Hinv as (f & -> & Hf & Hd).
      exists car, files, f. split; [now left|].
      split; [apply (Permutation_in f (Permutation_sym Hperm) Hf)|].
      right. now split. }
  destruct (IH _ e Hrun) as (car' & files' & f & Hcf & Hf & H).
  { intros car' files' f H1 H2 H3.
    apply (Hin car' files' f); [now right|exact H2|now right]. }
  exists car', files', f. split; [now right|]. split; [exact Hf|].
  destruct H as [H|[-> Hd]]; [now left|]. right. split; [reflexivity|].
  rewrite write_file_other in Hd; [exact Hd|].
  intros ->. apply (Hin car' files' (path_join directory (merged_name car)));
    [now right|exact Hf|now left].
Qed.

Lemma merge_groups_good (car_files : car_dict) :
  forall d,
    (forall car files f,
       In (car, files) car_files -> In f files ->
       (3 <= length (split "_" f))%nat /\ d f <> None) ->
    (forall car files f,
       In (car, files) car_files -> In f files ->
       ~ In f (map (fun kv => output (fst kv)) car_files)) ->
    exists d', merge car_files d = Done d'.
Proof.
  intros d Hgood Hin.
  destruct (merge car_files d) as [d'|e] eqn:Hrun; [now exists d'|].
  destruct (merge_groups_throw car_files d e Hrun Hin)
    as (car & files & f & Hcf & Hf & [[_ Hl]|[_ Hd]]);
    destruct (Hgood car files f Hcf Hf) as [Hk He]; [lia|contradiction].
Qed.

(** X20. [merge_dat_files] as a whole, for what [os.path.exists],
    [glob.glob] and [os.walk] answer and for the disk before the call.
    - When the directory is missing it returns [None], logs a line and
      leaves the disk as it is.
    - Otherwise the old merged files that [glob.glob] found are removed;
      when no file name matches it returns [None] and logs a line.  It
      returns [None] in these two cases only.
    - Otherwise every archive among the data files is unpacked and the data
      files and the [.dat] members of the archives are grouped: it raises
      [IndexError] when the base name of one of them has no ['_'], and it
      returns the empty list when there is none of them.
    - When the outputs [directory/<car number>_mergedata.dat] are distinct
      and none of them is among the grouped files, it returns exactly when
      every grouped file has three ['_']-separated parts in its path and is
      on the disk after the unpacking; it then returns the outputs of the
      car numbers in first-met order (an empty list when only archives
      without [.dat] members matched), each output holds the merge of its
      group in sorted order (the first file whole, the others without their
      first 16 bytes), as the files were after the unpacking, and every
      other file is as it was after the removal and the unpacking.  When it
      does not return, it raises [IndexError] for a path with fewer than
      three parts or [FileNotFoundError] for a grouped file that is not on
      the disk. *)
Theorem merge_dat_files_spec (directory_exists : bool) (data_type : string)
    (old_merged : list string) (walk : list (string * list string))
    (d : disk) :
  let data_files := find_data_files path_join data_type walk in
  let grouped := flat_map expand data_files in
  let cars := first_met (car_numbers basename grouped) in
  let d1 := remove_old old_merged d in
  let d2 := fold_left unpack_file data_files d1 in
  let merged_files := map output cars in
  let run :=
    merge_dat_files path_join basename dirname namelist extractall
      directory_exists directory data_type old_merged walk d in
  (forall q, d1 q = if existsb (String.eqb q) old_merged then None else d q)
  /\ (directory_exists = false -> run = Done (None, d, [DirectoryMissing]))
  /\ (directory_exists = true -> data_files = [] ->
      run = Done (None, d1, [NoDataFiles directory]))
  /\ (forall d' log,
        run = Done (None, d', log) ->
        directory_exists = false \/ data_files = [])
  /\ (directory_exists = true -> data_files <> [] ->
      ((exists file, In file grouped
                     /\ (length (split "_" (basename file)) <= 1)%nat) ->
       run = Throw (PyExn IndexError))
      /\ (grouped = [] -> run = Done (Some [], d2, []))
      /\ (Forall (fun file => (2 <= length (split "_" (basename file)))%nat)
                 grouped ->
          NoDup merged_files ->
          (forall file, In file grouped -> ~ In file merged_files) ->
          ((exists result, run = Done result) <->
           Forall (fun file => (3 <= length (split "_" file))%nat
                               /\ d2 file <> None) grouped)
          /\ (forall result,
                run = Done result ->
                exists d3,
                  result = (Some merged_files, d3, [])
                  /\ (forall car,
                        In car cars ->
                        exists sorted,
                          sort_files (List.filter (in_car car) grouped)
                          = Ok sorted
                          /\ d3 (output car)
                             = Some (merge_loop (contents d2) 0 sorted []))
                  /\ (forall q, ~ In q merged_files -> d3 q = d2 q))
          /\ (forall e,
                run = Throw e ->
                exists file,
                  In file grouped
                  /\ ((e = PyExn IndexError
                       /\ (length (split "_" file) <= 2)%nat)
                      \/ (e = FileNotFoundError file /\ d2 file = None))))).
Proof.
  intros data_files grouped cars d1 d2 merged_files run.
  split; [apply remove_old_spec|].
  split; [intros ->; reflexivity|].
  split.
  { intros -> Hd. unfold run, merge_dat_files. fold data_files.
    now rewrite Hd. }
  split.
  { intros d' log. unfold run, merge_dat_files. fold data_files.
    destruct directory_exists; [|now left]. cbn [negb].
    destruct data_files as [|file rest]; [now right|].
    destruct (fold_result step _ _) as [[car_files d0]|e]; [|discriminate].
    destruct (merge car_files d0); discriminate. }
  intros -> Hne.
  assert (Hrun : run
            = match fold_result step data_files ([], d1) with
              | Raise e => Throw (PyExn e)
              | Ok (car_files, d0) =>
                  match merge car_files d0 with
                  | Throw e => Throw e
                  | Done d3 =>
                      Done (Some (map (fun kv => output (fst kv)) car_files),
                            d3, [])
                  end
              end).
  { unfold run, merge_dat_files. fold data_files. fold d1.
    destruct data_files; [contradiction|reflexivity]. }
  rewrite fold_group_step, fold_group_expand in Hrun.
  fold grouped d2 in Hrun. rewrite fold_add_closed in Hrun.
  destruct (forallb _ grouped) eqn:Hcars.
  2:{ split; [intros _; exact Hrun|]. split.
      { intros Hg. rewrite Hg in Hcars. discriminate Hcars. }
      intros Hall. exfalso.
      apply not_true_iff_false in Hcars. apply Hcars.
      apply forallb_forall. intros f Hf. apply Nat.leb_le.
      rewrite List.Forall_forall in Hall. now apply Hall. }
  split.
  { intros (file & Hfile & Hl). exfalso.
    rewrite forallb_forall in Hcars. specialize (Hcars file Hfile).
    apply Nat.leb_le in Hcars. lia. }
  split.
  { intros Hg. rewrite Hrun, Hg. reflexivity. }
  intros Hall Hnd Hout. fold cars in Hrun.
  set (car_files := map (fun car => (car, List.filter (in_car car) grouped))
                        cars) in *.
  assert (Houtputs : map (fun kv => output (fst kv)) car_files = merged_files).
  { unfold car_files. now rewrite map_map. }
  assert (Hcf : forall car files,
            In (car, files) car_files <->
            In car cars /\ files = List.filter (in_car car) grouped).
  { intros car files. unfold car_files. rewrite in_map_iff. split.
    - intros (c & [= <- <-] & Hc). now split.
    - intros (Hc & ->). now exists car. }
  assert (Hin : forall car files f,
            In (car, files) car_files -> In f files ->
            ~ In f (map (fun kv => output (fst kv)) car_files)).
  { intros car files f Hc Hf. rewrite Houtputs. apply Hout.
    apply Hcf in Hc. destruct Hc as [_ ->].
    apply List.filter_In in Hf. tauto. }
  assert (Hgroup : forall f,
            In f grouped ->
            exists car, In (car, List.filter (in_car car) grouped) car_files
                        /\ In f (List.filter (in_car car) grouped)).
  { intros f Hf.
    rewrite List.Forall_forall in Hall. specialize (Hall f Hf).
    destruct (list_item_ok (split "_" (basename f)) 1 ltac:(lia))
      as [car Hcar].
    exists car. split.
    - apply Hcf. split; [|reflexivity]. unfold cars.
      apply first_met_In, car_numbers_In. now exists f.
    - apply List.filter_In. split; [exact Hf|].
      unfold has_car_number, car_number_of. rewrite Hcar.
      apply String.eqb_refl. }
  rewrite Houtputs in Hrun.
  destruct (merge car_files d2) as [d3|e] eqn:Em.
  - destruct (merge_groups_done car_files d2 d3 Em) as [Hgroups Hother];
      [now rewrite Houtputs|exact Hin|].
    rewrite Houtputs in Hother.
    split; [|split].
    + split; [|intros _; eexists; exact Hrun].
      intros _. apply List.Forall_forall. intros f Hf.
      destruct (Hgroup f Hf) as (car & Hc & Hfc).
      destruct (Hgroups _ _ Hc) as [_ Hfiles].
      rewrite List.Forall_forall in Hfiles. now apply Hfiles.
    + intros result Hres. rewrite Hrun in Hres. injection Hres as <-.
      exists d3. split; [reflexivity|]. split; [|exact Hother].
      intros car Hc.
      destruct (Hgroups car (List.filter (in_car car) grouped)) as [H _];
        [now apply Hcf|exact H].
    + intros e He. rewrite Hrun in He. discriminate.
  - destruct (merge_groups_throw car_files d2 e Em Hin)
      as (car & files & f & Hc & Hf & H).
    assert (Hfg : In f grouped).
    { apply Hcf in Hc. destruct Hc as [_ ->].
      apply List.filter_In in Hf. tauto. }
    split; [|split].
    + split.
      * intros [result Hres]. rewrite Hrun in Hres. discriminate.
      * intros Hgood. exfalso.
        rewrite List.Forall_forall in Hgood. specialize (Hgood f Hfg).
        destruct H as [[_ Hl]|[_ Hd]]; [lia|tauto].
    + intros result Hres. rewrite Hrun in Hres. discriminate.
    + intros e' He. rewrite Hrun in He. injection He as <-.
      exists f. split; [exact Hfg|exact H].
Qed.

End MergeAll.

(** ** When a data-judge function raises *)

Lemma judge_loop_app (tz : Z) (p : profile) (time_offset : nat)
    (l1 l2 : list frame) :
  forall res,
    judge_loop tz p time_offset (l1 ++ l2) res
    = do res1 <- judge_loop tz p time_offset l1 res;
      judge_loop tz p time_offset l2 res1.
Proof.
  induction l1 as [|fr l1 IH]; intros res; [reflexivity|].
  cbn [app judge_loop].
  destruct (judge_frame tz p time_offset res fr); [apply IH|reflexivity].
Qed.

Lemma profiles_reach (p : profile) :
  In p profiles -> p = GVDS \/ (profile_reach p <= 255)%nat.
Proof.
  unfold profiles. cbn [In].
  intros [<-|[<-|[<-|[<-|[]]]]]; try (now left); right; vm_compute; lia.
Qed.

Lemma frame_ok_dec (tz : Z) (p : profile) (time_offset : nat) (fr : frame) :
  frame_ok tz p time_offset fr \/ ~ frame_ok tz p time_offset fr.
Proof.
  unfold frame_ok.
  destruct (Nat.le_gt_cases (profile_reach p) (length fr)) as [H|H];
    [|right; intros [H' _]; lia].
  destruct (is_ok (extract_frame_time tz fr time_offset));
    [left; now split|right; now intros [_ H']].
Qed.

Lemma first_bad {A : Type} (P : A -> Prop) (l : list A) :
  (forall x, P x \/ ~ P x) ->
  Forall P l
  \/ exists pre x post, l = pre ++ x :: post /\ Forall P pre /\ ~ P x.
Proof.
  intros Hdec. induction l as [|x l IH]; [left; constructor|].
  destruct (Hdec x) as [Hx|Hx].
  - destruct IH as [Hl|(pre & y & post & -> & Hpre & Hy)].
    + left. now constructor.
    + right. exists (x :: pre), y, post. repeat split; [now constructor|exact Hy].
  - right. exists [], x, l. repeat split; [constructor|exact Hx].
Qed.

(** The body of the loop on a frame it cannot process. *)
Lemma judge_frame_bad (tz : Z) (p : profile) (time_offset : nat)
    (res : list value) (fr : frame) :
  In p profiles ->
  Forall (slots_typed res) (p_blocks p) ->
  ~ frame_ok tz p time_offset fr ->
  judge_frame tz p time_offset res fr
  = Raise (if is_ok (extract_frame_time tz fr time_offset)
           then IndexError else ValueError)
  /\ (is_ok (extract_frame_time tz fr time_offset) = true -> p = GVDS).
Proof.
  intros Hp Hty Hbad.
  destruct (extract_frame_time tz fr time_offset) as [t|e] eqn:Et.
  - cbn [is_ok].
    assert (H255 : (255 <= length fr)%nat)
      by (apply extract_frame_time_ok in Et; tauto).
    assert (Hshort : (length fr < profile_reach p)%nat).
    { destruct (Nat.le_gt_cases (profile_reach p) (length fr)) as [H|H];
        [|exact H].
      exfalso. apply Hbad. split; [exact H|]. now rewrite Et. }
    destruct (profiles_reach p Hp) as [->|Hr]; [|lia].
    split; [|reflexivity].
    apply gvds_frame_short; [exact Hty|now rewrite Et|].
    change (profile_reach GVDS) with 302%nat in Hshort. exact Hshort.
  - cbn [is_ok]. split; [|discriminate].
    unfold judge_frame. rewrite Et. cbn [rbind].
    rewrite extract_frame_time_bytes in Et.
    destruct (_ || _); [now injection Et as <-|discriminate].
Qed.

(** X21. When a data-judge function raises.  It raises exactly when some
    frame is too short for the profile's field accesses or carries a
    timestamp that does not decode, and the exception is that of the first
    such frame: [ValueError] when its timestamp does not decode, and
    [IndexError] otherwise, which only [GVDS_data_judge] can raise (on a
    frame of 255 to 301 bytes). *)
Theorem data_judge_first_bad_frame (tz : Z) (p : profile)
    (framelist : list frame) (time_offset : nat) :
  In p profiles ->
  forall e,
    data_judge tz p framelist time_offset = Raise e <->
    exists pre fr post,
      framelist = pre ++ fr :: post
      /\ Forall (frame_ok tz p time_offset) pre
      /\ ~ frame_ok tz p time_offset fr
      /\ e = (if is_ok (extract_frame_time tz fr time_offset)
              then IndexError else ValueError)
      /\ (e = IndexError -> p = GVDS).
Proof.
  intros Hp e. pose proof (profiles_wf p Hp) as Hwf.
  assert (Hraise : forall pre fr post,
            Forall (frame_ok tz p time_offset) pre ->
            ~ frame_ok tz p time_offset fr ->
            data_judge tz p (pre ++ fr :: post) time_offset
            = Raise (if is_ok (extract_frame_time tz fr time_offset)
                     then IndexError else ValueError)
            /\ (is_ok (extract_frame_time tz fr time_offset) = true
                -> p = GVDS)).
  { intros pre fr post Hpre Hfr. unfold data_judge. rewrite judge_loop_app.
    destruct (judge_loop_total tz p time_offset Hwf pre Hpre _
                (initial_typed p Hwf)) as (res1 & Hrun & _).
    rewrite Hrun. cbn [rbind judge_loop].
    pose proof (judge_loop_typed tz p time_offset Hwf pre Hpre _ res1
                  (initial_typed p Hwf) Hrun) as Hty.
    destruct (judge_frame_bad tz p time_offset res1 fr Hp Hty Hfr) as [-> Hg].
    split; [reflexivity|exact Hg]. }
  split.
  - intros Hrun.
    destruct (first_bad (frame_ok tz p time_offset) framelist
                (frame_ok_dec tz p time_offset))
      as [Hall|(pre & fr & post & -> & Hpre & Hfr)].
    + destruct (data_judge_total tz p time_offset Hwf framelist Hall)
        as (res & Hres & _). congruence.
    + exists pre, fr, post. destruct (Hraise pre fr post Hpre Hfr) as [Hr Hg].
      rewrite Hr in Hrun. injection Hrun as <-.
      repeat split; try assumption.
      destruct (is_ok _); [intros _; now apply Hg|discriminate].
  - intros (pre & fr & post & -> & Hpre & Hfr & -> & _).
    now destruct (Hraise pre fr post Hpre Hfr).
Qed.

(** X22. The summary does not depend on the zone of the host: a data-judge
    function takes the frame's timestamp to epoch seconds and back in the
    same zone, so its result, or the exception it raises, is the same in
    every fixed zone. *)
Theorem data_judge_any_zone (tz tz' : Z) (p : profile)
    (framelist : list frame) (time_offset : nat) :
  data_judge tz p framelist time_offset
  = data_judge tz' p framelist time_offset.
Proof.
  unfold data_judge. generalize (replicate (p_size p) (VNum (NInt 0))).
  induction framelist as [|fr framelist IH]; intros res; [reflexivity|].
  cbn [judge_loop].
  assert (E : judge_frame tz p time_offset res fr
              = judge_frame tz' p time_offset res fr).
  { unfold judge_frame. rewrite !extract_frame_time_bytes.
    destruct (_ || _) eqn:Hbad; [reflexivity|].
    apply orb_false_iff in Hbad. destruct Hbad as [_ Hv].
    apply negb_false_iff in Hv. cbn [rbind].
    destruct (fromtimestamp_bytes tz fr time_offset Hv) as [-> _].
    destruct (fromtimestamp_bytes tz' fr time_offset Hv) as [-> _].
    reflexivity. }
  rewrite E. destruct (judge_frame tz' p time_offset res fr);
    [apply IH|reflexivity].
Qed.

(** ** Main-frequency channels in closed form *)

Lemma key_fold_closed3 (obs : list (Z * (Z * Z))) :
  forall a fs,
    Forall (fun o => 0 <= fst (snd o) /\ 0 <= snd (snd o)) obs ->
    fold_left key_step3 obs (a, fs) =
    (fold_left Z.max (map fst obs) a,
     fold_left key_step
       (map snd (List.filter
                   (fun o => fst o =? fold_left Z.max (map fst obs) a) obs))
       (if a =? fold_left Z.max (map fst obs) a then fs else (0, 0))).
Proof.
  induction obs as [|[va [vf w]] obs IH]; intros a fs Hall.
  { cbn. now rewrite Z.eqb_refl. }
  apply Forall_cons in Hall. destruct Hall as [[Hf Hw] Hall].
  cbn [fst snd] in Hf, Hw.
  cbn [fold_left map fst List.filter].
  pose proof (fold_max_ge (map fst obs) (Z.max a va)) as HM.
  unfold key_step3 at 2.
  assert (Hbot : key_step (0, 0) (vf, w) = (vf, w)).
  { unfold key_step. destruct (Z.ltb_spec 0 vf); [reflexivity|].
    destruct (Z.eqb_spec vf 0) as [->|]; [|lia].
    now rewrite Z.max_r by lia. }
  destruct (Z.ltb_spec a va) as [Hlt|Hge].
  - rewrite IH by assumption. replace (Z.max a va) with va in * by lia.
    f_equal.
    destruct (Z.eqb_spec va (fold_left Z.max (map fst obs) va)) as [E|E],
             (Z.eqb_spec a (fold_left Z.max (map fst obs) va)) as [E'|E'];
      try lia; cbn [map snd fold_left]; [now rewrite Hbot|reflexivity].
  - replace (Z.max a va) with a in * by lia.
    destruct (Z.eqb_spec va a) as [->|Hne].
    + rewrite IH by assumption. f_equal.
      destruct (Z.eqb_spec a (fold_left Z.max (map fst obs) a)) as [E|E];
        cbn [map snd fold_left]; reflexivity.
    + rewrite IH by assumption. f_equal.
      destruct (Z.eqb_spec va (fold_left Z.max (map fst obs) a)) as [E|E];
        [lia|reflexivity].
Qed.

Section MainFrequency.

Variables amp fre sp : field.
Hypothesis Hamp : ordered_field amp.
Hypothesis Hfre : ordered_field fre.
Hypothesis Hsp : ordered_field sp.

Lemma step_keys3 (a f s va vf w : Z) :
  0 <= a < 65536 -> 0 <= f < 65536 -> 0 <= s < 65536 ->
  0 <= va < 65536 -> 0 <= vf < 65536 -> 0 <= w < 65536 ->
  MaxAmplitudeFrequencySpeed (of_keys3 amp fre sp (a, (f, s)))
    (field_value amp va, field_value fre vf, field_value sp w)
  = of_keys3 amp fre sp (key_step3 (a, (f, s)) (va, (vf, w))).
Proof.
  intros Ha Hf Hs Hva Hvf Hw.
  unfold of_keys3, key_step3, key_step, MaxAmplitudeFrequencySpeed.
  assert (Hka : has_key amp (if a =? 0 then NInt 0 else field_value amp a) a).
  { destruct (Z.eqb_spec a 0) as [->|_]; [now left|now right]. }
  assert (Hkf : has_key fre (if (a =? 0) && (f =? 0) then NInt 0
                             else field_value fre f) f).
  { destruct (Z.eqb_spec f 0) as [->|_]; destruct (a =? 0); cbn [andb];
      try (now left); now right. }
  assert (Hks : has_key sp (if (a =? 0) && (f =? 0) && (s =? 0) then NInt 0
                            else field_value sp s) s).
  { destruct (Z.eqb_spec s 0) as [->|_]; destruct (a =? 0), (f =? 0);
      cbn [andb]; try (now left); now right. }
  destruct (Hamp (field_value amp va) _ va a
              (or_intror (conj eq_refl Hva)) Hka) as [Hga Hea].
  destruct (Hfre (field_value fre vf) _ vf f
              (or_intror (conj eq_refl Hvf)) Hkf) as [Hgf Hef].
  destruct (Hsp (field_value sp w) _ w s
              (or_intror (conj eq_refl Hw)) Hks) as [Hgs _].
  rewrite Hga, Hea, Hgf, Hef, Hgs.
  destruct (Z.ltb_spec a va) as [Hlt|Hge].
  - destruct (Z.eqb_spec va 0) as [E|_]; [lia|]. reflexivity.
  - destruct (Z.eqb_spec va a) as [->|Hne]; cbn [andb]; [|reflexivity].
    destruct (Z.ltb_spec f vf) as [Hlt|Hge'].
    + destruct (Z.eqb_spec vf 0) as [E|_]; [lia|].
      now rewrite !andb_false_r.
    + destruct (Z.eqb_spec vf f) as [->|Hne]; cbn [andb]; [|reflexivity].
      destruct (Z.ltb_spec s w) as [Hlt|Hge''].
      * rewrite Z.max_r by lia.
        destruct (Z.eqb_spec w 0) as [E|_]; [lia|].
        now rewrite !andb_false_r.
      * now rewrite Z.max_l by lia.
Qed.

Lemma fold_keys3 (obs : list (Z * (Z * Z))) :
  Forall (fun o => 0 <= fst o < 65536 /\ 0 <= fst (snd o) < 65536
                   /\ 0 <= snd (snd o) < 65536) obs ->
  forall a f s,
    0 <= a < 65536 -> 0 <= f < 65536 -> 0 <= s < 65536 ->
    fold_left MaxAmplitudeFrequencySpeed
      (map (fun o => (field_value amp (fst o), field_value fre (fst (snd o)),
                      field_value sp (snd (snd o)))) obs)
      (of_keys3 amp fre sp (a, (f, s)))
    = of_keys3 amp fre sp (fold_left key_step3 obs (a, (f, s))).
Proof.
  induction 1 as [|[va [vf w]] obs (Hva & Hvf & Hw) _ IH];
    intros a f s Ha Hf Hs; [reflexivity|].
  cbn [map fold_left fst snd] in *.
  rewrite step_keys3 by assumption.
  assert (Hr : exists a' f' s',
            key_step3 (a, (f, s)) (va, (vf, w)) = (a', (f', s'))
            /\ 0 <= a' < 65536 /\ 0 <= f' < 65536 /\ 0 <= s' < 65536).
  { unfold key_step3.
    destruct (a <? va); [now exists va, vf, w|].
    destruct (va =? a); [|now exists a, f, s].
    destruct (key_step_range f s vf w Hf Hs Hvf Hw) as [Hf' Hs'].
    destruct (key_step (f, s) (vf, w)) as [f' s']. now exists a, f', s'. }
  destruct Hr as (a' & f' & s' & -> & Ha' & Hf' & Hs'). now apply IH.
Qed.

End MainFrequency.

Section MainFrequencyChannel.

Variable tz : Z.
Variable p : profile.
Variable time_offset : nat.
Hypothesis Hp : In p profiles.

(** A main-frequency channel after the run, on raw values. *)
Lemma maf_closed (amp fre : field) (slot : nat) (framelist : list frame) :
  In (BMaf amp fre slot) (p_blocks p) ->
  Forall (frame_ok tz p time_offset) framelist ->
  exists res,
    data_judge tz p framelist time_offset = Ok res /\
    view3 slot res
    = Some (of_keys3 amp fre (p_speed p)
              (top_value amp framelist,
               (top_value fre (loudest amp framelist),
                top_speed (p_speed p) fre (loudest amp framelist)))).
Proof.
  intros Hb Hok. pose proof (profiles_wf p Hp) as Hwf.
  destruct (data_judge_total tz p time_offset Hwf framelist Hok)
    as (res & Hrun & _).
  exists res. split; [exact Hrun|].
  pose proof (proj2 (list_elem_of_In _ _) Hb) as Hb'.
  rewrite (judge_loop_maf tz p time_offset Hwf amp fre slot framelist _ res
             (NInt 0, NInt 0, NInt 0) Hb' Hrun
             (initial_view3 p Hp _ amp fre slot eq_refl Hb')).
  f_equal.
  assert (Hamp : ordered_field amp).
  { apply (profile_field_ordered p amp Hp). right.
    apply in_flat_map. exists (BMaf amp fre slot). split; [exact Hb|now left]. }
  assert (Hfre : ordered_field fre).
  { apply (profile_field_ordered p fre Hp). right.
    apply in_flat_map. exists (BMaf amp fre slot).
    split; [exact Hb|right; now left]. }
  assert (Hsp : ordered_field (p_speed p))
    by (apply (profile_field_ordered p _ Hp); now left).
  set (g := fun fr => (raw_field amp fr,
                       (raw_field fre fr, raw_field (p_speed p) fr))).
  assert (Hraw : Forall (fun fr =>
                   (val amp fr, val fre fr, frame_speed p fr)
                   = (field_value amp (fst (g fr)),
                      field_value fre (fst (snd (g fr))),
                      field_value (p_speed p) (snd (snd (g fr))))
                   /\ (0 <= fst (g fr) < 65536
                       /\ 0 <= fst (snd (g fr)) < 65536
                       /\ 0 <= snd (snd (g fr)) < 65536))
                  framelist).
  { pose proof (speed_raw tz p time_offset framelist Hok) as Hs.
    rewrite List.Forall_forall in *. intros fr Hfr.
    destruct (Hs fr Hfr) as [Es Rs]. destruct (Hok fr Hfr) as [Hlen _].
    destruct (reach_blocks p fr Hlen) as [_ Hbl].
    rewrite List.Forall_forall in Hbl. specialize (Hbl _ Hb).
    cbn [block_reach] in Hbl.
    destruct (val_raw amp fr ltac:(lia)) as [Ea Ra].
    destruct (val_raw fre fr ltac:(lia)) as [Ef Rf].
    cbn [g fst snd]. now rewrite Ea, Ef, Es. }
  replace (map (fun fr => (val amp fr, val fre fr, frame_speed p fr)) framelist)
    with (map (fun o => (field_value amp (fst o), field_value fre (fst (snd o)),
                         field_value (p_speed p) (snd (snd o))))
              (map g framelist)).
  2:{ rewrite map_map. apply map_ext_in. intros fr Hfr.
      rewrite List.Forall_forall in Hraw. now destruct (Hraw fr Hfr) as [-> _]. }
  change (NInt 0, NInt 0, NInt 0)
    with (of_keys3 amp fre (p_speed p) (0, (0, 0))).
  rewrite (fold_keys3 amp fre (p_speed p) Hamp Hfre Hsp) by
    (try lia; rewrite List.Forall_forall in *; intros o Ho;
     apply in_map_iff in Ho; destruct Ho as (fr & <- & Hfr);
     now destruct (Hraw fr Hfr)).
  rewrite key_fold_closed3.
  2:{ rewrite List.Forall_forall in *. intros o Ho.
      apply in_map_iff in Ho. destruct Ho as (fr & <- & Hfr).
      destruct (Hraw fr Hfr) as [_ (_ & H1 & H2)]. lia. }
  f_equal. unfold top_value at 1. rewrite !map_map. cbn [g fst].
  f_equal.
  replace (if 0 =? fold_left Z.max (map (fun x => raw_field amp x) framelist) 0
           then (0, 0) else (0, 0)) with (0, 0) by now destruct (0 =? _).
  rewrite filter_map_comm, map_map. cbn [g fst snd].
  fold (top_value amp framelist). fold (loudest amp framelist).
  rewrite <- (map_map (fun fr => (raw_field fre fr, raw_field (p_speed p) fr))
                (fun o => o)), map_id.
  rewrite key_fold_closed.
  - unfold top_value, top_speed.
    rewrite filter_map_comm, !map_map. cbn [fst snd].
    now destruct (0 =? _).
  - lia.
  - rewrite List.Forall_forall in *. intros o Ho.
    apply in_map_iff in Ho. destruct Ho as (fr & <- & Hfr).
    apply List.filter_In in Hfr. destruct Hfr as [Hfr _].
    destruct (Hraw fr Hfr) as [_ (_ & _ & H2)]. cbn [g snd] in H2.
    cbn [snd]. lia.
Qed.

End MainFrequencyChannel.

Lemma loudest_perm (amp : field) (l l' : list frame) :
  Permutation l l' -> Permutation (loudest amp l) (loudest amp l').
Proof.
  intros H. unfold loudest. rewrite (top_value_perm amp l l' H).
  now apply filter_perm.
Qed.

(** X23. A main-frequency channel in closed form.  With [a] the largest raw
    amplitude over the frames, [f] the largest raw frequency among the
    frames with amplitude [a], and [s] the largest raw speed among the
    frames with amplitude [a] and frequency [f]: the three slots hold the
    decoded [a], [f] and [s], with the initial int 0 in the amplitude slot
    when [a] is 0, in the frequency slot when [a] and [f] are 0, and in the
    speed slot when all three are 0.  So the three slots are the same for
    every order of the frames. *)
Theorem main_frequency_closed_form (tz : Z) (p : profile) (amp fre : field)
    (slot : nat) (framelist framelist' : list frame) (time_offset : nat) :
  In p profiles ->
  In (BMaf amp fre slot) (p_blocks p) ->
  Forall (frame_ok tz p time_offset) framelist ->
  Permutation framelist framelist' ->
  let a := top_value amp framelist in
  let f := top_value fre (loudest amp framelist) in
  let s := top_speed (p_speed p) fre (loudest amp framelist) in
  exists res res',
    data_judge tz p framelist time_offset = Ok res
    /\ view3 slot res
       = Some (if a =? 0 then NInt 0 else field_value amp a,
               if (a =? 0) && (f =? 0) then NInt 0 else field_value fre f,
               if (a =? 0) && (f =? 0) && (s =? 0) then NInt 0
               else field_value (p_speed p) s)
    /\ data_judge tz p framelist' time_offset = Ok res'
    /\ view3 slot res' = view3 slot res.
Proof.
  intros Hp Hb Hok Hperm a f s.
  assert (Hok' : Forall (frame_ok tz p time_offset) framelist').
  { rewrite List.Forall_forall in *. intros fr Hfr. apply Hok.
    apply (Permutation_in fr (Permutation_sym Hperm) Hfr). }
  destruct (maf_closed tz p time_offset Hp amp fre slot framelist Hb Hok)
    as (res & Hrun & Hv).
  destruct (maf_closed tz p time_offset Hp amp fre slot framelist' Hb Hok')
    as (res' & Hrun' & Hv').
  exists res, res'. split; [exact Hrun|]. split; [exact Hv|].
  split; [exact Hrun'|]. rewrite Hv, Hv'.
  pose proof (loudest_perm amp _ _ Hperm) as Hl.
  now rewrite <- (top_value_perm amp _ _ Hperm),
    <- (top_value_perm fre _ _ Hl), <- (top_speed_perm _ fre _ _ Hl).
Qed.

(** * Concrete runs *)

(** A source of three 255-byte frames behind the 16-byte header, the middle
    one with month 13. *)
Example one_corrupted_run :
  length file_header = 16%nat /\
  read_binary_file 0 16 23 0 2000000000 255
    (file_header
     ++ concat ([frame_at 25 3 15 10 30 0]
                ++ frame_at 25 13 15 10 30 1 :: [frame_at 25 3 15 10 30 2]))
  = Some ([frame_at 25 3 15 10 30 0] ++ [frame_at 25 3 15 10 30 2],
          [mk_error 1 (Z.of_nat (16 + 1 * 255) - 16) (TimeParse ValueError)]).
Proof.
  split; [reflexivity|].
  refine (proj1 (read_binary_file_one_corrupted 0 16 23 0 2000000000 255
                   file_header [frame_at 25 3 15 10 30 0]
                   [frame_at 25 3 15 10 30 2] (frame_at 25 13 15 10 30 1)
                   (TimeParse ValueError) _ _ _ _ _)).
  - reflexivity.
  - lia.
  - repeat constructor; vm_compute; reflexivity.
  - reflexivity.
  - vm_compute. reflexivity.
Defined.

(** Two corrupted frames in a row, then a good one: both entries carry frame
    index 0 and the offsets 0 and 255, where the log as the specification
    words it has the indices 0 and 1 and the start positions 16 and 271. *)
Example two_corrupted_log :
  let data :=
    file_header
    ++ concat [frame_at 25 13 15 10 30 0; frame_at 25 3 32 10 30 1;
               frame_at 25 3 15 10 30 2] in
  read_binary_file 0 16 23 0 2000000000 255 data
  = Some ([frame_at 25 3 15 10 30 2],
          [mk_error 0 0 (TimeParse ValueError);
           mk_error 0 255 (TimeParse ValueError)])
  /\ claimed_log 0 23 0 2000000000 255 (all_slots 16 255 data)
     = [(0%nat, 16); (1%nat, 271)]
  /\ ~ (exists error_log frames,
          read_binary_file 0 16 23 0 2000000000 255 data
          = Some (frames, error_log)
          /\ map (fun e => (err_frame e, err_offset e)) error_log
             = claimed_log 0 23 0 2000000000 255 (all_slots 16 255 data)).
Proof.
  assert (Hrun :
    read_binary_file 0 16 23 0 2000000000 255
      (file_header
       ++ concat [frame_at 25 13 15 10 30 0; frame_at 25 3 32 10 30 1;
                  frame_at 25 3 15 10 30 2])
    = Some ([frame_at 25 3 15 10 30 2],
            [mk_error 0 0 (TimeParse ValueError);
             mk_error 0 255 (TimeParse ValueError)]))
    by (vm_compute; reflexivity).
  assert (Hclaim :
    claimed_log 0 23 0 2000000000 255
      (all_slots 16 255
         (file_header
          ++ concat [frame_at 25 13 15 10 30 0; frame_at 25 3 32 10 30 1;
                     frame_at 25 3 15 10 30 2]))
    = [(0%nat, 16); (1%nat, 271)])
    by (vm_compute; reflexivity).
  cbv zeta. split; [exact Hrun|]. split; [exact Hclaim|].
  intros (error_log & frames & Hread & Hlog).
  rewrite Hrun in Hread. injection Hread as <- <-.
  rewrite Hclaim in Hlog. discriminate Hlog.
Qed.

(** A file whose only frame is dated 2025 read with the window [0, 10]. *)
Example empty_window_run :
  data_process 0 "WNDS" 16 23 0 10 255
    (file_header ++ frame_at 25 3 15 10 30 0) = Some EmptyResultSet.
Proof.
  refine (proj1 (proj2 (empty_result_set_skips_judge 0 "WNDS" 16 23 0 10 255
                          (file_header ++ frame_at 25 3 15 10 30 0) _))).
  apply none_emitted_check. vm_compute. reflexivity.
Defined.

Ltac in_list := repeat (first [left; reflexivity | right]).

Ltac frames_ok :=
  repeat constructor;
  (split; [apply Nat.leb_le; vm_compute; reflexivity | vm_compute; reflexivity]).

(** C1 at a GVDS frame with [frame[177] = 5] and [frame[178] = 3]: the loop
    of lines 975-981 compares [frame[177]] with [res[65]] and stores
    [frame[178]], where the reducer of the specification stores the compared
    value, as the loop of lines 968-974 does for [frame[165]]. *)
Example gvds_stride2_store :
  let fr :=
    patch (patch (patch (blank_frame 302) 23 [25; 3; 15; 10; 30; 0]) 165 [5; 3])
          177 [5; 3] in
  val (U8 177) fr = NInt 5
  /\ val (U8 178) fr = NInt 3
  /\ In (BMws (U8 177) (U8 178) 65) GVDS_blocks
  /\ In (BMws (U8 165) (U8 165) 57) GVDS_blocks
  /\ (exists res,
        GVDS_data_judge 0 [fr] 23 = Ok res
        /\ view2 65 res = Some (NInt 3, frame_speed GVDS fr)
        /\ view2 57 res = Some (NInt 5, frame_speed GVDS fr))
  /\ MaxWithSpeedTiebreak (NInt 0, NInt 0) (val (U8 177) fr, frame_speed GVDS fr)
     = (NInt 5, frame_speed GVDS fr).
Proof.
  cbv zeta. split; [vm_compute; reflexivity|]. split; [vm_compute; reflexivity|].
  split; [vm_compute; in_list|]. split; [vm_compute; in_list|].
  split; [|vm_compute; reflexivity].
  eexists. split; [vm_compute; reflexivity|].
  split; vm_compute; reflexivity.
Qed.

(** Three WNDS frames with amplitude byte 5, raw frequencies 200, 250, 250
    and raw speeds 6000, 4000, 7000. *)
Example main_frequency_run :
  exists res,
    data_judge 0 WNDS
      [with_u16 (patch (sample_frame 0 6000) 99 [5]) 101 200;
       with_u16 (patch (sample_frame 1 4000) 99 [5]) 101 250;
       with_u16 (patch (sample_frame 2 7000) 99 [5]) 101 250] 23 = Ok res
    /\ view3 32 res
       = Some (scaled 5 0.001, scaled 250 0.1, scaled 7000 0.01).
Proof.
  destruct (proj1 (main_frequency_channel 0 WNDS (U8s 99 0.001) (U16s 101 0.1) 32
      [with_u16 (patch (sample_frame 0 6000) 99 [5]) 101 200;
       with_u16 (patch (sample_frame 1 4000) 99 [5]) 101 250;
       with_u16 (patch (sample_frame 2 7000) 99 [5]) 101 250] 23
      ltac:(left; reflexivity) ltac:(vm_compute; in_list) ltac:(frames_ok)))
    as (res & Hrun & Hv).
  exists res. split; [exact Hrun|]. rewrite Hv. vm_compute. reflexivity.
Defined.

(** Three WNDS frames, bit 0 of byte 88 set in the first and the third. *)
Example event_timestamp_run :
  exists res,
    data_judge 0 WNDS
      [patch (sample_frame 0 0) 88 [1]; sample_frame 1 0;
       patch (sample_frame 2 0) 88 [1]] 23 = Ok res
    /\ res !! 4%nat = Some (VStr "2025-03-15 10:30:02").
Proof.
  destruct (proj1 (event_timestamp_channel 0 WNDS [Bit 88 BIT0_MASK] 4
      [patch (sample_frame 0 0) 88 [1]; sample_frame 1 0;
       patch (sample_frame 2 0) 88 [1]] 23
      ltac:(left; reflexivity) ltac:(vm_compute; in_list) ltac:(frames_ok)))
    as (res & Hrun & Hv).
  exists res. split; [exact Hrun|]. rewrite Hv. vm_compute. reflexivity.
Defined.

(** One decodable WNDS frame. *)
Example data_judge_length_run :
  exists res,
    WNDS_data_judge 0 [sample_frame 0 12345] 23 = Ok res
    /\ length res = 54%nat.
Proof.
  apply (proj1 (data_judge_lengths 0 [sample_frame 0 12345] 23)).
  frames_ok.
Defined.

(** A non-empty list of one frame of 302 zero bytes, long enough for every
    field access of the four profiles: its month byte is 0, the timestamp
    does not decode and the data-judge functions raise. *)
Example data_judge_raises :
  [blank_frame 302] <> []
  /\ Forall (fun p => (profile_reach p <= length (blank_frame 302))%nat) profiles
  /\ WNDS_data_judge 0 [blank_frame 302] 23 = Raise ValueError
  /\ BIDS_data_judge 0 [blank_frame 302] 23 = Raise ValueError
  /\ GVDS_data_judge 0 [blank_frame 302] 23 = Raise ValueError
  /\ MVDS_data_judge 0 [blank_frame 302] 23 = Raise ValueError
  /\ ~ (exists res, WNDS_data_judge 0 [blank_frame 302] 23 = Ok res
                    /\ length res = 54%nat).
Proof.
  split; [discriminate|].
  split; [repeat constructor; apply Nat.leb_le; vm_compute; reflexivity|].
  assert (H : WNDS_data_judge 0 [blank_frame 302] 23 = Raise ValueError)
    by (vm_compute; reflexivity).
  split; [exact H|]. split; [vm_compute; reflexivity|].
  split; [vm_compute; reflexivity|]. split; [vm_compute; reflexivity|].
  intros (res & Hres & _). rewrite H in Hres. discriminate.
Qed.

(** Two WNDS frames with all channel bytes 0 and raw speeds 5000 and 8000:
    [stable_1HX_max] stays 0 and [stable_1HX_speed] is the larger speed. *)
Example zero_channel_run :
  exists res top,
    data_judge 0 WNDS [sample_frame 0 5000; sample_frame 1 8000] 23 = Ok res /\
    res !! 12%nat = Some (VNum (NInt 0)) /\
    res !! (12 + 1)%nat = Some (VNum top) /\
    (exists fr, In fr [sample_frame 0 5000; sample_frame 1 8000]
                /\ num_eq top (frame_speed WNDS fr) = true) /\
    (forall fr, In fr [sample_frame 0 5000; sample_frame 1 8000] ->
                num_gt (frame_speed WNDS fr) top = false).
Proof.
  apply (zero_channel_speed 0 WNDS (U16s 105 0.01) (U16s 105 0.01) 12
           [sample_frame 0 5000; sample_frame 1 8000] 23).
  - left. reflexivity.
  - vm_compute. in_list.
  - discriminate.
  - frames_ok.
  - intros fr [<-|[<-|[]]]; vm_compute; reflexivity.
Defined.

Example zero_channel_values :
  exists res,
    WNDS_data_judge 0 [sample_frame 0 5000; sample_frame 1 8000] 23 = Ok res
    /\ res !! 12%nat = Some (VNum (NInt 0))
    /\ res !! 13%nat = Some (VNum (scaled 8000 0.01)).
Proof.
  eexists. split; [vm_compute; reflexivity|].
  split; vm_compute; reflexivity.
Qed.

(** The timestamp field (25,3,15,10,30,0) at offset 23 of a 255-byte frame. *)
Example extract_frame_time_run :
  extract_frame_time 0 (frame_at 25 3 15 10 30 0) 23 = Ok (1742034600 - 0)
  /\ strftime (fromtimestamp 0 1742034600) = "2025-03-15 10:30:00"%string.
Proof.
  apply (proj2 (proj2 (extract_frame_time_spec 0 (frame_at 25 3 15 10 30 0) 23))).
  - apply Nat.leb_le. vm_compute. reflexivity.
  - vm_compute. reflexivity.
Defined.

(** A header, then a frame with month 13, a good frame, a frame of the year
    2101, a good frame and three more bytes: the three errors are logged,
    the scan goes on after each of the first two, and it ends after the
    incomplete read. *)
Example truncated_tail_run :
  read_binary_file 0 16 23 0 2000000000 255
    (file_header
     ++ concat [frame_at 25 13 15 10 30 0; frame_at 25 3 15 10 30 1;
                frame_at 101 3 15 10 30 2; frame_at 25 3 15 10 30 3]
     ++ [Byte.x01; Byte.x02; Byte.x03])
  = Some ([frame_at 25 3 15 10 30 1; frame_at 25 3 15 10 30 3],
          [mk_error 0 0 (TimeParse ValueError);
           mk_error 1 510 (TimeOutOfRange 4140325802);
           mk_error 2 1020 (FrameLength 3 255)])
  /\ map (slot_class_of 0 23 0 2000000000 255)
       [frame_at 25 13 15 10 30 0; frame_at 101 3 15 10 30 2;
        [Byte.x01; Byte.x02; Byte.x03]]
     = [MalformedTimestamp; TimestampOutOfSanityRange; TruncatedFrame].
Proof.
  split; [|vm_compute; reflexivity].
  refine (eq_trans
            (proj1 (read_binary_file_total 0 16 23 0 2000000000 255
                      (file_header
                       ++ concat [frame_at 25 13 15 10 30 0;
                                  frame_at 25 3 15 10 30 1;
                                  frame_at 101 3 15 10 30 2;
                                  frame_at 25 3 15 10 30 3]
                       ++ [Byte.x01; Byte.x02; Byte.x03]))) _).
  vm_compute. reflexivity.
Defined.

(** Four frames read with the window of 10:30:00 to 10:30:10: the frames
    dated at the two bounds are returned; the frames dated a minute after
    the first bound and a second before it are in neither list. *)
Example out_of_window_run :
  read_binary_file 0 16 23 1742034600 1742034610 255
    (file_header
     ++ concat [frame_at 25 3 15 10 30 0; frame_at 25 3 15 10 31 0;
                frame_at 25 3 15 10 30 10; frame_at 25 3 15 10 29 59])
  = Some ([frame_at 25 3 15 10 30 0; frame_at 25 3 15 10 30 10], []).
Proof.
  destruct (read_binary_file_emits 0 16 23 1742034600 1742034610 255
              (file_header
               ++ concat [frame_at 25 3 15 10 30 0; frame_at 25 3 15 10 31 0;
                          frame_at 25 3 15 10 30 10;
                          frame_at 25 3 15 10 29 59]))
    as (results & error_log & Hrun & _ & _ & _ & _ & _ & _ & _ & _
        & Hres & Hlog).
  rewrite Hrun. f_equal. f_equal.
  - rewrite Hres. vm_compute. reflexivity.
  - apply (map_eq_nil err_offset). rewrite Hlog. vm_compute. reflexivity.
Defined.

(** Three WNDS frames with [stable_1HX] raw values 1000, 1000, 700 and raw
    speeds 5000, 8000, 9900. *)
Example max_with_speed_run :
  exists res,
    data_judge 0 WNDS
      [with_u16 (sample_frame 0 5000) 105 1000;
       with_u16 (sample_frame 1 8000) 105 1000;
       with_u16 (sample_frame 2 9900) 105 700] 23 = Ok res
    /\ view2 12 res = Some (scaled 1000 0.01, scaled 8000 0.01).
Proof.
  destruct (proj1 (max_with_speed_channel 0 WNDS (U16s 105 0.01) 12
      [with_u16 (sample_frame 0 5000) 105 1000;
       with_u16 (sample_frame 1 8000) 105 1000;
       with_u16 (sample_frame 2 9900) 105 700] 23
      ltac:(left; reflexivity) ltac:(vm_compute; in_list) ltac:(frames_ok)))
    as (res & Hrun & Hv).
  exists res. split; [exact Hrun|]. rewrite Hv. vm_compute. reflexivity.
Defined.

(** Three GVDS frames with raw speeds 5000, 12345 and 8000. *)
Example speed_max_run :
  In (BMax 0) (p_blocks GVDS)
  /\ exists res top,
       data_judge 0 GVDS
         [with_u16 (patch (blank_frame 302) 23 [25; 3; 15; 10; 30; 0]) 78 5000;
          with_u16 (patch (blank_frame 302) 23 [25; 3; 15; 10; 30; 1]) 78 12345;
          with_u16 (patch (blank_frame 302) 23 [25; 3; 15; 10; 30; 2]) 78 8000]
         23 = Ok res /\
       res !! 0%nat = Some (VNum top) /\
       (top = NInt 0
        \/ exists fr,
             In fr
               [with_u16 (patch (blank_frame 302) 23 [25; 3; 15; 10; 30; 0]) 78 5000;
                with_u16 (patch (blank_frame 302) 23 [25; 3; 15; 10; 30; 1]) 78 12345;
                with_u16 (patch (blank_frame 302) 23 [25; 3; 15; 10; 30; 2]) 78 8000]
             /\ top = frame_speed GVDS fr) /\
       (forall fr,
          In fr
            [with_u16 (patch (blank_frame 302) 23 [25; 3; 15; 10; 30; 0]) 78 5000;
             with_u16 (patch (blank_frame 302) 23 [25; 3; 15; 10; 30; 1]) 78 12345;
             with_u16 (patch (blank_frame 302) 23 [25; 3; 15; 10; 30; 2]) 78 8000] ->
          num_gt (frame_speed GVDS fr) top = false).
Proof.
  apply (speed_max_channel 0 GVDS).
  - do 2 right. left. reflexivity.
  - frames_ok.
Defined.

(** * More concrete runs *)

(** The last second of a leap day, in a zone eight hours east of UTC. *)
Example timestamp_round_trip_run :
  datetime_timestamp 28800 (mk_datetime 2024 2 29 23 59 59) = 1709222399
  /\ fromtimestamp 28800
       (datetime_timestamp 28800 (mk_datetime 2024 2 29 23 59 59))
     = mk_datetime 2024 2 29 23 59 59.
Proof.
  split; [reflexivity|].
  refine (proj1 (timestamp_round_trip 28800 (mk_datetime 2024 2 29 23 59 59)
                   _ _)).
  - cbn. lia.
  - reflexivity.
Defined.

(** The timestamp bytes (25,3,15,10,30,0), read in a zone eight hours east
    of UTC. *)
Example frame_time_bytes_run :
  extract_frame_time 28800 (frame_at 25 3 15 10 30 0) 23
  = Ok (1742034600 - 28800)
  /\ frame_time 28800 23 (frame_at 25 3 15 10 30 0)
     = "2025-03-15 10:30:00"%string.
Proof.
  assert (H : extract_frame_time 28800 (frame_at 25 3 15 10 30 0) 23
              = Ok (1742034600 - 28800)) by (vm_compute; reflexivity).
  split; [exact H|].
  destruct (frame_time_bytes 28800 (frame_at 25 3 15 10 30 0) 23 _ H)
    as (_ & -> & _).
  vm_compute. reflexivity.
Defined.

(** Three frames one second apart; the window of the middle second inside
    the window of the whole day. *)
Example read_binary_file_window_run :
  exists results wider error_log,
    read_binary_file 0 16 23 1742034601 1742034601 255
      (file_header ++ concat [frame_at 25 3 15 10 30 0;
                              frame_at 25 3 15 10 30 1;
                              frame_at 25 3 15 10 30 2])
    = Some (results, error_log)
    /\ read_binary_file 0 16 23 1741996800 1742083199 255
         (file_header ++ concat [frame_at 25 3 15 10 30 0;
                                 frame_at 25 3 15 10 30 1;
                                 frame_at 25 3 15 10 30 2])
       = Some (wider, error_log)
    /\ results = List.filter (in_window 0 23 1742034601 1742034601) wider
    /\ (1742034601 < 1742034601 -> results = []).
Proof.
  apply (read_binary_file_window 0 16 23 255 1742034601 1742034601
           1741996800 1742083199); lia.
Defined.

(** A frame whose year byte is 101. *)
Example check_frame_year_run :
  check_frame 0 23 0 5000000000 255 (frame_at 101 3 15 10 30 0)
  = inl (TimeOutOfRange 4140325800).
Proof.
  rewrite (check_frame_by_bytes 0 23 255 0 5000000000
             (frame_at 101 3 15 10 30 0)) by lia.
  vm_compute. reflexivity.
Defined.

(** A frame size of 100 on a file of 250 bytes behind the header. *)
Example short_frames_run :
  exists error_log,
    read_binary_file 0 16 23 0 2000000000 100
      (file_header ++ blank_frame 250)
    = Some ([], error_log)
    /\ length error_log
       = length (all_slots 16 100 (file_header ++ blank_frame 250))
    /\ Forall (fun e =>
                 err_frame e = 0%nat /\
                 (err_reason e = TimeParse ValueError
                  \/ exists got, (got < 100)%nat /\
                                 err_reason e = FrameLength got 100))
              error_log
    /\ data_process 0 "WNDS" 16 23 0 2000000000 100
         (file_header ++ blank_frame 250) = Some EmptyResultSet.
Proof.
  apply (read_binary_file_short_frames 0 16 23 100 0 2000000000 "WNDS").
  lia.
Defined.

(** A frame size of 0. *)
Example nothing_to_read_run :
  read_binary_file 0 16 23 0 2000000000 0
    (file_header ++ frame_at 25 3 15 10 30 0)
  = Some ([], []).
Proof.
  apply (read_binary_file_nothing 0 16 23 0 0 2000000000). left. reflexivity.
Defined.

(** A GVDS file of two 302-byte frames read with the window of 10:00:00 to
    11:00:00: the summary vector of the two frames, 199 long, with the
    larger speed in slot 0.  With the end time [2025-03-15 24:00:00], which
    does not parse, and with the frame offset -1, the pass raises. *)
Example data_process_returns_run :
  (exists res,
     data_process_config sample_strptime 0 "GVDS" 16 23
       "2025-03-15 10:00:00" "2025-03-15 11:00:00" 302
       (file_header ++ concat [long_frame 0 5000; long_frame 1 8000])
     = Returns (Some (Judged GVDS [long_frame 0 5000; long_frame 1 8000]
                        (Ok res)))
     /\ length res = 199%nat
     /\ GVDS_data_judge 0 [long_frame 0 5000; long_frame 1 8000] 23 = Ok res)
  /\ data_process_config sample_strptime 0 "GVDS" 16 23
       "2025-03-15 10:00:00" "2025-03-15 24:00:00" 302
       (file_header ++ concat [long_frame 0 5000; long_frame 1 8000])
     = TimeStringError "2025-03-15 24:00:00"
  /\ data_process_config sample_strptime 0 "GVDS" (-1) 23
       "2025-03-15 10:00:00" "2025-03-15 11:00:00" 302
       (file_header ++ concat [long_frame 0 5000; long_frame 1 8000])
     = SeekError (-1).
Proof.
  split; [|split].
  - pose proof (data_process_returns sample_strptime 0 "GVDS" 16 23
                  "2025-03-15 10:00:00" "2025-03-15 11:00:00" 302
                  (file_header ++ concat [long_frame 0 5000; long_frame 1 8000])
                  ltac:(intros _; lia)) as H.
    cbv zeta in H.
    change (sample_strptime "2025-03-15 10:00:00") with (Some 1742032800) in H.
    change (sample_strptime "2025-03-15 11:00:00") with (Some 1742036400) in H.
    change (16 <? 0) with false in H. cbv iota in H.
    destruct H as (frame_data & error_log & Hread & H).
    assert (Hr : read_binary_file 0 (Z.to_nat 16) 23 1742032800 1742036400 302
                   (file_header
                    ++ concat [long_frame 0 5000; long_frame 1 8000])
                 = Some ([long_frame 0 5000; long_frame 1 8000], []))
      by (vm_compute; reflexivity).
    rewrite Hr in Hread. injection Hread as <- <-.
    destruct H as [[H _]|[(_ & H & _)|(_ & p & res & Hp & Hrun & Hlen & H)]];
      [discriminate H|discriminate H|].
    injection Hp as <-. exists res. split; [exact H|]. split; assumption.
  - exact (data_process_returns sample_strptime 0 "GVDS" 16 23
             "2025-03-15 10:00:00" "2025-03-15 24:00:00" 302
             (file_header ++ concat [long_frame 0 5000; long_frame 1 8000])
             ltac:(intros _; lia)).
  - exact (data_process_returns sample_strptime 0 "GVDS" (-1) 23
             "2025-03-15 10:00:00" "2025-03-15 11:00:00" 302
             (file_header ++ concat [long_frame 0 5000; long_frame 1 8000])
             ltac:(intros _; lia)).
Defined.

(** The same kind of file cut into 255-byte frames: the reader returns the
    two frames and [GVDS_data_judge] raises on them. *)
Example gvds_short_frames_run :
  data_process 0 "GVDS" 16 23 0 2000000000 255
    (file_header ++ concat [sample_frame 0 5000; sample_frame 1 8000])
  = Some (Judged GVDS [sample_frame 0 5000; sample_frame 1 8000]
            (Raise IndexError)).
Proof.
  destruct (gvds_short_frames_raise 0 16 23 0 2000000000 255
              (file_header ++ concat [sample_frame 0 5000; sample_frame 1 8000])
              ltac:(lia))
    as (frame_data & error_log & Hread & Hrun & _).
  assert (Hr : read_binary_file 0 16 23 0 2000000000 255
                 (file_header
                  ++ concat [sample_frame 0 5000; sample_frame 1 8000])
               = Some ([sample_frame 0 5000; sample_frame 1 8000], []))
    by (vm_compute; reflexivity).
  rewrite Hr in Hread. injection Hread as <- <-. exact Hrun.
Defined.

(** Three GVDS frames; byte 290 is 150 (15.0 V) in the second one and all
    voltage bytes are 100 elsewhere. *)
Example voltage_event_run :
  exists res,
    data_judge 0 GVDS
      [patch (long_frame 0 0) 286 (repeat 100 16);
       patch (patch (long_frame 1 0) 286 (repeat 100 16)) 290 [150];
       patch (long_frame 2 0) 286 (repeat 100 16)] 23 = Ok res
    /\ res !! 6%nat = Some (VStr "2025-03-15 10:30:01").
Proof.
  destruct (proj1 (voltage_event_channel 0 GVDS 286 16 6
      [patch (long_frame 0 0) 286 (repeat 100 16);
       patch (patch (long_frame 1 0) 286 (repeat 100 16)) 290 [150];
       patch (long_frame 2 0) 286 (repeat 100 16)] 23
      ltac:(do 2 right; left; reflexivity) ltac:(vm_compute; in_list)
      ltac:(frames_ok)))
    as (res & Hrun & Hv).
  exists res. split; [exact Hrun|]. rewrite Hv. vm_compute. reflexivity.
Defined.

(** Three WNDS frames with [stable_1HX] raw values 1000, 700, 1000 and raw
    speeds 5000, 9900, 8000. *)
Example closed_form_run :
  exists res,
    data_judge 0 WNDS
      [with_u16 (sample_frame 0 5000) 105 1000;
       with_u16 (sample_frame 1 9900) 105 700;
       with_u16 (sample_frame 2 8000) 105 1000] 23 = Ok res
    /\ res !! 12%nat = Some (VNum (scaled 1000 0.01))
    /\ res !! (12 + 1)%nat = Some (VNum (scaled 8000 0.01)).
Proof.
  destruct (max_with_speed_closed_form 0 WNDS (U16s 105 0.01) 12
      [with_u16 (sample_frame 0 5000) 105 1000;
       with_u16 (sample_frame 1 9900) 105 700;
       with_u16 (sample_frame 2 8000) 105 1000] 23
      ltac:(left; reflexivity) ltac:(vm_compute; in_list) ltac:(frames_ok))
    as (res & Hrun & H12 & H13).
  exists res. split; [exact Hrun|].
  split; [rewrite H12|rewrite H13]; vm_compute; reflexivity.
Defined.

(** The same three frames in two orders. *)
Example any_order_run :
  exists res res',
    data_judge 0 WNDS
      [with_u16 (sample_frame 0 5000) 105 1000;
       with_u16 (sample_frame 1 9900) 105 700;
       with_u16 (sample_frame 2 8000) 105 1000] 23 = Ok res
    /\ data_judge 0 WNDS
         [with_u16 (sample_frame 1 9900) 105 700;
          with_u16 (sample_frame 2 8000) 105 1000;
          with_u16 (sample_frame 0 5000) 105 1000] 23 = Ok res'
    /\ view1 0 res = view1 0 res'
    /\ view2 12 res = view2 12 res'.
Proof.
  apply (max_channels_any_order 0 WNDS (U16s 105 0.01) 12).
  - left. reflexivity.
  - vm_compute. in_list.
  - frames_ok.
  - apply Permutation_cons_append.
Defined.

(** Two WNDS frames, bit 0 of byte 88 set in the second. *)
Example summary_slots_run :
  exists res,
    data_judge 0 WNDS [sample_frame 0 5000; patch (sample_frame 1 8000) 88 [1]]
      23 = Ok res
    /\ length res = p_size WNDS
    /\ forall j,
         (j < p_size WNDS)%nat ->
         if bool_decide (j ∈ event_slots WNDS)
         then res !! j = Some (VNum (NInt 0))
              \/ exists fr,
                   In fr [sample_frame 0 5000;
                          patch (sample_frame 1 8000) 88 [1]]
                   /\ res !! j = Some (VStr (frame_time 0 23 fr))
         else exists a, res !! j = Some (VNum a).
Proof.
  apply (summary_slots 0 WNDS). - left. reflexivity. - frames_ok.
Defined.

(** Two recordings of car 01, of one and of two frames. *)
Example merged_file_run :
  framed 255
    (merge_loop sample_fs 0 ["d/wnds_01_0900.dat"; "d/wnds_01_1000.dat"]%string [])
    (concat (map sample_frames_of
               ["d/wnds_01_0900.dat"; "d/wnds_01_1000.dat"]%string))
  /\ take 16
       (merge_loop sample_fs 0
          ["d/wnds_01_0900.dat"; "d/wnds_01_1000.dat"]%string [])
     = take 16
         (sample_fs
            (List.hd EmptyString
               ["d/wnds_01_0900.dat"; "d/wnds_01_1000.dat"]%string))
  /\ read_results 0 16 23 0 2000000000 255
       (merge_loop sample_fs 0
          ["d/wnds_01_0900.dat"; "d/wnds_01_1000.dat"]%string [])
     = concat (map (fun f => read_results 0 16 23 0 2000000000 255 (sample_fs f))
                   ["d/wnds_01_0900.dat"; "d/wnds_01_1000.dat"]%string).
Proof.
  apply (merged_file_frames 0 23 0 2000000000 255 sample_fs
           ["d/wnds_01_0900.dat"; "d/wnds_01_1000.dat"]%string sample_frames_of).
  - lia.
  - discriminate.
  - repeat constructor; exists file_header;
      (split; [reflexivity|]); (split; [reflexivity|]);
      repeat constructor.
Defined.

(** A good WNDS frame, then 302 zero bytes: the month byte 0 is no month. *)
Example first_bad_frame_run :
  data_judge 0 WNDS [sample_frame 0 5000; blank_frame 302] 23
  = Raise ValueError.
Proof.
  apply (proj2 (data_judge_first_bad_frame 0 WNDS
                  [sample_frame 0 5000; blank_frame 302] 23
                  ltac:(left; reflexivity) ValueError)).
  exists [sample_frame 0 5000], (blank_frame 302), [].
  split; [reflexivity|]. split; [frames_ok|].
  split; [intros [_ H]; vm_compute in H; discriminate|].
  split; [vm_compute; reflexivity|discriminate].
Defined.

(** Sorting compares the keys as strings: ["10"] stands before ["9"]. *)
Example sort_files_run :
  sort_files ["d/x_1_9.dat"; "d/x_1_10.dat"; "d/x_1_9.dat"]%string
  = Ok ["d/x_1_10.dat"; "d/x_1_9.dat"; "d/x_1_9.dat"]%string
  /\ sort_files ["d/x_1.dat"]%string = Raise IndexError.
Proof. split; vm_compute; reflexivity. Qed.

(** Three frames, two of them with the largest amplitude and the same
    frequency: the channel holds the larger of their two speeds, in
    either order of the frames. *)
Example main_frequency_closed_run :
  exists res res',
    data_judge 0 WNDS
      [tone_frame 0 5000 50 300; tone_frame 1 9900 20 900;
       tone_frame 2 8000 50 300] 23 = Ok res
    /\ view3 32 res
       = Some (scaled 50 0.001, scaled 300 0.1, scaled 8000 0.01)
    /\ data_judge 0 WNDS
         [tone_frame 2 8000 50 300; tone_frame 0 5000 50 300;
          tone_frame 1 9900 20 900] 23 = Ok res'
    /\ view3 32 res' = view3 32 res.
Proof.
  destruct (main_frequency_closed_form 0 WNDS (U8s 99 0.001) (U16s 101 0.1) 32
      [tone_frame 0 5000 50 300; tone_frame 1 9900 20 900;
       tone_frame 2 8000 50 300]
      [tone_frame 2 8000 50 300; tone_frame 0 5000 50 300;
       tone_frame 1 9900 20 900] 23
      ltac:(left; reflexivity) ltac:(vm_compute; in_list) ltac:(frames_ok)
      ltac:(apply (Permutation_cons_app [_] [_]); apply perm_swap))
    as (res & res' & Hrun & Hv & Hrun' & Hv').
  exists res, res'. split; [exact Hrun|]. split; [|split; assumption].
  rewrite Hv. vm_compute. reflexivity.
Defined.

(** The shared-data channel of [GVDS_data_judge]. *)
Example shared_data_run :
  exists tests,
    In (BEvent tests 1) (p_blocks GVDS) /\
    forall fr : frame,
      any_test fr tests
      = (do b <- getbyte fr 87; Ok (Z.testbit b 4 || Z.testbit b 5)).
Proof.
  apply (shared_data_channel GVDS). right. right. left. reflexivity.
Defined.

(** The data files of the directory [d]: car 02 is met first, the member of
    the archive joins its group, and the files of car 01 stand in the order
    in which they were found. *)
Example group_files_run :
  fold_result
    (group_file sample_join sample_basename sample_dirname sample_namelist)
    (find_data_files sample_join "wnds" sample_walk) []
  = Ok [("02"%string, ["d/wnds_02_0900.dat"; "d/wnds_02_1000.dat"]%string);
        ("01"%string, ["d/wnds_01_1000.dat"; "d/wnds_01_0900.dat"]%string)].
Proof.
  refine (eq_trans
            (proj2 (proj2 (group_files_spec sample_join sample_basename
                             sample_dirname sample_namelist
                             (find_data_files sample_join "wnds" sample_walk)))
                   _) _).
  - apply List.Forall_forall. intros f Hf. vm_compute in Hf.
    repeat (destruct Hf as [<-|Hf];
            [apply Nat.leb_le; vm_compute; reflexivity|]).
    contradiction.
  - vm_compute. reflexivity.
Defined.

(** The whole function on the directory [d]: the old merged file is
    removed, the archive is unpacked, and the two outputs hold the merges
    of the two groups, each in the order of the times in the file names. *)
Example merge_dat_files_run :
  exists d3,
    merge_dat_files sample_join sample_basename sample_dirname sample_namelist
      sample_extractall true "d" "wnds" ["d/09_mergedata.dat"%string]
      sample_walk sample_disk
    = Done (Some ["d/02_mergedata.dat"; "d/01_mergedata.dat"]%string, d3, [])
    /\ d3 "d/02_mergedata.dat"%string
       = Some (file_header ++ sample_frame 0 100 ++ sample_frame 3 400)
    /\ d3 "d/01_mergedata.dat"%string
       = Some (file_header ++ sample_frame 1 200 ++ sample_frame 2 300)
    /\ d3 "d/09_mergedata.dat"%string = None
    /\ d3 "d/wnds_02_1000.dat"%string
       = Some (file_header ++ sample_frame 3 400)
    /\ d3 "d/wnds_01_0900.dat"%string = sample_disk "d/wnds_01_0900.dat"%string.
Proof.
  pose proof (merge_dat_files_spec sample_join sample_basename sample_dirname
                sample_namelist sample_extractall "d" true "wnds"
                ["d/09_mergedata.dat"%string] sample_walk sample_disk) as H.
  cbv zeta in H. destruct H as (_ & _ & _ & _ & H).
  destruct (H eq_refl ltac:(vm_compute; discriminate)) as (_ & _ & H').
  destruct H' as (Hiff & Hdone & _).
  { apply List.Forall_forall. intros f Hf. vm_compute in Hf.
    repeat (destruct Hf as [<-|Hf];
            [apply Nat.leb_le; vm_compute; reflexivity|]).
    contradiction. }
  { apply NoDup_cons. split; [|apply NoDup_singleton].
    rewrite list_elem_of_In. vm_compute. intros [E|[]]. discriminate E. }
  { intros f Hf. vm_compute in Hf. vm_compute.
    repeat (destruct Hf as [<-|Hf];
            [intros [E|[E|[]]]; discriminate E|]).
    contradiction. }
  destruct (proj2 Hiff) as [result Hres].
  { apply List.Forall_forall. intros f Hf. vm_compute in Hf.
    repeat (destruct Hf as [<-|Hf];
            [split; [apply Nat.leb_le; vm_compute; reflexivity
                    |vm_compute; discriminate]|]).
    contradiction. }
  destruct (Hdone result Hres) as (d3 & -> & Hcars & Hother).
  exists d3. split.
  { rewrite Hres. do 3 f_equal. }
  destruct (Hcars "02"%string ltac:(vm_compute; tauto)) as (s2 & Hs2 & Hd2).
  destruct (Hcars "01"%string ltac:(vm_compute; tauto)) as (s1 & Hs1 & Hd1).
  vm_compute in Hs2. injection Hs2 as <-.
  vm_compute in Hs1. injection Hs1 as <-.
  split; [vm_compute in Hd2; vm_compute; exact Hd2|].
  split; [vm_compute in Hd1; vm_compute; exact Hd1|].
  split; [|split].
  - rewrite Hother; [vm_compute; reflexivity|].
    vm_compute. intros [E|[E|[]]]; discriminate E.
  - rewrite Hother; [vm_compute; reflexivity|].
    vm_compute. intros [E|[E|[]]]; discriminate E.
  - rewrite Hother; [vm_compute; reflexivity|].
    vm_compute. intros [E|[E|[]]]; discriminate E.
Defined.
